(* ===== verification/_CoqProject ===== *)
-Q . S2P
Prelude.v
CString.v
Driver.v
DriverProps.v
DriverCmd.v
DriverSystem.v
Vfs.v
FmTree.v
FmTreeProps.v
FmPanel.v
FmUi.v
FmTerm.v
FmModal.v
FmModalDraw.v
FmApp.v
FmAppProps.v
Echo.v
EchoSystem.v
RawNet.v
RawMain.v
MqChat.v
MqServer.v
MqClient.v
ShmChat.v
ChatUi.v
ChatWindows.v
Calc.v
Phonebook.v
Exercises.v
Arrays.v
Shell.v
SimpleShell.v
Clock.v
PcQueue.v
PcSystem.v
TimeServers.v
Pool.v
Posix.v
Pipes.v
SharedMemory.v
MessageQueues.v
Sockets.v
ServerSetup.v
Clients.v
Signals.v
Shop.v
Reverse.v
Menus.v
