(* ===== verification/Prelude.v ===== *)
(** * Verification of the Embedded-C programs

    The repository is a collection of C programs for Linux.  This library models
    the ones that carry logic of their own and proves what they do.  The programs are
    independent of each other; inside a program the parts call each other as below.

    ** The programs and the files that model them

    - _Driver manager_ ([drive_manager/driver_manager.c]).  One manager process
      reads commands and keeps a table of [MAX_DRIVERS] driver processes in shared
      memory; it forks a driver, sends it tasks through the table and an [eventfd],
      and the driver waits for its timer and marks itself available again.
      [Driver] has the table ([DriverSlot]) and one definition per function, with the
      answers of the system calls as arguments and the output and calls as a trace;
      [DriverProps] the table invariant [table_ok] and the abstract registry (a map from
      pid to slot) the handlers refine; [DriverCmd] the command interpreter and [main];
      [DriverSystem] the manager and the drivers in parallel, as a step relation whose
      steps are the critical sections.
    - _File manager_ ([simple_file_manager/]).  Two panels over directories, buttons,
      modal dialogues, and recursive copy, delete and move.
      [Vfs] is the file system and the POSIX calls on it; [FmTree] has [copy_file],
      [process_tree] and [build_path_alloc] of [src/dialog.c] and [FmTreeProps] their
      theorems; [FmPanel] is [src/panel.c]; [FmUi] the layout and drawing part of
      [src/ui.c], and [FmTerm] the state of the terminal with its functions that begin and end the use of [ncurses]; [FmModal] is the event loops of [src/modal.c] and [FmModalDraw] what they
      draw in the dialogue's window; [FmApp] the dialogue actions of
      [src/dialog.c], [handle_input] of [src/ui.c], [run_app] of [src/app.c] and [main];
      [FmAppProps] the theorems that go from a key press to the file system.
    - _Echo server and client_ ([echo-client_echo-server/]).  Raw UDP packets; the
      server counts the packets of every client.  [Echo] works on bytes; [EchoSystem] runs the server
      and any number of clients on one host, each client with its two threads.
    - _Chat over message queues_ ([message_queues/chat_common_room/]).  [MqChat] has the
      server (history ring, client list, the three messages, main loop, cleanup) and
      the client core (what is sent, the reading thread with its loop); [MqServer] follows the
      server's descriptors through a whole run; [MqClient] is the start and the stop
      of a client, with every call that can fail.
    - _Chat over shared memory_ ([shared_memory/chat_common_room/]).  [ShmChat] has the
      shared log and the clients, as operations interleaved in any order.
    - _The user interface of both chats_ ([client_ui.c] in both directories).  [ChatUi] has the
      input editor, the windows and the input loop in a section over what the two programs
      do not share (the core's state and its operations), and instances for both.  [ChatWindows] has the
      life of the windows, from [ui_init] to [ui_destroy].
    - _Calculator_ ([basic_c/static_library_calc/], [basic_c/dynamic_library_calc/]).  [Calc] has
      the checked operations and the menu; the program with the dynamic library has the
      same functions ([dyn_add] and so on).
    - _Phone book_ ([basic_c/dynamic_memory_task/Task6.c]).  [Phonebook] has the doubly
      linked list as nodes in a heap, and the menu.
    - _Exercises_ ([basic_c/bits_operations/Task1.c], [basic_c/pointers/Task3_2.c]).
      [Exercises] has the bit operations and the substring search.  [Arrays] has the matrices and
      lists of [basic_c/arrays/Task2.c] and the bytes of an [int] of [basic_c/pointers/Task3_1.c].
      [Menus] has [main] of these programs, which reads its choices and the numbers of the exercises with
      [scanf], and the password check of [basic_c/memory_dump].
    - _File reversal_ ([simple_file_manager/outrput_revers.c], a program of its own).  [Reverse]
      writes a text to a file and prints the file backwards.
    - _Producer-consumer server_ ([sockets/], [producer-consumer/producer_server.c]).  [PcQueue]
      has an interface for queues (the classes [QueueOps] and [QueueSpec]), the ring in shared
      memory that implements it, and the server over the interface; [PcSystem] runs the clients,
      the listener and the services together, over any queue that keeps the interface.
    - _Small time servers_ ([simple_parallel_tcp_server/], [multiprotocol-server/] beside it).
      [TimeServers] has the server that forks a process per client ([Forking]) and the
      event loop for TCP and UDP ([Epoll]), with their clients; [Clock] the text all time servers send.
    - _Thread pool server_ ([sockets/], [parallel_server_with_pool/]).  [Pool] has the listener with
      its table of services, the services, the pipes between them and the client.
    - _Raw socket programs_ ([sockets/raw_sockets/]).  [RawNet] has the IP checksum, the clients that
      build UDP, IP and Ethernet headers themselves, what they accept as an answer, the server's
      turn, and the sniffer's line; [RawMain] has their [main]s.
    - _Threads shop_ ([threads_shop/]).  [Shop] has the buyers, the worker and their mutexes as
      threads with program counters, and [main]'s wait for them.
    - _Shells_ ([pipes/bash_equivalent/src/main.c]).  [Shell] has the tokenising, the
      redirections, and the descriptor tables of the shell and of the programs it starts.
      [SimpleShell] is the shell without pipelines ([processes/bash_equivalent/src/main.c]).

    - _Clients of the servers_ in [sockets/].  [Clients] has [main] of the client of the pool and of those
      of the server for two protocols, as programs over the sockets of [Sockets].
    - _Beginnings of the socket servers_.  [ServerSetup] has what the four servers in [sockets/]
      do before their loops, and [connect_to_port] of the clients, on the sockets of [Sockets].
    - _Signals_ ([signals/]).  [Signals] has the three programs that receive signals, as a machine that
      takes signals between any two of its calls, and the menu that sends them.
    - _Small programs over one means of communication_.  [Posix] has programs as trees of system
      calls, the processes that run them, a class [Device] for the part of the kernel they communicate
      through, and a search through all schedules.  Its instances and their programs:
      [Pipes] ([processes/], [pipes/pipes_processes], [pipes/pipes_server-client]), [SharedMemory]
      ([shared_memory/posix], [shared_memory/systemv]), [MessageQueues] ([message_queues/posix],
      [message_queues/systemv]), [Sockets] ([sockets/basic], [sockets/types_of_data_transmision]).

    [Prelude] (this file) has machine integers, arrays with [Z] indices, the tactics and
    hint databases and the lemmas on lists and options that the components share;
    [CString] the C library's string functions ([strtol], [strtok], [fgets], "%d", ...).

    ** How the code is represented

    An [int], [long] or pointer offset is a [Z]; where a computation can leave its type
    the model says so ([None] for signed overflow, explicit wrap-around or conversion).
    A C array is a list and an access outside it gives [None] (undefined behaviour,
    [Crash] in the dialogues), so every theorem that a function returns [Some] is also a
    theorem that the function is memory safe.  C strings are lists of bytes without the
    final NUL, and truncation by [snprintf]/[strncpy] is written out.  Results of system
    calls are arguments of the definitions; the theorems hold for all of them, or state
    the documented behaviour they rely on (for example that [fork] returns a pid no
    running driver has) as hypotheses.  Libraries outside the repository ([libmagic], the editor
    started by [system]) are parameters.

    ** What the theorems show

    - Driver manager: [create_driver], [send_task], [terminate_all] refine insertion in,
      alteration of and emptying of the registry, and a driver's loop touches only its own
      entry ([DriverProps]); numbers and commands are read back as printed, and the manager
      ends on every input ([DriverCmd]); in every interleaving a busy driver can complete,
      no task is invented and the two reports agree, while a child can miss its own
      registration and two quick tasks can merge ([DriverSystem]).
    - File manager: deletion, copy and both kinds of move have exactly the intended
      effect on the whole file system, and the cases in which data is lost
      ([FmTreeProps]); selection, scrolling and entering directories keep the panel
      consistent ([FmPanel]); the layout tiles the screen and drawing stays inside the
      panels ([FmUi]); the dialogues never leave their buffer and return what was typed
      ([FmModal]); no input event leads outside an array while listings are shown, and the
      keys for creating and deleting do what they say; every event leaves the terminal as it was, and the session
      gives it back ([FmAppProps]).
    - Echo: the table refines a map from client to counter, a message comes back with its
      number; a forged length leaks another client's bytes.  As a system, for every interleaving: nothing is
      undefined, and every client prints the answers to all clients, which share one counter.
    - Chats: the queue server refines an abstract room with a bounded log, messages reach
      every member; the readers of the shared memory show the log.  The limits at which
      both overrun their buffers are proved too; the queue server closes what it opened, but for
      descriptors a second join overwrites.
    - Calculator: the operations are exact or refuse, for a second operand of [mul] that
      is not negative.
    - Phone book: for every input the pointer program prints what a program on plain lists
      prints, never follows a bad pointer, and frees every node before it exits.
    - Exercises: binary output, count of ones and byte replacement agree with the bits of the
      number; the search agrees with [strstr].
    - Producer-consumer server: the ring is a bounded queue, and clients are served in the
      order of their arrival when operations do not overlap (there is no lock, and what
      overlapping does is shown too).  With atomic queue operations every client gets the
      time, in every interleaving of all the processes.
    - Small time servers: what a client prints is the time; the one way to lose a client of the
      forking server is to connect before its process listens; the event loop serves
      everybody in order.
    - Shell: every program of a pipeline gets its words and exactly the right descriptors,
      redirections reach the files they name, and the shell reaches the end of every input with
      its own descriptors unchanged.  The shell without pipelines starts one program per line
      and also reaches the end of every input.
    - Chat interfaces: the input loop behaves as a line editor that passes every non-empty line on
      and ends at [/quit]; a line typed in one client is drawn on the screens of the members; a
      client that could not start has given back every resource, and one that stops has too.
    - Thread pool: no service is given to two clients as long as every status message is read
      before the next is written; without that the pool wears out.
    - Raw sockets: the checksum is that of RFC 1071, the clients send well-formed packets, and the
      answer of the server is the one a client prints before it ends.
    - Threads shop: goods are neither lost nor invented, no two threads are in one kiosk, and every
      execution in which no kiosk is about to overflow can go on until the shop closes.
    - File reversal and arrays: every status of the reading function, and the closed formula of the
      spiral against its walk.
    - Menus: a menu does with the typed bytes what it does with the numbers they stand for; what happens
      at a word or at the end of the input; the password check accepts exactly the password.
    - Beginnings of the servers: on which port they listen, whoever was there before.
    - Signals: which signals end which program, and how many lines answer them, for every
      sequence of signals; the sender together with a receiver.
    - Clients of the servers: what they print of what the servers send, for any answers of the kernel, and
      what becomes of them without a server.
    - Small programs: the complete list of the ways in which they can end, over all schedules, with the
      output of every process, and the number of steps after which they have ended or wait for ever.
      Among these ways are those of a client that is started too early.

    ** Fuel and bounds

    [process_tree] has one unit of fuel per level of the tree: the theorems ask for a
    tree of fewer than [h] levels and use fuel [h].  The loop of [copy_file] gets one
    unit per byte of the source and one more, which is enough because every round that
    continues reads at least one byte.  [DriverCmd.main_loop], [Shell.main_loop] and
    [Phonebook.main_loop] get one unit per byte of standard input and one more (proved to be enough; the
    phone book's menu loops for ever at the end of the file, so there a run either ends within
    this fuel or never).  The walks of [Phonebook] get one unit per node and one more.  [SimpleShell]'s loop gets one unit per byte too; [Reverse]'s menu takes
    any fuel.  Dialogues, event loops and reader threads recurse on the list of
    events they receive, so they need none.  [Menus] takes any fuel, and one unit per number is enough.
    In [Posix] a statement about the ends of programs gives the number of steps after which every
    schedule has come to its end; the search that proves it visits every state that can
    be reached within it and fails if one of them can still move.

    ** What is not modelled

    Failures of [ncurses] other than those of windows (what [newwin] returns is a parameter of [ChatUi]; in
    [FmTerm] it fails only off the screen), and its modes in the chats; the value of the calculator's
    floating-point division, and of the floating-point numbers of [basic_c/pointers/Task3_1.c] other than whole ones;
    the signal handlers of the chats' servers beyond the flag they set; the prompts of the phone book.  In
    [Sockets] datagrams are neither lost nor reordered, and in [PcSystem] and [TimeServers] the
    number of waiting connections has no limit. *)

From stdpp Require Export base numbers list option strings gmap.
From Stdlib Require Export ZArith Lia.


Set Default Proof Using "Type".

Open Scope Z_scope.

(** ** Machine integers *)

Definition INT_MAX : Z := 2147483647.
Definition INT_MIN : Z := -2147483648.
Definition LONG_MAX : Z := 9223372036854775807.
Definition LONG_MIN : Z := -9223372036854775808.

(** A value representable in a C [int]. *)
Definition int_range (z : Z) : Prop := (INT_MIN <= z <= INT_MAX).
Definition in_int (z : Z) : bool := (INT_MIN <=? z)%Z && (z <=? INT_MAX).
(** The result of an [int] computation: [None] when it overflows, which is undefined in C. *)
Definition int_op (z : Z) : option Z := if in_int z then Some z else None.

(** Wrap-around of the unsigned types the sources use. *)
Definition u8 (z : Z) : Z := (z mod 256).
Definition u16 (z : Z) : Z := (z mod 65536).
Definition u32 (z : Z) : Z := (z mod 4294967296).
(** Conversion to a 32-bit [int] (two's complement, as gcc defines it). *)
Definition i32 (z : Z) : Z := ((z + 2147483648) mod 4294967296 - 2147483648).

(** ** Arrays

    A C array is a list; an index is a [Z].  [None] is an access outside the
    array, which is undefined behaviour in C. *)

Definition aget {A} (l : list A) (i : Z) : option A :=
  if (0 <=? i)%Z then l !! Z.to_nat i else None.

Definition aset {A} (l : list A) (i : Z) (x : A) : option (list A) :=
  if ((0 <=? i) && (i <? Z.of_nat (length l)))%Z
  then Some (<[Z.to_nat i := x]> l) else None.

(** The last [n] elements of a list. *)
Definition lastn {A} (n : nat) (l : list A) : list A := drop (length l - n) l.

(** The first index whose element satisfies [p], as the C loops
    [for (i = 0; i < n; i++) if (p(a[i])) ...; break;] compute it: [-1] when
    there is none. *)
Fixpoint find_index_from {A} (p : A -> bool) (i : Z) (l : list A) : Z :=
  match l with
  | [] => -1
  | x :: l' => if p x then i else find_index_from p (i + 1) l'
  end.

Definition find_index {A} (p : A -> bool) (l : list A) : Z := find_index_from p 0 l.

(** ** Bytes and character strings

    A byte (and a [char] seen as [unsigned char]) is a [Z] between 0 and 255;
    the contents of a C string are the bytes before its terminating NUL. *)

Abbreviation byte := Z (only parsing).
Abbreviation cstr := (list Z) (only parsing).

(** The bytes of a string literal. *)
Definition lit (s : string) : cstr :=
  (fun a => Z.of_N (Ascii.N_of_ascii a)) <$> String.list_ascii_of_string s.

(** A comparison of lists by a comparison of their elements. *)
Fixpoint list_eqb {A} (eqb : A -> A -> bool) (l m : list A) : bool :=
  match l, m with
  | [], [] => true
  | x :: l', y :: m' => eqb x y && list_eqb eqb l' m'
  | _, _ => false
  end.

Lemma list_eqb_eq {A} (eqb : A -> A -> bool) l m :
  (forall x y, eqb x y = true -> x = y) -> list_eqb eqb l m = true -> l = m.
Proof.
  intros Heq. revert m. induction l as [|x l IH]; intros [|y m]; cbn; try done.
  rewrite andb_true_iff. intros [Hx%Heq Hm%IH]. congruence.
Qed.

(** The sum of what [f] gives over a list. *)
Definition zsum {A} (f : A -> Z) (l : list A) : Z := foldr (fun x s => f x + s) 0 l.

Declare Scope clib_scope.
Delimit Scope clib_scope with clib.
Notation "a <=? b <? c" := ((a <=? b)%Z && (b <? c)%Z)
  (at level 70, b at next level) : clib_scope.
Notation "a <=? b <=? c" := ((a <=? b)%Z && (b <=? c)%Z)
  (at level 70, b at next level) : clib_scope.

(** ** Automation *)

(** Turn the boolean tests of the code into the propositions they decide. *)
Ltac bool_to_prop :=
  repeat match goal with
  | H : andb _ _ = true |- _ => apply andb_prop in H as [? ?]
  | H : andb _ _ = false |- _ => apply andb_false_iff in H
  | H : orb _ _ = false |- _ => apply orb_false_iff in H as [? ?]
  | H : orb _ _ = true |- _ => apply orb_prop in H
  | H : negb _ = true |- _ => apply negb_true_iff in H
  | H : negb _ = false |- _ => apply negb_false_iff in H
  | H : (_ =? _)%Z = true |- _ => apply Z.eqb_eq in H
  | H : (_ =? _)%Z = false |- _ => apply Z.eqb_neq in H
  | H : (_ <? _)%Z = true |- _ => apply Z.ltb_lt in H
  | H : (_ <? _)%Z = false |- _ => apply Z.ltb_ge in H
  | H : (_ <=? _)%Z = true |- _ => apply Z.leb_le in H
  | H : (_ <=? _)%Z = false |- _ => apply Z.leb_gt in H
  | H : (_ =? _)%nat = true |- _ => apply Nat.eqb_eq in H
  | H : (_ =? _)%nat = false |- _ => apply Nat.eqb_neq in H
  | H : bool_decide _ = true |- _ => apply bool_decide_eq_true in H
  | H : bool_decide _ = false |- _ => apply bool_decide_eq_false in H
  end.

(** Split on the condition of an [if] of the goal or of a hypothesis, keeping
    what the test decided. *)
Ltac case_if :=
  match goal with
  | |- context [if ?b then _ else _] =>
      match type of b with bool => destruct b eqn:?; bool_to_prop end
  | H : context [if ?b then _ else _] |- _ =>
      match type of b with bool => destruct b eqn:?; bool_to_prop end
  end.

Ltac case_ifs := repeat (case_if; simpl in *); try lia.

(** The same for nested conditions, innermost first; solves linear goals. *)
Ltac inner_ifs :=
  repeat match goal with
  | |- context [if ?b then _ else _] =>
      lazymatch b with context [if _ then _ else _] => fail | _ => destruct b eqn:? end
  end; try lia.

(** [Forall] of an explicit list: one goal per element. *)
Ltac list_forall :=
  repeat match goal with
  | |- Forall _ (_ :: _) => apply Forall_cons_2
  | |- Forall _ [] => apply Forall_nil_2
  end.

Create HintDb clib.

(** ** Shared lemmas: integers *)

Lemma in_int_true z : in_int z = true <-> INT_MIN <= z <= INT_MAX.
Proof. unfold in_int. lia. Qed.

Lemma int_op_in z : INT_MIN <= z <= INT_MAX -> int_op z = Some z.
Proof. intros H. unfold int_op. by rewrite (proj2 (in_int_true z) H). Qed.

(** ** Shared lemmas: arrays *)

Lemma aget_Some {A} (l : list A) i x :
  aget l i = Some x <-> (0 <= i)%Z /\ l !! Z.to_nat i = Some x.
Proof. unfold aget. case_if; [tauto|]. split; [done | intros [? _]; lia]. Qed.

Lemma aget_lt {A} (l : list A) i x :
  aget l i = Some x -> (0 <= i < Z.of_nat (length l)).
Proof. intros [? H]%aget_Some. apply lookup_lt_Some in H. lia. Qed.

Lemma aget_is_Some {A} (l : list A) i :
  (0 <= i < Z.of_nat (length l)) -> exists x, aget l i = Some x.
Proof.
  intros H. destruct (lookup_lt_is_Some_2 l (Z.to_nat i)) as [x Hx]; [lia|].
  exists x. apply aget_Some; split; [lia | done].
Qed.

Lemma aset_Some {A} (l l' : list A) i x :
  aset l i x = Some l' <->
  (0 <= i < Z.of_nat (length l))%Z /\ l' = <[Z.to_nat i := x]> l.
Proof.
  unfold aset. case_if; split.
  - intros [= <-]. split; [lia | done].
  - intros [_ ->]. done.
  - done.
  - intros [? _]. lia.
Qed.

Lemma aset_is_Some {A} (l : list A) i x :
  (0 <= i < Z.of_nat (length l)) -> aset l i x = Some (<[Z.to_nat i := x]> l).
Proof. intros H. apply aset_Some. done. Qed.

Lemma aset_length {A} (l l' : list A) i x :
  aset l i x = Some l' -> length l' = length l.
Proof. intros [_ ->]%aset_Some. apply length_insert. Qed.

Lemma aget_aset_eq {A} (l l' : list A) i x :
  aset l i x = Some l' -> aget l' i = Some x.
Proof.
  intros [? ->]%aset_Some. apply aget_Some. split; [lia|].
  apply list_lookup_insert_eq. lia.
Qed.

Lemma aget_aset_ne {A} (l l' : list A) i j x :
  i <> j -> aset l i x = Some l' -> aget l' j = aget l j.
Proof.
  intros Hne [? ->]%aset_Some. unfold aget. case_if; [|done].
  apply list_lookup_insert_ne. lia.
Qed.

Lemma aget_insert_eq {A} (l : list A) i x :
  (0 <= i < Z.of_nat (length l)) -> aget (<[Z.to_nat i := x]> l) i = Some x.
Proof. intros H. eapply aget_aset_eq. by apply aset_is_Some. Qed.

Lemma aget_insert_ne {A} (l : list A) i j x :
  i <> j -> (0 <= i) -> aget (<[Z.to_nat i := x]> l) j = aget l j.
Proof. intros. unfold aget. case_if; [|done]. apply list_lookup_insert_ne. lia. Qed.

#[export] Hint Resolve aget_lt aset_length aget_aset_eq aget_insert_eq : clib.

(** ** Shared lemmas: index search *)

Lemma find_index_from_spec {A} (p : A -> bool) l i :
  (find_index_from p i l = -1 /\ Forall (fun x => p x = false) l) \/
  (exists k x, find_index_from p i l = i + Z.of_nat k /\
     l !! k = Some x /\ p x = true /\
     forall j y, (j < k)%nat -> l !! j = Some y -> p y = false).
Proof.
  revert i. induction l as [|x l IH]; intros i; simpl; [left; done|].
  destruct (p x) eqn:Hx.
  - right. exists 0%nat, x. split_and!; [lia | done | done | intros ??; lia].
  - destruct (IH (i + 1)%Z) as [[-> HF]|(k & y & -> & Hk & Hy & Hmin)].
    + left. split; [done|]. by constructor.
    + right. exists (S k), y. split_and!; [lia | done | done |].
      intros [|j] z Hj Hz; simpl in Hz; [congruence|].
      apply (Hmin j); [lia | done].
Qed.

Lemma find_index_found {A} (p : A -> bool) l i :
  find_index p l = i -> i <> (-1) ->
  exists x, aget l i = Some x /\ p x = true /\
    forall j y, (j < i) -> aget l j = Some y -> p y = false.
Proof.
  unfold find_index. intros Hf Hi.
  destruct (find_index_from_spec p l 0) as [[? _]|(k & x & Hk & Hx & Hp & Hmin)];
    [congruence|].
  exists x. rewrite Hf in Hk. split_and!; [|done|].
  - apply aget_Some. split; [lia|]. by rewrite Hk, Z.add_0_l, Nat2Z.id.
  - intros j y Hj [? Hy]%aget_Some. apply (Hmin (Z.to_nat j)); [lia | done].
Qed.

Lemma find_index_none {A} (p : A -> bool) l :
  find_index p l = (-1) -> Forall (fun x => p x = false) l.
Proof.
  unfold find_index. intros Hf.
  destruct (find_index_from_spec p l 0) as [[_ ?]|(k & x & Hk & _)]; [done | lia].
Qed.

Lemma find_index_some_intro {A} (p : A -> bool) l i x :
  aget l i = Some x -> p x = true -> find_index p l <> (-1).
Proof.
  intros [_ Hx]%aget_Some Hp Hf. apply find_index_none in Hf.
  eapply Forall_lookup_1 in Hf; [|exact Hx]. congruence.
Qed.

Lemma find_index_bounds {A} (p : A -> bool) (l : list A) :
  (-1 <= find_index p l < Z.of_nat (length l)).
Proof.
  destruct (Z.eq_dec (find_index p l) (-1)) as [->|Hne]; [lia|].
  destruct (find_index_found p l _ eq_refl Hne) as (x & Hx & _).
  apply aget_lt in Hx. lia.
Qed.

#[export] Hint Resolve find_index_bounds : clib.

(** ** Shared lemmas: the last elements of a list *)

Lemma lastn_all {A} n (l : list A) : (length l <= n)%nat -> lastn n l = l.
Proof. intros. unfold lastn. by replace (length l - n)%nat with 0%nat by lia. Qed.

Lemma length_lastn {A} n (l : list A) : length (lastn n l) = Nat.min n (length l).
Proof. unfold lastn. rewrite length_drop. lia. Qed.

Lemma lastn_snoc {A} n (l : list A) x :
  lastn (S n) (l ++ [x]) = lastn n l ++ [x].
Proof.
  unfold lastn. rewrite length_app. simpl.
  replace (length l + 1 - S n)%nat with (length l - n)%nat by lia.
  apply drop_app_le. lia.
Qed.

Lemma lastn_lastn {A} n m (l : list A) :
  (n <= m)%nat -> lastn n (lastn m l) = lastn n l.
Proof.
  intros. unfold lastn. rewrite length_drop, drop_drop. f_equal. lia.
Qed.

(** ** Shared lemmas: one element of a list *)

Lemma alter_lookup {A} (f : A -> A) (l : list A) i x : l !! i = Some x -> alter f i l = <[i:=f x]> l.
Proof.
  intros Hx. apply list_eq. intros j. destruct (decide (i = j)) as [<-|Hne].
  - rewrite list_lookup_alter_eq, Hx, list_lookup_insert_eq by (by eapply lookup_lt_Some). done.
  - by rewrite list_lookup_alter_ne, list_lookup_insert_ne.
Qed.

(** ** Shared lemmas: sums *)

Lemma zsum_cons {A} (f : A -> Z) x l : zsum f (x :: l) = f x + zsum f l.
Proof. done. Qed.

Lemma zsum_insert {A} (f : A -> Z) l i x y :
  l !! i = Some x -> zsum f (<[i := y]> l) = zsum f l - f x + f y.
Proof.
  revert i. induction l as [|z l IH]; intros [|i] Hi; simplify_eq/=; [lia|].
  change (f z + zsum f (<[i := y]> l) = f z + zsum f l - f x + f y). rewrite (IH _ Hi). lia.
Qed.

Lemma zsum_nonneg {A} (f : A -> Z) l : (forall x, 0 <= f x) -> 0 <= zsum f l.
Proof. intros Hf. induction l as [|x l IH]; [done|]. rewrite zsum_cons. pose proof (Hf x). lia. Qed.

Lemma zsum_ge {A} (f : A -> Z) l i x : (forall x, 0 <= f x) -> l !! i = Some x -> f x <= zsum f l.
Proof.
  intros Hf. revert i. induction l as [|z l IH]; intros [|i] Hi; [done | done | |]; rewrite zsum_cons.
  - injection Hi as ->. pose proof (zsum_nonneg f l Hf). lia.
  - pose proof (IH i Hi). pose proof (Hf z). lia.
Qed.

Lemma zsum_zero {A} (f : A -> Z) l : Forall (fun x => f x = 0) l -> zsum f l = 0.
Proof. induction 1 as [|x l Hx _ IH]; [done|]. by rewrite zsum_cons, Hx, IH. Qed.
