(* ===== verification/CString.v ===== *)
(** * C strings: the part of the C library the programs use

    Strings are lists of bytes without the terminating NUL.  The file models
    [strtol], [strtok], [strstr], [strchr], [strncmp], [strncpy]/[snprintf]
    truncation, [fgets], the [ctype.h] tests and the decimal conversions
    ["%d"]/["%ld"], and proves what the clients rely on: the decimal round trip,
    the shape of the tokens, the bounds of what [fgets] stores. *)

From S2P Require Import Prelude.

(** ** Characters *)

Definition NUL : byte := 0.
Definition TAB : byte := 9.
Definition NL : byte := 10.
Definition SP : byte := 32.

Definition isspace (c : byte) : bool := (c =? SP) || ((TAB <=? c) && (c <=? 13)).
Definition isdigit (c : byte) : bool := (48 <=? c) && (c <=? 57).
Definition isprint (c : byte) : bool := (32 <=? c) && (c <=? 126).
Definition toupper (c : Z) : Z := if (97 <=? c) && (c <=? 122) then c - 32 else c.

Fixpoint take_while {A} (p : A -> bool) (s : list A) : list A :=
  match s with
  | [] => []
  | c :: s' => if p c then c :: take_while p s' else []
  end.

Fixpoint drop_while {A} (p : A -> bool) (s : list A) : list A :=
  match s with
  | [] => []
  | c :: s' => if p c then drop_while p s' else s
  end.

(** The C string stored in a buffer: the bytes before the first NUL. *)
Definition c_str (buf : list byte) : cstr := take_while (fun c => negb (c =? NUL)) buf.

(** [s[strcspn(s, "\n")] = '\0']: keep what precedes the first newline. *)
Definition chop_newline (s : cstr) : cstr := take_while (fun c => negb (c =? NL)) s.

(** ** Comparisons and searches *)

(** [strcmp(s, t) == 0] and [strncmp(s, t, n) == 0]. *)
Definition streq (s t : cstr) : bool := bool_decide (s = t).
Definition strneq (n : nat) (s t : cstr) : bool := bool_decide (take n s = take n t).

Fixpoint prefixb (p s : cstr) : bool :=
  match p, s with
  | [], _ => true
  | c :: p', d :: s' => (c =? d) && prefixb p' s'
  | _ :: _, [] => false
  end.

(** [strstr(s, t)] as the offset of the first occurrence. *)
Fixpoint strstr_from (i : nat) (s t : cstr) : option nat :=
  if prefixb t s then Some i
  else match s with [] => None | _ :: s' => strstr_from (S i) s' t end.
Definition strstr (s t : cstr) : option nat := strstr_from 0 s t.

Definition has_substr (s t : cstr) : bool :=
  match strstr s t with Some _ => true | None => false end.

(** [strchr(s, c)]: the text before and after the first [c]. *)
Fixpoint strchr_split (c : byte) (s : cstr) : option (cstr * cstr) :=
  match s with
  | [] => None
  | d :: s' =>
      if d =? c then Some ([], s')
      else match strchr_split c s' with
           | Some (a, b) => Some (d :: a, b)
           | None => None
           end
  end.

(** ** Truncating copies

    [snprintf(dst, n, "%s", s)], and [strncpy(dst, s, n-1)] followed by
    [dst[n-1] = '\0'], both store the first [n-1] bytes of [s]. *)
Definition trunc (n : nat) (s : cstr) : cstr := take (n - 1) s.

(** ["%.*s"]: a negative precision counts as none. *)
Definition fmt_prec (n : Z) (s : cstr) : cstr := if n <? 0 then s else take (Z.to_nat n) s.

(** ** Decimal conversions *)

Fixpoint udec_fuel (fuel : nat) (z : Z) : cstr :=
  match fuel with
  | O => [48 + z mod 10]
  | S f => if z <? 10 then [48 + z] else udec_fuel f (z / 10) ++ [48 + z mod 10]
  end.

Definition udec (z : Z) : cstr := udec_fuel (Z.to_nat (Z.log2 z)) z.

(** ["%d"], ["%ld"]. *)
Definition dec (z : Z) : cstr := if z <? 0 then 45 :: udec (- z) else udec z.

Definition digits_val (s : cstr) : Z := foldl (fun v c => v * 10 + (c - 48)) 0 s.

(** [strtol(s, &end, 10)]: the value, the number of bytes before [end] (0 when
    nothing was converted, so [end == s]), and whether [errno] is [ERANGE]. *)
Record strtol_result := { st_val : Z; st_used : nat; st_erange : bool }.

Definition strtol (s : cstr) : strtol_result :=
  let s1 := drop_while isspace s in
  let '(neg, s2) :=
    match s1 with
    | 45 :: t => (true, t)
    | 43 :: t => (false, t)
    | _ => (false, s1)
    end in
  let ds := take_while isdigit s2 in
  if bool_decide (ds = []) then {| st_val := 0; st_used := 0; st_erange := false |}
  else
    let v := if (neg : bool) then - digits_val ds else digits_val ds in
    let used := (length s - length s2 + length ds)%nat in
    if v >? LONG_MAX then {| st_val := LONG_MAX; st_used := used; st_erange := true |}
    else if v <? LONG_MIN then {| st_val := LONG_MIN; st_used := used; st_erange := true |}
    else {| st_val := v; st_used := used; st_erange := false |}.

(** [scanf("%d", &n)]: the number, if there is one, and the rest of the input.  The byte that is no part
    of a number stays where it is; a sign without digits is lost. *)
Definition scan_d (s : list byte) : option Z * list byte :=
  let s1 := drop_while isspace s in
  let r := strtol s1 in
  if (st_used r =? 0)%nat then (None, match s1 with c :: t => if (c =? 45) || (c =? 43) then t else s1 | [] => [] end)
  else (Some (i32 (st_val r)), drop (st_used r) s1).

(** ** Tokens: [strtok(s, delims)] and [strtok(NULL, delims)] on the rest *)

Definition strtok (delims : cstr) (s : cstr) : option (cstr * cstr) :=
  let isd := fun c => bool_decide (c ∈ delims) in
  let s1 := drop_while isd s in
  match s1 with
  | [] => None
  | _ => let tok := take_while (fun c => negb (isd c)) s1 in
         Some (tok, drop (S (length tok)) s1)
  end.

(** ** Input: [fgets(buf, n, stdin)]

    The bytes stored before the NUL and the rest of the stream; [None] at end of
    file.  A stored byte may itself be NUL: the C string in the buffer is then
    [c_str] of the result. *)
Fixpoint fgets_from (room : nat) (input : list byte) : list byte * list byte :=
  match room, input with
  | S r, c :: input' =>
      if c =? NL then ([c], input')
      else let '(a, b) := fgets_from r input' in (c :: a, b)
  | _, _ => ([], input)
  end.

Definition fgets (n : nat) (input : list byte) : option (list byte * list byte) :=
  match input with
  | [] => None
  | _ => Some (fgets_from (n - 1) input)
  end.

(** ** Lemmas: [take_while] and [drop_while] *)

Lemma take_drop_while {A} (p : A -> bool) s : take_while p s ++ drop_while p s = s.
Proof. induction s as [|c s IH]; simpl; [done|]. destruct (p c); simpl; by rewrite ?IH. Qed.

Lemma take_while_Forall {A} (p : A -> bool) s : Forall (fun c => p c = true) (take_while p s).
Proof. induction s as [|c s IH]; simpl; [done|]. destruct (p c) eqn:?; by constructor. Qed.

Lemma take_while_app_all {A} (p : A -> bool) s t :
  Forall (fun c => p c = true) s -> take_while p (s ++ t) = s ++ take_while p t.
Proof. induction 1 as [|c s Hc _ IH]; simpl; [done|]. by rewrite Hc, IH. Qed.

Lemma take_while_all {A} (p : A -> bool) s :
  Forall (fun c => p c = true) s -> take_while p s = s.
Proof.
  intros H. pose proof (take_while_app_all p s [] H) as E.
  rewrite !app_nil_r in E. exact E.
Qed.

Lemma take_while_length {A} (p : A -> bool) s : (length (take_while p s) <= length s)%nat.
Proof. induction s as [|c s IH]; simpl; [lia|]. destruct (p c); simpl; lia. Qed.

Lemma take_while_Forall_pres {A} (p : A -> bool) (P : A -> Prop) s :
  Forall P s -> Forall P (take_while p s).
Proof. induction 1; simpl; [done|]. destruct (p _); auto. Qed.

Lemma drop_while_head {A} (p : A -> bool) s :
  match drop_while p s with [] => True | c :: _ => p c = false end.
Proof. induction s as [|c s IH]; simpl; [done|]. by destruct (p c) eqn:?. Qed.

Lemma drop_while_false {A} (p : A -> bool) c s : p c = false -> drop_while p (c :: s) = c :: s.
Proof. simpl. by intros ->. Qed.

Lemma prefixb_spec p s : prefixb p s = true <-> exists t, s = p ++ t.
Proof.
  revert s. induction p as [|c p IH]; intros s; simpl; [split; eauto|].
  destruct s as [|d s]; [split; [done | by intros [t [=]]]|].
  rewrite andb_true_iff, Z.eqb_eq, IH. split.
  - intros [-> [t ->]]. by exists t.
  - intros [t [= -> ->]]. eauto.
Qed.

Lemma c_str_prefix (a b : list byte) : NUL ∉ a -> c_str (a ++ NUL :: b) = a.
Proof.
  intros Ha. unfold c_str. rewrite take_while_app_all; [simpl; by rewrite app_nil_r|].
  apply Forall_forall. intros x Hx. apply negb_true_iff, Z.eqb_neq. intros ->. done.
Qed.

Lemma c_str_id (a : list byte) : NUL ∉ a -> c_str a = a.
Proof.
  intros Ha. unfold c_str. rewrite <- (app_nil_r a) at 1. rewrite take_while_app_all; [apply app_nil_r|].
  apply Forall_forall. intros c Hc. apply negb_true_iff, Z.eqb_neq. by intros ->.
Qed.

Lemma streq_true s t : streq s t = true <-> s = t.
Proof. apply bool_decide_eq_true. Qed.

Lemma trunc_id n s : (length s < n)%nat -> trunc n s = s.
Proof. intros. unfold trunc. apply take_ge. lia. Qed.

Lemma trunc_length n s : (0 < n)%nat -> (length (trunc n s) < n)%nat.
Proof. intros. unfold trunc. rewrite length_take. lia. Qed.

Lemma length_fmt_prec n s : 0 <= n -> Z.of_nat (length (fmt_prec n s)) <= n.
Proof. intros H. unfold fmt_prec. rewrite (proj2 (Z.ltb_ge n 0)) by lia. rewrite length_take. lia. Qed.

Lemma strchr_split_spec c s a b :
  strchr_split c s = Some (a, b) <-> s = a ++ c :: b /\ c ∉ a.
Proof.
  revert a b. induction s as [|d s IH]; intros a b; simpl.
  { split; [done | intros [E _]; by destruct a]. }
  destruct (d =? c) eqn:E; bool_to_prop.
  - subst d. split.
    + intros [= <- <-]. split; [done | by apply not_elem_of_nil].
    + intros [E Hn]. destruct a as [|e a]; simplify_eq/=; [done|].
      exfalso. apply Hn. by left.
  - destruct (strchr_split c s) as [[a' b']|] eqn:Hs.
    + split.
      * intros [= <- <-]. destruct (proj1 (IH a' b') eq_refl) as [-> Hn].
        split; [done|]. apply not_elem_of_cons. split; congruence.
      * intros [E' Hn]. destruct a as [|e a]; simplify_eq/=.
        apply not_elem_of_cons in Hn as [_ Hn].
        assert (Some (a', b') = Some (a, b)) as [= -> ->]; [|done].
        apply IH; done.
    + split; [done|]. intros [E' Hn]. destruct a as [|e a]; simplify_eq/=.
      apply not_elem_of_cons in Hn as [_ Hn].
      assert (None = Some (a, b)); [|done]. apply IH; done.
Qed.

(** ** Lemmas: decimal conversions *)

Lemma digits_val_snoc s c : digits_val (s ++ [c]) = digits_val s * 10 + (c - 48).
Proof. unfold digits_val. by rewrite foldl_snoc. Qed.

Lemma udec_fuel_digits f z :
  0 <= z -> Forall (fun c => isdigit c = true) (udec_fuel f z).
Proof.
  revert z. induction f as [|f IH]; intros z Hz; simpl.
  - repeat constructor. unfold isdigit. pose proof (Z.mod_pos_bound z 10). lia.
  - case_if.
    + repeat constructor. unfold isdigit. lia.
    + apply Forall_app. split; [apply IH, Z.div_pos; lia|].
      repeat constructor. unfold isdigit. pose proof (Z.mod_pos_bound z 10). lia.
Qed.

Lemma udec_fuel_nonempty f z : udec_fuel f z <> [].
Proof. destruct f; simpl; [done|]. case_if; [done|]. by destruct (udec_fuel _ _). Qed.

Lemma udec_fuel_val f z :
  0 <= z < 10 ^ (Z.of_nat f + 1) -> digits_val (udec_fuel f z) = z.
Proof.
  revert z. induction f as [|f IH]; intros z Hz; simpl.
  - unfold digits_val; simpl. rewrite Z.mod_small; [lia|]. simpl in Hz. lia.
  - case_if.
    + unfold digits_val; simpl. lia.
    + rewrite digits_val_snoc, IH; [pose proof (Z.div_mod z 10); lia|].
      split; [apply Z.div_pos; lia|]. apply Z.div_lt_upper_bound; [lia|].
      replace (Z.of_nat (S f) + 1) with (Z.succ (Z.of_nat f + 1)) in Hz by lia.
      rewrite Z.pow_succ_r in Hz by lia. lia.
Qed.

Lemma udec_val z : 0 <= z -> digits_val (udec z) = z.
Proof.
  intros Hz. unfold udec. apply udec_fuel_val. split; [done|].
  pose proof (Z.log2_nonneg z). rewrite Z2Nat.id by done.
  destruct (Z.eq_dec z 0) as [->|]; [done|].
  apply Z.lt_le_trans with (2 ^ (Z.log2 z + 1)).
  - apply Z.log2_spec. lia.
  - apply Z.pow_le_mono_l. lia.
Qed.

Lemma udec_digits z : 0 <= z -> Forall (fun c => isdigit c = true) (udec z).
Proof. apply udec_fuel_digits. Qed.

Lemma dec_not_space z : Forall (fun c => isspace c = false /\ c <> NUL) (dec z).
Proof.
  assert (forall y, 0 <= y -> Forall (fun c => isspace c = false /\ c <> NUL) (udec y)) as Hu.
  { intros y Hy. eapply Forall_impl; [by apply udec_digits|].
    intros c Hc. unfold isdigit, isspace, NUL, SP, TAB in *. lia. }
  unfold dec. case_if; [constructor; [done|]|]; apply Hu; lia.
Qed.

Lemma dec_nonempty z : dec z <> [].
Proof. unfold dec. case_if; [done | apply udec_fuel_nonempty]. Qed.

(** [strtol] reads back what ["%ld"] prints, and stops at the first byte that is
    not a digit. *)
Lemma strtol_dec z rest :
  LONG_MIN <= z <= LONG_MAX ->
  match rest with [] => True | c :: _ => isdigit c = false end ->
  strtol (dec z ++ rest) =
    {| st_val := z; st_used := length (dec z); st_erange := false |}.
Proof.
  intros Hz Hrest.
  assert (forall y, 0 <= y -> take_while isdigit (udec y ++ rest) = udec y) as Htw.
  { intros y Hy. rewrite take_while_app_all by by apply udec_digits.
    destruct rest as [|c rest]; simpl; [apply app_nil_r|]. by rewrite Hrest, app_nil_r. }
  assert (forall y, udec y <> []) as Hne by (intros; apply udec_fuel_nonempty).
  unfold strtol. destruct (z <? 0) eqn:Hneg; bool_to_prop.
  - assert (dec z = 45 :: udec (- z)) as -> by (unfold dec; case_ifs; done).
    cbn [app]. rewrite drop_while_false by done. cbv iota beta zeta.
    rewrite Htw by lia. rewrite bool_decide_false by done.
    rewrite udec_val by lia. rewrite Z.opp_involutive.
    replace (z >? LONG_MAX) with false by lia. replace (z <? LONG_MIN) with false by lia.
    f_equal. cbn [length]. rewrite length_app. lia.
  - assert (dec z = udec z) as -> by (unfold dec; case_ifs; done).
    destruct (udec z) as [|c u] eqn:Hu; [by destruct (Hne z)|].
    assert (isdigit c = true) as Hc.
    { pose proof (udec_digits z ltac:(lia)) as HF. rewrite Hu in HF. by inversion HF. }
    cbn [app]. rewrite drop_while_false by (unfold isdigit, isspace, SP, TAB in *; lia).
    assert ((match c :: u ++ rest with
             | 45 :: t => (true, t) | 43 :: t => (false, t) | _ => (false, c :: u ++ rest) end)
            = (false, c :: u ++ rest)) as ->.
    { unfold isdigit in Hc. assert (c <> 45 /\ c <> 43) as [? ?] by lia.
      clear -H H0. destruct c; try done. do 6 (destruct p; try done). }
    change (c :: u ++ rest) with ((c :: u) ++ rest). rewrite <- Hu, Htw by lia.
    rewrite bool_decide_false by done. rewrite udec_val by lia.
    replace (z >? LONG_MAX) with false by lia. replace (z <? LONG_MIN) with false by lia.
    f_equal. lia.
Qed.

Lemma drop_while_all {A} (p : A -> bool) s t : Forall (fun c => p c = true) s -> drop_while p (s ++ t) = drop_while p t.
Proof. induction 1 as [|c s Hc _ IH]; [done|]. cbn. by rewrite Hc. Qed.

(** [scanf] reads a printed number, whatever white space is before it. *)
Lemma scan_d_dec sp z rest :
  Forall (fun c => isspace c = true) sp -> INT_MIN <= z <= INT_MAX ->
  match rest with [] => True | c :: _ => isdigit c = false end ->
  scan_d (sp ++ dec z ++ rest) = (Some z, rest).
Proof.
  intros Hsp Hz Hrest. unfold scan_d. rewrite drop_while_all by done.
  pose proof (dec_not_space z) as Hns. pose proof (dec_nonempty z) as Hne.
  assert (drop_while isspace (dec z ++ rest) = dec z ++ rest) as ->.
  { destruct (dec z) as [|c u]; [done|]. inversion_clear Hns. cbn [app]. apply drop_while_false. naive_solver. }
  rewrite strtol_dec by (unfold LONG_MIN, LONG_MAX, INT_MIN, INT_MAX in *; done || lia). cbn [st_used st_val].
  rewrite (proj2 (Nat.eqb_neq _ _)) by (destruct (dec z); done).
  rewrite drop_app_length. f_equal. f_equal. unfold i32, INT_MIN, INT_MAX in *. rewrite Z.mod_small by lia. lia.
Qed.

(** At the end of the input there is no number. *)
Lemma scan_d_end : scan_d [] = (None, []).
Proof. reflexivity. Qed.

(** ** Lemmas: tokens *)

Lemma strtok_token delims tok rest :
  tok <> [] -> Forall (fun c => c ∉ delims) tok ->
  match rest with [] => True | c :: _ => c ∈ delims end ->
  strtok delims (tok ++ rest) = Some (tok, drop 1 rest).
Proof.
  intros Hne HF Hrest. unfold strtok.
  assert (forall c, c ∉ delims -> bool_decide (c ∈ delims) = false) as Hd
    by (intros; by apply bool_decide_eq_false).
  destruct tok as [|c tok]; [done|]. apply Forall_cons in HF as [Hc HF].
  cbn [app]. rewrite drop_while_false by auto.
  change (c :: tok ++ rest) with ((c :: tok) ++ rest).
  assert (take_while (fun d => negb (bool_decide (d ∈ delims))) ((c :: tok) ++ rest)
          = c :: tok) as ->.
  { rewrite take_while_app_all.
    - destruct rest as [|d rest]; [by rewrite app_nil_r|]. simpl.
      rewrite bool_decide_true by done. by rewrite app_nil_r.
    - constructor; [by rewrite Hd|]. eapply Forall_impl; [exact HF|].
      intros d Hdd. by rewrite Hd. }
  f_equal. f_equal. replace (S (length (c :: tok))) with (length (c :: tok) + 1)%nat by lia.
  by rewrite <- drop_drop, drop_app_length.
Qed.

Lemma strtok_skip delims c s : c ∈ delims -> strtok delims (c :: s) = strtok delims s.
Proof. intros. unfold strtok. simpl. by rewrite bool_decide_true. Qed.

Lemma strtok_Some delims s tok rest :
  strtok delims s = Some (tok, rest) ->
  tok <> [] /\ Forall (fun c => c ∉ delims) tok /\ (length tok + length rest <= length s)%nat.
Proof.
  unfold strtok. pose proof (drop_while_head (fun c => bool_decide (c ∈ delims)) s) as Hh.
  pose proof (f_equal length (take_drop_while (fun c => bool_decide (c ∈ delims)) s)) as Hl.
  rewrite length_app in Hl.
  destruct (drop_while _ s) as [|c s1]; [done|]. intros [= <- <-].
  rewrite Hh. split_and!.
  - done.
  - constructor; [by apply bool_decide_eq_false in Hh|].
    eapply Forall_impl; [apply take_while_Forall|]. cbn. intros d Hd. bool_to_prop. done.
  - simpl. rewrite length_drop. simpl in Hl.
    pose proof (take_while_length (fun c => negb (bool_decide (c ∈ delims))) s1). lia.
Qed.

(** ** Lemmas: input *)

Lemma fgets_from_spec room input a b :
  fgets_from room input = (a, b) -> input = a ++ b /\ (length a <= room)%nat.
Proof.
  revert input a b. induction room as [|r IH]; intros input a b; simpl.
  { intros [= <- <-]. split; [done | simpl; lia]. }
  destruct input as [|c input]; [intros [= <- <-]; split; [done | simpl; lia]|].
  case_if; [intros [= <- <-]; split; [done | simpl; lia]|].
  destruct (fgets_from r input) as [a' b'] eqn:E. intros [= <- <-].
  apply IH in E as [-> ?]. split; [done | simpl; lia].
Qed.

Lemma fgets_spec n input a b :
  fgets n input = Some (a, b) -> input = a ++ b /\ (length a <= n - 1)%nat.
Proof. unfold fgets. destruct input; [done|]. intros [= E]. by apply fgets_from_spec. Qed.

(** Each successful [fgets] into a buffer of at least two bytes consumes input. *)
Lemma fgets_progress n input a b :
  (2 <= n)%nat -> fgets n input = Some (a, b) -> (length b < length input)%nat.
Proof.
  intros Hn. unfold fgets. destruct input as [|c input]; [done|]. intros [= E].
  destruct n as [|[|n]]; [lia..|]. simpl in E.
  case_if; [simplify_eq/=; lia|].
  destruct (fgets_from n input) as [a' b'] eqn:E'. simplify_eq/=.
  apply fgets_from_spec in E' as [-> _]. rewrite length_app. lia.
Qed.

(** A line that fits is read whole. *)
Lemma fgets_line n line rest :
  Forall (fun c => c <> NL) line -> (length line + 1 < n)%nat ->
  fgets n (line ++ NL :: rest) = Some (line ++ [NL], rest).
Proof.
  intros HF Hn. unfold fgets.
  assert (fgets_from (n - 1) (line ++ NL :: rest) = (line ++ [NL], rest)) as E.
  { assert (length line < n - 1)%nat as Hr by lia. clear Hn. revert Hr.
    generalize (n - 1)%nat as r.
    induction HF as [|c line Hc _ IH]; intros [|r] Hr; simpl in *; try lia; [done|].
    rewrite (proj2 (Z.eqb_neq c NL) Hc). by rewrite IH by lia. }
  rewrite E. by destruct (line ++ NL :: rest) eqn:E0; [destruct line|].
Qed.

#[export] Hint Resolve dec_nonempty dec_not_space take_while_Forall trunc_length : clib.

(** Sizes of decimal numbers. *)
Lemma length_udec_fuel f z : (length (udec_fuel f z) <= S f)%nat.
Proof.
  revert z. induction f as [|f IH]; intros z; cbn; [lia|].
  case_if; cbn; [lia|]. rewrite length_app. specialize (IH (z / 10)). cbn. lia.
Qed.

Lemma length_dec_int z : 0 <= z <= INT_MAX -> (length (dec z) <= 31)%nat.
Proof.
  intros Hz. unfold dec. case_if; [lia|]. unfold udec.
  pose proof (length_udec_fuel (Z.to_nat (Z.log2 z)) z).
  assert (Z.log2 z <= 30); [|lia].
  change 30 with (Z.log2 INT_MAX). apply Z.log2_le_mono. lia.
Qed.
