(* ===== verification/Driver.v ===== *)
(** * The driver manager: data, table and handlers
    ([src/drive_manager/driver_manager.c])

    The shared memory object is the list [shared_ds] of [MAX_DRIVERS] slots.
    Every handler takes the table and the answers of the system calls it makes,
    and returns the table it leaves with the trace of its output and calls, in
    program order.  The sections between [pthread_mutex_lock] and
    [pthread_mutex_unlock] are one update of the table; how the handlers of the
    manager and of the driver processes interleave is the subject of
    [DriverSystem]. *)

From S2P Require Import Prelude CString.

(** ** Constants and data (lines 34-75) *)

Definition MAX_DRIVERS : nat := 32.
Definition MAX_LINE : nat := 256.
Definition MIN_TASK_TIME : Z := 1.
Definition MAX_TASK_TIME : Z := 3600.

Definition EINTR : Z := 4.
Definition ENOENT : Z := 2.
Definition ESRCH : Z := 3.
Definition ECHILD : Z := 10.
Definition SIGTERM : Z := 15.

Inductive DriverState := DRIVER_AVAILABLE | DRIVER_BUSY.

#[export] Instance DriverState_eq_dec : EqDecision DriverState.
Proof. solve_decision. Defined.

Record DriverSlot := mkSlot {
  state : DriverState;
  pid : Z;
  active : Z;
  task_timer : Z;
  busy_until : Z;
  event_fd : Z;
}.

#[export] Instance DriverSlot_eq_dec : EqDecision DriverSlot.
Proof. solve_decision. Defined.

(** What a system call returned, with [errno] for the failing case. *)
Record os_result := mkOs { ret : Z; errno : Z }.

(** The observable effects: text written to [stdout] and [stderr], [perror], and
    the system calls that matter outside the process. *)
Inductive action :=
  | Out (s : cstr)
  | ErrOut (s : cstr)
  | Perror (s : cstr)
  | Eventfd
  | Fork
  | Close (fd : Z)
  | WriteEvent (fd value : Z)
  | SetTimer (sec : Z)
  | Kill (p sig : Z)
  | Waitpid (p : Z)
  | MutexDestroy (i : nat)
  | Munmap
  | ShmUnlink
  | Exit (code : Z).

#[export] Instance action_eq_dec : EqDecision action.
Proof. solve_decision. Defined.

Definition set_state (st : DriverState) (s : DriverSlot) : DriverSlot :=
  mkSlot st (pid s) (active s) (task_timer s) (busy_until s) (event_fd s).
Definition set_active (a : Z) (s : DriverSlot) : DriverSlot :=
  mkSlot (state s) (pid s) a (task_timer s) (busy_until s) (event_fd s).
Definition set_task_timer (t : Z) (s : DriverSlot) : DriverSlot :=
  mkSlot (state s) (pid s) (active s) t (busy_until s) (event_fd s).
Definition set_busy_until (t : Z) (s : DriverSlot) : DriverSlot :=
  mkSlot (state s) (pid s) (active s) (task_timer s) t (event_fd s).
Definition set_event_fd (fd : Z) (s : DriverSlot) : DriverSlot :=
  mkSlot (state s) (pid s) (active s) (task_timer s) (busy_until s) fd.

(** ** Wrappers of the C library (lines 100-189) *)

(** [None] is the return value [-1]; [Some v] is 0 with [*result = v]. *)
Definition safe_strtol (str : option cstr) (result_not_null : bool) (min_val max_val : Z)
    : option Z :=
  match str with
  | None => None
  | Some s =>
      if negb result_not_null then None
      else let r := strtol s in
      if st_erange r then None
      else if (st_used r =? 0)%nat then None
      else if (st_val r <? min_val) || (st_val r >? max_val) then None
      else Some (st_val r)
  end.

Definition safe_read (fd : Z) (buf_not_null : bool) (r : os_result) : Z * list action :=
  if (fd <? 0) || negb buf_not_null then (-1, [])
  else if ret r <? 0 then
    if errno r =? EINTR then (0, []) else (-1, [Perror (lit "read")])
  else (0, []).

Definition safe_write (fd : Z) (buf_not_null : bool) (count : Z) (r : os_result)
    : Z * list action :=
  if (fd <? 0) || negb buf_not_null then (-1, [])
  else if ret r <? 0 then
    if errno r =? EINTR then (0, []) else (-1, [Perror (lit "write")])
  else if negb (ret r =? count) then (-1, [])
  else (0, []).

(** ** The slot table (lines 201-213, 384-402) *)

Definition slot_matches (p : Z) (s : DriverSlot) : bool :=
  negb (active s =? 0) && (pid s =? p).

Definition find_slot (shared_ds : list DriverSlot) (p : Z) : Z :=
  if p <=? 0 then -1 else find_index (slot_matches p) shared_ds.

(** The slot [init_shm] writes. *)
Definition empty_slot : DriverSlot := mkSlot DRIVER_AVAILABLE 0 0 0 0 (-1).

(** [init_shm]: every system call may fail; the table exists only when all of
    them succeed.  [mutex_init i] is what [pthread_mutex_init] returned for slot
    [i]. *)
Inductive init_outcome :=
  | InitOk (ds : list DriverSlot)
  | InitExit (tr : list action).

Fixpoint init_slots (mutex_init : nat -> Z) (i n : nat) (ds : list DriverSlot)
    : list DriverSlot + nat :=
  match n with
  | O => inl ds
  | S n' =>
      if negb (mutex_init i =? 0) then inr i
      else init_slots mutex_init (S i) n' (ds ++ [empty_slot])
  end.

Definition init_shm (shm_open ftruncate mmap : os_result) (mutex_init : nat -> Z)
    : init_outcome :=
  let shm_fd := ret shm_open in
  if shm_fd <? 0 then InitExit [Perror (lit "shm_open"); Exit 1]
  else if ret ftruncate =? -1 then
    InitExit [Perror (lit "ftruncate"); Close shm_fd; ShmUnlink; Exit 1]
  else if ret mmap =? -1 then
    InitExit [Perror (lit "mmap"); Close shm_fd; ShmUnlink; Exit 1]
  else match init_slots mutex_init 0 MAX_DRIVERS [] with
  | inl ds => InitOk ds
  | inr i =>
      InitExit [ErrOut (lit "Error: failed to initialize mutex " ++ dec (Z.of_nat i) ++ [NL]);
                Munmap; Close shm_fd; ShmUnlink; Exit 1]
  end.

(** ** [create_driver] (lines 414-461) *)

Inductive create_outcome :=
  | Created (ds : list DriverSlot) (tr : list action)
  | InChild (efd : Z).

Definition free_slot (shared_ds : list DriverSlot) : Z :=
  find_index (fun s => active s =? 0) shared_ds.

(** The parent's stores after [fork]. *)
Definition new_slot (p efd : Z) : DriverSlot := mkSlot DRIVER_AVAILABLE p 1 0 0 efd.

Definition create_driver (efd_r fork_r : os_result) (shared_ds : list DriverSlot)
    : option create_outcome :=
  let slot := free_slot shared_ds in
  if slot =? -1 then
    Some (Created shared_ds [ErrOut (lit "Error: no free driver slots available" ++ [NL])])
  else
  let efd := ret efd_r in
  if efd =? -1 then Some (Created shared_ds [Eventfd; Perror (lit "eventfd")])
  else
  let p := ret fork_r in
  if p <? 0 then Some (Created shared_ds [Eventfd; Fork; Perror (lit "fork"); Close efd])
  else if p =? 0 then Some (InChild efd)
  else
    ds' ← aset shared_ds slot (new_slot p efd);
    Some (Created ds' [Eventfd; Fork;
            Out (lit "Driver created with PID=" ++ dec p ++ [NL])]).

(** ** [send_task] (lines 472-502) *)

Definition send_task (write_r : os_result) (shared_ds : list DriverSlot) (p task_time : Z)
    : option (list DriverSlot * list action) :=
  let idx := find_slot shared_ds p in
  if idx =? -1 then Some (shared_ds, [Out (lit "Driver not found" ++ [NL])])
  else if (task_time <? MIN_TASK_TIME) || (task_time >? MAX_TASK_TIME) then
    Some (shared_ds, [])
  else
  s ← aget shared_ds idx;
  if event_fd s <? 0 then Some (shared_ds, [])
  else if bool_decide (state s = DRIVER_BUSY) then
    Some (shared_ds, [Out (lit "Driver is busy!" ++ [NL])])
  else
  ds' ← aset shared_ds idx (set_task_timer task_time s);
  let '(w, tr) := safe_write (event_fd s) true 8 write_r in
  if w <? 0 then Some (ds', WriteEvent (event_fd s) 1 :: tr)
  else Some (ds', WriteEvent (event_fd s) 1 :: tr ++
    [Out (lit "Task sent to PID=" ++ dec p ++ lit " for " ++ dec task_time
          ++ lit " sec" ++ [NL])]).

(** ** [get_status] and [get_drivers] (lines 512-573) *)

Definition get_status (now : Z) (shared_ds : list DriverSlot) (p : Z) : option (list action) :=
  let idx := find_slot shared_ds p in
  if idx =? -1 then Some [Out (lit "Driver not found" ++ [NL])]
  else
  s ← aget shared_ds idx;
  if bool_decide (state s = DRIVER_BUSY) && (busy_until s >? now) then
    Some [Out (lit "Status [PID=" ++ dec p ++ lit "]: BUSY (" ++ dec (busy_until s - now)
               ++ lit " sec remaining)" ++ [NL])]
  else Some [Out (lit "Status [PID=" ++ dec p ++ lit "]: AVAILABLE" ++ [NL])].

Definition driver_line (now : Z) (s : DriverSlot) : list action :=
  if active s =? 0 then []
  else if busy_until s >? now then
    [Out (lit "PID=" ++ dec (pid s) ++ lit " | Status: BUSY | Time left: "
          ++ dec (busy_until s - now) ++ lit " sec" ++ [NL])]
  else [Out (lit "PID=" ++ dec (pid s) ++ lit " | Status: AVAILABLE" ++ [NL])].

Definition get_drivers (now : Z) (shared_ds : list DriverSlot) : list action :=
  let lines := mjoin (driver_line now <$> shared_ds) in
  let found_any := existsb (fun s => negb (active s =? 0)) shared_ds in
  if found_any then lines else lines ++ [Out (lit "No active drivers" ++ [NL])].

(** ** The driver process: [driver_loop] (lines 225-344) *)

Inductive init_driver :=
  | DriverExit (tr : list action)
  | DriverRuns (idx epfd tfd : Z).

Definition driver_init (shared_ds : list DriverSlot) (self efd : Z)
    (epoll_create timerfd_create ctl_efd ctl_tfd : os_result) : init_driver :=
  let idx := find_slot shared_ds self in
  if idx =? -1 then DriverExit [Exit 1]
  else let epfd := ret epoll_create in
  if epfd =? -1 then DriverExit [Perror (lit "epoll_create1"); Exit 1]
  else let tfd := ret timerfd_create in
  if tfd =? -1 then DriverExit [Perror (lit "timerfd_create"); Close epfd; Exit 1]
  else if ret ctl_efd =? -1 then
    DriverExit [Perror (lit "epoll_ctl (efd)"); Close tfd; Close epfd; Exit 1]
  else if ret ctl_tfd =? -1 then
    DriverExit [Perror (lit "epoll_ctl (tfd)"); Close tfd; Close epfd; Exit 1]
  else DriverRuns idx epfd tfd.

(** The section under the mutex when the event descriptor is readable: the new
    slot and the duration for which the timer is to be armed, if any.  [now1]
    and [now2] are the two calls of [time(NULL)]. *)
Definition accept_task (now1 now2 : Z) (s : DriverSlot) : DriverSlot * option Z :=
  if busy_until s >? now1 then (s, None)
  else if task_timer s <=? 0 then (s, None)
  else (set_busy_until (now2 + task_timer s) (set_state DRIVER_BUSY s), Some (task_timer s)).

(** The section under the mutex when the timer expired. *)
Definition complete_task (s : DriverSlot) : DriverSlot :=
  set_busy_until 0 (set_state DRIVER_AVAILABLE s).

Record ev_env := mkEv { ev_read : os_result; ev_now1 : Z; ev_now2 : Z; ev_settime : os_result }.

(** One iteration of the inner [for]: the event on descriptor [fd]. *)
Definition driver_event (self idx efd tfd : Z) (fd : Z) (e : ev_env)
    (shared_ds : list DriverSlot) : option (list DriverSlot * list action) :=
  if fd =? efd then
    let '(r, tr) := safe_read efd true (ev_read e) in
    if r <? 0 then Some (shared_ds, tr)
    else
    s ← aget shared_ds idx;
    let '(s', armed) := accept_task (ev_now1 e) (ev_now2 e) s in
    ds' ← aset shared_ds idx s';
    match armed with
    | None => Some (ds', tr)
    | Some t =>
        if ret (ev_settime e) =? -1
        then Some (ds', tr ++ [SetTimer t; Perror (lit "timerfd_settime")])
        else Some (ds', tr ++ [SetTimer t])
    end
  else if fd =? tfd then
    let '(r, tr) := safe_read tfd true (ev_read e) in
    if r <? 0 then Some (shared_ds, tr)
    else
    s ← aget shared_ds idx;
    ds' ← aset shared_ds idx (complete_task s);
    Some (ds', tr ++ [Out (lit "[Driver " ++ dec self ++ lit "] Task completed!" ++ [NL])])
  else Some (shared_ds, []).

(** The events of one [epoll_wait], in order. *)
Fixpoint driver_events (self idx efd tfd : Z) (evs : list (Z * ev_env))
    (shared_ds : list DriverSlot) : option (list DriverSlot * list action) :=
  match evs with
  | [] => Some (shared_ds, [])
  | (fd, e) :: evs' =>
      '(ds1, tr1) ← driver_event self idx efd tfd fd e shared_ds;
      '(ds2, tr2) ← driver_events self idx efd tfd evs' ds1;
      Some (ds2, tr1 ++ tr2)
  end.

(** What [epoll_wait] returned: [EINTR], another failure, or events (at most 2). *)
Inductive wait_result := WaitIntr | WaitFail | WaitEvents (evs : list (Z * ev_env)).

(** The [while (1)] loop over a finite sequence of [epoll_wait] results: [None]
    as exit status while the loop is still running. *)
Fixpoint driver_loop (self idx efd tfd epfd : Z) (waits : list wait_result)
    (shared_ds : list DriverSlot) : option (list DriverSlot * list action) :=
  match waits with
  | [] => Some (shared_ds, [])
  | WaitIntr :: waits' => driver_loop self idx efd tfd epfd waits' shared_ds
  | WaitFail :: _ =>
      Some (shared_ds, [Perror (lit "epoll_wait"); Close tfd; Close epfd; Exit 0])
  | WaitEvents evs :: waits' =>
      '(ds1, tr1) ← driver_events self idx efd tfd evs shared_ds;
      '(ds2, tr2) ← driver_loop self idx efd tfd epfd waits' ds1;
      Some (ds2, tr1 ++ tr2)
  end.

(** ** [terminate_all] (lines 582-650) *)

Definition kill_slot (kill_r : nat -> os_result) (i : nat) (s : DriverSlot)
    : DriverSlot * list action :=
  if active s =? 0 then (s, [])
  else
    let '(s1, tr1) :=
      if event_fd s >=? 0 then (set_event_fd (-1) s, [Close (event_fd s)]) else (s, []) in
    let tr2 :=
      if pid s >? 0 then
        Kill (pid s) SIGTERM ::
          (if (ret (kill_r i) =? -1) && negb (errno (kill_r i) =? ESRCH)
           then [Perror (lit "kill")] else [])
      else [] in
    (s1, tr1 ++ tr2).

Definition reap_slot (wait_r : nat -> os_result) (i : nat) (s : DriverSlot)
    : DriverSlot * list action :=
  if negb (active s =? 0) && (pid s >? 0) then
    (set_active 0 s,
     Waitpid (pid s) ::
       (if (ret (wait_r i) =? -1) && negb (errno (wait_r i) =? ECHILD)
        then [Perror (lit "waitpid")] else []))
  else (s, []).

(** A [for] loop over all slots that rewrites each of them. *)
Fixpoint for_slots (f : nat -> DriverSlot -> DriverSlot * list action) (i : nat)
    (ds : list DriverSlot) : list DriverSlot * list action :=
  match ds with
  | [] => ([], [])
  | s :: ds' =>
      let '(s1, tr1) := f i s in
      let '(ds1, tr2) := for_slots f (S i) ds' in
      (s1 :: ds1, tr1 ++ tr2)
  end.

Definition terminate_all (shm_fd : Z) (kill_r wait_r : nat -> os_result)
    (munmap_r unlink_r : os_result) (shared_ds : list DriverSlot)
    : list DriverSlot * list action :=
  let '(ds1, tr1) := for_slots (kill_slot kill_r) 0 shared_ds in
  let '(ds2, tr2) := for_slots (reap_slot wait_r) 0 ds1 in
  (ds2,
   Out (NL :: lit "Terminating all drivers..." ++ [NL]) :: tr1 ++ tr2
     ++ (MutexDestroy <$> seq 0 MAX_DRIVERS)
     ++ Munmap :: (if ret munmap_r =? -1 then [Perror (lit "munmap")] else [])
     ++ (if shm_fd >=? 0 then [Close shm_fd] else [])
     ++ ShmUnlink :: (if (ret unlink_r =? -1) && negb (errno unlink_r =? ENOENT)
                      then [Perror (lit "shm_unlink")] else [])
     ++ [Out (lit "Cleanup completed" ++ [NL]); Exit 0]).
