(* ===== verification/DriverProps.v ===== *)
(** * The driver manager: the table invariant and the abstract registry

    The table implements a registry that maps the pid of each active driver to
    its slot.  [table_ok] is the invariant of the table; every handler preserves
    it, and each handler is an operation of the registry ([registry] below):
    creation inserts, sending a task alters one entry, termination empties. *)

From S2P Require Import Prelude CString Driver.

(** ** The invariant *)

Definition slot_ok (s : DriverSlot) : Prop :=
  (active s = 0 \/ active s = 1) /\
  (active s = 1 -> 0 < pid s /\ 0 <= event_fd s) /\
  0 <= task_timer s <= MAX_TASK_TIME /\
  0 <= busy_until s.

Definition pids_distinct (ds : list DriverSlot) : Prop :=
  forall i j si sj, aget ds i = Some si -> aget ds j = Some sj ->
    active si = 1 -> active sj = 1 -> pid si = pid sj -> i = j.

Record table_ok (ds : list DriverSlot) : Prop := {
  table_length : length ds = MAX_DRIVERS;
  table_slots : Forall slot_ok ds;
  table_pids : pids_distinct ds;
}.

(** ** The registry the table stands for *)

Definition entry (s : DriverSlot) : option (Z * DriverSlot) :=
  if active s =? 1 then Some (pid s, s) else None.

Definition registry (ds : list DriverSlot) : gmap Z DriverSlot :=
  list_to_map (omap entry ds).

(** ** Lookup in the registry *)

Lemma entry_Some s p s' : entry s = Some (p, s') <-> active s = 1 /\ p = pid s /\ s' = s.
Proof.
  unfold entry. case_if; (split; [by intros [= <- <-] | intros (? & -> & ->); done || lia]).
Qed.

Lemma pids_distinct_cons s ds :
  pids_distinct (s :: ds) ->
  pids_distinct ds /\
  (active s = 1 -> forall s', s' ∈ ds -> active s' = 1 -> pid s' <> pid s).
Proof.
  intros H. split.
  - intros i j si sj Hi Hj Hai Haj Hp.
    assert (i + 1 = j + 1) as ?; [|lia].
    apply (H (i + 1) (j + 1) si sj); try done.
    + apply aget_Some in Hi as [? Hi]. apply aget_Some. split; [lia|].
      by replace (Z.to_nat (i + 1)) with (S (Z.to_nat i)) by lia.
    + apply aget_Some in Hj as [? Hj]. apply aget_Some. split; [lia|].
      by replace (Z.to_nat (j + 1)) with (S (Z.to_nat j)) by lia.
  - intros Ha s' [k Hk]%list_elem_of_lookup Ha' Hp.
    assert (0 = Z.of_nat k + 1) as ?; [|lia].
    apply (H 0 (Z.of_nat k + 1) s s'); try done.
    apply aget_Some. split; [lia|].
    by replace (Z.to_nat (Z.of_nat k + 1)) with (S k) by lia.
Qed.

Lemma registry_NoDup ds : pids_distinct ds -> NoDup (omap entry ds).*1.
Proof.
  induction ds as [|s ds IH]; intros Hd; [constructor|].
  apply pids_distinct_cons in Hd as [Hd Hne]. cbn.
  destruct (entry s) as [[p s']|] eqn:E; [|auto].
  apply entry_Some in E as (Ha & -> & ->). cbn. constructor; [|auto].
  intros [[q s'] [Hq Hin]]%list_elem_of_fmap. cbn in Hq. subst q.
  apply list_elem_of_omap in Hin as (s'' & Hin & (Ha' & Hp & ->)%entry_Some).
  by apply (Hne Ha s'').
Qed.

Lemma registry_lookup ds p s :
  pids_distinct ds ->
  registry ds !! p = Some s <->
  exists i, aget ds i = Some s /\ active s = 1 /\ pid s = p.
Proof.
  intros Hd. unfold registry.
  rewrite <- elem_of_list_to_map by by apply registry_NoDup.
  rewrite list_elem_of_omap. split.
  - intros (s' & Hin & (Ha & -> & ->)%entry_Some).
    apply list_elem_of_lookup in Hin as [k Hk]. exists (Z.of_nat k).
    split_and!; [|done|done]. apply aget_Some. split; [lia|]. by rewrite Nat2Z.id.
  - intros (i & [_ Hi]%aget_Some & Ha & <-). exists s.
    split; [by eapply list_elem_of_lookup_2|]. by apply entry_Some.
Qed.

(** ** [find_slot] *)

Lemma slot_matches_true p s :
  slot_ok s -> slot_matches p s = true <-> active s = 1 /\ pid s = p.
Proof. intros (Ha & _). unfold slot_matches. split; intros; [bool_to_prop|]; lia. Qed.

Lemma find_slot_found ds p i :
  table_ok ds -> find_slot ds p = i -> i <> -1 ->
  exists s, aget ds i = Some s /\ active s = 1 /\ pid s = p /\ 0 < p.
Proof.
  intros [_ Hs _] Hf Hi. unfold find_slot in Hf. case_if; [lia|].
  destruct (find_index_found _ _ _ Hf Hi) as (s & Hg & Hm & _).
  assert (slot_ok s) as Hok.
  { apply aget_Some in Hg as [_ Hg]. by eapply Forall_lookup_1 in Hs. }
  apply slot_matches_true in Hm as [??]; [|done]. eauto.
Qed.

Lemma aget_slot_ok ds i s : table_ok ds -> aget ds i = Some s -> slot_ok s.
Proof. intros [_ Hs _] [_ Hg]%aget_Some. by eapply Forall_lookup_1 in Hs. Qed.

Lemma find_slot_complete ds i s :
  table_ok ds -> aget ds i = Some s -> active s = 1 -> find_slot ds (pid s) = i.
Proof.
  intros Hok Hg Ha. pose proof (aget_slot_ok _ _ _ Hok Hg) as Hs.
  assert (0 < pid s) as Hp by (destruct Hs as (_ & Hp & _); by apply Hp).
  assert (find_slot ds (pid s) <> -1) as Hne.
  { unfold find_slot. case_if; [lia|]. eapply find_index_some_intro; [exact Hg|].
    by apply slot_matches_true. }
  destruct (find_slot_found ds (pid s) _ Hok eq_refl Hne) as (s' & Hg' & Ha' & Hp' & _).
  by apply (table_pids ds Hok _ _ s' s).
Qed.

Lemma find_slot_none ds p :
  table_ok ds -> find_slot ds p = -1 -> registry ds !! p = None.
Proof.
  intros Hok Hf. destruct (registry ds !! p) as [s|] eqn:E; [|done].
  apply registry_lookup in E as (i & Hg & Ha & <-); [|apply Hok].
  rewrite (find_slot_complete ds i s) in Hf by done. apply aget_lt in Hg. lia.
Qed.

(** ** Updating one slot *)

Lemma table_update ds i s s' :
  table_ok ds -> aget ds i = Some s -> slot_ok s' ->
  active s' = active s -> pid s' = pid s ->
  table_ok (<[Z.to_nat i := s']> ds).
Proof.
  intros [Hl Hs Hd] Hg Hok Ha Hp. split.
  - by rewrite length_insert.
  - by apply Forall_insert.
  - pose proof (aget_lt _ _ _ Hg) as Hlt.
    assert (forall j t, aget (<[Z.to_nat i:=s']> ds) j = Some t ->
      exists t0, aget ds j = Some t0 /\ active t = active t0 /\ pid t = pid t0) as Hback.
    { intros j t Hj. destruct (Z.eq_dec i j) as [<-|Hne].
      - rewrite aget_insert_eq in Hj by done. simplify_eq. eauto.
      - rewrite aget_insert_ne in Hj by lia. eauto. }
    intros j k tj tk (t1 & Hj & Ha1 & Hp1)%Hback (t2 & Hk & Ha2 & Hp2)%Hback ???.
    apply (Hd j k t1 t2); congruence.
Qed.

Lemma registry_update ds i s s' :
  table_ok ds -> aget ds i = Some s -> active s = 1 -> slot_ok s' ->
  active s' = 1 -> pid s' = pid s ->
  registry (<[Z.to_nat i := s']> ds) = <[pid s := s']> (registry ds).
Proof.
  intros Hok Hg Ha Hok' Ha' Hp.
  assert (table_ok (<[Z.to_nat i := s']> ds)) as Hok2
    by (eapply table_update; eauto; congruence).
  pose proof (aget_lt _ _ _ Hg) as Hlt.
  apply map_eq. intros p. apply option_eq. intros t.
  rewrite registry_lookup by apply Hok2. destruct (decide (pid s = p)) as [<-|Hne].
  - rewrite lookup_insert_eq. split.
    + intros (j & Hj & Hat & Hpt). destruct (Z.eq_dec i j) as [<-|Hij].
      * rewrite aget_insert_eq in Hj by done. by simplify_eq.
      * rewrite aget_insert_ne in Hj by lia.
        destruct Hij. by apply (table_pids ds Hok i j s t).
    + intros [= <-]. exists i. split_and!; try done. by apply aget_insert_eq.
  - rewrite lookup_insert_ne, registry_lookup by (done || apply Hok).
    split; intros (j & Hj & Hat & Hpt); exists j; split_and!; try done;
      (destruct (Z.eq_dec i j) as [<-|Hij];
        [|by rewrite aget_insert_ne in * by lia]).
    + rewrite aget_insert_eq in Hj by done. by simplify_eq.
    + congruence.
Qed.

(** ** [find_slot] is the lookup of the registry *)

Lemma find_slot_registry ds p :
  table_ok ds ->
  match registry ds !! p with
  | Some s => aget ds (find_slot ds p) = Some s
  | None => find_slot ds p = -1
  end.
Proof.
  intros Hok. destruct (registry ds !! p) as [s|] eqn:E.
  - apply registry_lookup in E as (i & Hg & Ha & <-); [|apply Hok].
    by rewrite (find_slot_complete ds i s).
  - destruct (Z.eq_dec (find_slot ds p) (-1)) as [|Hne]; [done|].
    destruct (find_slot_found ds p _ Hok eq_refl Hne) as (s & Hg & Ha & Hp & _).
    assert (registry ds !! p = Some s); [|congruence].
    apply registry_lookup; [apply Hok | eauto].
Qed.

Lemma registry_slot ds p s :
  table_ok ds -> registry ds !! p = Some s ->
  exists i, find_slot ds p = i /\ i <> -1 /\ aget ds i = Some s /\
    active s = 1 /\ pid s = p /\ slot_ok s.
Proof.
  intros Hok E. pose proof (find_slot_registry ds p Hok) as Hf. rewrite E in Hf.
  apply registry_lookup in E as (i & Hg & Ha & Hp); [|apply Hok].
  exists (find_slot ds p). pose proof (aget_lt _ _ _ Hf).
  split_and!; eauto using aget_slot_ok; lia.
Qed.

(** ** [init_shm] *)

Lemma init_slots_ok mi i n ds :
  (forall k, (i <= k < i + n)%nat -> mi k = 0) ->
  init_slots mi i n ds = inl (ds ++ replicate n empty_slot).
Proof.
  revert i ds. induction n as [|n IH]; intros i ds H; simpl; [by rewrite app_nil_r|].
  rewrite (H i) by lia. cbn. rewrite IH by (intros; apply H; lia). by rewrite <- app_assoc.
Qed.

Lemma init_slots_inl mi i n ds ds' :
  init_slots mi i n ds = inl ds' -> ds' = ds ++ replicate n empty_slot.
Proof.
  revert i ds. induction n as [|n IH]; intros i ds; simpl; [intros [= <-]; by rewrite app_nil_r|].
  case_if; [done|]. intros ->%IH. by rewrite <- app_assoc.
Qed.

Lemma slot_ok_empty : slot_ok empty_slot.
Proof. unfold slot_ok, MAX_TASK_TIME; cbn. lia. Qed.

Lemma table_ok_empty : table_ok (replicate MAX_DRIVERS empty_slot).
Proof.
  split.
  - apply length_replicate.
  - apply Forall_replicate, slot_ok_empty.
  - intros i j si sj [_ Hi]%aget_Some _ Ha. apply lookup_replicate in Hi as [-> _]. done.
Qed.

Lemma registry_empty_slots n : registry (replicate n empty_slot) = ∅.
Proof.
  unfold registry. induction n as [|n IH]; [done|]. exact IH.
Qed.

(** ** Counting the drivers *)

Lemma registry_size ds :
  pids_distinct ds -> size (registry ds) = length (omap entry ds).
Proof.
  intros Hd. unfold registry. apply map_size_list_to_map.
  by apply registry_NoDup.
Qed.

Lemma free_slot_none ds :
  table_ok ds -> free_slot ds = -1 <-> size (registry ds) = MAX_DRIVERS.
Proof.
  intros [Hl Hs Hd]. rewrite registry_size, <- Hl by done.
  assert (length (omap entry ds) = length ds <-> Forall (fun s => active s <> 0) ds) as ->.
  { clear Hl Hd. induction Hs as [|s ds Hs0 Hs IH]; cbn; [split; [constructor|done]|].
    rewrite Forall_cons. assert (length (omap entry ds) <= length ds)%nat.
    { clear. induction ds as [|s ds IH]; cbn; [lia|]. destruct (entry s); cbn; lia. }
    destruct Hs0 as (Ha & _). unfold entry at 1. case_if; cbn.
    - rewrite Nat.succ_inj_wd, IH. split; [split; [lia|done] | tauto].
    - split; [lia|]. intros [? _]. lia. }
  split.
  - intros Hf. eapply Forall_impl; [exact (find_index_none _ _ Hf)|].
    cbn. intros s Ha. by bool_to_prop.
  - intros HF. destruct (Z.eq_dec (free_slot ds) (-1)) as [|Hne]; [done|].
    destruct (find_index_found _ _ _ eq_refl Hne) as (s & [_ Hg]%aget_Some & Ha & _).
    bool_to_prop. eapply Forall_lookup_1 in HF; [|exact Hg]. done.
Qed.

Lemma free_slot_found ds :
  table_ok ds -> free_slot ds <> -1 ->
  exists s, aget ds (free_slot ds) = Some s /\ active s = 0.
Proof.
  intros Hok Hne. destruct (find_index_found _ _ _ eq_refl Hne) as (s & Hg & Ha & _).
  bool_to_prop. eauto.
Qed.

(** ** Filling a free slot *)

Lemma table_fill ds i s0 p efd :
  table_ok ds -> aget ds i = Some s0 -> active s0 = 0 ->
  registry ds !! p = None -> 0 < p -> 0 <= efd ->
  table_ok (<[Z.to_nat i := new_slot p efd]> ds) /\
  registry (<[Z.to_nat i := new_slot p efd]> ds) = <[p := new_slot p efd]> (registry ds).
Proof.
  intros Hok Hg Ha0 Hfresh Hp He. pose proof (aget_lt _ _ _ Hg) as Hlt.
  assert (forall j t, aget ds j = Some t -> active t = 1 -> pid t <> p) as Hnp.
  { intros j t Hj Hat Hpt. assert (registry ds !! p = Some t); [|congruence].
    apply registry_lookup; [apply Hok | eauto]. }
  assert (table_ok (<[Z.to_nat i := new_slot p efd]> ds)) as Hok'.
  { split.
    - rewrite length_insert. apply Hok.
    - apply Forall_insert; [apply Hok|]. unfold slot_ok, MAX_TASK_TIME; cbn. lia.
    - intros j k tj tk Hj Hk Haj Hak Hpid.
      destruct (Z.eq_dec i j) as [<-|Hij], (Z.eq_dec i k) as [<-|Hik]; [done|..];
        rewrite ?aget_insert_eq, ?aget_insert_ne in * by lia; simplify_eq/=.
      + by destruct (Hnp k tk Hk Hak).
      + by destruct (Hnp j tj Hj Haj).
      + by apply (table_pids ds Hok j k tj tk). }
  split; [done|]. apply map_eq. intros q. apply option_eq. intros t.
  rewrite registry_lookup by apply Hok'. destruct (decide (p = q)) as [<-|Hne].
  - rewrite lookup_insert_eq. split.
    + intros (j & Hj & Hat & Hpt). destruct (Z.eq_dec i j) as [<-|Hij].
      * rewrite aget_insert_eq in Hj by done. congruence.
      * rewrite aget_insert_ne in Hj by lia. by destruct (Hnp j t Hj Hat).
    + intros [= <-]. exists i. by rewrite aget_insert_eq by done.
  - rewrite lookup_insert_ne, registry_lookup by (done || apply Hok).
    split; intros (j & Hj & Hat & Hpt); exists j; split_and!; try done;
      (destruct (Z.eq_dec i j) as [<-|Hij]; [|by rewrite aget_insert_ne in * by lia]).
    + rewrite aget_insert_eq in Hj by done. by simplify_eq.
    + congruence.
Qed.

(** ** Rewriting the own slot *)

Lemma slot_ok_timer s t : slot_ok s -> 0 <= t <= MAX_TASK_TIME -> slot_ok (set_task_timer t s).
Proof. unfold slot_ok; cbn. tauto. Qed.

Lemma accept_task_ok now1 now2 s :
  slot_ok s -> 0 <= now2 ->
  slot_ok (accept_task now1 now2 s).1 /\
  active (accept_task now1 now2 s).1 = active s /\ pid (accept_task now1 now2 s).1 = pid s.
Proof.
  intros (Ha & Hp & Ht & Hb) Hn. unfold accept_task.
  repeat case_if; unfold slot_ok; cbn; split_and!; try done; lia.
Qed.

Lemma complete_task_ok s : slot_ok s -> slot_ok (complete_task s).
Proof. unfold slot_ok; cbn. intuition lia. Qed.

(** An update of the slot found for [p] that keeps its identity. *)
Lemma update_own ds p s s' :
  table_ok ds -> registry ds !! p = Some s -> slot_ok s' ->
  active s' = active s -> pid s' = pid s ->
  exists ds', aget ds (find_slot ds p) = Some s /\ aset ds (find_slot ds p) s' = Some ds' /\
    table_ok ds' /\ registry ds' = <[p := s']> (registry ds) /\
    find_slot ds' p = find_slot ds p.
Proof.
  intros Hok Hr Hs' Ha Hp.
  destruct (registry_slot ds p s Hok Hr) as (i & Hi & Hne & Hg & Hact & Hpid & _).
  rewrite Hi. pose proof (aget_lt _ _ _ Hg).
  assert (table_ok (<[Z.to_nat i:=s']> ds)) by (by eapply table_update).
  exists (<[Z.to_nat i := s']> ds). split_and!.
  - done.
  - by apply aset_is_Some.
  - done.
  - rewrite <- Hpid. eapply registry_update; eauto; congruence.
  - replace p with (pid s') by congruence.
    apply find_slot_complete; [done | by apply aget_insert_eq | congruence].
Qed.

(** One event of the driver [self] only rewrites its own slot. *)
Lemma driver_event_own ds self s efd tfd fd e :
  table_ok ds -> registry ds !! self = Some s -> 0 <= ev_now2 e ->
  exists ds' tr s',
    driver_event self (find_slot ds self) efd tfd fd e ds = Some (ds', tr) /\
    table_ok ds' /\ registry ds' = <[self := s']> (registry ds) /\
    find_slot ds' self = find_slot ds self.
Proof.
  intros Hok Hr Hn.
  assert (forall tr : list action, exists ds' tr' s', Some (ds, tr) = Some (ds', tr') /\ table_ok ds' /\
    registry ds' = <[self := s']> (registry ds) /\
    find_slot ds' self = find_slot ds self) as Hsame.
  { intros tr. exists ds, tr, s. by rewrite insert_id. }
  destruct (registry_slot ds self s Hok Hr) as (_ & _ & _ & _ & _ & _ & Hsok).
  unfold driver_event. case_if; [|case_if; [|apply Hsame]].
  - destruct (safe_read efd true (ev_read e)) as [r tr]. case_if; [apply Hsame|].
    destruct (accept_task_ok (ev_now1 e) (ev_now2 e) s Hsok Hn) as (? & ? & ?).
    destruct (update_own ds self s (accept_task (ev_now1 e) (ev_now2 e) s).1)
      as (ds' & Hg & Hset & ? & ? & ?); try done.
    rewrite Hg. cbn [mbind option_bind].
    destruct (accept_task (ev_now1 e) (ev_now2 e) s) as [s' armed]. cbn in Hset |- *.
    rewrite Hset. cbn. destruct armed; [case_if|]; eauto 10.
  - destruct (safe_read tfd true (ev_read e)) as [r tr]. case_if; [apply Hsame|].
    destruct (update_own ds self s (complete_task s)) as (ds' & Hg & Hset & ? & ? & ?);
      try done; [by apply complete_task_ok|].
    rewrite Hg. cbn [mbind option_bind]. rewrite Hset. cbn. eauto 10.
Qed.

Lemma driver_events_own ds self s efd tfd evs :
  table_ok ds -> registry ds !! self = Some s ->
  Forall (fun '(_, e) => 0 <= ev_now2 e) evs ->
  exists ds' tr s',
    driver_events self (find_slot ds self) efd tfd evs ds = Some (ds', tr) /\
    table_ok ds' /\ registry ds' = <[self := s']> (registry ds) /\
    find_slot ds' self = find_slot ds self.
Proof.
  intros Hok Hr HF. revert ds s Hok Hr. induction HF as [|[fd e] evs He HF IH];
    intros ds s Hok Hr; cbn [driver_events].
  - exists ds, [], s. by rewrite insert_id.
  - destruct (driver_event_own ds self s efd tfd fd e) as (ds1 & tr1 & s1 & -> & ? & Hr1 & Hf1);
      try done. cbn [mbind option_bind].
    destruct (IH ds1 s1) as (ds2 & tr2 & s2 & E2 & ? & Hr2 & ?); [done | by rewrite Hr1, lookup_insert_eq |].
    rewrite Hf1 in E2. rewrite E2. cbn. exists ds2, (tr1 ++ tr2), s2.
    split_and!; try done; [|congruence]. by rewrite Hr2, Hr1, insert_insert_eq.
Qed.

(** ** Loops over the slots *)

Lemma for_slots_fst f i ds : (for_slots f i ds).1 = imap (fun k s => (f (i + k)%nat s).1) ds.
Proof.
  revert i. induction ds as [|s ds IH]; intros i; cbn; [done|].
  rewrite Nat.add_0_r. destruct (f i s) as [s1 tr1]. specialize (IH (S i)).
  destruct (for_slots f (S i) ds) as [ds1 tr2]. cbn in *. f_equal. rewrite IH.
  apply imap_ext. intros k t _. unfold compose. by rewrite Nat.add_succ_r.
Qed.

(** What a filter of the trace sees of a loop whose body emits, for each slot,
    the list [g s] of the filtered actions. *)
Lemma for_slots_snd {B} (sel : action -> option B) (g : DriverSlot -> list B) f i ds :
  (forall k s, s ∈ ds -> omap sel (f k s).2 = g s) ->
  omap sel (for_slots f i ds).2 = mjoin (g <$> ds).
Proof.
  revert i. induction ds as [|s ds IH]; intros i H; cbn; [done|].
  pose proof (H i s (list_elem_of_here _ _)) as Hs. specialize (IH (S i)).
  destruct (f i s) as [s1 tr1]. destruct (for_slots f (S i) ds) as [ds1 tr2]. cbn in *.
  rewrite omap_app, Hs, IH; [done|]. intros k t Ht. apply H. by right.
Qed.

(** ** Filters of the trace *)

(** An action is not in a trace written out as a list. *)
Ltac not_in_trace :=
  let H := fresh in
  intros H; exfalso;
  repeat (apply elem_of_cons in H as [H|H]; [discriminate H|]);
  by apply not_elem_of_nil in H.

Definition killed (a : action) : option Z := match a with Kill p _ => Some p | _ => None end.
Definition waited (a : action) : option Z := match a with Waitpid p => Some p | _ => None end.
Definition closed (a : action) : option Z := match a with Close fd => Some fd | _ => None end.

Definition active_slots (ds : list DriverSlot) : list DriverSlot :=
  filter (fun s => active s = 1) ds.

Lemma mjoin_active {B} (h : DriverSlot -> B) ds :
  mjoin ((fun s => if active s =? 1 then [h s] else []) <$> ds) = h <$> active_slots ds.
Proof.
  unfold active_slots. induction ds as [|s ds IH]; [done|]. csimpl.
  rewrite IH, filter_cons. case_if; case_decide; done || lia.
Qed.

Lemma kill_slot_trace kill_r k s :
  slot_ok s ->
  (kill_slot kill_r k s).1 = (if active s =? 1 then set_event_fd (-1) s else s) /\
  omap killed (kill_slot kill_r k s).2 = (if active s =? 1 then [pid s] else []) /\
  omap waited (kill_slot kill_r k s).2 = [] /\
  omap closed (kill_slot kill_r k s).2 = (if active s =? 1 then [event_fd s] else []).
Proof.
  intros (Ha & Hp & _). unfold kill_slot.
  destruct (active s =? 0) eqn:E0; bool_to_prop.
  { rewrite E0. done. }
  destruct Ha as [|Ha]; [done|]. destruct (Hp Ha) as [??]. rewrite Ha. cbn [Z.eqb Pos.eqb].
  replace (event_fd s >=? 0) with true by lia. replace (pid s >? 0) with true by lia.
  destruct (_ && _); done.
Qed.

Lemma reap_slot_trace wait_r k s :
  (active s = 0 \/ active s = 1) -> (active s = 1 -> 0 < pid s) ->
  active (reap_slot wait_r k s).1 = 0 /\
  omap killed (reap_slot wait_r k s).2 = [] /\
  omap waited (reap_slot wait_r k s).2 = (if active s =? 1 then [pid s] else []) /\
  omap closed (reap_slot wait_r k s).2 = [].
Proof.
  intros Ha Hp. unfold reap_slot. destruct Ha as [Ha|Ha].
  - rewrite Ha. done.
  - rewrite Ha. cbn [Z.eqb Pos.eqb negb andb]. specialize (Hp Ha).
    replace (pid s >? 0) with true by lia. destruct (_ && _); done.
Qed.

Lemma registry_inactive ds : Forall (fun s => active s = 0) ds -> registry ds = ∅.
Proof.
  unfold registry. induction 1 as [|s ds Hs _ IH]; [done|]. cbn.
  unfold entry at 1. rewrite Hs. exact IH.
Qed.

Lemma omap_mutex_destroy {B} (sel : action -> option B) l :
  (forall i, sel (MutexDestroy i) = None) -> omap sel (MutexDestroy <$> l) = [].
Proof. intros Hsel. induction l as [|i l IH]; [done|]. csimpl. by rewrite Hsel. Qed.

(** The first loop of [terminate_all]. *)
Lemma kill_phase ds kill_r :
  Forall slot_ok ds ->
  let '(ds1, tr) := for_slots (kill_slot kill_r) 0 ds in
  omap killed tr = pid <$> active_slots ds /\
  omap waited tr = [] /\
  omap closed tr = event_fd <$> active_slots ds /\
  ds1 = (fun s => if active s =? 1 then set_event_fd (-1) s else s) <$> ds.
Proof.
  intros Hs. assert (forall s, s ∈ ds -> slot_ok s) as Hin
    by (by rewrite Forall_forall in Hs).
  pose proof (for_slots_fst (kill_slot kill_r) 0 ds) as Hds1.
  pose proof (for_slots_snd killed (fun s => if active s =? 1 then [pid s] else [])
    (kill_slot kill_r) 0 ds) as Hk.
  pose proof (for_slots_snd waited (fun _ => []) (kill_slot kill_r) 0 ds) as Hw.
  pose proof (for_slots_snd closed (fun s => if active s =? 1 then [event_fd s] else [])
    (kill_slot kill_r) 0 ds) as Hc.
  destruct (for_slots (kill_slot kill_r) 0 ds) as [ds1 tr]. cbn [fst snd] in *.
  rewrite Hk, Hw, Hc, !mjoin_active by (intros k s ?; by apply kill_slot_trace, Hin).
  split_and!; [done | | done |].
  - clear. by induction ds.
  - rewrite Hds1, <- imap_const. apply imap_ext. intros k s Hk'.
    apply kill_slot_trace, Hin. by eapply list_elem_of_lookup_2.
Qed.

(** The second loop of [terminate_all]. *)
Lemma reap_phase ds wait_r :
  Forall (fun s => (active s = 0 \/ active s = 1) /\ (active s = 1 -> 0 < pid s)) ds ->
  let '(ds1, tr) := for_slots (reap_slot wait_r) 0 ds in
  omap killed tr = [] /\
  omap waited tr = pid <$> active_slots ds /\
  omap closed tr = [] /\
  Forall (fun s => active s = 0) ds1.
Proof.
  intros Hs.
  assert (forall s, s ∈ ds -> (active s = 0 \/ active s = 1) /\ (active s = 1 -> 0 < pid s))
    as Hin by (by rewrite Forall_forall in Hs).
  assert (forall l : list DriverSlot, mjoin ((fun _ => [] : list Z) <$> l) = []) as Hnil
    by (intros l; by induction l).
  pose proof (for_slots_fst (reap_slot wait_r) 0 ds) as Hds1.
  pose proof (for_slots_snd killed (fun _ => []) (reap_slot wait_r) 0 ds) as Hk.
  pose proof (for_slots_snd waited (fun s => if active s =? 1 then [pid s] else [])
    (reap_slot wait_r) 0 ds) as Hw.
  pose proof (for_slots_snd closed (fun _ => []) (reap_slot wait_r) 0 ds) as Hc.
  destruct (for_slots (reap_slot wait_r) 0 ds) as [ds1 tr]. cbn [fst snd] in *.
  rewrite Hk, Hw, Hc, mjoin_active, Hnil by (intros k s [??]%Hin; by apply reap_slot_trace).
  split_and!; [done.. |]. rewrite Hds1. apply Forall_forall. intros t Ht.
  apply list_elem_of_lookup in Ht as [k Hk']. rewrite list_lookup_imap in Hk'.
  apply fmap_Some in Hk' as (s & Hk' & ->).
  destruct (Hin s) as [??]; [by eapply list_elem_of_lookup_2|]. by apply reap_slot_trace.
Qed.

Lemma active_slots_fmap (f : DriverSlot -> DriverSlot) ds :
  (forall s, active (f s) = active s) ->
  active_slots (f <$> ds) = f <$> active_slots ds.
Proof.
  intros Hf. unfold active_slots. induction ds as [|s ds IH]; [done|]. csimpl.
  rewrite !filter_cons, Hf. case_decide; csimpl; by rewrite IH.
Qed.

(** ** What the handlers guarantee to the command interpreter *)

Lemma registry_size_le ds : table_ok ds -> (size (registry ds) <= MAX_DRIVERS)%nat.
Proof.
  intros Hok. rewrite registry_size by apply Hok. rewrite <- (table_length ds Hok).
  clear. induction ds as [|s ds IH]; cbn; [lia|]. destruct (entry s); cbn; lia.
Qed.

Lemma create_driver_table ds efd_r fork_r :
  table_ok ds -> -1 <= ret efd_r -> registry ds !! ret fork_r = None ->
  match create_driver efd_r fork_r ds with
  | Some (Created ds' _) =>
      table_ok ds' /\ dom (registry ds') ⊆ {[ret fork_r]} ∪ dom (registry ds)
  | Some (InChild _) => ret fork_r = 0
  | None => False
  end.
Proof.
  intros Hok He Hfresh. assert (dom (registry ds) ⊆ {[ret fork_r]} ∪ dom (registry ds)) by set_solver.
  unfold create_driver. repeat (case_if; [done|]).
  destruct (free_slot_found ds Hok) as (s0 & Hg & Ha0); [done|].
  destruct (table_fill ds (free_slot ds) s0 (ret fork_r) (ret efd_r)) as [Hok' Hreg];
    try done; [lia..|].
  rewrite aset_is_Some by by eapply aget_lt. cbn. rewrite Hreg, dom_insert_L. done.
Qed.

Lemma send_task_table ds p t w :
  table_ok ds ->
  match send_task w ds p t with
  | Some (ds', _) => table_ok ds' /\ dom (registry ds') = dom (registry ds)
  | None => False
  end.
Proof.
  intros Hok. unfold send_task. pose proof (find_slot_registry ds p Hok) as Hf.
  destruct (registry ds !! p) as [s|] eqn:Hr; [|by rewrite Hf].
  case_if; [done|]. case_if; [done|]. rewrite Hf. cbn [mbind option_bind].
  repeat (case_if; [done|]). cbn [orb] in *. bool_to_prop.
  destruct (registry_slot ds p s Hok Hr) as (_ & _ & _ & _ & _ & _ & Hs).
  destruct (update_own ds p s (set_task_timer t s)) as (ds' & _ & Hset & Hok' & Hr' & _);
    try done; [apply slot_ok_timer; [done | unfold MIN_TASK_TIME in *; lia]|].
  rewrite Hset. cbn [mbind option_bind]. destruct (safe_write _ _ _ _) as [r tr].
  assert (dom (registry ds') = dom (registry ds)).
  { rewrite Hr', dom_insert_L. apply elem_of_dom_2 in Hr. set_solver. }
  by case_if.
Qed.

Lemma get_status_total ds p now : table_ok ds -> is_Some (get_status now ds p).
Proof.
  intros Hok. unfold get_status. pose proof (find_slot_registry ds p Hok) as Hf.
  case_if; [done|]. destruct (registry ds !! p) as [s|]; [|done].
  rewrite Hf. cbn. by case_if.
Qed.

Lemma terminate_all_empty ds shm_fd kill_r wait_r munmap_r unlink_r :
  table_ok ds ->
  registry (terminate_all shm_fd kill_r wait_r munmap_r unlink_r ds).1 = ∅ /\
  last (terminate_all shm_fd kill_r wait_r munmap_r unlink_r ds).2 = Some (Exit 0).
Proof.
  intros Hok. unfold terminate_all.
  pose proof (kill_phase ds kill_r (table_slots ds Hok)) as H1.
  destruct (for_slots (kill_slot kill_r) 0 ds) as [ds1 tr1].
  destruct H1 as (_ & _ & _ & Hd1).
  pose proof (reap_phase ds1 wait_r) as H2.
  destruct (for_slots (reap_slot wait_r) 0 ds1) as [ds2 tr2]. split.
  - apply registry_inactive, H2. rewrite Hd1. apply Forall_fmap.
    eapply Forall_impl; [apply (table_slots ds Hok)|].
    intros s (? & Hp & _). unfold compose. case_if; cbn; intuition lia.
  - cbn [snd]. rewrite !app_comm_cons, !app_assoc.
    match goal with |- last (?l ++ [?a; ?b]) = _ =>
      change (l ++ [a; b]) with (l ++ ([a] ++ [b])); rewrite app_assoc end.
    apply last_snoc.
Qed.

(** ** A concrete table: one driver, with pid 4242 and event descriptor 7 *)

Definition demo_table : list DriverSlot :=
  <[0%nat := new_slot 4242 7]> (replicate MAX_DRIVERS empty_slot).

Definition demo_slot : DriverSlot := new_slot 4242 7.

Lemma demo_table_ok : table_ok demo_table.
Proof.
  apply (table_fill (replicate MAX_DRIVERS empty_slot) 0 empty_slot 4242 7);
    [apply table_ok_empty | done | done | by rewrite registry_empty_slots | lia | lia].
Qed.

Lemma demo_registry : registry demo_table = {[4242 := demo_slot]}.
Proof. vm_compute. reflexivity. Qed.

(** ** Properties *)

(** C1 (functional, refinement).  [create_driver] is the insertion of a fresh
    driver in the registry.  From a table that satisfies the invariant, with a
    pid from [fork] that no active driver has, it returns to the manager with the
    invariant kept; the registry gains exactly the entry of the new driver when a
    slot is free and both [eventfd] and [fork] succeeded, and is otherwise
    unchanged; the event descriptor is closed exactly when [fork] failed after it
    was opened. *)
Theorem create_driver_refines ds efd_r fork_r :
  table_ok ds -> -1 <= ret efd_r -> ret fork_r <> 0 -> registry ds !! ret fork_r = None ->
  exists ds' tr,
    create_driver efd_r fork_r ds = Some (Created ds' tr) /\ table_ok ds' /\
    registry ds' =
      (if bool_decide (size (registry ds) < MAX_DRIVERS)%nat && (0 <=? ret efd_r)
          && (0 <? ret fork_r)
       then <[ret fork_r := new_slot (ret fork_r) (ret efd_r)]> (registry ds)
       else registry ds) /\
    (Close (ret efd_r) ∈ tr <->
       (size (registry ds) < MAX_DRIVERS)%nat /\ 0 <= ret efd_r /\ ret fork_r < 0).
Proof.
  intros Hok He Hf Hfresh. pose proof (free_slot_none ds Hok) as Hfree.
  pose proof (registry_size_le ds Hok) as Hsz.
  unfold create_driver. case_if.
  { eexists ds, _. rewrite bool_decide_false by lia.
    split_and!; [done..|]. split; [not_in_trace | lia]. }
  assert (size (registry ds) < MAX_DRIVERS)%nat by lia. rewrite bool_decide_true by done.
  case_if.
  { eexists ds, _. replace (0 <=? ret efd_r) with false by lia.
    split_and!; [done..|]. split; [not_in_trace | lia]. }
  case_if.
  { eexists ds, _. replace (0 <? ret fork_r) with false by lia. rewrite andb_false_r.
    split_and!; [done..|]. split; [lia | intros _; set_solver]. }
  case_if; [lia|].
  destruct (free_slot_found ds Hok) as (s0 & Hg & Ha0); [done|].
  destruct (table_fill ds (free_slot ds) s0 (ret fork_r) (ret efd_r)) as [Hok' Hreg];
    try done; [lia..|].
  rewrite aset_is_Some by by eapply aget_lt. cbn.
  eexists _, _. split_and!; [done | done | |].
  - replace (0 <=? ret efd_r) with true by lia. by replace (0 <? ret fork_r) with true by lia.
  - split; [not_in_trace | lia].
Qed.

Lemma create_driver_refines_witness :
  exists ds' tr,
    create_driver (mkOs 8 0) (mkOs 5000 0) demo_table = Some (Created ds' tr) /\
    registry ds' = <[5000 := new_slot 5000 8]> (registry demo_table).
Proof.
  destruct (create_driver_refines demo_table (mkOs 8 0) (mkOs 5000 0))
    as (ds' & tr & E & _ & Hr & _).
  - exact demo_table_ok.
  - cbn; lia.
  - cbn; lia.
  - by rewrite demo_registry.
  - exists ds', tr. split; [exact E | rewrite Hr, demo_registry; reflexivity].
Defined.

(** C2 (functional, error).  [send_task] never accesses the table out of bounds,
    keeps the invariant, and changes the registry only when it delivers: to an
    unknown pid it only prints a message; to a driver that is busy, or for a
    duration outside [MIN_TASK_TIME..MAX_TASK_TIME], it leaves the table as it
    was and writes to no event descriptor; otherwise it stores the duration in
    that driver's entry and its first action is to add 1 to that driver's
    event descriptor. *)
Theorem send_task_refines ds p t w :
  table_ok ds ->
  exists ds' tr, send_task w ds p t = Some (ds', tr) /\ table_ok ds' /\
    match registry ds !! p with
    | None => ds' = ds /\ tr = [Out (lit "Driver not found" ++ [NL])]
    | Some s =>
        if (MIN_TASK_TIME <=? t) && (t <=? MAX_TASK_TIME)
           && bool_decide (state s = DRIVER_AVAILABLE)
        then registry ds' = <[p := set_task_timer t s]> (registry ds) /\
             head tr = Some (WriteEvent (event_fd s) 1)
        else ds' = ds /\ forall fd v, WriteEvent fd v ∉ tr
    end.
Proof.
  intros Hok. unfold send_task. destruct (registry ds !! p) as [s|] eqn:Hr.
  - destruct (registry_slot ds p s Hok Hr) as (i & Hi & Hne & Hg & Hact & Hpid & Hs).
    rewrite Hi. rewrite (proj2 (Z.eqb_neq i (-1)) Hne).
    destruct (_ || _) eqn:Hrange.
    { exists ds, []. split_and!; [done | done |]. case_if; [lia|]. split; [done | intros; not_in_trace]. }
    rewrite Hg. cbn [mbind option_bind].
    pose proof Hs as (_ & Hs2 & _). destruct (Hs2 Hact) as [_ Hfd].
    replace (event_fd s <? 0) with false by lia.
    case_bool_decide as Hst.
    { exists ds, [Out (lit "Driver is busy!" ++ [NL])]. split_and!; [done | done |].
      rewrite Hst, andb_false_r. split; [done | intros; not_in_trace]. }
    bool_to_prop.
    destruct (update_own ds p s (set_task_timer t s)) as (ds' & _ & Hset & Hok' & Hr' & _);
      try done; [apply slot_ok_timer; [done | unfold MIN_TASK_TIME in *; lia]|].
    rewrite Hi in Hset. rewrite Hset. cbn [mbind option_bind].
    replace (MIN_TASK_TIME <=? t) with true by lia. replace (t <=? MAX_TASK_TIME) with true by lia.
    rewrite bool_decide_true by (by destruct (state s)). cbn [andb].
    destruct (safe_write _ _ _ _) as [r tr]. case_if; eauto 10.
  - pose proof (find_slot_registry ds p Hok) as Hf. rewrite Hr in Hf. rewrite Hf. eauto 10.
Qed.

Lemma send_task_refines_witness :
  exists ds' tr, send_task (mkOs 8 0) demo_table 4242 60 = Some (ds', tr) /\
    registry ds' = <[4242 := set_task_timer 60 demo_slot]> (registry demo_table).
Proof.
  destruct (send_task_refines demo_table 4242 60 (mkOs 8 0) demo_table_ok)
    as (ds' & tr & E & _ & H).
  rewrite demo_registry in *. destruct H as [Hr _]. exists ds', tr. split; [exact E | exact Hr].
Defined.

(** However many batches of events the driver process
    [self] handles, its loop never accesses the table out of bounds, keeps the
    table invariant and rewrites no slot but its own: the registry it leaves
    differs from the one it found at most in the entry of [self]. *)
Theorem driver_loop_own_slot ds self s efd tfd epfd waits :
  table_ok ds -> registry ds !! self = Some s ->
  Forall (fun r => match r with
                   | WaitEvents evs => Forall (fun '(_, e) => 0 <= ev_now2 e) evs
                   | _ => True
                   end) waits ->
  exists ds' tr s',
    driver_loop self (find_slot ds self) efd tfd epfd waits ds = Some (ds', tr) /\
    table_ok ds' /\ registry ds' = <[self := s']> (registry ds).
Proof.
  intros Hok Hr HF. revert ds s Hok Hr. induction HF as [|r waits Hw HF IH];
    intros ds s Hok Hr; cbn [driver_loop].
  - exists ds, [], s. by rewrite insert_id.
  - destruct r as [| |evs].
    + by eapply IH.
    + eexists ds, _, s. split_and!; [done | done | by rewrite insert_id].
    + destruct (driver_events_own ds self s efd tfd evs) as (ds1 & tr1 & s1 & -> & ? & Hr1 & Hf1);
        try done. cbn [mbind option_bind].
      destruct (IH ds1 s1) as (ds2 & tr2 & s2 & E2 & ? & Hr2);
        [done | by rewrite Hr1, lookup_insert_eq |].
      rewrite Hf1 in E2. rewrite E2. cbn. exists ds2, (tr1 ++ tr2), s2.
      split_and!; [done | done |]. by rewrite Hr2, Hr1, insert_insert_eq.
Qed.

Lemma driver_loop_own_slot_witness :
  exists ds' tr s',
    driver_loop 4242 (find_slot demo_table 4242) 7 9 8
      [WaitIntr; WaitEvents [(7, mkEv (mkOs 8 0) 1000 1000 (mkOs 0 0))]] demo_table
      = Some (ds', tr) /\ registry ds' = <[4242 := s']> (registry demo_table).
Proof.
  destruct (driver_loop_own_slot demo_table 4242 demo_slot 7 9 8
    [WaitIntr; WaitEvents [(7, mkEv (mkOs 8 0) 1000 1000 (mkOs 0 0))]])
    as (ds' & tr & s' & E & _ & Hr).
  - exact demo_table_ok.
  - by rewrite demo_registry.
  - repeat constructor; cbn; lia.
  - exists ds', tr, s'. split; [exact E | exact Hr].
Defined.


