(* ===== verification/DriverCmd.v ===== *)
(** * The driver manager: the command interpreter and the main loop
    ([src/drive_manager/driver_manager.c], lines 652-849)

    Standard input is the list of the bytes still to be read.  The answers of
    the system calls and the effect of the driver processes on the shared table
    between two commands are given per iteration of the main loop. *)

From S2P Require Import Prelude CString Driver DriverProps.

(** ** [process_command] (lines 668-759) *)

Record cmd_env := mkEnv {
  ce_eventfd : os_result;
  ce_fork : os_result;
  ce_write : os_result;
  ce_now : Z;
  ce_kill : nat -> os_result;
  ce_wait : nat -> os_result;
  ce_munmap : os_result;
  ce_unlink : os_result;
}.

(** How a command ends: back in the loop, in [exit] (through [terminate_all]), or
    in the child that [create_driver] forked. *)
Inductive cmd_outcome :=
  | Continue (ds : list DriverSlot) (tr : list action)
  | Exited (ds : list DriverSlot) (tr : list action)
  | Child (efd : Z).

Definition DELIMS : cstr := [SP; TAB].

Definition is_cmd (cmd : cstr) (names : list string) : bool :=
  existsb (fun n => streq cmd (lit n)) names.

Definition usage_send_task : action :=
  Out (lit "Usage: send_task (or sndk) <pid> <time_seconds>" ++ [NL]).
Definition usage_get_status : action :=
  Out (lit "Usage: get_status (or gs) <pid>" ++ [NL]).

Definition help_text : list action :=
  [Out (lit "create_driver (crt)           - Create a new driver" ++ [NL]);
   Out (lit "send_task (sndk) <pid> <sec>  - Send task to driver (1-3600 sec)" ++ [NL]);
   Out (lit "get_status (gs) <pid>         - Get driver status" ++ [NL]);
   Out (lit "get_drivers (gd)              - List all active drivers" ++ [NL]);
   Out (lit "exit(ex or q)                 - Terminate all drivers and exit" ++ [NL]);
   Out (lit "help (h, ?)                   - Show this help message" ++ [NL])].

(** [strtok(NULL, " \t")] on what is left of the line. *)
Definition next_token (rest : cstr) : option cstr * cstr :=
  match strtok DELIMS rest with
  | Some (tok, rest') => (Some tok, rest')
  | None => (None, [])
  end.

Definition cmd_send_task (e : cmd_env) (ds : list DriverSlot) (rest : cstr)
    : option cmd_outcome :=
  let '(pid_str, rest1) := next_token rest in
  let '(time_str, _) := next_token rest1 in
  let usage := Some (Continue ds [usage_send_task]) in
  match pid_str, time_str with
  | Some _, Some _ =>
      match safe_strtol pid_str true 1 INT_MAX with
      | None => usage
      | Some pid_val =>
          match safe_strtol time_str true MIN_TASK_TIME MAX_TASK_TIME with
          | None => usage
          | Some time_val =>
              '(ds', tr) ← send_task (ce_write e) ds pid_val time_val;
              Some (Continue ds' tr)
          end
      end
  | _, _ => usage
  end.

Definition cmd_get_status (e : cmd_env) (ds : list DriverSlot) (rest : cstr)
    : option cmd_outcome :=
  let '(pid_str, _) := next_token rest in
  match pid_str with
  | None => Some (Continue ds [usage_get_status])
  | Some _ =>
      match safe_strtol pid_str true 1 INT_MAX with
      | None => Some (Continue ds [usage_get_status])
      | Some pid_val => tr ← get_status (ce_now e) ds pid_val; Some (Continue ds tr)
      end
  end.

Definition process_command (e : cmd_env) (shm_fd : Z) (ds : list DriverSlot)
    (line : option cstr) : option cmd_outcome :=
  match line with
  | None => Some (Continue ds [])
  | Some l =>
      match strtok DELIMS (trunc MAX_LINE l) with
      | None => Some (Continue ds [])
      | Some (cmd, rest) =>
          if is_cmd cmd ["create_driver"; "crt"]%string then
            o ← create_driver (ce_eventfd e) (ce_fork e) ds;
            Some match o with Created ds' tr => Continue ds' tr | InChild efd => Child efd end
          else if is_cmd cmd ["send_task"; "sndk"]%string then cmd_send_task e ds rest
          else if is_cmd cmd ["get_status"; "gs"]%string then cmd_get_status e ds rest
          else if is_cmd cmd ["get_drivers"; "gd"]%string then
            Some (Continue ds (get_drivers (ce_now e) ds))
          else if is_cmd cmd ["exit"; "ex"; "quit"; "q"]%string then
            let '(ds', tr) := terminate_all shm_fd (ce_kill e) (ce_wait e)
                                (ce_munmap e) (ce_unlink e) ds in
            Some (Exited ds' tr)
          else if is_cmd cmd ["help"; "h"; "?"]%string then Some (Continue ds help_text)
          else Some (Continue ds [Out (lit "Type 'help' for available commands" ++ [NL])])
      end
  end.

(** ** [read_command_line] (lines 772-797)

    [None] is the return value [-1].  [read_error] says that the read of
    standard input fails with an error instead of delivering bytes. *)
Definition strip_newline (s : cstr) : cstr :=
  match last s with
  | Some c => if c =? NL then take (length s - 1) s else s
  | None => s
  end.

Definition read_command_line (buffer_not_null : bool) (size : nat) (read_error : bool)
    (input : list byte) : option cstr * list byte * list action :=
  if negb buffer_not_null || (size =? 0)%nat then (None, input, [])
  else if read_error then (None, input, [Perror (lit "fgets")])
  else match fgets size input with
  | None => (None, input, [])
  | Some (raw, rest) => (Some (strip_newline (c_str raw)), rest, [])
  end.

(** ** [main] (lines 810-849) *)

Inductive run :=
  | Finished (ds : list DriverSlot) (tr : list action)
  | BecameDriver (efd : Z)
  | Undefined
  | OutOfFuel.

(** The bounded scan of lines 829-839. *)
Definition is_empty (line : cstr) : bool :=
  forallb (fun c => (c =? SP) || (c =? TAB)) line.

(** [others k] is what the driver processes did to the table before the
    [k]-th command; [err k] says that the [k]-th read fails. *)
Record manager_env := mkManagerEnv {
  me_cmd : nat -> cmd_env;
  me_err : nat -> bool;
  me_others : nat -> list DriverSlot -> list DriverSlot;
}.

Fixpoint main_loop (fuel : nat) (me : manager_env) (shm_fd : Z) (k : nat)
    (input : list byte) (ds : list DriverSlot) (tr : list action) : run :=
  match fuel with
  | O => OutOfFuel
  | S fuel' =>
      let ds := me_others me k ds in
      let e := me_cmd me k in
      let tr := tr ++ [Out (NL :: lit "> ")] in
      match read_command_line true MAX_LINE (me_err me k) input with
      | (None, _, tr1) =>
          let '(ds', tr2) := terminate_all shm_fd (ce_kill e) (ce_wait e)
                               (ce_munmap e) (ce_unlink e) ds in
          Finished ds' (tr ++ tr1 ++ Out [NL] :: tr2)
      | (Some line, rest, tr1) =>
          if is_empty line then main_loop fuel' me shm_fd (S k) rest ds (tr ++ tr1)
          else match process_command e shm_fd ds (Some line) with
          | None => Undefined
          | Some (Continue ds' tr2) =>
              main_loop fuel' me shm_fd (S k) rest ds' (tr ++ tr1 ++ tr2)
          | Some (Exited ds' tr2) => Finished ds' (tr ++ tr1 ++ tr2)
          | Some (Child efd) => BecameDriver efd
          end
      end
  end.

Definition main (fuel : nat) (shm_open ftruncate mmap : os_result) (mutex_init : nat -> Z)
    (me : manager_env) (input : list byte) : run :=
  match init_shm shm_open ftruncate mmap mutex_init with
  | InitExit tr => Finished [] tr
  | InitOk ds =>
      main_loop fuel me (ret shm_open) 0 input ds
        [Out (lit "Type 'help' for available commands" ++ [NL])]
  end.

(** ** Lemmas: conversions *)

Lemma safe_strtol_range s b lo hi v : safe_strtol s b lo hi = Some v -> lo <= v <= hi.
Proof.
  unfold safe_strtol. destruct s; [|done]. repeat (case_if; [done|]).
  intros [= <-]. lia.
Qed.

Lemma safe_strtol_dec z lo hi rest :
  LONG_MIN <= z <= LONG_MAX ->
  match rest with [] => True | c :: _ => isdigit c = false end ->
  safe_strtol (Some (dec z ++ rest)) true lo hi =
    if (lo <=? z) && (z <=? hi) then Some z else None.
Proof.
  intros Hz Hr. unfold safe_strtol. rewrite strtol_dec by done. cbn.
  destruct (length (dec z)) eqn:E; [by destruct (dec_nonempty z), (dec z)|].
  cbn. repeat case_if; done || lia.
Qed.

Lemma dec_not_delim z : Forall (fun c => c ∉ DELIMS) (dec z).
Proof.
  eapply Forall_impl; [apply dec_not_space|]. intros c [Hc _] Hin.
  unfold DELIMS in Hin. apply elem_of_cons in Hin as [->|Hin]; [done|].
  apply elem_of_cons in Hin as [->|Hin]; [done|]. by apply not_elem_of_nil in Hin.
Qed.

Lemma next_token_dec z rest :
  match rest with [] => True | c :: _ => c ∈ DELIMS end ->
  next_token (dec z ++ rest) = (Some (dec z), drop 1 rest).
Proof.
  intros Hr. unfold next_token. rewrite strtok_token; [done | | | done].
  - apply dec_nonempty.
  - apply dec_not_delim.
Qed.

(** A command word followed by a delimiter is the first token of the line. *)
Lemma command_word (w : cstr) rest :
  w <> [] -> Forall (fun c => c ∉ DELIMS) w ->
  (length w + length rest + 1 < MAX_LINE)%nat ->
  strtok DELIMS (trunc MAX_LINE (w ++ SP :: rest)) = Some (w, rest).
Proof.
  intros Hne HF Hl. rewrite trunc_id by (rewrite length_app; cbn; lia).
  rewrite strtok_token; [done | done | done |]. unfold DELIMS. apply list_elem_of_here.
Qed.

(** ** Lemmas: the interpreter keeps the invariant *)

(** What the system guarantees about one command: descriptors are not below -1,
    and [fork] does not return the pid of a driver that is still registered. *)
Definition env_ok (e : cmd_env) (ds : list DriverSlot) : Prop :=
  -1 <= ret (ce_eventfd e) /\ registry ds !! ret (ce_fork e) = None.

Lemma process_command_outcome e shm_fd ds line :
  table_ok ds -> env_ok e ds ->
  match process_command e shm_fd ds line with
  | Some (Continue ds' _) =>
      table_ok ds' /\ dom (registry ds') ⊆ {[ret (ce_fork e)]} ∪ dom (registry ds)
  | Some (Exited ds' tr) => registry ds' = ∅ /\ last tr = Some (Exit 0)
  | Some (Child _) => ret (ce_fork e) = 0
  | None => False
  end.
Proof.
  intros Hok [He Hf].
  assert (dom (registry ds) ⊆ {[ret (ce_fork e)]} ∪ dom (registry ds)) as Hsub by set_solver.
  unfold process_command. destruct line as [l|]; [|done].
  destruct (strtok DELIMS (trunc MAX_LINE l)) as [[cmd rest]|]; [|done].
  case_if.
  { pose proof (create_driver_table ds (ce_eventfd e) (ce_fork e) Hok He Hf) as H.
    destruct (create_driver _ _ _) as [[|]|]; done. }
  case_if.
  { unfold cmd_send_task. destruct (next_token rest) as [o1 r1], (next_token r1) as [o2 r2].
    destruct o1, o2; [|done..].
    destruct (safe_strtol _ _ _ _) as [p|]; [|done].
    destruct (safe_strtol _ _ MIN_TASK_TIME _) as [t|]; [|done].
    pose proof (send_task_table ds p t (ce_write e) Hok) as H.
    destruct (send_task _ _ _ _) as [[ds' tr]|]; [|done]. cbn. destruct H as [? ->]. done. }
  case_if.
  { unfold cmd_get_status. destruct (next_token rest) as [o1 r1]. destruct o1; [|done].
    destruct (safe_strtol _ _ _ _) as [p|]; [|done].
    destruct (get_status_total ds p (ce_now e) Hok) as [tr ->]. done. }
  case_if; [done|]. case_if; [|by case_if].
  pose proof (terminate_all_empty ds shm_fd (ce_kill e) (ce_wait e) (ce_munmap e)
    (ce_unlink e) Hok) as H.
  by destruct (terminate_all _ _ _ _ _ _).
Qed.

Lemma read_command_line_progress err input line rest tr :
  read_command_line true MAX_LINE err input = (Some line, rest, tr) ->
  (length rest < length input)%nat.
Proof.
  unfold read_command_line. cbn [negb orb]. case_if; [done|]. case_if; [done|].
  destruct (fgets MAX_LINE input) as [[raw r]|] eqn:E; [|done]. intros [= _ <- _].
  apply fgets_progress in E; [done | unfold MAX_LINE; lia].
Qed.

(** ** The main loop under the guarantees of the system *)

(** What the manager relies on in all its iterations: descriptors are not below
    -1; [fork] returns in the parent, with a pid it has not returned before (the
    children are not reaped before the end, so their pids are not reused); the
    driver processes keep the table invariant and the set of registered
    drivers. *)
Record manager_env_ok (me : manager_env) : Prop := {
  me_eventfd : forall k, -1 <= ret (ce_eventfd (me_cmd me k));
  me_parent : forall k, ret (ce_fork (me_cmd me k)) <> 0;
  me_fresh : forall j k, (j < k)%nat -> 0 < ret (ce_fork (me_cmd me k)) ->
    ret (ce_fork (me_cmd me j)) <> ret (ce_fork (me_cmd me k));
  me_rely : forall k ds, table_ok ds ->
    table_ok (me_others me k ds) /\
    dom (registry (me_others me k ds)) = dom (registry ds);
}.

(** Before the [k]-th command every registered pid came from an earlier [fork]. *)
Definition from_forks (me : manager_env) (k : nat) (ds : list DriverSlot) : Prop :=
  forall p, p ∈ dom (registry ds) -> exists j, (j < k)%nat /\ p = ret (ce_fork (me_cmd me j)).

Section main_loop.
Context (me : manager_env) (Hme : manager_env_ok me) (shm_fd : Z).

Lemma from_forks_env_ok k ds :
  table_ok ds -> from_forks me k ds -> env_ok (me_cmd me k) ds.
Proof.
  intros Hok Hff. split; [apply me_eventfd, Hme|].
  destruct (registry ds !! _) as [s|] eqn:E; [exfalso|done].
  destruct (Hff (ret (ce_fork (me_cmd me k)))) as (j & Hj & Hp); [by eapply elem_of_dom_2|].
  apply (me_fresh me Hme j k Hj); [|done].
  destruct (registry_slot ds _ s Hok E) as (_ & _ & _ & _ & Ha & Hpid & (_ & Hpos & _)).
  destruct (Hpos Ha) as [? _]. lia.
Qed.

Lemma from_forks_step k ds ds' :
  from_forks me k ds ->
  dom (registry ds') ⊆ {[ret (ce_fork (me_cmd me k))]} ∪ dom (registry ds) ->
  from_forks me (S k) ds'.
Proof.
  intros Hff Hsub p Hp. apply Hsub, elem_of_union in Hp as [Hp|Hp].
  - apply elem_of_singleton in Hp. exists k. split; [lia | done].
  - destruct (Hff p Hp) as (j & ? & ?). exists j. split; [lia | done].
Qed.

Lemma main_loop_finishes fuel k input ds tr :
  (length input < fuel)%nat -> table_ok ds -> from_forks me k ds ->
  exists ds' tr', main_loop fuel me shm_fd k input ds tr = Finished ds' tr' /\
    registry ds' = ∅ /\ last tr' = Some (Exit 0).
Proof.
  revert k input ds tr. induction fuel as [|fuel IH]; intros k input ds tr Hl Hok0 Hff0; [lia|].
  cbn [main_loop]. destruct (me_rely me Hme k ds Hok0) as [Hok Hdom].
  assert (from_forks me k (me_others me k ds)) as Hff
    by (intros p; rewrite Hdom; apply Hff0).
  destruct (read_command_line true MAX_LINE (me_err me k) input) as [[[line|] rest] tr1] eqn:Hread.
  - apply read_command_line_progress in Hread. case_if.
    { apply IH; [lia | done |]. eapply from_forks_step; [done | set_solver]. }
    pose proof (process_command_outcome (me_cmd me k) shm_fd _ (Some line) Hok
      (from_forks_env_ok k _ Hok Hff)) as Hpc.
    destruct (process_command _ _ _ _) as [[ds' tr2|ds' tr2|efd]|]; [..|done].
    + destruct Hpc as [??]. apply IH; [lia | done |]. by eapply from_forks_step.
    + destruct Hpc as [? Hlast]. eexists _, _. split_and!; [done | done |].
      rewrite !app_assoc. by rewrite last_app, Hlast.
    + by destruct (me_parent me Hme k).
  - pose proof (terminate_all_empty _ shm_fd (ce_kill (me_cmd me k)) (ce_wait (me_cmd me k))
      (ce_munmap (me_cmd me k)) (ce_unlink (me_cmd me k)) Hok) as [He Hlast].
    destruct (terminate_all _ _ _ _ _ _) as [ds' tr2]. cbn [fst snd] in *.
    eexists _, _. split_and!; [done | done |].
    change (Out [NL] :: tr2) with ([Out [NL]] ++ tr2). rewrite !app_assoc.
    by rewrite last_app, Hlast.
Qed.

End main_loop.

(** ** A concrete environment

    [fork] returns 4242, 4243, ...; the other calls succeed; the drivers leave the
    table alone. *)
Definition demo_env (k : nat) : cmd_env :=
  mkEnv (mkOs 7 0) (mkOs (4242 + Z.of_nat k) 0) (mkOs 8 0) 1000
    (fun _ => mkOs 0 0) (fun _ => mkOs 1 0) (mkOs 0 0) (mkOs 0 0).
Definition demo_manager : manager_env := mkManagerEnv demo_env (fun _ => false) (fun _ ds => ds).

Lemma demo_manager_ok : manager_env_ok demo_manager.
Proof. split; cbn; intros; lia || done. Qed.

(** ** Properties *)

(** [safe_strtol] reads back what the program prints: on
    the decimal form of a [long], followed by nothing or by something that is not
    a digit, it returns the value exactly when it lies in the requested range,
    and whatever the input, a value it returns lies in that range. *)
Theorem safe_strtol_correct z lo hi rest s b v :
  (LONG_MIN <= z <= LONG_MAX ->
   match rest with [] => True | c :: _ => isdigit c = false end ->
   safe_strtol (Some (dec z ++ rest)) true lo hi =
     if (lo <=? z) && (z <=? hi) then Some z else None) /\
  (safe_strtol s b lo hi = Some v -> lo <= v <= hi).
Proof. split; [apply safe_strtol_dec | apply safe_strtol_range]. Qed.

Lemma safe_strtol_correct_witness :
  safe_strtol (Some (lit "3600 x")) true 1 3600 = Some 3600 /\ 1 <= 3600 <= 3600.
Proof.
  split.
  - apply (safe_strtol_correct 3600 1 3600 (lit " x") None true 0); [|done].
    vm_compute. split; discriminate.
  - apply (safe_strtol_correct 0 1 3600 [] (Some (lit "3600")) true 3600). reflexivity.
Defined.

(** C29 (type).  The shared table stays well formed (32 slots, flags that are 0 or 1, active slots with a pid and a
    descriptor, task times in their range, no two active slots with one pid) under every operation on it: whatever
    line is typed, the interpreter does nothing undefined and leaves a well-formed table whose drivers were
    there before or have just been forked, an empty one if it exits, and only the
    forked child goes on as a driver; and whatever events a driver gets, it leaves a well-formed
    table in which at most its own entry has changed. *)
Theorem shared_table_well_formed ds :
  table_ok ds ->
  (forall e shm_fd line, env_ok e ds ->
     match process_command e shm_fd ds line with
     | Some (Continue ds' _) => table_ok ds' /\ dom (registry ds') ⊆ {[ret (ce_fork e)]} ∪ dom (registry ds)
     | Some (Exited ds' _) => registry ds' = ∅
     | Some (Child _) => ret (ce_fork e) = 0
     | None => False
     end) /\
  (forall self s efd tfd evs, registry ds !! self = Some s -> Forall (fun '(_, e) => 0 <= ev_now2 e) evs ->
     exists ds' tr s', driver_events self (find_slot ds self) efd tfd evs ds = Some (ds', tr) /\
       table_ok ds' /\ registry ds' = <[self := s']> (registry ds)).
Proof.
  intros Hok. split.
  - intros e shm_fd line He. pose proof (process_command_outcome e shm_fd ds line Hok He) as H.
    destruct (process_command e shm_fd ds line) as [[]|]; try done. by destruct H.
  - intros self s efd tfd evs Hr HF.
    destruct (driver_events_own ds self s efd tfd evs Hok Hr HF) as (ds' & tr & s' & ? & ? & ? & _). by exists ds', tr, s'.
Qed.

Lemma shared_table_well_formed_witness :
  exists ds' tr s',
    driver_events 4242 (find_slot demo_table 4242) 7 9 [(7, mkEv (mkOs 8 0) 1000 1000 (mkOs 0 0))] demo_table = Some (ds', tr) /\
    table_ok ds' /\ registry ds' = <[4242 := s']> (registry demo_table).
Proof.
  refine (proj2 (shared_table_well_formed demo_table demo_table_ok) 4242 demo_slot 7 9 _ _ _).
  - by rewrite demo_registry.
  - repeat constructor; cbn; lia.
Defined.

(** The line [send_task <pid> <sec>], for a pid of
    type [int] and any duration of type [int], is parsed back to that pid and
    that duration: the command is the call [send_task(pid, sec)] when the
    duration is in [MIN_TASK_TIME..MAX_TASK_TIME], and otherwise prints the usage
    line and leaves the table alone.  The short form [sndk] is the same
    command. *)
Theorem send_task_command e shm_fd ds (w : string) p t :
  w = "send_task"%string \/ w = "sndk"%string ->
  1 <= p <= INT_MAX -> 0 <= t <= INT_MAX ->
  process_command e shm_fd ds (Some (lit w ++ SP :: dec p ++ SP :: dec t)) =
    if (MIN_TASK_TIME <=? t) && (t <=? MAX_TASK_TIME) then
      '(ds', tr) ← send_task (ce_write e) ds p t; Some (Continue ds' tr)
    else Some (Continue ds [usage_send_task]).
Proof.
  intros Hw Hp Ht. unfold process_command.
  assert (SP ∈ DELIMS) as Hsp by apply list_elem_of_here.
  pose proof (length_dec_int p ltac:(lia)). pose proof (length_dec_int t ltac:(lia)).
  rewrite command_word.
  - assert (cmd_send_task e ds (dec p ++ SP :: dec t) =
      if (MIN_TASK_TIME <=? t) && (t <=? MAX_TASK_TIME) then
        '(ds', tr) ← send_task (ce_write e) ds p t; Some (Continue ds' tr)
      else Some (Continue ds [usage_send_task])) as E.
    { unfold cmd_send_task. rewrite next_token_dec by done.
      change (drop 1 (SP :: dec t)) with (dec t).
      pose proof (next_token_dec t [] I) as Ht'. rewrite app_nil_r in Ht'. rewrite Ht'.
      unfold INT_MAX in *.
      pose proof (safe_strtol_dec p 1 2147483647 []) as Ep. rewrite app_nil_r in Ep.
      pose proof (safe_strtol_dec t MIN_TASK_TIME MAX_TASK_TIME []) as Et.
      rewrite app_nil_r in Et. rewrite Ep by (done || unfold LONG_MIN, LONG_MAX; lia).
      replace (1 <=? p) with true by lia. replace (p <=? 2147483647) with true by lia.
      cbn [andb]. rewrite Et by (done || unfold LONG_MIN, LONG_MAX; lia). by case_if. }
    by destruct Hw as [-> | ->].
  - by destruct Hw as [-> | ->].
  - destruct Hw as [-> | ->]; (apply (bool_decide_unpack _); vm_compute; done).
  - rewrite length_app. cbn [length]. unfold MAX_LINE.
    destruct Hw as [-> | ->]; cbn; lia.
Qed.

Lemma send_task_command_witness :
  process_command (demo_env 0) 3 demo_table (Some (lit "sndk 4242 60")) =
    Some (Continue (<[0%nat := set_task_timer 60 (new_slot 4242 7)]> demo_table)
      [WriteEvent 7 1; Out (lit "Task sent to PID=4242 for 60 sec" ++ [NL])]).
Proof.
  refine (eq_trans (send_task_command (demo_env 0) 3 demo_table "sndk" 4242 60 _ _ _) _).
  - right; reflexivity.
  - vm_compute; split; discriminate.
  - vm_compute; split; discriminate.
  - vm_compute. reflexivity.
Defined.

(** C37 (safety, termination).  The manager always comes to an orderly end.  For
    every content of standard input (which ends), every outcome of the system
    calls of [init_shm] and any answers of the later calls that respect
    [manager_env_ok], one iteration per input byte plus one is enough fuel for
    [main]: it reaches [exit] without an out-of-bounds access, no driver is left
    in the table, and the exit status is 0 exactly when the shared memory was set
    up. *)
Theorem main_terminates fuel shm_open ftruncate mmap mutex_init me input :
  manager_env_ok me -> (length input < fuel)%nat ->
  exists ds tr,
    main fuel shm_open ftruncate mmap mutex_init me input = Finished ds tr /\
    registry ds = ∅ /\
    last tr = Some (Exit (match init_shm shm_open ftruncate mmap mutex_init with
                          | InitOk _ => 0 | InitExit _ => 1 end)).
Proof.
  intros Hme Hl. unfold main.
  destruct (init_shm shm_open ftruncate mmap mutex_init) as [ds|tr] eqn:Hi.
  - assert (ds = replicate MAX_DRIVERS empty_slot) as ->.
    { unfold init_shm in Hi. repeat (case_if; [done|]).
      destruct (init_slots _ _ _ _) eqn:E; [|done]. simplify_eq.
      by apply init_slots_inl in E. }
    apply main_loop_finishes; [done | done | apply table_ok_empty |].
    intros p. rewrite registry_empty_slots, dom_empty_L. set_solver.
  - exists [], tr. split_and!; [done | done |]. unfold init_shm in Hi.
    repeat (case_if; [by simplify_eq|]). destruct (init_slots _ _ _ _); by simplify_eq.
Qed.

Lemma main_terminates_witness :
  exists ds tr,
    main 20 (mkOs 3 0) (mkOs 0 0) (mkOs 1 0) (fun _ => 0) demo_manager (lit "crt" ++ [NL])
      = Finished ds tr /\ registry ds = ∅ /\ last tr = Some (Exit 0).
Proof.
  apply (main_terminates 20 (mkOs 3 0) (mkOs 0 0) (mkOs 1 0) (fun _ => 0) demo_manager
    (lit "crt" ++ [NL])); [exact demo_manager_ok | vm_compute; lia].
Defined.
