(* ===== verification/DriverSystem.v ===== *)
(** * The driver manager as a concurrent system

    The manager and the driver processes share the slot table.  A configuration
    holds the table, where each process stands in its code, the counters of the
    event descriptors, the armed timers and the clock; a step is one atomic
    section of one process: a section under the slot's mutex, or a single system
    call.  The interleavings of these steps are the executions of
    [create_driver], [send_task] and [driver_loop] running in parallel.

    Time only grows; [time()] and the timer's clock are the same clock. *)

From S2P Require Import Prelude CString Driver DriverProps.

(** ** Configurations *)

(** Where the manager stands (lines 414-502). *)
Inductive mgr_pc :=
  | MIdle
  | MForked (slot efd p : Z)    (** between [fork] and the stores of [create_driver] *)
  | MChecked (idx p t : Z)      (** in [send_task], after the tests of lines 475-491 *)
  | MStored (idx p t : Z).      (** in [send_task], after the unlock of line 495 *)

(** Where a driver process stands in [driver_loop] (lines 225-344). *)
Inductive drv_pc :=
  | DStart                      (** before [find_slot] *)
  | DWait (idx : Z)             (** in [epoll_wait] *)
  | DNotified (idx : Z)         (** the event descriptor was read *)
  | DArm (idx t : Z)            (** task accepted, before [timerfd_settime] *)
  | DExpired (idx : Z)          (** the timer was read *)
  | DGone.                      (** exited *)

Record drv := mkDrv { d_efd : Z; d_pc : drv_pc; d_timer : option Z }.

Record sys := mkSys {
  s_ds : list DriverSlot;
  s_mgr : mgr_pc;
  s_drv : gmap Z drv;
  s_efd : gmap Z Z;
  s_now : Z;
}.

(** What an execution shows of the tasks. *)
Inductive label :=
  | Tau
  | Stored (p t : Z)            (** the manager stored duration [t] for driver [p] *)
  | Sent (p t : Z)              (** ... and notified the driver *)
  | Armed (p t : Z)             (** driver [p] armed its timer for [t] seconds *)
  | Completed (p : Z).

#[export] Instance label_eq_dec : EqDecision label.
Proof. solve_decision. Defined.

(** The labels that show what became of a task. *)
Definition task_label (l : label) : bool :=
  match l with Sent _ _ | Armed _ _ | Completed _ => true | _ => false end.

Definition set_pc (d : drv) (pc : drv_pc) : drv := mkDrv (d_efd d) pc (d_timer d).
Definition set_timer (d : drv) (pc : drv_pc) (e : option Z) : drv := mkDrv (d_efd d) pc e.

(** ** Steps *)

Inductive step : sys -> label -> sys -> Prop :=
  | step_fork ds drvs efds now i efd p :
      free_slot ds = i -> i <> -1 ->
      0 <= efd -> efds !! efd = None -> 0 < p -> drvs !! p = None ->
      step (mkSys ds MIdle drvs efds now) Tau
        (mkSys ds (MForked i efd p) (<[p := mkDrv efd DStart None]> drvs)
           (<[efd := 0]> efds) now)
  | step_publish ds ds' drvs efds now i efd p :
      aset ds i (new_slot p efd) = Some ds' ->
      step (mkSys ds (MForked i efd p) drvs efds now) Tau (mkSys ds' MIdle drvs efds now)
  | step_check ds drvs efds now idx p t s :
      find_slot ds p = idx -> idx <> -1 -> MIN_TASK_TIME <= t <= MAX_TASK_TIME ->
      aget ds idx = Some s -> 0 <= event_fd s -> state s <> DRIVER_BUSY ->
      step (mkSys ds MIdle drvs efds now) Tau (mkSys ds (MChecked idx p t) drvs efds now)
  | step_store ds ds' drvs efds now idx p t s :
      aget ds idx = Some s -> aset ds idx (set_task_timer t s) = Some ds' ->
      step (mkSys ds (MChecked idx p t) drvs efds now) (Stored p t)
        (mkSys ds' (MStored idx p t) drvs efds now)
  | step_write ds drvs efds now idx p t s c :
      aget ds idx = Some s -> efds !! event_fd s = Some c ->
      step (mkSys ds (MStored idx p t) drvs efds now) (Sent p t)
        (mkSys ds MIdle drvs (<[event_fd s := c + 1]> efds) now)
  | step_start ds mgr drvs efds now p d idx :
      drvs !! p = Some d -> d_pc d = DStart -> find_slot ds p = idx -> idx <> -1 ->
      step (mkSys ds mgr drvs efds now) Tau
        (mkSys ds mgr (<[p := set_pc d (DWait idx)]> drvs) efds now)
  | step_start_fail ds mgr drvs efds now p d :
      drvs !! p = Some d -> d_pc d = DStart -> find_slot ds p = -1 ->
      step (mkSys ds mgr drvs efds now) Tau
        (mkSys ds mgr (<[p := set_pc d DGone]> drvs) efds now)
  | step_read ds mgr drvs efds now p d idx c :
      drvs !! p = Some d -> d_pc d = DWait idx -> efds !! d_efd d = Some c -> 0 < c ->
      step (mkSys ds mgr drvs efds now) Tau
        (mkSys ds mgr (<[p := set_pc d (DNotified idx)]> drvs) (<[d_efd d := 0]> efds) now)
  | step_accept ds ds' mgr drvs efds now now2 p d idx s s' armed :
      drvs !! p = Some d -> d_pc d = DNotified idx -> aget ds idx = Some s ->
      now <= now2 -> accept_task now now2 s = (s', armed) -> aset ds idx s' = Some ds' ->
      step (mkSys ds mgr drvs efds now) Tau
        (mkSys ds' mgr
           (<[p := set_pc d match armed with Some t => DArm idx t | None => DWait idx end]> drvs)
           efds now2)
  | step_arm ds mgr drvs efds now p d idx t :
      drvs !! p = Some d -> d_pc d = DArm idx t ->
      step (mkSys ds mgr drvs efds now) (Armed p t)
        (mkSys ds mgr (<[p := set_timer d (DWait idx) (Some (now + t))]> drvs) efds now)
  | step_expire ds mgr drvs efds now p d idx e :
      drvs !! p = Some d -> d_pc d = DWait idx -> d_timer d = Some e -> e <= now ->
      step (mkSys ds mgr drvs efds now) Tau
        (mkSys ds mgr (<[p := set_timer d (DExpired idx) None]> drvs) efds now)
  | step_complete ds ds' mgr drvs efds now p d idx s :
      drvs !! p = Some d -> d_pc d = DExpired idx -> aget ds idx = Some s ->
      aset ds idx (complete_task s) = Some ds' ->
      step (mkSys ds mgr drvs efds now) (Completed p)
        (mkSys ds' mgr (<[p := set_pc d (DWait idx)]> drvs) efds now)
  | step_tick ds mgr drvs efds now now2 :
      now <= now2 ->
      step (mkSys ds mgr drvs efds now) Tau (mkSys ds mgr drvs efds now2).

(** Executions: the labels of the steps, oldest first. *)
Inductive exec : sys -> list label -> sys -> Prop :=
  | exec_refl σ : exec σ [] σ
  | exec_step σ1 tr σ2 l σ3 : exec σ1 tr σ2 -> step σ2 l σ3 -> exec σ1 (tr ++ [l]) σ3.

Definition init_sys (now : Z) : sys :=
  mkSys (replicate MAX_DRIVERS empty_slot) MIdle ∅ ∅ now.

(** ** The invariant *)

(** What the slot of a driver says, given where the driver stands. *)
Definition drv_ok (now : Z) (d : drv) (s : DriverSlot) : Prop :=
  match d_pc d with
  | DStart | DGone =>
      state s = DRIVER_AVAILABLE /\ busy_until s = 0 /\ d_timer d = None
  | DWait _ | DNotified _ =>
      match d_timer d with
      | None => state s = DRIVER_AVAILABLE /\ busy_until s = 0
      | Some e => state s = DRIVER_BUSY /\ busy_until s <= e <= now + MAX_TASK_TIME
      end
  | DArm _ t =>
      state s = DRIVER_BUSY /\ busy_until s <= now + t /\ 1 <= t <= MAX_TASK_TIME
  | DExpired _ =>
      state s = DRIVER_BUSY /\ busy_until s <= now /\ d_timer d = None
  end.

(** The index a running driver uses. *)
Definition pc_idx (pc : drv_pc) : option Z :=
  match pc with
  | DStart | DGone => None
  | DWait i | DNotified i | DArm i _ | DExpired i => Some i
  end.

(** Driver [q] owns slot [j]. *)
Definition has_slot (ds : list DriverSlot) (q j : Z) : Prop :=
  exists t, aget ds j = Some t /\ registry ds !! q = Some t.

Definition mgr_ok (σ : sys) : Prop :=
  match s_mgr σ with
  | MIdle => True
  | MForked i efd p =>
      (exists s, aget (s_ds σ) i = Some s /\ active s = 0) /\
      registry (s_ds σ) !! p = None /\ 0 < p /\ 0 <= efd /\ is_Some (s_efd σ !! efd) /\
      exists d, s_drv σ !! p = Some d /\ d_efd d = efd /\ pc_idx (d_pc d) = None /\
        d_timer d = None
  | MChecked i p t | MStored i p t =>
      MIN_TASK_TIME <= t <= MAX_TASK_TIME /\
      has_slot (s_ds σ) p i
  end.

Record Inv (σ : sys) : Prop := {
  inv_now : 0 <= s_now σ;
  inv_table : table_ok (s_ds σ);
  inv_mgr : mgr_ok σ;
  inv_pos : forall p d, s_drv σ !! p = Some d -> 0 < p;
  inv_reg : forall p s, registry (s_ds σ) !! p = Some s ->
    exists d, s_drv σ !! p = Some d /\ d_efd d = event_fd s /\
      is_Some (s_efd σ !! event_fd s) /\ drv_ok (s_now σ) d s;
  inv_drv : forall p d i, s_drv σ !! p = Some d -> pc_idx (d_pc d) = Some i ->
    has_slot (s_ds σ) p i;
}.

(** ** Lemmas *)

(** Reduce the projections of an explicit configuration. *)
Ltac sys_simpl := unfold mgr_ok in *; cbn [s_ds s_mgr s_drv s_efd s_now] in *.

Lemma drv_ok_later now now2 d s : now <= now2 -> drv_ok now d s -> drv_ok now2 d s.
Proof.
  unfold drv_ok. intros Hn. destruct (d_pc d); [tauto| | |intuition lia|intuition lia|tauto];
    destruct (d_timer d); intuition lia.
Qed.

Lemma slot_of_registry ds i s p :
  table_ok ds -> aget ds i = Some s -> registry ds !! p = Some s ->
  find_slot ds p = i /\ active s = 1 /\ pid s = p /\ slot_ok s.
Proof.
  intros Hok Hg Hr. destruct (registry_slot ds p s Hok Hr) as (j & Hj & _ & Hg' & Ha & Hp & Hs).
  split_and!; try done. rewrite <- Hp. by apply find_slot_complete.
Qed.

(** Rewriting the slot of driver [p]: the table that results. *)
Lemma update_slot ds ds' i s s' p :
  table_ok ds -> aget ds i = Some s -> registry ds !! p = Some s ->
  slot_ok s' -> active s' = active s -> pid s' = pid s -> aset ds i s' = Some ds' ->
  table_ok ds' /\ registry ds' = <[p := s']> (registry ds) /\ aget ds' i = Some s' /\
  (forall j t, aget ds j = Some t -> t <> s -> aget ds' j = Some t).
Proof.
  intros Hok Hg Hr Hs' Ha Hp Hset.
  destruct (slot_of_registry ds i s p Hok Hg Hr) as (Hi & Hact & Hpid & _).
  destruct (update_own ds p s s') as (ds'' & _ & Hset' & ? & ? & _); try done.
  rewrite Hi in Hset'. assert (ds'' = ds') as -> by congruence. split_and!; [done.. | by eapply aget_aset_eq |].
  intros j t Hj Hne. rewrite (aget_aset_ne ds ds' i j s'); [done | congruence | done].
Qed.

Lemma aset_id {A} (l : list A) i x : aget l i = Some x -> aset l i x = Some l.
Proof.
  intros Hg. rewrite aset_is_Some by by eapply aget_lt.
  apply aget_Some in Hg as [_ Hg]. by rewrite list_insert_id.
Qed.

Lemma has_slot_update ds ds' i s s' p q j :
  table_ok ds -> aget ds i = Some s -> registry ds !! p = Some s ->
  slot_ok s' -> active s' = active s -> pid s' = pid s -> aset ds i s' = Some ds' ->
  has_slot ds q j -> has_slot ds' q j.
Proof.
  intros Hok Hg Hr Hs' Ha Hp Hset (t & Hj & Hq).
  destruct (update_slot ds ds' i s s' p) as (_ & Hr' & Hg' & Hother); try done.
  destruct (slot_of_registry ds i s p Hok Hg Hr) as (Hi & _ & Hpid & _).
  destruct (slot_of_registry ds j t q Hok Hj Hq) as (Hi' & _ & Hqid & _).
  destruct (decide (p = q)) as [<-|Hne].
  - assert (i = j) as <- by congruence. exists s'. by rewrite Hr', lookup_insert_eq.
  - exists t. split; [apply Hother; [done | congruence]|].
    by rewrite Hr', lookup_insert_ne.
Qed.

(** A driver moves on and rewrites its own slot: the invariant is kept when the
    new slot matches the new position. *)
Lemma Inv_driver_move ds ds' mgr drvs efds efds' now now2 p d d' i s s' :
  Inv (mkSys ds mgr drvs efds now) ->
  drvs !! p = Some d -> pc_idx (d_pc d) = Some i -> aget ds i = Some s ->
  slot_ok s' -> active s' = active s -> pid s' = pid s -> event_fd s' = event_fd s ->
  aset ds i s' = Some ds' ->
  d_efd d' = d_efd d -> pc_idx (d_pc d') = Some i -> drv_ok now2 d' s' -> now <= now2 ->
  (forall fd, is_Some (efds !! fd) -> is_Some (efds' !! fd)) ->
  Inv (mkSys ds' mgr (<[p := d']> drvs) efds' now2).
Proof.
  intros [Hnow Htab Hmgr Hpos Hreg Hdrv] Hd Hi Hg Hs' Ha Hp He Hset Hefd Hi' Hok' Hle Hefds.
  sys_simpl. destruct (Hdrv p d i Hd Hi) as (s0 & Hg0 & Hrp).
  assert (s0 = s) as -> by congruence.
  destruct (update_slot ds ds' i s s' p) as (Htab' & Hr' & Hg' & Hother); try done.
  assert (forall q j, has_slot ds q j -> has_slot ds' q j) as Hhas
    by (intros q j; by apply (has_slot_update ds ds' i s s' p)).
  split; sys_simpl.
  - lia.
  - done.
  - destruct mgr as [|i0 efd p0|i0 p0 t|i0 p0 t]; [done| |intuition auto..].
    destruct Hmgr as ((s0 & Hg1 & Ha1) & Hn & ? & ? & ? & d0 & Hd0 & Hrest).
    assert (p0 <> p) as Hne by congruence.
    split_and!; try done; eauto.
    + exists s0. split; [|done]. apply Hother; [done|]. intros ->.
      destruct (slot_of_registry ds i s p Htab Hg Hrp) as (_ & Hact & _). lia.
    + by rewrite Hr', lookup_insert_ne.
    + exists d0. by rewrite lookup_insert_ne.
  - intros q dq [[<- _]|[_ Hq]]%lookup_insert_Some; eauto.
  - intros q t. rewrite Hr'. intros [[<- <-]|[Hne Hq]]%lookup_insert_Some.
    + exists d'. rewrite lookup_insert_eq. destruct (Hreg p s Hrp) as (d1 & Hd1 & ? & ? & _).
      simplify_eq. split_and!; [done | congruence | rewrite He; auto | done].
    + destruct (Hreg q t Hq) as (d1 & Hd1 & ? & ? & ?). exists d1.
      rewrite lookup_insert_ne by done. split_and!; auto. by eapply drv_ok_later.
  - intros q dq j [[<- <-]|[Hne Hq]]%lookup_insert_Some Hj; [|eauto].
    simplify_eq. eauto.
Qed.

(** The manager moves, descriptors are written, or time passes. *)
Lemma Inv_frame ds mgr mgr' drvs efds efds' now now2 :
  Inv (mkSys ds mgr drvs efds now) ->
  mgr_ok (mkSys ds mgr' drvs efds' now2) -> now <= now2 ->
  (forall fd, is_Some (efds !! fd) -> is_Some (efds' !! fd)) ->
  Inv (mkSys ds mgr' drvs efds' now2).
Proof.
  intros [Hnow Htab Hmgr Hpos Hreg Hdrv] Hmgr' Hle Hefds. split; sys_simpl; try done.
  - lia.
  - intros q t Hq. destruct (Hreg q t Hq) as (d1 & Hd1 & ? & ? & ?). exists d1.
    split_and!; auto. by eapply drv_ok_later.
Qed.

Lemma is_Some_insert (m : gmap Z Z) k v fd : is_Some (m !! fd) -> is_Some (<[k := v]> m !! fd).
Proof. intros H. destruct (decide (k = fd)) as [->|]; simplify_map_eq; eauto. Qed.

(** A process exists for every registered driver, so a fresh pid is not registered. *)
Lemma Inv_fresh σ p : Inv σ -> s_drv σ !! p = None -> registry (s_ds σ) !! p = None.
Proof.
  intros HI Hp. destruct (registry (s_ds σ) !! p) as [s|] eqn:E; [|done].
  destruct (inv_reg σ HI p s E) as (d & Hd & _). congruence.
Qed.

Lemma Inv_fork ds drvs efds now efd p :
  Inv (mkSys ds MIdle drvs efds now) ->
  free_slot ds <> -1 -> 0 <= efd -> 0 < p -> drvs !! p = None ->
  Inv (mkSys ds (MForked (free_slot ds) efd p) (<[p := mkDrv efd DStart None]> drvs)
         (<[efd := 0]> efds) now).
Proof.
  intros HI Hi He Hp Hd. pose proof (Inv_fresh _ p HI Hd) as Hfresh.
  destruct HI as [Hnow Htab Hmgr Hpos Hreg Hdrv]. split; sys_simpl; try done.
  - split_and!; try done.
    + by apply free_slot_found.
    + by rewrite lookup_insert_eq.
    + exists (mkDrv efd DStart None). by rewrite lookup_insert_eq.
  - intros q dq [[<- _]|[_ Hq]]%lookup_insert_Some; eauto.
  - intros q t Hq. destruct (Hreg q t Hq) as (d1 & Hd1 & ? & ? & ?). exists d1.
    rewrite lookup_insert_ne by congruence. split_and!; auto using is_Some_insert.
  - intros q dq j [[<- <-]|[_ Hq]]%lookup_insert_Some Hj; [done | eauto].
Qed.

Lemma Inv_publish ds ds' drvs efds now i efd p :
  Inv (mkSys ds (MForked i efd p) drvs efds now) ->
  aset ds i (new_slot p efd) = Some ds' ->
  Inv (mkSys ds' MIdle drvs efds now).
Proof.
  intros [Hnow Htab Hmgr Hpos Hreg Hdrv] [Hlt ->]%aset_Some. sys_simpl.
  destruct Hmgr as ((s0 & Hg0 & Ha0) & Hn & Hp & He & Hefd & d & Hd & Hde & Hpc & Htm).
  destruct (table_fill ds i s0 p efd) as [Htab' Hr']; try done.
  split; sys_simpl; try done.
  - intros q t. rewrite Hr'. intros [[<- <-]|[Hne Hq]]%lookup_insert_Some; [|eauto].
    exists d. split_and!; try done. unfold drv_ok. by destruct (d_pc d).
  - intros q dq j Hq Hj. destruct (Hdrv q dq j Hq Hj) as (t & Hgt & Hrt).
    destruct (slot_of_registry ds j t q Htab Hgt Hrt) as (_ & Hact & _).
    exists t. rewrite aget_insert_ne, Hr', lookup_insert_ne by (congruence || lia). done.
Qed.

Lemma Inv_store ds ds' drvs efds now i p t s :
  Inv (mkSys ds (MChecked i p t) drvs efds now) ->
  aget ds i = Some s -> aset ds i (set_task_timer t s) = Some ds' ->
  Inv (mkSys ds' (MStored i p t) drvs efds now).
Proof.
  intros [Hnow Htab Hmgr Hpos Hreg Hdrv] Hg Hset. sys_simpl.
  destruct Hmgr as (Ht & s0 & Hg0 & Hr0). assert (s0 = s) as -> by congruence.
  assert (slot_ok (set_task_timer t s)) as Hs'.
  { apply slot_ok_timer; [by eapply aget_slot_ok | unfold MIN_TASK_TIME in *; lia]. }
  destruct (update_slot ds ds' i s (set_task_timer t s) p) as (Htab' & Hr' & Hg' & _); try done.
  assert (forall q j, has_slot ds q j -> has_slot ds' q j) as Hhas
    by (intros q j; by apply (has_slot_update ds ds' i s (set_task_timer t s) p)).
  split; sys_simpl; try done.
  - split; [done|]. apply Hhas. by exists s.
  - intros q u. rewrite Hr'. intros [[<- <-]|[Hne Hq]]%lookup_insert_Some; [|eauto].
    destruct (Hreg p s Hr0) as (d & ? & ? & ? & Hdok). exists d. done.
  - eauto.
Qed.

Lemma Inv_start ds mgr drvs efds now p d pc' :
  Inv (mkSys ds mgr drvs efds now) ->
  drvs !! p = Some d -> d_pc d = DStart ->
  match pc' with
  | DWait idx => find_slot ds p = idx /\ idx <> -1
  | DGone => True
  | _ => False
  end ->
  Inv (mkSys ds mgr (<[p := set_pc d pc']> drvs) efds now).
Proof.
  intros [Hnow Htab Hmgr Hpos Hreg Hdrv] Hd Hpc Hpc'.
  assert (forall i, pc_idx pc' = Some i -> has_slot ds p i) as Hown.
  { intros i Hi. destruct pc'; try done. destruct Hpc' as [Hf Hne]. cbn in Hi. simplify_eq.
    destruct (find_slot_found ds p _ Htab eq_refl Hne) as (s & Hg & Ha & Hp & _).
    exists s. split; [done|]. apply registry_lookup; [apply Htab | eauto]. }
  split; sys_simpl; try done.
  - destruct mgr as [|i efd p0| |]; [done| |done..].
    destruct Hmgr as (? & Hn & ? & ? & ? & d0 & Hd0 & He0 & Hi0 & Ht0). split_and!; try done.
    destruct (decide (p = p0)) as [<-|Hne].
    + assert (d0 = d) as -> by congruence. exists (set_pc d pc'). rewrite lookup_insert_eq.
      split_and!; try done. destruct (pc_idx pc') as [i'|] eqn:Ei; [|done].
      destruct (Hown i' eq_refl) as (s & _ & Hr). congruence.
    + exists d0. by rewrite lookup_insert_ne.
  - intros q dq [[<- _]|[_ Hq]]%lookup_insert_Some; eauto.
  - intros q t Hq. destruct (Hreg q t Hq) as (d1 & Hd1 & ? & ? & Hdok).
    destruct (decide (p = q)) as [<-|Hne].
    + assert (d1 = d) as -> by congruence. exists (set_pc d pc'). rewrite lookup_insert_eq.
      split_and!; try done. unfold drv_ok in *. rewrite Hpc in Hdok. cbn.
      destruct Hdok as (? & ? & Htm). destruct pc'; try done. by rewrite Htm.
    + exists d1. by rewrite lookup_insert_ne.
  - intros q dq j [[<- <-]|[_ Hq]]%lookup_insert_Some Hj; eauto.
Qed.

(** The slot of a running driver. *)
Lemma Inv_driver_slot ds mgr drvs efds now p d i :
  Inv (mkSys ds mgr drvs efds now) -> drvs !! p = Some d -> pc_idx (d_pc d) = Some i ->
  exists s, aget ds i = Some s /\ registry ds !! p = Some s /\ slot_ok s /\ drv_ok now d s.
Proof.
  intros [_ Htab _ _ Hreg Hdrv] Hd Hi. sys_simpl.
  destruct (Hdrv p d i Hd Hi) as (s & Hg & Hr).
  destruct (Hreg p s Hr) as (d' & Hd' & _ & _ & Hok). simplify_eq.
  exists s. split_and!; eauto using aget_slot_ok.
Qed.

(** After the section of [accept_task] the slot matches the new position. *)
Lemma accept_task_drv now now2 d idx s :
  slot_ok s -> d_pc d = DNotified idx -> now <= now2 -> drv_ok now d s ->
  drv_ok now2
    (set_pc d match (accept_task now now2 s).2 with Some t => DArm idx t | None => DWait idx end)
    (accept_task now now2 s).1.
Proof.
  intros (_ & _ & Ht & _) Hpc Hle Hok. unfold drv_ok in Hok. rewrite Hpc in Hok.
  unfold accept_task. repeat case_if; unfold drv_ok; cbn;
    [destruct (d_timer d); intuition lia..|]. split; [done | lia].
Qed.

(** Name the slot of the driver that moves. *)
Ltac own_slot HI Hd Hpc :=
  let s := fresh "s" in let Hg := fresh "Hg" in
  destruct (Inv_driver_slot _ _ _ _ _ _ _ _ HI Hd (f_equal pc_idx Hpc))
    as (s & Hg & Hr & Hs & Hok); unfold drv_ok in Hok.

(** Discharge the routine premises of [Inv_driver_move]. *)
Ltac move_slot :=
  try eassumption; try done; try lia; auto using is_Some_insert;
  try match goal with H : d_pc ?d = _ |- pc_idx (d_pc ?d) = _ => rewrite H; reflexivity end.

Lemma step_inv σ l σ' : Inv σ -> step σ l σ' -> Inv σ'.
Proof.
  intros HI Hstep.
  destruct Hstep as
    [ | | ds drvs efds now idx p t s Hf Hne Ht Hg | | ds drvs efds now idx p t s c Hg Hc
    | | | ds mgr drvs efds now p d idx c Hd Hpc Hc Hpos
    | ds ds' mgr drvs efds now now2 p d idx s s' armed Hd Hpc Hg Hle Hacc Hset
    | ds mgr drvs efds now p d idx t Hd Hpc
    | ds mgr drvs efds now p d idx e Hd Hpc Htm Hexp
    | ds ds' mgr drvs efds now p d idx s Hd Hpc Hg Hset
    | ds mgr drvs efds now now2 Hle ].
  - subst. by apply Inv_fork.
  - by eapply Inv_publish.
  - eapply Inv_frame; [done | | lia | auto]. split; [done|]. sys_simpl.
    destruct (find_slot_found ds p idx (inv_table _ HI) Hf Hne) as (s' & Hg' & Ha & Hp & _).
    exists s'. split; [done|]. apply registry_lookup; [apply (inv_table _ HI) | eauto].
  - by eapply Inv_store.
  - eapply Inv_frame; [done | | lia | auto using is_Some_insert]. done.
  - eapply Inv_start; done.
  - eapply Inv_start; done.
  - own_slot HI Hd Hpc. eapply (Inv_driver_move ds ds); move_slot.
    + eauto using aset_id.
    + unfold drv_ok. by rewrite Hpc in Hok.
  - own_slot HI Hd Hpc. simplify_eq. pose proof (inv_now _ HI) as Hn0. sys_simpl.
    destruct (accept_task_ok now now2 s Hs ltac:(lia)) as (Hs1 & Ha1 & Hp1).
    assert (event_fd (accept_task now now2 s).1 = event_fd s) as He1
      by (unfold accept_task; repeat case_if; done).
    pose proof (accept_task_drv now now2 d idx s Hs Hpc Hle Hok) as Hok1.
    rewrite Hacc in *. destruct armed; (eapply (Inv_driver_move ds ds'); move_slot).
  - own_slot HI Hd Hpc. rewrite Hpc in Hok. eapply (Inv_driver_move ds ds); move_slot.
    + eauto using aset_id.
    + unfold drv_ok; cbn. intuition lia.
  - own_slot HI Hd Hpc. rewrite Hpc, Htm in Hok. eapply (Inv_driver_move ds ds); move_slot.
    + eauto using aset_id.
    + unfold drv_ok; cbn. intuition lia.
  - own_slot HI Hd Hpc. simplify_eq. rewrite Hpc in Hok.
    eapply (Inv_driver_move ds ds' mgr drvs efds efds now now p d _ idx s (complete_task s));
      move_slot.
    + by apply complete_task_ok.
    + unfold drv_ok; cbn. by destruct Hok as (_ & _ & ->).
  - eapply Inv_frame; [done | | done | auto]. apply (inv_mgr _ HI).
Qed.

Lemma Inv_init now : 0 <= now -> Inv (init_sys now).
Proof.
  intros Hn. split; cbn [init_sys s_ds s_mgr s_drv s_efd s_now]; try done.
  apply table_ok_empty.
Qed.

Lemma exec_inv σ tr σ' : Inv σ -> exec σ tr σ' -> Inv σ'.
Proof. intros HI. induction 1; eauto using step_inv. Qed.

Lemma exec_trans σ1 tr1 σ2 tr2 σ3 : exec σ1 tr1 σ2 -> exec σ2 tr2 σ3 -> exec σ1 (tr1 ++ tr2) σ3.
Proof.
  intros H1. induction 1 as [|? tr ? l ? H IH Hs]; [by rewrite app_nil_r|].
  rewrite app_assoc. econstructor; eauto.
Qed.

Lemma exec_one σ1 l σ2 : step σ1 l σ2 -> exec σ1 [l] σ2.
Proof. intros. apply (exec_step _ [] σ1); [constructor | done]. Qed.

(** Execute one step first. *)
Lemma exec_cons σ1 l σ2 tr σ3 : step σ1 l σ2 -> exec σ2 tr σ3 -> exec σ1 (l :: tr) σ3.
Proof. intros H1 H2. exact (exec_trans _ [l] _ _ _ (exec_one _ _ _ H1) H2). Qed.

(** ** Completion of a task *)

(** Driver [p] is registered and free. *)
Definition free_driver (σ : sys) (p : Z) : Prop :=
  exists s, registry (s_ds σ) !! p = Some s /\ state s = DRIVER_AVAILABLE /\ busy_until s = 0.

(** From [σ], driver [p] can be free before time [deadline]. *)
Definition can_finish (σ : sys) (p deadline : Z) : Prop :=
  exists tr σ', exec σ tr σ' /\ free_driver σ' p /\ s_now σ' <= deadline.

Lemma can_finish_step σ l σ' p deadline :
  step σ l σ' -> can_finish σ' p deadline -> can_finish σ p deadline.
Proof.
  intros Hs (tr & σ2 & He & Hf & Hn). exists (l :: tr), σ2. split_and!; [|done|done].
  by eapply exec_cons.
Qed.

Lemma finish_expired ds mgr drvs efds now p d i :
  Inv (mkSys ds mgr drvs efds now) -> drvs !! p = Some d -> d_pc d = DExpired i ->
  can_finish (mkSys ds mgr drvs efds now) p now.
Proof.
  intros HI Hd Hpc. own_slot HI Hd Hpc.
  assert (aset ds i (complete_task s) = Some (<[Z.to_nat i := complete_task s]> ds)) as Hset
    by (apply aset_is_Some; by eapply aget_lt).
  destruct (update_slot ds _ i s (complete_task s) p (inv_table _ HI) Hg Hr
    (complete_task_ok s Hs) eq_refl eq_refl Hset) as (_ & Hr' & _ & _).
  eapply can_finish_step; [by eapply step_complete|].
  exists [], (mkSys (<[Z.to_nat i := complete_task s]> ds) mgr
    (<[p := set_pc d (DWait i)]> drvs) efds now).
  split_and!; [constructor | | cbn; lia].
  exists (complete_task s). cbn [s_ds]. by rewrite Hr', lookup_insert_eq.
Qed.

Lemma finish_armed ds mgr drvs efds now p d i e :
  Inv (mkSys ds mgr drvs efds now) -> drvs !! p = Some d -> d_pc d = DWait i ->
  d_timer d = Some e -> can_finish (mkSys ds mgr drvs efds now) p (Z.max now e).
Proof.
  intros HI Hd Hpc Ht.
  assert (step (mkSys ds mgr drvs efds now) Tau (mkSys ds mgr drvs efds (Z.max now e))) as H1
    by (apply step_tick; lia).
  pose proof (step_inv _ _ _ HI H1) as HI1.
  assert (step (mkSys ds mgr drvs efds (Z.max now e)) Tau
    (mkSys ds mgr (<[p := set_timer d (DExpired i) None]> drvs) efds (Z.max now e))) as H2
    by (eapply step_expire; eauto; lia).
  pose proof (step_inv _ _ _ HI1 H2) as HI2.
  eapply can_finish_step; [exact H1|]. eapply can_finish_step; [exact H2|].
  eapply finish_expired; [exact HI2 | by rewrite lookup_insert_eq | done].
Qed.

Lemma finish_arm ds mgr drvs efds now p d i t :
  Inv (mkSys ds mgr drvs efds now) -> drvs !! p = Some d -> d_pc d = DArm i t ->
  0 <= t -> can_finish (mkSys ds mgr drvs efds now) p (now + t).
Proof.
  intros HI Hd Hpc Ht.
  pose proof (step_arm ds mgr drvs efds now p d i t Hd Hpc) as H1.
  pose proof (step_inv _ _ _ HI H1) as HI1. eapply can_finish_step; [exact H1|].
  replace (now + t) with (Z.max now (now + t)) at 2 by lia.
  eapply finish_armed; [exact HI1 | by rewrite lookup_insert_eq | done | done].
Qed.

Lemma can_finish_le σ p t1 t2 : t1 <= t2 -> can_finish σ p t1 -> can_finish σ p t2.
Proof. intros Hle (tr & σ' & ? & ? & ?). exists tr, σ'. split_and!; try done. lia. Qed.

Lemma finish_notified ds mgr drvs efds now p d i e :
  Inv (mkSys ds mgr drvs efds now) -> drvs !! p = Some d -> d_pc d = DNotified i ->
  d_timer d = Some e -> can_finish (mkSys ds mgr drvs efds now) p (now + MAX_TASK_TIME).
Proof.
  intros HI Hd Hpc Ht. own_slot HI Hd Hpc. rewrite Hpc, Ht in Hok.
  destruct (accept_task now now s) as [s' armed] eqn:Hacc.
  assert (aset ds i s' = Some (<[Z.to_nat i := s']> ds)) as Hset
    by (apply aset_is_Some; by eapply aget_lt).
  pose proof (step_accept ds _ mgr drvs efds now now p d i s s' armed Hd Hpc Hg
    ltac:(lia) Hacc Hset) as H1.
  pose proof (step_inv _ _ _ HI H1) as HI1. eapply can_finish_step; [exact H1|].
  destruct armed as [t|].
  - destruct Hs as (_ & _ & ? & _).
    assert (0 <= t <= MAX_TASK_TIME) as Htb
      by (unfold accept_task in Hacc; repeat case_if; by simplify_eq).
    apply (can_finish_le _ _ (now + t)); [lia|].
    eapply finish_arm; [exact HI1 | by rewrite lookup_insert_eq | done | lia].
  - apply (can_finish_le _ _ (Z.max now e)); [unfold MAX_TASK_TIME in *; lia|].
    eapply finish_armed; [exact HI1 | by rewrite lookup_insert_eq | done | done].
Qed.

(** ** Tasks that are executed were sent *)

(** The durations a driver may still execute were stored by the manager. *)
Definition stored_inv (tr : list label) (σ : sys) : Prop :=
  (forall p s, registry (s_ds σ) !! p = Some s -> task_timer s = 0 \/ Stored p (task_timer s) ∈ tr) /\
  (forall p d i t, s_drv σ !! p = Some d -> d_pc d = DArm i t -> Stored p t ∈ tr) /\
  (forall p t, Armed p t ∈ tr -> Stored p t ∈ tr).

(** The timers of the table after a step: unchanged, 0, or just stored. *)
Lemma step_timers σ l σ' p s' :
  Inv σ -> step σ l σ' -> registry (s_ds σ') !! p = Some s' ->
  (exists s, registry (s_ds σ) !! p = Some s /\ task_timer s' = task_timer s) \/
  task_timer s' = 0 \/ l = Stored p (task_timer s').
Proof.
  intros HI Hstep Hr'.
  destruct Hstep as
    [ | ds ds' drvs efds now i efd q Hset | | ds ds' drvs efds now i q t s Hg Hset | | | |
    | ds ds' mgr drvs efds now now2 q d i s s1 armed Hd Hpc Hg Hle Hacc Hset
    | | | ds ds' mgr drvs efds now q d i s Hd Hpc Hg Hset | ];
    sys_simpl; eauto.
  - destruct (inv_mgr _ HI) as ((s0 & Hg0 & Ha0) & Hn & Hp & He & _). sys_simpl.
    destruct (table_fill ds i s0 q efd (inv_table _ HI) Hg0 Ha0 Hn Hp He) as [_ Hr].
    apply aset_Some in Hset as [_ ->]. rewrite Hr in Hr'.
    apply lookup_insert_Some in Hr' as [[<- <-]|[_ ?]]; eauto.
  - destruct (inv_mgr _ HI) as (Ht & s0 & Hg0 & Hr0). sys_simpl.
    assert (s0 = s) as -> by congruence.
    destruct (update_slot ds ds' i s (set_task_timer t s) q) as (_ & Hr & _); try done.
    + apply (inv_table _ HI).
    + apply slot_ok_timer; [by eapply aget_slot_ok, Hg; apply (inv_table _ HI)|].
      unfold MIN_TASK_TIME in *; lia.
    + rewrite Hr in Hr'. apply lookup_insert_Some in Hr' as [[<- <-]|[_ ?]]; eauto.
  - own_slot HI Hd Hpc. simplify_eq. pose proof (inv_now _ HI) as Hn0. sys_simpl.
    destruct (accept_task_ok now now2 s Hs ltac:(lia)) as (? & ? & ?).
    assert (task_timer (accept_task now now2 s).1 = task_timer s) as Ht
      by (unfold accept_task; repeat case_if; done). rewrite Hacc in *.
    destruct (update_slot ds ds' i s s1 q (inv_table _ HI)) as (_ & Hr1 & _); try done.
    rewrite Hr1 in Hr'. apply lookup_insert_Some in Hr' as [[<- <-]|[_ ?]]; eauto.
  - own_slot HI Hd Hpc. simplify_eq.
    destruct (update_slot ds ds' i s (complete_task s) q (inv_table _ HI) Hg Hr
      (complete_task_ok s Hs) eq_refl eq_refl Hset) as (_ & Hr1 & _).
    rewrite Hr1 in Hr'. apply lookup_insert_Some in Hr' as [[<- <-]|[_ ?]]; eauto.
Qed.

(** A driver that is about to arm its timer took the duration from its slot. *)
Lemma step_arm_source σ l σ' p d' i t :
  Inv σ -> step σ l σ' -> s_drv σ' !! p = Some d' -> d_pc d' = DArm i t ->
  (exists d, s_drv σ !! p = Some d /\ d_pc d = DArm i t) \/
  (exists s, registry (s_ds σ) !! p = Some s /\ task_timer s = t /\ 0 < t).
Proof.
  intros HI Hstep Hd' Hpc'.
  destruct Hstep as
    [ | | | | | | | | ds ds' mgr drvs efds now now2 q d j s s1 armed Hd Hpc Hg Hle Hacc Hset
    | | | | ]; sys_simpl; eauto;
    (apply lookup_insert_Some in Hd' as [[<- <-]|[_ ?]]; [|by eauto]); cbn in Hpc'; try done.
  own_slot HI Hd Hpc. simplify_eq. right. exists s. split; [done|].
  unfold accept_task in Hacc. destruct armed; [|done].
  repeat case_if; simplify_eq. split; [done | lia].
Qed.

Lemma stored_inv_step tr σ l σ' :
  Inv σ -> stored_inv tr σ -> step σ l σ' -> stored_inv (tr ++ [l]) σ'.
Proof.
  intros HI (HA & HB & HC) Hstep.
  assert (forall l', l' ∈ tr -> l' ∈ tr ++ [l]) as Hmono by (intros; apply elem_of_app; auto).
  assert (l ∈ tr ++ [l]) as Hl by (apply elem_of_app; right; apply list_elem_of_here).
  split_and!.
  - intros p s' Hr'. destruct (step_timers σ l σ' p s' HI Hstep Hr') as [(s & Hr & ->)|[->| ->]];
      [|by auto..]. destruct (HA p s Hr); auto.
  - intros p d' i t Hd' Hpc'.
    destruct (step_arm_source σ l σ' p d' i t HI Hstep Hd' Hpc') as [(d & ? & ?)|(s & Hr & <- & ?)].
    + eauto.
    + destruct (HA p s Hr); [lia | auto].
  - intros p t [H|H]%elem_of_app; [auto|]. apply list_elem_of_singleton in H. subst l.
    apply Hmono. inversion Hstep; subst. by eapply (HB p d).
Qed.

Lemma stored_inv_exec now tr σ : 0 <= now -> exec (init_sys now) tr σ -> Inv σ /\ stored_inv tr σ.
Proof.
  intros Hn He. remember (init_sys now) as σ0 eqn:E0. induction He as [|σ1 tr σ2 l σ3 He IH Hs].
  - subst. split; [by apply Inv_init|]. split_and!; cbn.
    + done.
    + intros p d i t. by rewrite lookup_empty.
    + intros p t H. by apply not_elem_of_nil in H.
  - destruct (IH E0) as [HI HS]. split; [by eapply step_inv | by eapply stored_inv_step].
Qed.

(** ** A driver that exited stays out *)

Lemma gone_step σ l σ' p d :
  step σ l σ' -> s_drv σ !! p = Some d -> d_pc d = DGone ->
  s_drv σ' !! p = Some d /\ forall t, l <> Armed p t.
Proof.
  intros Hstep Hd Hgone.
  destruct Hstep; sys_simpl; (split; [|congruence]);
    rewrite ?lookup_insert_ne by congruence; done.
Qed.

Lemma gone_exec σ tr σ' p d :
  exec σ tr σ' -> s_drv σ !! p = Some d -> d_pc d = DGone ->
  s_drv σ' !! p = Some d /\ forall t, Armed p t ∉ tr.
Proof.
  intros He Hd Hg. induction He as [|σ1 tr σ2 l σ3 He IH Hs].
  - split; [done|]. intros t. apply not_elem_of_nil.
  - destruct (IH Hd) as [Hd2 Hn]. destruct (gone_step _ _ _ _ _ Hs Hd2 Hg) as [Hd3 Hl].
    split; [done|]. intros t [H|H]%elem_of_app; [by apply (Hn t)|].
    apply list_elem_of_singleton in H. by apply (Hl t).
Qed.

(** ** Concrete executions *)

(** The manager forks driver 4242, whose slot is the first one, with event
    descriptor 7. *)
Definition forked_sys : sys :=
  mkSys (replicate MAX_DRIVERS empty_slot) (MForked 0 7 4242)
    {[4242 := mkDrv 7 DStart None]} {[7 := 0]} 0.

Definition raced_sys : sys :=
  mkSys demo_table MIdle {[4242 := mkDrv 7 DGone None]} {[7 := 0]} 0.

Definition started_sys : sys :=
  mkSys demo_table MIdle {[4242 := mkDrv 7 (DWait 0) None]} {[7 := 0]} 0.

(** The table with duration [t] stored for driver 4242, and with the driver busy
    until [b]. *)
Definition task_table (t : Z) : list DriverSlot :=
  <[0%nat := set_task_timer t demo_slot]> (replicate MAX_DRIVERS empty_slot).

Lemma exec_forked : exec (init_sys 0) [Tau] forked_sys.
Proof.
  eapply exec_cons; [apply (step_fork _ _ _ _ 0 7 4242); done|]. constructor.
Qed.

Lemma exec_raced : exec (init_sys 0) [Tau; Tau; Tau] raced_sys.
Proof.
  apply (exec_trans _ [Tau] _ [Tau; Tau] _ exec_forked).
  eapply exec_cons; [by apply (step_start_fail _ _ _ _ _ 4242 (mkDrv 7 DStart None))|].
  eapply exec_cons; [by apply (step_publish _ demo_table)|]. constructor.
Qed.

Lemma exec_started : exec (init_sys 0) [Tau; Tau; Tau] started_sys.
Proof.
  apply (exec_trans _ [Tau] _ [Tau; Tau] _ exec_forked).
  eapply exec_cons; [by apply (step_publish _ demo_table)|].
  eapply exec_cons; [by apply (step_start _ _ _ _ _ 4242 (mkDrv 7 DStart None) 0)|].
  constructor.
Qed.

(** A whole [send_task(4242, t)] when the slot holds duration [t0] and the event
    counter is [c]. *)
Lemma exec_send t0 t drvs c now :
  1 <= t <= 3600 ->
  exec (mkSys (task_table t0) MIdle drvs {[7 := c]} now) [Tau; Stored 4242 t; Sent 4242 t]
       (mkSys (task_table t) MIdle drvs {[7 := c + 1]} now).
Proof.
  intros Ht.
  eapply exec_cons; [by apply (step_check _ _ _ _ 0 4242 t (set_task_timer t0 demo_slot))|].
  eapply exec_cons; [by apply (step_store _ (task_table t) _ _ _ 0 4242 t (set_task_timer t0 demo_slot))|].
  eapply exec_cons; [by apply (step_write _ _ _ _ 0 4242 t (set_task_timer t demo_slot) c)|].
  cbn. rewrite insert_singleton_eq. constructor.
Qed.

(** The driver handles its event, with duration [t] in its slot, until it is free
    again. *)
Lemma exec_run_task t c :
  1 <= t -> 0 < c ->
  exec (mkSys (task_table t) MIdle {[4242 := mkDrv 7 (DWait 0) None]} {[7 := c]} 0)
       [Tau; Tau; Armed 4242 t; Tau; Tau; Completed 4242]
       (mkSys (task_table t) MIdle {[4242 := mkDrv 7 (DWait 0) None]} {[7 := 0]} t).
Proof.
  intros Ht Hc. set (s1 := mkSlot DRIVER_BUSY 4242 1 t t 7).
  set (ds1 := <[0%nat := s1]> (replicate MAX_DRIVERS empty_slot)).
  eapply exec_cons; [by apply (step_read _ _ _ _ _ 4242 (mkDrv 7 (DWait 0) None) 0 c)|].
  eapply exec_cons.
  { apply (step_accept _ ds1 _ _ _ _ 0 4242 (mkDrv 7 (DNotified 0) None) 0
      (set_task_timer t demo_slot) s1 (Some t)); try done.
    unfold accept_task. cbn. replace (t <=? 0) with false by lia. done. }
  eapply exec_cons; [by apply (step_arm _ _ _ _ _ 4242 (mkDrv 7 (DArm 0 t) None) 0 t)|].
  eapply exec_cons; [apply (step_tick _ _ _ _ _ t); lia|].
  eapply exec_cons.
  { apply (step_expire _ _ _ _ _ 4242 (mkDrv 7 (DWait 0) (Some t)) 0 t); done || lia. }
  eapply exec_cons.
  { by apply (step_complete _ (task_table t) _ _ _ _ 4242 (mkDrv 7 (DExpired 0) None) 0 s1). }
  cbn. rewrite !insert_singleton_eq. constructor.
Qed.

(** ** Properties *)



(** No task is invented: in every execution, when a driver arms its
    timer for [t] seconds, the manager stored exactly the duration [t] for that
    driver earlier in the execution. *)
Theorem armed_tasks_were_stored now0 tr σ p t :
  0 <= now0 -> exec (init_sys now0) tr σ -> Armed p t ∈ tr -> Stored p t ∈ tr.
Proof.
  intros Hn He. destruct (stored_inv_exec now0 tr σ Hn He) as (_ & _ & _ & HC). apply HC.
Qed.

Lemma armed_tasks_were_stored_witness :
  Stored 4242 5 ∈ [Tau; Tau; Tau] ++ [Tau; Stored 4242 5; Sent 4242 5]
    ++ [Tau; Tau; Armed 4242 5; Tau; Tau; Completed 4242].
Proof.
  refine (armed_tasks_were_stored 0 _ (mkSys (task_table 5) MIdle
    {[4242 := mkDrv 7 (DWait 0) None]} {[7 := 0]} 5) 4242 5 _ _ _).
  - lia.
  - eapply exec_trans; [exact exec_started|].
    eapply exec_trans; [apply (exec_send 0 5 _ 0 0); lia|]. apply exec_run_task; lia.
  - apply (bool_decide_unpack _). vm_compute. exact I.
Defined.

(** The two reports agree: in every configuration reached, for
    every registered driver, [get_status] prints that it is available exactly
    when the line [get_drivers] prints for it says so. *)
Theorem status_reports_agree now0 tr σ p s :
  0 <= now0 -> exec (init_sys now0) tr σ -> registry (s_ds σ) !! p = Some s ->
  get_status (s_now σ) (s_ds σ) p =
    Some [Out (lit "Status [PID=" ++ dec p ++ lit "]: AVAILABLE" ++ [NL])] <->
  driver_line (s_now σ) s =
    [Out (lit "PID=" ++ dec (pid s) ++ lit " | Status: AVAILABLE" ++ [NL])].
Proof.
  intros Hn He Hr. pose proof (exec_inv _ _ _ (Inv_init now0 Hn) He) as HI.
  destruct (registry_slot _ p s (inv_table _ HI) Hr) as (i & Hi & Hne & Hg & Ha & Hp & _).
  destruct (inv_reg _ HI p s Hr) as (d & _ & _ & _ & Hok). pose proof (inv_now _ HI) as Hnow.
  assert (state s = DRIVER_BUSY \/ busy_until s = 0) as Hst.
  { unfold drv_ok in Hok. destruct (d_pc d), (d_timer d); tauto. }
  unfold get_status, driver_line. rewrite Hi, (proj2 (Z.eqb_neq i (-1)) Hne), Hg, Ha.
  cbn [mbind option_bind Z.eqb]. destruct (busy_until s >? s_now σ) eqn:Hbu.
  - rewrite bool_decide_true by (destruct Hst; [done | lia]). cbn [andb]. split.
    + intros [= H]. by apply app_inv_head in H.
    + intros [= H]. by apply app_inv_head in H.
  - by rewrite andb_false_r.
Qed.

Lemma status_reports_agree_witness :
  get_status 0 demo_table 4242 =
    Some [Out (lit "Status [PID=4242]: AVAILABLE" ++ [NL])] <->
  driver_line 0 demo_slot = [Out (lit "PID=4242 | Status: AVAILABLE" ++ [NL])].
Proof.
  refine (status_reports_agree 0 [Tau; Tau; Tau] started_sys 4242 demo_slot _ exec_started _).
  - lia.
  - vm_compute. reflexivity.
Defined.

(** Counterexample.  The start of a driver races with its
    registration: [create_driver] publishes the slot after [fork], so the child can
    run [find_slot] first and exit.  A reachable configuration has a registered,
    available driver whose process is gone; the manager still sends it a task
    successfully, and no continuation ever executes a task for it. *)
Theorem startup_race :
  exists tr σ p s,
    exec (init_sys 0) tr σ /\ s_mgr σ = MIdle /\
    registry (s_ds σ) !! p = Some s /\ state s = DRIVER_AVAILABLE /\
    (exists σ', exec σ [Tau; Stored p 5; Sent p 5] σ') /\
    forall tr' σ', exec σ tr' σ' -> forall t, Armed p t ∉ tr'.
Proof.
  exists [Tau; Tau; Tau], raced_sys, 4242, demo_slot. split_and!; try done.
  - exact exec_raced.
  - eexists. apply (exec_send 0 5 _ 0 0). lia.
  - intros tr' σ' He. by eapply (gone_exec _ _ _ 4242 (mkDrv 7 DGone None) He).
Qed.

(** Counterexample.  Two tasks sent in a row can merge: the manager
    sends 5 and then 7 seconds, both accepted and notified, but the driver executes
    a single task of 7 seconds and goes back to waiting, free, with an empty event
    counter: the first task is lost. *)
Theorem second_task_overwrites :
  exists tr σ,
    exec (init_sys 0) tr σ /\
    filter task_label tr
      = [Sent 4242 5; Sent 4242 7; Armed 4242 7; Completed 4242] /\
    s_mgr σ = MIdle /\ free_driver σ 4242 /\ s_efd σ !! 7 = Some 0 /\
    s_drv σ !! 4242 = Some (mkDrv 7 (DWait 0) None).
Proof.
  eexists _, (mkSys (task_table 7) MIdle {[4242 := mkDrv 7 (DWait 0) None]} {[7 := 0]} 7).
  split_and!.
  - eapply exec_trans; [exact exec_started|].
    eapply exec_trans; [apply (exec_send 0 5 _ 0 0); lia|].
    eapply exec_trans; [apply (exec_send 5 7 _ 1 0); lia|]. apply exec_run_task; lia.
  - reflexivity.
  - done.
  - exists (set_task_timer 7 demo_slot). done.
  - done.
  - done.
Qed.
