(* ===== verification/Vfs.v ===== *)
(** * The file system the file manager works on

    The part of the POSIX file interface that [simple_file_manager] calls, over a
    file system kept as a finite map from absolute paths (lists of names) to
    nodes: path resolution with symbolic links, [stat], [mkdir], [rmdir],
    [unlink], [rename], [opendir]/[readdir], [scandir], [realpath], and [open],
    [read] and [write] on regular files.  Calls that fail return [None] (the
    programs do not look at [errno]).  Besides the nodes a file system has
    directories and files the process may not use ([locked]), mount points
    (across which [rename] fails), a largest file size (past which [write] is
    short, as on a FAT volume or under [RLIMIT_FSIZE]), the process's working
    directory and its [umask]. *)

From S2P Require Import Prelude CString.

Definition SLASH : byte := 47.
Definition DOT : cstr := lit ".".
Definition DOTDOT : cstr := lit "..".
Definition PATH_MAX : nat := 4096.
#[global] Arguments PATH_MAX : simpl never.
(** The links the kernel follows before giving up ([ELOOP]). *)
Definition MAXSYMLINKS : nat := 40.

Abbreviation path := (list (list Z)) (only parsing).

Inductive node :=
  | File (content : list byte) (mode : Z)
  | Dir (mode : Z)
  | Link (target : cstr).

#[export] Instance node_eq_dec : EqDecision node.
Proof. solve_decision. Defined.

Record fs := mkFs {
  nodes : gmap path node;
  locked : gset path;
  mounts : gset path;
  max_file : nat;
  pwd : path;
  umask : Z
}.

Definition set_nodes (f : fs) (m : gmap path node) : fs :=
  mkFs m (locked f) (mounts f) (max_file f) (pwd f) (umask f).

Definition is_dir (n : node) : bool := match n with Dir _ => true | _ => false end.

(** ** Path resolution *)

(** The names between the slashes, with the empty ones and ["."] dropped. *)
Fixpoint split_slash (s : cstr) : list cstr :=
  match s with
  | [] => [[]]
  | c :: s' =>
      if c =? SLASH then [] :: split_slash s'
      else match split_slash s' with
           | w :: ws => (c :: w) :: ws
           | [] => [[c]]
           end
  end.

Definition real_name (w : cstr) : bool := negb (bool_decide (w = []) || bool_decide (w = DOT)).

Definition components (s : cstr) : path := filter real_name (split_slash s).

Definition absolute (s : cstr) : bool := match s with c :: _ => c =? SLASH | [] => false end.

(** Walk from directory [cur]; the last name may be missing, and a link there is
    followed when [follow] is set. *)
Fixpoint namei (links : nat) (m : gmap path node) (follow : bool) (cur todo : path) : option path :=
  (fix walk (cur todo : path) : option path :=
    match todo with
    | [] => Some cur
    | c :: rest =>
        match m !! cur with
        | Some (Dir _) =>
            if bool_decide (c = DOTDOT) then walk (removelast cur) rest
            else
              match m !! (cur ++ [c]) with
              | Some (Link t) =>
                  if bool_decide (rest = []) && negb follow then Some (cur ++ [c])
                  else match links with
                       | O => None
                       | S n => namei n m follow (if absolute t then [] else cur) (components t ++ rest)
                       end
              | _ => walk (cur ++ [c]) rest
              end
        | _ => None
        end
    end) cur todo.

Definition resolve (f : fs) (follow : bool) (s : cstr) : option path :=
  if bool_decide (s = []) || (PATH_MAX <=? length s)%nat then None
  else namei MAXSYMLINKS (nodes f) follow (if absolute s then [] else pwd f) (components s).

(** ** Metadata and directories *)

Definition parent (p : path) : path := removelast p.

(** The process may create and remove names in the directory of [p]. *)
Definition writable (f : fs) (p : path) : bool := bool_decide (parent p ∉ locked f).

Definition stat (f : fs) (s : cstr) : option node :=
  p ← resolve f true s; nodes f !! p.

Definition mkdir (f : fs) (s : cstr) (mode : Z) : option fs :=
  p ← resolve f false s;
  match nodes f !! p with
  | Some _ => None
  | None => if writable f p
            then Some (set_nodes f (<[p := Dir (Z.ldiff mode (umask f))]> (nodes f)))
            else None
  end.

(** The name of [q] in directory [p], when it is there. *)
Definition child_name (p q : path) : option cstr :=
  if bool_decide (removelast q = p) then last q else None.

Definition child_names (m : gmap path node) (p : path) : list cstr :=
  omap (fun x => child_name p x.1) (map_to_list m).

(** [opendir] and the names the [readdir] calls return: the entries present when
    the directory is opened, in no particular order. *)
Definition opendir (f : fs) (s : cstr) : option (list cstr) :=
  p ← resolve f true s;
  match nodes f !! p with
  | Some (Dir _) =>
      if bool_decide (p ∉ locked f) then Some (DOT :: DOTDOT :: child_names (nodes f) p) else None
  | _ => None
  end.

Definition rmdir (f : fs) (s : cstr) : option fs :=
  p ← resolve f false s;
  match nodes f !! p with
  | Some (Dir _) =>
      if bool_decide (child_names (nodes f) p = []) && bool_decide (p <> []) && writable f p
      then Some (set_nodes f (delete p (nodes f))) else None
  | _ => None
  end.

Definition unlink (f : fs) (s : cstr) : option fs :=
  p ← resolve f false s;
  match nodes f !! p with
  | Some (File _ _) | Some (Link _) =>
      if writable f p then Some (set_nodes f (delete p (nodes f))) else None
  | _ => None
  end.

(** ** [rename] *)

Definition under (p q : path) : bool := bool_decide (take (length p) q = p).

(** The mount point a path belongs to. *)
Fixpoint device_from (mts : gset path) (best pre rest : path) : path :=
  let best' := if bool_decide (pre ∈ mts) then pre else best in
  match rest with [] => best' | c :: rest' => device_from mts best' (pre ++ [c]) rest' end.
Definition device (f : fs) (p : path) : path := device_from (mounts f) [] [] p.

Definition rekey (p q r : path) : path := if under p r then q ++ drop (length p) r else r.

Definition move_nodes (m : gmap path node) (p q : path) : gmap path node :=
  list_to_map ((fun x => (rekey p q x.1, x.2)) <$> map_to_list (delete q m)).

Definition rename (f : fs) (s t : cstr) : option fs :=
  p ← resolve f false s;
  q ← resolve f false t;
  n ← nodes f !! p;
  if negb (writable f p && writable f q && bool_decide (device f p = device f q)) then None
  else if bool_decide (p = q) then Some f
  else if under p q then None
  else
    let ok :=
      match nodes f !! q with
      | None => true
      | Some (Dir _) => is_dir n && bool_decide (child_names (nodes f) q = [])
      | Some _ => negb (is_dir n)
      end in
    if ok then Some (set_nodes f (move_nodes (nodes f) p q)) else None.

(** ** Files *)

(** [open(s, O_RDONLY)]: the file the descriptor stands for. *)
Definition open_read (f : fs) (s : cstr) : option path :=
  p ← resolve f true s;
  match nodes f !! p with
  | Some _ => if bool_decide (p ∉ locked f) then Some p else None
  | None => None
  end.

Definition st_mode (f : fs) (p : path) : Z :=
  match nodes f !! p with Some (File _ m) | Some (Dir m) => m | _ => 0 end.

(** [open(s, O_WRONLY | O_CREAT | O_TRUNC, mode)]. *)
Definition open_write (f : fs) (s : cstr) (mode : Z) : option (fs * path) :=
  p ← resolve f true s;
  match nodes f !! p with
  | Some (File _ m) =>
      if bool_decide (p ∉ locked f) then Some (set_nodes f (<[p := File [] m]> (nodes f)), p) else None
  | Some _ => None
  | None =>
      if writable f p
      then Some (set_nodes f (<[p := File [] (Z.ldiff mode (umask f))]> (nodes f)), p) else None
  end.

(** [read(fd, buf, n)] at offset [off]; reading a directory fails, which the
    callers treat as the end of the file. *)
Definition read (f : fs) (p : path) (off n : nat) : list byte :=
  match nodes f !! p with Some (File c _) => take n (drop off c) | _ => [] end.

(** [write(fd, buf, n)] at the end of the file: as many bytes as the largest file
    size leaves room for. *)
Definition write (f : fs) (p : path) (bytes : list byte) : fs :=
  match nodes f !! p with
  | Some (File c m) => set_nodes f (<[p := File (c ++ take (max_file f - length c) bytes) m]> (nodes f))
  | _ => f
  end.

(** ** Listings *)

(** [strcmp] order, which [alphasort] uses in the C locale. *)
Fixpoint name_leb (s t : cstr) : bool :=
  match s, t with
  | [], _ => true
  | _ :: _, [] => false
  | c :: s', d :: t' => (c <? d) || ((c =? d) && name_leb s' t')
  end.

Fixpoint insert_name {A} (w : cstr * A) (l : list (cstr * A)) : list (cstr * A) :=
  match l with
  | [] => [w]
  | v :: l' => if name_leb w.1 v.1 then w :: l else v :: insert_name w l'
  end.

Definition sort_names {A} (l : list (cstr * A)) : list (cstr * A) := foldr insert_name [] l.

Definition child_entry (p : path) (x : path * node) : option (cstr * node) :=
  w ← child_name p x.1; Some (w, x.2).

(** [scandir(s, &list, NULL, alphasort)]: the entries with their nodes, ["."] and
    [".."] included. *)
Definition scandir (f : fs) (s : cstr) : option (list (cstr * node)) :=
  p ← resolve f true s;
  match nodes f !! p with
  | Some (Dir m) =>
      if bool_decide (p ∉ locked f)
      then Some (sort_names ((DOT, Dir m) :: (DOTDOT, Dir m)
                 :: omap (child_entry p) (map_to_list (nodes f))))
      else None
  | _ => None
  end.

Definition path_string (p : path) : cstr :=
  match p with [] => [SLASH] | _ => mjoin ((fun w => SLASH :: w) <$> p) end.

(** [realpath(s, buf)]: the absolute name of an existing file. *)
Definition realpath (f : fs) (s : cstr) : option cstr :=
  p ← resolve f true s;
  match nodes f !! p with
  | Some _ => let r := path_string p in if (length r <? PATH_MAX)%nat then Some r else None
  | None => None
  end.

(** ** Well-formed file systems *)

Definition name_ok (w : cstr) : Prop := w <> [] /\ w <> DOT /\ w <> DOTDOT /\ SLASH ∉ w.

(** The root is a directory, and whatever exists is a proper name in a directory. *)
Record fs_ok (m : gmap path node) : Prop := {
  ok_root : exists mode, m !! [] = Some (Dir mode);
  ok_parent : forall p c n, m !! (p ++ [c]) = Some n ->
    name_ok c /\ exists mode, m !! p = Some (Dir mode)
}.

(** [s] is an absolute name for [p] without [".."]. *)
Record names (s : cstr) (p : path) : Prop := {
  nm_abs : absolute s = true;
  nm_comps : components s = p;
  nm_ok : Forall name_ok p;
  nm_len : (length s < PATH_MAX)%nat
}.

(** ** Lemmas on paths *)

Lemma under_spec p q : under p q = true <-> exists r, q = p ++ r.
Proof.
  unfold under. rewrite bool_decide_eq_true. split.
  - intros H. exists (drop (length p) q). by rewrite <- (take_drop (length p) q) at 1; rewrite H.
  - intros [r ->]. by rewrite take_app_length.
Qed.

Lemma under_app p r : under p (p ++ r) = true.
Proof. apply under_spec. by exists r. Qed.

Lemma under_refl p : under p p = true.
Proof. apply under_spec. exists []. by rewrite app_nil_r. Qed.

Lemma under_trans p q r : under p q = true -> under q r = true -> under p r = true.
Proof.
  rewrite !under_spec. intros [a ->] [b ->]. exists (a ++ b). by rewrite app_assoc.
Qed.

Lemma under_length p q : under p q = true -> (length p <= length q)%nat.
Proof. rewrite under_spec. intros [r ->]. rewrite length_app. lia. Qed.

Lemma under_antisym p q : under p q = true -> under q p = true -> p = q.
Proof.
  rewrite !under_spec. intros [a Ha] [b Hb]. subst q.
  rewrite <- app_assoc in Hb. rewrite <- (app_nil_r p) in Hb at 1. apply app_inv_head in Hb.
  symmetry in Hb. apply app_eq_nil in Hb as [-> _]. by rewrite app_nil_r.
Qed.

(** Two prefixes of the same path are comparable. *)
Lemma under_total p q r : under p r = true -> under q r = true -> under p q = true \/ under q p = true.
Proof.
  rewrite !under_spec. intros [a ->] [b Hb].
  destruct (app_eq_inv _ _ _ _ Hb) as [(k & -> & _)|(k & -> & _)]; eauto.
Qed.

Lemma under_snoc p c q : under (p ++ [c]) q = true -> under p q = true.
Proof. rewrite !under_spec. intros [r ->]. exists (c :: r). by rewrite <- app_assoc. Qed.

Lemma under_snoc_eq p c d q : under (p ++ [c]) q = true -> under (p ++ [d]) q = true -> c = d.
Proof.
  rewrite !under_spec. intros [r ->] [r' H]. rewrite <- !app_assoc in H.
  apply app_inv_head in H. by inversion H.
Qed.

(** Below [p] there is [p] itself and what is below its entries. *)
Lemma under_child p q : under p q = true -> q <> p -> exists c, under (p ++ [c]) q = true.
Proof.
  rewrite under_spec. intros [[|c r] ->] Hne; [by rewrite app_nil_r in Hne|].
  exists c. apply under_spec. exists r. by rewrite <- app_assoc.
Qed.

Lemma not_under_snoc p c : under (p ++ [c]) p = false.
Proof.
  apply not_true_is_false. intros H%under_length. rewrite length_app in H. simpl in H. lia.
Qed.

Lemma parent_snoc p c : parent (p ++ [c]) = p.
Proof. apply removelast_last. Qed.

Lemma path_snoc (p : path) : p <> [] -> exists q c, p = q ++ [c].
Proof. intros H. destruct (exists_last H) as (q & c & ->). eauto. Qed.

(** ** Lemmas on names *)

Lemma split_slash_nonempty s : split_slash s <> [].
Proof. destruct s as [|c s]; simpl; [done|]. case_if; [done|]. by destruct (split_slash s). Qed.

Lemma split_slash_app s t : split_slash (s ++ SLASH :: t) = split_slash s ++ split_slash t.
Proof.
  induction s as [|c s IH]; simpl; [done|]. rewrite IH. case_if; [done|].
  pose proof (split_slash_nonempty s). by destruct (split_slash s).
Qed.

Lemma split_slash_name w : SLASH ∉ w -> split_slash w = [w].
Proof.
  induction w as [|c w IH]; simpl; [done|]. rewrite not_elem_of_cons. intros [Hc Hw].
  rewrite IH by done. by replace (c =? SLASH) with false by lia.
Qed.

Lemma components_join s w :
  w <> [] -> w <> DOT -> SLASH ∉ w -> components (s ++ SLASH :: w) = components s ++ [w].
Proof.
  intros H1 H2 H4. unfold components.
  rewrite split_slash_app, filter_app, (split_slash_name w) by done. f_equal.
  rewrite filter_cons_True; [done|]. unfold real_name. by rewrite !bool_decide_false.
Qed.

Lemma names_join s p w :
  names s p -> name_ok w -> (length s + 1 + length w < PATH_MAX)%nat ->
  names (s ++ SLASH :: w) (p ++ [w]).
Proof.
  intros [Ha Hc Hf _] Hw Hl. split.
  - by destruct s.
  - destruct Hw as (H1 & H2 & _ & H4). rewrite components_join by done. by rewrite Hc.
  - by apply Forall_app; split; [|constructor].
  - rewrite length_app. simpl. lia.
Qed.

Lemma names_nonempty s p : names s p -> s <> [].
Proof. intros [Ha _ _ _] ->. done. Qed.

(** ** Lemmas on resolution *)

Section resolution.
Context (m : gmap path node) (Hm : fs_ok m).

Lemma fs_ok_prefix p r n :
  m !! (p ++ r) = Some n -> r <> [] -> exists mode, m !! p = Some (Dir mode).
Proof.
  revert n. induction r as [|c r IH] using rev_ind; [done|]. intros n H _.
  rewrite app_assoc in H. destruct (ok_parent m Hm _ _ _ H) as [_ [mode Hp]].
  destruct r as [|d r]; [rewrite app_nil_r in Hp; eauto | eapply IH; done].
Qed.

Lemma fs_ok_names p n : m !! p = Some n -> Forall name_ok p.
Proof.
  revert n. induction p as [|c p IH] using rev_ind; intros n H; [done|].
  destruct (ok_parent m Hm _ _ _ H) as [Hc [mode Hp]].
  apply Forall_app. split; [by eapply IH | by constructor].
Qed.

Lemma namei_cons links fl cur c rest mode :
  m !! cur = Some (Dir mode) -> c <> DOTDOT ->
  (forall t, m !! (cur ++ [c]) <> Some (Link t)) ->
  namei links m fl cur (c :: rest) = namei links m fl (cur ++ [c]) rest.
Proof.
  intros Hd Hc Hl. destruct links; simpl; rewrite Hd, bool_decide_false by done;
    destruct (m !! (cur ++ [c])) as [[]|] eqn:E; try done; by edestruct Hl.
Qed.

Lemma namei_nil links fl cur : namei links m fl cur [] = Some cur.
Proof. by destruct links. Qed.

Lemma namei_last_link links cur c mode t :
  m !! cur = Some (Dir mode) -> c <> DOTDOT -> m !! (cur ++ [c]) = Some (Link t) ->
  namei links m false cur [c] = Some (cur ++ [c]).
Proof.
  intros Hd Hc Hl. destruct links; simpl; rewrite Hd, bool_decide_false by done; by rewrite Hl.
Qed.

Lemma namei_canon links fl cur rest :
  Forall name_ok rest ->
  (rest <> [] -> exists mode, m !! parent (cur ++ rest) = Some (Dir mode)) ->
  (fl = true -> forall t, m !! (cur ++ rest) <> Some (Link t)) ->
  namei links m fl cur rest = Some (cur ++ rest).
Proof.
  revert cur. induction rest as [|c rest IH]; intros cur Hok Hp Hl.
  { by rewrite namei_nil, app_nil_r. }
  apply Forall_cons in Hok as [(Hc1 & Hc2 & Hc3 & Hc4) Hok].
  destruct Hp as [mode Hp]; [done|].
  assert (rest <> [] -> exists mode, m !! (cur ++ [c]) = Some (Dir mode)) as Hnext.
  { intros Hr. destruct (path_snoc rest Hr) as (r & d & ->).
    replace (cur ++ c :: r ++ [d]) with (((cur ++ [c]) ++ r) ++ [d]) in Hp
      by by rewrite <- !app_assoc.
    rewrite parent_snoc in Hp.
    destruct r; [rewrite app_nil_r in Hp; eauto | by eapply fs_ok_prefix]. }
  assert (exists mode, m !! cur = Some (Dir mode)) as [mode' Hd].
  { destruct rest as [|d rest].
    - rewrite parent_snoc in Hp. eauto.
    - destruct Hnext as [mode2 H2]; [done|]. by eapply fs_ok_prefix. }
  destruct (m !! (cur ++ [c])) as [[]|] eqn:E.
  3: { destruct rest as [|d rest]; [|destruct Hnext as [? Hx]; [done|]; congruence].
       destruct fl; [by edestruct (Hl eq_refl) |]. by eapply namei_last_link. }
  all: rewrite (namei_cons _ _ _ _ _ mode') by (done || (rewrite E; done));
    rewrite IH; rewrite <- ?app_assoc; simpl; try done.
  all: intros Hr; eauto.
Qed.

(** Walking through directories that exist. *)
Lemma namei_through links fl cur rest todo mode :
  Forall name_ok rest -> m !! (cur ++ rest) = Some (Dir mode) ->
  namei links m fl cur (rest ++ todo) = namei links m fl (cur ++ rest) todo.
Proof.
  revert cur. induction rest as [|c rest IH]; intros cur Hok Hd; [by rewrite app_nil_r|].
  apply Forall_cons in Hok as [(_ & _ & Hc & _) Hok].
  assert (exists md, m !! cur = Some (Dir md)) as [md Hcur] by by eapply fs_ok_prefix.
  replace (cur ++ c :: rest) with ((cur ++ [c]) ++ rest) in * by by rewrite <- app_assoc.
  assert (exists md, m !! (cur ++ [c]) = Some (Dir md)) as [md' Hnext].
  { destruct rest; [rewrite app_nil_r in Hd; eauto | by eapply fs_ok_prefix]. }
  cbn [app]. rewrite (namei_cons _ _ _ _ _ md) by (done || (rewrite Hnext; done)). by apply IH.
Qed.
End resolution.

Lemma resolve_names f s p fl :
  fs_ok (nodes f) -> names s p ->
  (p <> [] -> exists mode, nodes f !! parent p = Some (Dir mode)) ->
  (fl = true -> forall t, nodes f !! p <> Some (Link t)) ->
  resolve f fl s = Some p.
Proof.
  intros Hm Hs Hp Hl. pose proof (names_nonempty s p Hs). destruct Hs as [Ha Hc Ho Hn].
  unfold resolve. rewrite bool_decide_false by done. rewrite Ha, Hc.
  replace (PATH_MAX <=? length s)%nat with false by (symmetry; apply Nat.leb_gt; lia).
  by apply (namei_canon (nodes f) Hm _ fl []).
Qed.

Lemma resolve_existing f s p n fl :
  fs_ok (nodes f) -> names s p -> nodes f !! p = Some n -> (fl = true -> forall t, n <> Link t) ->
  resolve f fl s = Some p.
Proof.
  intros Hm Hs Hn Hl. apply resolve_names; [done..| |].
  - intros Hp. destruct (path_snoc p Hp) as (q & c & ->). rewrite parent_snoc.
    by destruct (ok_parent _ Hm _ _ _ Hn) as [_ ?].
  - intros Hf t. rewrite Hn. intros [= ->]. by apply (Hl Hf t).
Qed.

(** ** Lemmas on directories *)

Lemma child_name_Some p q c : child_name p q = Some c <-> q = p ++ [c].
Proof.
  unfold child_name. case_if.
  - split.
    + intros H. destruct (path_snoc q) as (r & d & ->); [by destruct q|].
      rewrite removelast_last in *. rewrite last_snoc in H. congruence.
    + intros ->. by rewrite last_snoc.
  - split; [done|]. intros ->. by rewrite removelast_last in *.
Qed.

Lemma elem_of_child_names m p c : c ∈ child_names m p <-> is_Some (m !! (p ++ [c])).
Proof.
  unfold child_names. rewrite list_elem_of_omap. split.
  - intros ([q n] & Hin & Hc). simpl in Hc. apply child_name_Some in Hc as ->.
    apply elem_of_map_to_list in Hin. eauto.
  - intros [n Hn]. exists (p ++ [c], n). rewrite child_name_Some.
    split; [by apply elem_of_map_to_list | done].
Qed.

Lemma NoDup_child_names m p : NoDup (child_names m p).
Proof.
  unfold child_names. pose proof (NoDup_fst_map_to_list m) as Hnd.
  induction (map_to_list m) as [|[q n] l IH]; csimpl in *; [constructor|].
  apply NoDup_cons in Hnd as [Hq Hl]. destruct (child_name p q) as [c|] eqn:E; [|by apply IH].
  constructor; [|by apply IH]. rewrite list_elem_of_omap. intros ([q' n'] & Hin & Hc).
  apply child_name_Some in E as ->. simpl in Hc. apply child_name_Some in Hc as ->.
  apply Hq. apply list_elem_of_fmap. by exists (p ++ [c], n').
Qed.

Lemma child_names_empty m p : child_names m p = [] <-> forall c, m !! (p ++ [c]) = None.
Proof.
  split.
  - intros H c. destruct (m !! (p ++ [c])) eqn:E; [|done].
    assert (c ∈ child_names m p) as Hin by (apply elem_of_child_names; eauto).
    rewrite H in Hin. by apply not_elem_of_nil in Hin.
  - intros H. destruct (child_names m p) as [|c l] eqn:E; [done|].
    assert (c ∈ child_names m p) as Hin by (rewrite E; apply list_elem_of_here).
    apply elem_of_child_names in Hin as [n Hn]. by rewrite H in Hn.
Qed.

#[export] Hint Resolve under_refl under_app not_under_snoc NoDup_child_names : clib.

(** ** Lemmas on names of directories *)

Lemma path_string_snoc p c : p <> [] -> path_string (p ++ [c]) = path_string p ++ SLASH :: c.
Proof.
  intros Hp. destruct p as [|d p]; [done|]. simpl. rewrite fmap_app, join_app.
  cbn. by rewrite app_nil_r, <- app_assoc.
Qed.

Lemma components_path_string p : Forall name_ok p -> components (path_string p) = p.
Proof.
  induction p as [|c p IH] using rev_ind; [done|].
  rewrite Forall_app. intros [Hp [(H1 & H2 & _ & H4) _]%Forall_cons].
  destruct (decide (p = [])) as [->|Hne].
  - change (path_string ([] ++ [c])) with ([] ++ (SLASH :: c) ++ []). rewrite app_nil_r.
    by rewrite components_join.
  - rewrite path_string_snoc, components_join by done. by rewrite IH.
Qed.

Lemma names_path_string p :
  Forall name_ok p -> (length (path_string p) < PATH_MAX)%nat -> names (path_string p) p.
Proof. intros Hp Hl. split; [by destruct p | by apply components_path_string | done..]. Qed.

(** What [realpath] makes of a directory, of an entry and of ["dir/.."]. *)
Section realpath.
Context (f : fs) (p : path) (mode : Z).
Context (Hok : fs_ok (nodes f)) (Hp : nodes f !! p = Some (Dir mode)).

Lemma scandir_dir :
  (length (path_string p) < PATH_MAX)%nat -> p ∉ locked f ->
  scandir f (path_string p) =
    Some (sort_names ((DOT, Dir mode) :: (DOTDOT, Dir mode)
          :: omap (child_entry p) (map_to_list (nodes f)))).
Proof using Hok Hp.
  intros Hl Hlk. unfold scandir.
  rewrite (resolve_existing f _ p (Dir mode)); try done.
  - simpl. by rewrite Hp, bool_decide_true.
  - apply names_path_string; [by eapply fs_ok_names | done].
Qed.

Lemma scandir_locked :
  (length (path_string p) < PATH_MAX)%nat -> p ∈ locked f -> scandir f (path_string p) = None.
Proof using Hok Hp.
  intros Hl Hlk. unfold scandir. rewrite (resolve_existing f _ p (Dir mode)); try done.
  - simpl. rewrite Hp, bool_decide_false; [done|]. intros H. by apply H.
  - apply names_path_string; [by eapply fs_ok_names | done].
Qed.

Lemma realpath_entry c md :
  nodes f !! (p ++ [c]) = Some (Dir md) ->
  (length (path_string p) + 1 + length c < PATH_MAX)%nat ->
  realpath f (path_string p ++ SLASH :: c) = Some (path_string (p ++ [c])).
Proof using Hok Hp.
  intros Hc Hl. unfold realpath. destruct (ok_parent _ Hok _ _ _ Hc) as [Hname _].
  rewrite (resolve_existing f _ (p ++ [c]) (Dir md)); try done.
  - simpl. rewrite Hc. rewrite (proj2 (Nat.ltb_lt _ _)); [done|].
    destruct (decide (p = [])) as [->|Hne].
    + simpl in *. rewrite app_nil_r. lia.
    + rewrite path_string_snoc, length_app by done. simpl. lia.
  - apply names_join; [|done|lia]. apply names_path_string; [by eapply fs_ok_names | lia].
Qed.

Lemma realpath_dotdot :
  (length (path_string p) + 3 < PATH_MAX)%nat ->
  (length (path_string (parent p)) < PATH_MAX)%nat ->
  realpath f (path_string p ++ SLASH :: DOTDOT) = Some (path_string (parent p)).
Proof using Hok Hp.
  intros Hl Hl2. unfold realpath.
  assert (exists md, nodes f !! parent p = Some (Dir md)) as [md Hpar].
  { destruct (decide (p = [])) as [->|Hne]; [eauto|].
    destruct (path_snoc p Hne) as (q & c & ->). rewrite parent_snoc.
    by destruct (ok_parent _ Hok _ _ _ Hp) as [_ ?]. }
  assert (resolve f true (path_string p ++ SLASH :: DOTDOT) = Some (parent p)) as ->.
  { unfold resolve. rewrite bool_decide_false by by destruct (path_string p).
    replace (PATH_MAX <=? length (path_string p ++ SLASH :: DOTDOT))%nat with false
      by (symmetry; apply Nat.leb_gt; rewrite length_app; simpl; lia).
    assert (absolute (path_string p ++ SLASH :: DOTDOT) = true) as -> by by destruct p.
    rewrite components_join, components_path_string;
      [| by eapply fs_ok_names | done | done | apply (bool_decide_unpack _); done].
    simpl orb. cbn match. rewrite (namei_through _ Hok _ _ [] p _ mode); simpl; try done.
    - by rewrite Hp.
    - by eapply fs_ok_names. }
  simpl. rewrite Hpar. by rewrite (proj2 (Nat.ltb_lt _ _)).
Qed.
End realpath.

Lemma sort_names_perm {A} (l : list (cstr * A)) : sort_names l ≡ₚ l.
Proof.
  induction l as [|w l IH]; simpl; [done|]. rewrite <- IH at 2. generalize (sort_names l) as k.
  intros k. induction k as [|v k IHk]; simpl; [done|]. case_if; [done|].
  rewrite IHk. apply Permutation_swap.
Qed.

(** ** Deciding well-formedness of a concrete file system *)

Definition name_okb (w : cstr) : bool :=
  negb (streq w [] || streq w DOT || streq w DOTDOT) && bool_decide (SLASH ∉ w).

Definition dir_at (m : gmap path node) (p : path) : bool :=
  match m !! p with Some (Dir _) => true | _ => false end.

Definition fs_okc (m : gmap path node) : Prop :=
  dir_at m [] = true /\
  map_Forall (fun q _ => match last q with
                         | None => True
                         | Some c => name_okb c = true /\ dir_at m (removelast q) = true
                         end) m.

Definition namesc (s : cstr) (p : path) : Prop :=
  absolute s = true /\ components s = p /\ forallb name_okb p = true /\ (length s < PATH_MAX)%nat.

#[export] Instance fs_okc_dec m : Decision (fs_okc m).
Proof.
  apply and_dec; [apply _|]. apply map_Forall_dec. intros q n. destruct (last q); apply _.
Defined.
#[export] Instance namesc_dec s p : Decision (namesc s p).
Proof. unfold namesc. apply _. Defined.
Lemma name_okb_sound w : name_okb w = true -> name_ok w.
Proof. unfold name_okb, streq. intros H. bool_to_prop. done. Qed.

Lemma dir_at_sound m p : dir_at m p = true -> exists mode, m !! p = Some (Dir mode).
Proof. unfold dir_at. destruct (m !! p) as [[]|]; eauto; done. Qed.

Lemma fs_okc_sound m : fs_okc m -> fs_ok m.
Proof.
  intros [Hr Hm]. split; [by apply dir_at_sound|]. intros p c n Hn.
  specialize (Hm _ _ Hn). simpl in Hm. rewrite last_snoc, removelast_last in Hm.
  destruct Hm as [Hc Hp]. split; [by apply name_okb_sound | by apply dir_at_sound].
Qed.

Lemma namesc_sound s p : namesc s p -> names s p.
Proof.
  intros (Ha & Hc & Hf & Hl). split; [done..| |done].
  apply Forall_forall. intros w Hw. apply name_okb_sound.
  eapply forallb_forall in Hf; [exact Hf | by apply list_elem_of_In].
Qed.
