(* ===== verification/FmTree.v ===== *)
(** * File manager: copying, deleting and moving trees

    The static functions of [simple_file_manager/src/dialog.c] that work on the
    file system: [build_path_alloc], [copy_file] and the recursive
    [process_tree], over the file system of [Vfs].  The recursion has fuel, one
    unit per level of the tree; [None] means that it ran out, and the theorems
    give the fuel that is enough.  The theorems say what the three operations do
    to the whole file system: deletion removes exactly the tree, copying and
    moving put an image of it at the destination and change nothing else. *)

From S2P Require Import Prelude CString Vfs.

Inductive Operation := OP_COPY | OP_DELETE | OP_MOVE.

Definition MODE_0755 : Z := 493.
Definition BUF_SIZE : nat := Z.to_nat 8192.

(** ["%s/%s"] *)
Definition join (dir name : cstr) : cstr := dir ++ SLASH :: name.

(** [NULL] arguments and a failing [malloc] give [NULL]; otherwise the buffer has
    [strlen(dir) + 1 + strlen(name) + 1] bytes. *)
Definition build_path_alloc (malloc_ok : bool) (dir name : option cstr) : option cstr :=
  match dir, name with
  | Some d, Some n =>
      if malloc_ok then
        let total := (length d + 1 + length n + 1)%nat in
        Some (trunc total (join d n))
      else None
  | _, _ => None
  end.

(** [while ((r = read(in, buf, sizeof(buf))) > 0) write(out, buf, r);] *)
Fixpoint copy_loop (fuel : nat) (f : fs) (pin pout : path) (off : nat) : option fs :=
  match fuel with
  | O => None
  | S k =>
      match read f pin off BUF_SIZE with
      | [] => Some f
      | buf => copy_loop k (write f pout buf) pin pout (off + length buf)
      end
  end.

(** Fuel for the loop: one turn per byte of the source is more than enough. *)
Definition copy_fuel (f : fs) (pin : path) : nat :=
  match nodes f !! pin with Some (File c _) => S (length c) | _ => 1 end.

Definition copy_file (f : fs) (src dst : cstr) : option (Z * fs) :=
  match open_read f src with
  | None => Some (-1, f)
  | Some pin =>
      match open_write f dst (st_mode f pin) with
      | None => Some (-1, f)
      | Some (f1, pout) => f2 ← copy_loop (copy_fuel f1 pin) f1 pin pout 0; Some (0, f2)
      end
  end.

(** The loop over the entries of a directory; the status of the recursive call is
    not used. *)
Fixpoint for_entries (step : fs -> cstr -> option (Z * fs)) (es : list cstr) (f : fs) : option fs :=
  match es with
  | [] => Some f
  | e :: es' =>
      if streq e DOT || streq e DOTDOT then for_entries step es' f
      else r ← step f e; for_entries step es' r.2
  end.

Definition or_same (r : option fs) (f : fs) : fs := match r with Some f' => f' | None => f end.

Fixpoint process_tree (fuel : nat) (f : fs) (src : cstr) (dst : option cstr) (op : Operation)
  : option (Z * fs) :=
  match fuel with
  | O => None
  | S n =>
      match stat f src with
      | None => Some (-1, f)
      | Some st =>
          match op with
          | OP_MOVE =>
              match dst with
              | None => Some (-1, f)
              | Some d =>
                  if streq src d then Some (0, f)
                  else match rename f src d with
                  | Some f' => Some (0, f')
                  | None =>
                      if is_dir st then
                        match mkdir f d MODE_0755 with
                        | None => Some (-1, f)
                        | Some f1 =>
                            match opendir f1 src with
                            | None => Some (-1, f1)
                            | Some es =>
                                f2 ← for_entries (fun f e =>
                                       process_tree n f (trunc PATH_MAX (join src e))
                                         (Some (trunc PATH_MAX (join d e))) OP_MOVE) es f1;
                                Some (0, or_same (rmdir f2 src) f2)
                            end
                        end
                      else
                        r ← copy_file f src d;
                        if r.1 =? 0 then Some (0, or_same (unlink r.2 src) r.2) else Some (-1, r.2)
                  end
              end
          | OP_COPY =>
              match dst with
              | None => Some (-1, f)
              | Some d =>
                  if is_dir st then
                    match mkdir f d MODE_0755 with
                    | None => Some (-1, f)
                    | Some f1 =>
                        match opendir f1 src with
                        | None => Some (-1, f1)
                        | Some es =>
                            f2 ← for_entries (fun f e =>
                                   process_tree n f (trunc PATH_MAX (join src e))
                                     (Some (trunc PATH_MAX (join d e))) OP_COPY) es f1;
                            Some (0, f2)
                        end
                    end
                  else copy_file f src d
              end
          | OP_DELETE =>
              if is_dir st then
                match opendir f src with
                | None => Some (-1, f)
                | Some es =>
                    f2 ← for_entries (fun f e =>
                           process_tree n f (trunc PATH_MAX (join src e)) None OP_DELETE) es f;
                    Some (0, or_same (rmdir f2 src) f2)
                end
              else Some (0, or_same (unlink f src) f)
          end
      end
  end.

(** ** Trees a call can work on *)

(** What a relative path adds to a name in bytes. *)
Definition plen (r : path) : nat := sum_list_with (fun w => S (length w)) r.

(** [s] names the existing path [p], whose tree has fewer than [h] levels, no
    symbolic link, no directory or file the process may not use, and only names
    that fit in a buffer of [PATH_MAX] bytes. *)
Record tree_ready (f : fs) (s : cstr) (p : path) (h : nat) : Prop := {
  tr_ok : fs_ok (nodes f);
  tr_names : names s p;
  tr_root : p <> [];
  tr_size : forall r n, nodes f !! (p ++ r) = Some n ->
    (length r < h)%nat /\ (length s + plen r < PATH_MAX)%nat;
  tr_nolink : forall r t, nodes f !! (p ++ r) <> Some (Link t);
  tr_unlocked : forall r, p ++ r ∉ locked f;
  tr_parent : parent p ∉ locked f
}.

(** The file system without the tree at [p]. *)
Definition prune (p : path) (m : gmap path node) : gmap path node :=
  filter (fun x => under p x.1 = false) m.

(** ** Lemmas on trees *)

Lemma lookup_prune p m q : prune p m !! q = if under p q then None else m !! q.
Proof.
  unfold prune. destruct (under p q) eqn:E.
  - apply map_lookup_filter_None_2. right. intros n _. simpl. by rewrite E.
  - destruct (m !! q) as [n|] eqn:Hq.
    + by apply map_lookup_filter_Some_2.
    + apply map_lookup_filter_None_2. by left.
Qed.

Lemma fs_ok_prune p m : p <> [] -> fs_ok m -> fs_ok (prune p m).
Proof.
  intros Hp [[mode Hr] Hpar]. split.
  - exists mode. rewrite lookup_prune. destruct (under p []) eqn:E; [|done].
    apply under_length in E. destruct p; simpl in E; [done | lia].
  - intros q c n. rewrite lookup_prune. destruct (under p (q ++ [c])) eqn:E; [done|].
    intros [Hc [mode' Hd]]%Hpar. split; [done|]. exists mode'. rewrite lookup_prune.
    destruct (under p q) eqn:E2; [|done].
    by rewrite (under_trans _ _ _ E2 (under_app q [c])) in E.
Qed.

Lemma tree_ready_child f s p h c n :
  tree_ready f s p (S h) -> nodes f !! (p ++ [c]) = Some n ->
  tree_ready f (join s c) (p ++ [c]) h.
Proof.
  intros [Hok Hn Hr Hs Hl Hu Hp] Hc. destruct (ok_parent _ Hok _ _ _ Hc) as [Hname _].
  assert (forall r, (p ++ [c]) ++ r = p ++ c :: r) as Happ by (intros; by rewrite <- app_assoc).
  destruct (Hs [c] n Hc) as [_ Hlen]. unfold plen in Hlen. simpl in Hlen. split.
  - done.
  - apply names_join; [done..|]. lia.
  - by destruct p.
  - intros r n'. rewrite Happ. intros [H1 H2]%Hs. unfold join, plen in *. simpl in *.
    rewrite length_app. simpl. lia.
  - intros r t. rewrite Happ. apply Hl.
  - intros r. rewrite Happ. apply Hu.
  - rewrite parent_snoc. rewrite <- (app_nil_r p). apply Hu.
Qed.

Lemma tree_ready_trunc f s p h c n :
  tree_ready f s p h -> nodes f !! (p ++ [c]) = Some n -> trunc PATH_MAX (join s c) = join s c.
Proof.
  intros Ht Hc. apply trunc_id. destruct (tr_size _ _ _ _ Ht [c] n Hc) as [_ H].
  unfold plen, join in *. rewrite length_app. simpl in *. lia.
Qed.

(** Being ready only needs the tree itself unchanged. *)
Lemma tree_ready_same f f' s p h :
  tree_ready f s p h -> fs_ok (nodes f') -> locked f' = locked f ->
  (forall r, nodes f' !! (p ++ r) = nodes f !! (p ++ r) \/ nodes f' !! (p ++ r) = None) ->
  tree_ready f' s p h.
Proof.
  intros [Hok Hn Hr Hs Hl Hu Hp] Hok' Hlk Hm. split; rewrite ?Hlk; try done.
  - intros r n Hq. destruct (Hm r) as [E|E]; rewrite E in Hq; [by eapply Hs | done].
  - intros r t Hq. destruct (Hm r) as [E|E]; rewrite E in Hq; [by eapply Hl | done].
Qed.

Lemma tree_ready_prune f s p h q :
  tree_ready f s p h -> q <> [] -> tree_ready (set_nodes f (prune q (nodes f))) s p h.
Proof.
  intros Ht Hq. eapply tree_ready_same; [done| |done|].
  - apply fs_ok_prune; [done|]. apply (tr_ok _ _ _ _ Ht).
  - intros r. simpl. rewrite lookup_prune. destruct (under q (p ++ r)); auto.
Qed.

Section ready_calls.
Context (f : fs) (s : cstr) (p : path) (h : nat) (n : node).
Context (Ht : tree_ready f s p h) (Hn : nodes f !! p = Some n).

Lemma ready_not_link t : n <> Link t.
Proof. intros E. apply (tr_nolink _ _ _ _ Ht [] t). by rewrite app_nil_r, <- E. Qed.

Lemma ready_resolve fl : resolve f fl s = Some p.
Proof.
  eapply resolve_existing; [apply (tr_ok _ _ _ _ Ht) | apply (tr_names _ _ _ _ Ht) | done |].
  intros _ t. apply ready_not_link.
Qed.

Lemma ready_stat : stat f s = Some n.
Proof. unfold stat. by rewrite ready_resolve. Qed.

Lemma ready_unlocked : p ∉ locked f.
Proof. rewrite <- (app_nil_r p). apply (tr_unlocked _ _ _ _ Ht). Qed.

Lemma ready_opendir mode :
  n = Dir mode -> opendir f s = Some (DOT :: DOTDOT :: child_names (nodes f) p).
Proof.
  intros E. unfold opendir. rewrite ready_resolve. simpl. rewrite Hn, E.
  by rewrite bool_decide_true by apply ready_unlocked.
Qed.

Lemma ready_writable : writable f p = true.
Proof. apply bool_decide_eq_true. apply (tr_parent _ _ _ _ Ht). Qed.

Lemma ready_unlink :
  is_dir n = false -> unlink f s = Some (set_nodes f (delete p (nodes f))).
Proof.
  intros Hd. unfold unlink. rewrite ready_resolve. simpl. rewrite Hn, ready_writable.
  by destruct n.
Qed.

Lemma ready_rmdir mode :
  n = Dir mode -> (forall c, nodes f !! (p ++ [c]) = None) ->
  rmdir f s = Some (set_nodes f (delete p (nodes f))).
Proof.
  intros E Hc. unfold rmdir. rewrite ready_resolve. simpl. rewrite Hn, E, ready_writable.
  rewrite bool_decide_true by by apply child_names_empty.
  by rewrite bool_decide_true by apply (tr_root _ _ _ _ Ht).
Qed.

(** Nothing lies below something that is not a directory. *)
Lemma ready_leaf q : is_dir n = false -> under p q = true -> q <> p -> nodes f !! q = None.
Proof.
  intros Hd [r ->]%under_spec Hne. destruct (nodes f !! (p ++ r)) eqn:E; [|done].
  destruct (fs_ok_prefix _ (tr_ok _ _ _ _ Ht) p r _ E) as [mode Hp].
  - intros ->. by rewrite app_nil_r in Hne.
  - rewrite Hn in Hp. by simplify_eq.
Qed.
End ready_calls.

Lemma set_nodes_twice f m m' : set_nodes (set_nodes f m) m' = set_nodes f m'.
Proof. done. Qed.

Lemma set_nodes_same f : set_nodes f (nodes f) = f.
Proof. by destruct f. Qed.

(** The entries of a directory that the loop visits. *)
Lemma for_entries_dots step es f :
  for_entries step (DOT :: DOTDOT :: es) f = for_entries step es f.
Proof. reflexivity. Qed.

Lemma for_entries_cons step e es f :
  name_ok e -> for_entries step (e :: es) f = r ← step f e; for_entries step es r.2.
Proof.
  intros (_ & H1 & H2 & _). simpl. unfold streq. by rewrite !bool_decide_false.
Qed.

(** ** Deleting *)

(** The file system without the trees of the entries [l] of [p]. *)
Definition prune_entries (p : path) (l : list cstr) (m : gmap path node) : gmap path node :=
  foldl (fun m c => prune (p ++ [c]) m) m l.

Lemma lookup_prune_entries p l m q :
  prune_entries p l m !! q =
  if existsb (fun c => under (p ++ [c]) q) l then None else m !! q.
Proof.
  revert m. induction l as [|c l IH]; intros m; simpl; [done|].
  unfold prune_entries in *. rewrite IH, lookup_prune.
  destruct (under (p ++ [c]) q), (existsb _ l); done.
Qed.

(** Removing all the entries and then the directory removes the tree. *)
Lemma prune_dir p m :
  fs_ok m -> delete p (prune_entries p (child_names m p) m) = prune p m.
Proof.
  intros Hok. apply map_eq. intros q. rewrite lookup_prune. destruct (decide (q = p)) as [->|Hne].
  { by rewrite lookup_delete_eq, under_refl. }
  rewrite lookup_delete_ne, lookup_prune_entries by done.
  destruct (existsb _ _) eqn:E.
  - apply existsb_exists in E as (c & _ & Hc). by rewrite (under_snoc _ _ _ Hc).
  - destruct (under p q) eqn:Eu; [|done]. destruct (m !! q) as [n|] eqn:Hq; [|done].
    destruct (under_child p q Eu Hne) as [c [r Hr]%under_spec]. subst q.
    apply not_true_iff_false in E. destruct E. apply existsb_exists. exists c.
    split; [|apply under_app]. apply list_elem_of_In, elem_of_child_names.
    destruct r as [|d r]; [rewrite app_nil_r in Hq; eauto|].
    destruct (fs_ok_prefix _ Hok (p ++ [c]) (d :: r) _ Hq) as [mode ?]; [done | eauto].
Qed.

Definition delete_step (h : nat) (s : cstr) (f : fs) (e : cstr) : option (Z * fs) :=
  process_tree h f (trunc PATH_MAX (join s e)) None OP_DELETE.

Definition deletes (h : nat) : Prop := forall f s p n,
  tree_ready f s p h -> nodes f !! p = Some n ->
  process_tree h f s None OP_DELETE = Some (0, set_nodes f (prune p (nodes f))).

Lemma delete_loop h s p : deletes h -> forall l f,
  tree_ready f s p (S h) -> NoDup l -> (forall c, c ∈ l -> is_Some (nodes f !! (p ++ [c]))) ->
  for_entries (delete_step h s) l f = Some (set_nodes f (prune_entries p l (nodes f))).
Proof.
  intros IH l. induction l as [|c l IHl]; intros f Ht Hnd Hl.
  { simpl. by rewrite set_nodes_same. }
  apply NoDup_cons in Hnd as [Hc Hnd]. destruct (Hl c (list_elem_of_here _ _)) as [n Hn].
  destruct (ok_parent _ (tr_ok _ _ _ _ Ht) _ _ _ Hn) as [Hok _].
  rewrite for_entries_cons by done.
  assert (delete_step h s f c = Some (0, set_nodes f (prune (p ++ [c]) (nodes f)))) as ->.
  { unfold delete_step. rewrite (tree_ready_trunc _ _ _ _ _ _ Ht Hn).
    by eapply IH, Hn; eapply tree_ready_child. }
  cbn [mbind option_bind snd].
  rewrite IHl; [done| |done|].
  - apply tree_ready_prune; [done|]. by destruct p.
  - intros d Hd. simpl. rewrite lookup_prune. destruct (under (p ++ [c]) (p ++ [d])) eqn:E.
    + assert (c = d) as <-; [|done]. eapply under_snoc_eq; [done | apply under_refl].
    + apply Hl. by apply list_elem_of_further.
Qed.

Lemma fs_ok_prune_entries p l m : fs_ok m -> fs_ok (prune_entries p l m).
Proof.
  revert m. induction l as [|c l IH]; intros m Hm; simpl; [done|].
  apply IH. apply fs_ok_prune; [by destruct p | done].
Qed.

(** The directory once its entries are gone. *)
Lemma ready_emptied f s p h mode :
  tree_ready f s p h -> nodes f !! p = Some (Dir mode) ->
  let f2 := set_nodes f (prune_entries p (child_names (nodes f) p) (nodes f)) in
  rmdir f2 s = Some (set_nodes f (prune p (nodes f))).
Proof.
  intros Ht Hn f2. pose proof (tr_ok _ _ _ _ Ht) as Hok.
  assert (tree_ready f2 s p h) as Ht2.
  { eapply tree_ready_same; [done | by apply fs_ok_prune_entries | done|].
    intros r. simpl. rewrite lookup_prune_entries. case_if; auto. }
  assert (nodes f2 !! p = Some (Dir mode)) as Hp2.
  { simpl. rewrite lookup_prune_entries. destruct (existsb _ _) eqn:E; [|done].
    apply existsb_exists in E as (c & _ & Hc). by rewrite not_under_snoc in Hc. }
  rewrite (ready_rmdir _ _ _ _ _ Ht2 Hp2 mode); [|done|].
  - unfold f2. simpl. by rewrite set_nodes_twice, prune_dir.
  - intros c. simpl. rewrite lookup_prune_entries. destruct (existsb _ _) eqn:E; [done|].
    destruct (nodes f !! (p ++ [c])) eqn:Hc; [|done].
    apply not_true_iff_false in E. destruct E. apply existsb_exists. exists c.
    split; [|apply under_refl]. apply list_elem_of_In, elem_of_child_names. eauto.
Qed.

Lemma prune_leaf f s p h n :
  tree_ready f s p h -> nodes f !! p = Some n -> is_dir n = false ->
  delete p (nodes f) = prune p (nodes f).
Proof.
  intros Ht Hn Hd. apply map_eq. intros q. rewrite lookup_prune.
  destruct (decide (q = p)) as [->|Hne]; [by rewrite lookup_delete_eq, under_refl|].
  rewrite lookup_delete_ne by done. destruct (under p q) eqn:E; [|done]. by eapply ready_leaf.
Qed.

Lemma process_tree_deletes h : deletes h.
Proof.
  induction h as [|h IH]; intros f s p n Ht Hn.
  { destruct (tr_size _ _ _ _ Ht [] n) as [H _]; [by rewrite app_nil_r | simpl in H; lia]. }
  simpl. rewrite (ready_stat _ _ _ _ _ Ht Hn). destruct (is_dir n) eqn:Hd.
  - destruct n as [| mode |]; try done. rewrite (ready_opendir _ _ _ _ _ Ht Hn mode) by done.
    rewrite for_entries_dots. fold (delete_step h s).
    rewrite (delete_loop h s p) by (try done; auto with clib; intros c; apply elem_of_child_names).
    simpl. by rewrite (ready_emptied _ _ _ _ _ Ht Hn).
  - rewrite (ready_unlink _ _ _ _ _ Ht Hn) by done. simpl.
    by rewrite (prune_leaf _ _ _ _ _ Ht Hn).
Qed.

(** ** Copying and moving *)

(** [d] names a place [q] for an image of the tree at [p]: apart from it, usable,
    on a file system whose files can be as large as those of the tree. *)
Record dst_ready (f : fs) (d : cstr) (p q : path) : Prop := {
  ds_names : names d q;
  ds_apart : under p q = false /\ under q p = false;
  ds_size : forall r n, nodes f !! (p ++ r) = Some n -> (length d + plen r < PATH_MAX)%nat;
  ds_unlocked : forall r, q ++ r ∉ locked f;
  ds_files : forall r c m, nodes f !! (p ++ r) = Some (File c m) -> (length c <= max_file f)%nat
}.

(** [q] does not exist yet, in a directory the process may write. *)
Record dst_free (f : fs) (q : path) : Prop := {
  df_root : q <> [];
  df_free : nodes f !! q = None;
  df_dir : exists mode, nodes f !! parent q = Some (Dir mode);
  df_writable : parent q ∉ locked f
}.

(** [p] and [q] are on different devices, without mount points of their own. *)
Record apart_devices (f : fs) (p q : path) : Prop := {
  ad_device : device f p <> device f q;
  ad_mounts : forall r, (p ++ r ∉ mounts f) /\ (q ++ r ∉ mounts f)
}.

(** A node as it is created at the destination. *)
Definition image (f : fs) (n : node) : node :=
  match n with
  | File c m => File c (Z.ldiff m (umask f))
  | Dir _ => Dir (Z.ldiff MODE_0755 (umask f))
  | Link t => Link t
  end.

(** [m] is the file system [f] with an image of the tree at [p] put at [q], and
    the tree itself gone when [mv] is set. *)
Definition transferred (mv : bool) (f : fs) (p q : path) (m : gmap path node) : Prop :=
  forall x, m !! x =
    if under q x then image f <$> (nodes f !! (p ++ drop (length q) x))
    else if mv && under p x then None else nodes f !! x.

(** The same for some entries of two directories. *)
Definition transferred_entries (mv : bool) (f : fs) (p q : path) (l : list cstr)
  (m : gmap path node) : Prop :=
  forall x, m !! x =
    if existsb (fun c => under (q ++ [c]) x) l then image f <$> (nodes f !! (p ++ drop (length q) x))
    else if mv && existsb (fun c => under (p ++ [c]) x) l then None else nodes f !! x.

Definition op_of (mv : bool) : Operation := if mv then OP_MOVE else OP_COPY.

Definition transfers (mv : bool) (h : nat) : Prop := forall f s d p q n,
  tree_ready f s p h -> dst_ready f d p q -> dst_free f q ->
  (mv = true -> apart_devices f p q) -> nodes f !! p = Some n ->
  exists m, process_tree h f s (Some d) (op_of mv) = Some (0, set_nodes f m) /\
    transferred mv f p q m.

Definition transfer_step (mv : bool) (h : nat) (s d : cstr) (f : fs) (e : cstr) : option (Z * fs) :=
  process_tree h f (trunc PATH_MAX (join s e)) (Some (trunc PATH_MAX (join d e))) (op_of mv).

(** *** The copy loop *)

Lemma BUF_SIZE_pos : (0 < BUF_SIZE)%nat.
Proof. unfold BUF_SIZE. lia. Qed.

Lemma take_take_len {A} (l : list A) n : take n l = take (n `min` length l) l.
Proof.
  destruct (decide (n <= length l)%nat); [f_equal; lia|]. rewrite !take_ge; [done | lia..].
Qed.

(** What one more [write] leaves in the file. *)
Lemma write_chunk (c : list byte) off mx n :
  (off < length c)%nat ->
  take off (take mx c) ++ take (mx - length (take off (take mx c))) (take n (drop off c))
  = take (off + length (take n (drop off c))) (take mx c).
Proof.
  intros Hoff. rewrite !take_take, !length_take, length_drop.
  destruct (decide (off < mx)%nat).
  - replace (off `min` mx)%nat with off by lia.
    replace (off `min` length c)%nat with off by lia. rewrite take_take_drop.
    rewrite (take_take_len c), (take_take_len c (_ `min` mx)). f_equal. lia.
  - replace (mx - (off `min` mx) `min` length c)%nat with 0%nat by lia.
    rewrite take_0, app_nil_r. f_equal. lia.
Qed.

Lemma copy_loop_copies fuel f pin pout off c m1 m2 :
  nodes f !! pin = Some (File c m1) -> pin <> pout ->
  nodes f !! pout = Some (File (take off (take (max_file f) c)) m2) ->
  (length c - off < fuel)%nat ->
  copy_loop fuel f pin pout off =
    Some (set_nodes f (<[pout := File (take (max_file f) c) m2]> (nodes f))).
Proof.
  revert f off. induction fuel as [|fuel IH]; intros f off Hi Hne Ho Hf; [lia|].
  cbn [copy_loop]. unfold read. rewrite Hi.
  destruct (take BUF_SIZE (drop off c)) as [|b0 bs] eqn:E.
  - assert (length c <= off)%nat as Hend.
    { apply (f_equal length) in E. rewrite length_take, length_drop in E.
      pose proof BUF_SIZE_pos. simpl length in E. lia. }
    rewrite (take_ge (take _ c) off) in Ho by (rewrite length_take; lia).
    f_equal. rewrite <- (set_nodes_same f) at 1. f_equal. symmetry. by apply insert_id.
  - assert (off < length c)%nat as Hoff.
    { destruct (decide (off < length c)%nat); [done|].
      rewrite drop_ge, take_nil in E by lia. done. }
    assert (0 < length (b0 :: bs))%nat by (simpl; lia). rewrite <- E in *. clear E b0 bs.
    set (b := take BUF_SIZE (drop off c)) in *.
    assert (write f pout b =
      set_nodes f (<[pout := File (take (off + length b) (take (max_file f) c)) m2]> (nodes f))) as ->.
    { unfold write. rewrite Ho. do 4 f_equal. by apply write_chunk. }
    rewrite IH; simpl.
    + by rewrite insert_insert_eq.
    + by rewrite lookup_insert_ne.
    + done.
    + by rewrite lookup_insert_eq.
    + lia.
Qed.

(** *** The destination *)

Lemma dst_resolve f d q fl :
  fs_ok (nodes f) -> names d q -> dst_free f q -> resolve f fl d = Some q.
Proof.
  intros Hok Hn [Hr Hf Hd _]. apply resolve_names; [done..|]. intros _ t. by rewrite Hf.
Qed.

Lemma dst_writable f q : dst_free f q -> writable f q = true.
Proof. intros [_ _ _ H]. by apply bool_decide_eq_true. Qed.

(** Nothing lies below a missing place. *)
Lemma below_missing m q x : fs_ok m -> m !! q = None -> under q x = true -> m !! x = None.
Proof.
  intros Hok Hq [r ->]%under_spec. destruct (m !! (q ++ r)) eqn:E; [|done].
  destruct (decide (r = [])) as [->|Hr]; [rewrite app_nil_r in E; congruence|].
  destruct (fs_ok_prefix _ Hok _ _ _ E Hr). congruence.
Qed.

Lemma dst_ready_same f f' d p q :
  dst_ready f d p q -> locked f' = locked f -> max_file f' = max_file f ->
  (forall r, nodes f' !! (p ++ r) = nodes f !! (p ++ r) \/ nodes f' !! (p ++ r) = None) ->
  dst_ready f' d p q.
Proof.
  intros [Hn Ha Hs Hu Hf] Hl Hx Hm. split; rewrite ?Hl, ?Hx; try done.
  - intros r n Hq. destruct (Hm r) as [E|E]; rewrite E in Hq; [by eapply Hs | done].
  - intros r c m Hq. destruct (Hm r) as [E|E]; rewrite E in Hq; [by eapply Hf | done].
Qed.

Lemma apart_child p q c :
  under p q = false -> under q p = false ->
  under (p ++ [c]) (q ++ [c]) = false /\ under (q ++ [c]) (p ++ [c]) = false.
Proof.
  intros H1 H2. split; apply not_true_is_false; intros H.
  - destruct (under_total p q (q ++ [c])); [by eapply under_snoc | auto with clib | congruence..].
  - destruct (under_total p q (p ++ [c])); [auto with clib | by eapply under_snoc | congruence..].
Qed.

Lemma dst_ready_child f d p q c n :
  fs_ok (nodes f) -> dst_ready f d p q -> nodes f !! (p ++ [c]) = Some n ->
  dst_ready f (join d c) (p ++ [c]) (q ++ [c]).
Proof.
  intros Hok [Hn [Ha1 Ha2] Hs Hu Hf] Hc. destruct (ok_parent _ Hok _ _ _ Hc) as [Hname _].
  assert (forall p r, (p ++ [c]) ++ r = p ++ c :: r) as Happ by (intros; by rewrite <- app_assoc).
  pose proof (Hs [c] n Hc) as Hlen. unfold plen in Hlen. simpl in Hlen. split.
  - apply names_join; [done..|]. lia.
  - by apply apart_child.
  - intros r n'. rewrite Happ. intros H%Hs. unfold join, plen in *. rewrite length_app.
    simpl in *. lia.
  - intros r. rewrite Happ. apply Hu.
  - intros r c' m. rewrite Happ. apply Hf.
Qed.

Lemma dst_ready_trunc f d p q c n :
  dst_ready f d p q -> nodes f !! (p ++ [c]) = Some n -> trunc PATH_MAX (join d c) = join d c.
Proof.
  intros Hd Hc. apply trunc_id. pose proof (ds_size _ _ _ _ Hd [c] n Hc) as H.
  unfold plen, join in *. rewrite length_app. simpl in *. lia.
Qed.

(** *** Devices *)

Lemma device_from_snoc mts b pre rest c :
  (pre ++ rest ++ [c]) ∉ mts -> device_from mts b pre (rest ++ [c]) = device_from mts b pre rest.
Proof.
  revert b pre. induction rest as [|e rest IH]; intros b pre H; simpl in *.
  - by rewrite (bool_decide_false (pre ++ [c] ∈ mts)).
  - apply IH. by rewrite <- app_assoc.
Qed.

Lemma device_snoc f p c : p ++ [c] ∉ mounts f -> device f (p ++ [c]) = device f p.
Proof. apply (device_from_snoc (mounts f) [] [] p c). Qed.

Lemma apart_devices_child f p q c :
  apart_devices f p q -> apart_devices f (p ++ [c]) (q ++ [c]).
Proof.
  intros [Hd Hm]. split.
  - destruct (Hm [c]). by rewrite !device_snoc.
  - intros r. rewrite <- !app_assoc. apply Hm.
Qed.

Lemma rename_across f s d p q h n :
  tree_ready f s p h -> names d q -> dst_free f q -> device f p <> device f q ->
  nodes f !! p = Some n -> rename f s d = None.
Proof.
  intros Ht Hd Hf Hdev Hn. unfold rename. rewrite (ready_resolve _ _ _ _ _ Ht Hn).
  simpl. rewrite (dst_resolve _ _ _ _ (tr_ok _ _ _ _ Ht) Hd Hf). simpl. rewrite Hn. simpl.
  rewrite (bool_decide_false (device f p = device f q)) by done. by rewrite andb_false_r.
Qed.

Lemma names_inj s p q : names s p -> names s q -> p = q.
Proof. intros [_ <- _ _] [_ <- _ _]. done. Qed.

Lemma dst_not_src s d p q : names s p -> names d q -> p <> q -> streq s d = false.
Proof.
  intros Hs Hd Hne. apply bool_decide_eq_false. intros ->. by apply Hne, (names_inj d).
Qed.

Lemma dst_free_ne f p q n : dst_free f q -> nodes f !! p = Some n -> p <> q.
Proof. intros [_ Hf _ _] Hn ->. congruence. Qed.

(** *** The file system after a transfer *)

Lemma under_nil z : z <> [] -> under z [] = false.
Proof.
  intros Hz. apply not_true_is_false. intros H%under_length. destruct z; simpl in H; [done | lia].
Qed.

Lemma drop_snoc_under q y c :
  under q y = true -> drop (length q) (y ++ [c]) = drop (length q) y ++ [c].
Proof. intros [r ->]%under_spec. by rewrite <- app_assoc, !drop_app_length. Qed.

Lemma under_snoc_inv q y c : under q (y ++ [c]) = true -> y ++ [c] <> q -> under q y = true.
Proof.
  intros [r Hr]%under_spec Hne. destruct (decide (r = [])) as [->|Hr0].
  { by rewrite app_nil_r in Hr. }
  destruct (path_snoc r Hr0) as (r' & e & ->). rewrite app_assoc in Hr.
  apply app_inj_tail in Hr as [-> _]. apply under_app.
Qed.

Lemma fs_ok_transferred mv f p q m :
  fs_ok (nodes f) -> p <> [] -> under p q = false -> Forall name_ok q -> dst_free f q ->
  transferred mv f p q m -> fs_ok m.
Proof.
  intros Hok Hp0 Hap Hq [Hr Hfree [mode Hpar] _] Hm. split.
  { destruct (ok_root _ Hok) as [md Hroot]. exists md. by rewrite Hm, !under_nil, andb_false_r. }
  intros y c n. rewrite !Hm. destruct (under q (y ++ [c])) eqn:E.
  - destruct (decide (y ++ [c] = q)) as [<-|Hne].
    + intros _. apply Forall_app in Hq as [_ [Hc _]%Forall_cons].
      split; [done|]. rewrite parent_snoc in Hpar. rewrite not_under_snoc. exists mode.
      destruct (under p y) eqn:Ep; [|by rewrite andb_false_r].
      by rewrite (under_trans _ _ _ Ep (under_app y [c])) in Hap.
    + pose proof (under_snoc_inv _ _ _ E Hne) as Ey. rewrite Ey, drop_snoc_under by done.
      rewrite app_assoc. intros (n0 & En & _)%fmap_Some.
      destruct (ok_parent _ Hok _ _ _ En) as [Hc [md ->]]. simpl. eauto.
  - destruct (mv && under p (y ++ [c])) eqn:Ep; [done|].
    intros [Hc [md Hd]]%(ok_parent _ Hok). split; [done|]. exists md.
    destruct (under q y) eqn:Ey; [by rewrite (under_trans _ _ _ Ey (under_app y [c])) in E|].
    destruct (mv && under p y) eqn:Epy; [|done]. apply andb_prop in Epy as [-> Epy].
    by rewrite (under_trans _ _ _ Epy (under_app y [c])) in Ep.
Qed.

(** A new directory is the image of an empty tree. *)
Lemma mkdir_dst f d p q :
  fs_ok (nodes f) -> dst_ready f d p q -> dst_free f q ->
  mkdir f d MODE_0755 =
    Some (set_nodes f (<[q := Dir (Z.ldiff MODE_0755 (umask f))]> (nodes f))).
Proof.
  intros Hok Hd Hf. unfold mkdir. rewrite (dst_resolve _ _ _ _ Hok (ds_names _ _ _ _ Hd) Hf). simpl.
  by rewrite (df_free _ _ Hf), dst_writable.
Qed.

Lemma fs_ok_insert m q n :
  fs_ok m -> Forall name_ok q -> q <> [] -> m !! q = None ->
  (exists mode, m !! parent q = Some (Dir mode)) -> fs_ok (<[q := n]> m).
Proof.
  intros Hok Hq Hr Hf [mode Hp]. split.
  { destruct (ok_root _ Hok) as [md H]. exists md. by rewrite lookup_insert_ne. }
  intros y c n' H. destruct (decide (q = y ++ [c])) as [->|Hne].
  - apply Forall_app in Hq as [_ [Hc _]%Forall_cons]. split; [done|].
    rewrite parent_snoc in Hp. exists mode. rewrite lookup_insert_ne; [done|].
    intros E. by rewrite <- E in Hp; rewrite Hf in Hp.
  - rewrite lookup_insert_ne in H by done. destruct (ok_parent _ Hok _ _ _ H) as [Hc [md Hd]].
    split; [done|]. exists md. rewrite lookup_insert_ne; [done|]. intros ->. congruence.
Qed.

(** [copy_file] into a new file, whatever fits. *)
Lemma copy_file_new f s d p q h c md :
  tree_ready f s p h -> names d q -> dst_free f q -> nodes f !! p = Some (File c md) ->
  copy_file f s d = Some (0, set_nodes f
    (<[q := File (take (max_file f) c) (Z.ldiff md (umask f))]> (nodes f))).
Proof.
  intros Ht Hd Hf Hn. pose proof (tr_ok _ _ _ _ Ht) as Hok.
  pose proof (dst_free_ne _ _ _ _ Hf Hn) as Hne.
  unfold copy_file, open_read. rewrite (ready_resolve _ _ _ _ _ Ht Hn). simpl.
  rewrite Hn, bool_decide_true by by eapply ready_unlocked. unfold open_write.
  rewrite (dst_resolve _ _ _ _ Hok Hd Hf). simpl. rewrite (df_free _ _ Hf), dst_writable by done.
  unfold st_mode. rewrite Hn. set (f1 := set_nodes f _).
  assert (nodes f1 !! p = Some (File c md)) as H1 by (simpl; by rewrite lookup_insert_ne).
  assert (nodes f1 !! q = Some (File (take 0 (take (max_file f1) c)) (Z.ldiff md (umask f)))) as H2
    by (simpl; by rewrite lookup_insert_eq).
  rewrite (copy_loop_copies _ f1 p q 0 c md _ H1 Hne H2).
  - simpl. by rewrite insert_insert_eq.
  - unfold copy_fuel. rewrite H1. lia.
Qed.

Lemma copy_file_copies f s d p q h c md :
  tree_ready f s p h -> dst_ready f d p q -> dst_free f q -> nodes f !! p = Some (File c md) ->
  copy_file f s d = Some (0, set_nodes f (<[q := File c (Z.ldiff md (umask f))]> (nodes f))).
Proof.
  intros Ht Hd Hf Hn. erewrite copy_file_new by (done || apply Hd).
  rewrite take_ge; [done|]. apply (ds_files _ _ _ _ Hd [] c md). by rewrite app_nil_r.
Qed.

(** *** The loop over the entries *)

Lemma apart_disjoint p q x :
  under p q = false -> under q p = false -> under p x = true -> under q x = false.
Proof.
  intros H1 H2 Hp. apply not_true_is_false. intros Hq.
  destruct (under_total p q x Hp Hq); congruence.
Qed.

Lemma existsb_under_false (p x : path) (l : list cstr) :
  under p x = false -> existsb (fun c => under (p ++ [c]) x) l = false.
Proof.
  intros H. apply not_true_is_false. intros (c & _ & Hc)%existsb_exists.
  by rewrite (under_snoc _ _ _ Hc) in H.
Qed.

Lemma existsb_under_self (p : path) (l : list cstr) :
  existsb (fun c => under (p ++ [c]) p) l = false.
Proof.
  apply not_true_is_false. intros (c & _ & Hc)%existsb_exists. by rewrite not_under_snoc in Hc.
Qed.

Lemma existsb_under_cons p l c r :
  existsb (fun e => under (p ++ [e]) (p ++ c :: r)) l = bool_decide (c ∈ l).
Proof.
  apply eq_bool_prop_intro. rewrite bool_decide_spec. split.
  - intros (e & He & Hu)%Is_true_true_1%existsb_exists.
    assert (e = c) as <-; [|by apply list_elem_of_In].
    eapply under_snoc_eq; [exact Hu|]. apply under_spec. exists r. by rewrite <- app_assoc.
  - intros Hc. apply Is_true_true_2, existsb_exists. exists c.
    split; [by apply list_elem_of_In|]. apply under_spec. exists r. by rewrite <- app_assoc.
Qed.

Lemma transferred_tree mv f p q c m r :
  under p q = false -> under q p = false -> transferred mv f (p ++ [c]) (q ++ [c]) m ->
  m !! (p ++ r) = if mv && under (p ++ [c]) (p ++ r) then None else nodes f !! (p ++ r).
Proof.
  intros H1 H2 Hm. rewrite Hm. destruct (under (q ++ [c]) (p ++ r)) eqn:E; [|done].
  apply under_snoc in E. by rewrite (apart_disjoint p q (p ++ r)) in E by auto with clib.
Qed.

(** One entry more. *)
Lemma transferred_entries_cons mv f p q c l m1 m :
  under p q = false -> under q p = false -> c ∉ l ->
  transferred mv f (p ++ [c]) (q ++ [c]) m1 ->
  transferred_entries mv (set_nodes f m1) p q l m ->
  transferred_entries mv f p q (c :: l) m.
Proof.
  intros H1 H2 Hc Hm1 Hm x. rewrite Hm. simpl.
  destruct (existsb (fun e => under (q ++ [e]) x) l) eqn:E1.
  - rewrite orb_true_r. apply existsb_exists in E1 as (e & He & [r ->]%under_spec).
    rewrite <- app_assoc, drop_app_length. simpl.
    rewrite (transferred_tree mv f p q c) by done.
    destruct (under (p ++ [c]) (p ++ e :: r)) eqn:E; [|by rewrite andb_false_r].
    assert (c = e) as ->; [|by apply list_elem_of_In in He].
    eapply under_snoc_eq; [exact E|]. apply under_spec. exists r. by rewrite <- app_assoc.
  - rewrite orb_false_r. destruct (under (q ++ [c]) x) eqn:E2.
    + rewrite existsb_under_false, andb_false_r.
      2: { apply (apart_disjoint q p); [done..|]. by eapply under_snoc. }
      rewrite Hm1, E2. apply under_spec in E2 as [r ->]. rewrite drop_app_length.
      rewrite <- (app_assoc q [c] r), drop_app_length. by rewrite <- app_assoc.
    + rewrite Hm1, E2. destruct mv; simpl; [|done].
      destruct (under (p ++ [c]) x); simpl; [by case_if | done].
Qed.

Lemma transfer_loop mv h s d p q : transfers mv h -> q <> [] -> forall l f,
  tree_ready f s p (S h) -> dst_ready f d p q -> (mv = true -> apart_devices f p q) ->
  (exists mode, nodes f !! q = Some (Dir mode)) -> NoDup l ->
  (forall c, c ∈ l -> is_Some (nodes f !! (p ++ [c])) /\ nodes f !! (q ++ [c]) = None) ->
  exists m, for_entries (transfer_step mv h s d) l f = Some (set_nodes f m) /\
    transferred_entries mv f p q l m.
Proof.
  intros IH Hq0 l. induction l as [|c l IHl]; intros f Ht Hd Hdev [mode Hq] Hnd Hl.
  { exists (nodes f). rewrite set_nodes_same. split; [done|]. intros x. simpl.
    by rewrite andb_false_r. }
  apply NoDup_cons in Hnd as [Hc Hnd]. pose proof (tr_ok _ _ _ _ Ht) as Hok.
  destruct (Hl c (list_elem_of_here _ _)) as [[n Hn] Hfree].
  destruct (ok_parent _ Hok _ _ _ Hn) as [Hname _].
  destruct (ds_apart _ _ _ _ Hd) as [Ha1 Ha2].
  assert (dst_free f (q ++ [c])) as Hdf.
  { split; rewrite ?parent_snoc; eauto; [by destruct q|].
    rewrite <- (app_nil_r q). apply (ds_unlocked _ _ _ _ Hd). }
  destruct (IH f (join s c) (join d c) (p ++ [c]) (q ++ [c]) n) as (m1 & Hp1 & Hm1);
    [by eapply tree_ready_child | by eapply dst_ready_child | done
    | intros E; by apply apart_devices_child, Hdev | done |].
  assert (transfer_step mv h s d f c = Some (0, set_nodes f m1)) as Hstep.
  { unfold transfer_step. by rewrite (tree_ready_trunc _ _ _ _ _ _ Ht Hn),
      (dst_ready_trunc _ _ _ _ _ _ Hd Hn). }
  assert (forall r, m1 !! (p ++ r) = nodes f !! (p ++ r) \/ m1 !! (p ++ r) = None) as Hsame.
  { intros r. rewrite (transferred_tree mv f p q c) by done. case_if; auto. }
  destruct (IHl (set_nodes f m1)) as (m & Hm2 & Hm).
  - eapply tree_ready_same; [done| |done|done]. eapply fs_ok_transferred; [done| | | |done..].
    + by destruct p.
    + by apply (apart_child p q c).
    + apply Forall_app. split; [apply (ds_names _ _ _ _ Hd) | by constructor].
  - by eapply dst_ready_same.
  - intros E. destruct (Hdev E). by split.
  - exists mode. simpl. rewrite Hm1, not_under_snoc.
    destruct (under (p ++ [c]) q) eqn:E; [|by rewrite andb_false_r].
    by rewrite (under_snoc _ _ _ E) in Ha1.
  - done.
  - intros e He. simpl. rewrite (transferred_tree mv f p q c) by done. rewrite Hm1.
    assert (c <> e) as Hce by (intros ->; done).
    assert (forall z, under (z ++ [c]) (z ++ [e]) = false) as Hz.
    { intros z. apply not_true_is_false. intros E. apply Hce.
      eapply under_snoc_eq; [exact E | apply under_refl]. }
    rewrite !Hz, andb_false_r. destruct (under (p ++ [c]) (q ++ [e])) eqn:E.
    + apply under_snoc in E. by rewrite (apart_disjoint q p) in E by auto with clib.
    + rewrite andb_false_r. apply Hl. by apply list_elem_of_further.
  - exists m. rewrite for_entries_cons, Hstep by done. split; [done|].
    by eapply transferred_entries_cons.
Qed.

(** *** The whole transfer *)

(** What is left of [process_tree] once [rename] has failed. *)
Lemma process_tree_transfer mv h f s d p q n :
  tree_ready f s p (S h) -> dst_ready f d p q -> dst_free f q ->
  (mv = true -> apart_devices f p q) -> nodes f !! p = Some n ->
  process_tree (S h) f s (Some d) (op_of mv) =
    if is_dir n then
      match mkdir f d MODE_0755 with
      | None => Some (-1, f)
      | Some f1 =>
          match opendir f1 s with
          | None => Some (-1, f1)
          | Some es =>
              f2 ← for_entries (transfer_step mv h s d) es f1;
              Some (0, if mv then or_same (rmdir f2 s) f2 else f2)
          end
      end
    else
      r ← copy_file f s d;
      if mv then if r.1 =? 0 then Some (0, or_same (unlink r.2 s) r.2) else Some (-1, r.2)
      else Some r.
Proof.
  intros Ht Hd Hf Hdev Hn. cbn [process_tree]. rewrite (ready_stat _ _ _ _ _ Ht Hn).
  destruct mv; simpl.
  - destruct (Hdev eq_refl) as [Hdv _]. pose proof (ds_names _ _ _ _ Hd) as Hnm.
    rewrite (dst_not_src s d p q) by (done || apply Ht || by eapply dst_free_ne).
    by rewrite (rename_across _ _ _ _ _ _ _ Ht Hnm Hf Hdv Hn).
  - destruct (is_dir n); [done|]. by destruct (copy_file f s d).
Qed.

Lemma transferred_leaf f s p q h n :
  tree_ready f s p h -> nodes f !! p = Some n -> is_dir n = false -> nodes f !! q = None ->
  transferred false f p q (<[q := image f n]> (nodes f)).
Proof.
  intros Ht Hn Hd Hq x. simpl. destruct (decide (q = x)) as [<-|Hne].
  { by rewrite lookup_insert_eq, under_refl, drop_all, app_nil_r, Hn. }
  rewrite lookup_insert_ne by done. destruct (under q x) eqn:E; [|done].
  rewrite (below_missing _ _ _ (tr_ok _ _ _ _ Ht) Hq E). apply under_spec in E as [r ->].
  rewrite drop_app_length, (ready_leaf _ _ _ _ _ Ht Hn (p ++ r) Hd); [done | auto with clib |].
  intros E%(f_equal length). rewrite length_app in E. destruct r; [|simpl in E; lia].
  by rewrite app_nil_r in Hne.
Qed.

Lemma transferred_pruned f p q m :
  under p q = false -> under q p = false ->
  transferred false f p q m -> transferred true f p q (prune p m).
Proof.
  intros H1 H2 Hm x. rewrite lookup_prune, Hm. simpl. destruct (under p x) eqn:E; [|done].
  by rewrite (apart_disjoint p q x).
Qed.

(** The new directory with all the entries transferred is the transferred tree. *)
Lemma transferred_dir mv f p q mode m :
  fs_ok (nodes f) -> under p q = false -> under q p = false ->
  nodes f !! p = Some (Dir mode) -> nodes f !! q = None ->
  let f1 := set_nodes f (<[q := Dir (Z.ldiff MODE_0755 (umask f))]> (nodes f)) in
  transferred_entries mv f1 p q (child_names (nodes f1) p) m ->
  transferred mv f p q (if mv then delete p m else m).
Proof.
  intros Hok H1 H2 Hp Hq f1 Hm x.
  assert (forall y, under p y = true -> nodes f1 !! y = nodes f !! y) as Hf1.
  { intros y Hy. simpl. apply lookup_insert_ne. intros <-. congruence. }
  assert (forall c r, c ∉ child_names (nodes f1) p -> nodes f1 !! (p ++ c :: r) = None) as Hout.
  { intros c r Hc. rewrite Hf1 by auto with clib. apply (below_missing _ (p ++ [c])); [done| |].
    - rewrite elem_of_child_names, Hf1 in Hc by auto with clib. by apply eq_None_not_Some.
    - apply under_spec. exists r. by rewrite <- app_assoc. }
  assert (p <> q) as Hpq by (intros ->; by rewrite under_refl in H1).
  assert ((if mv then delete p m else m) !! x = if mv && bool_decide (x = p) then None else m !! x) as ->.
  { destruct mv; simpl; [|done]. case_bool_decide; subst; [by rewrite lookup_delete_eq|].
    by rewrite lookup_delete_ne by done. }
  rewrite Hm. destruct (under q x) eqn:Eq.
  - rewrite (existsb_under_false p x) by by eapply apart_disjoint.
    rewrite (bool_decide_false (x = p)), !andb_false_r by (intros ->; congruence).
    apply under_spec in Eq as [[|c r] ->].
    + rewrite app_nil_r, drop_all, app_nil_r, existsb_under_self, Hp. simpl.
      by rewrite lookup_insert_eq.
    + rewrite existsb_under_cons, drop_app_length. case_bool_decide as Hc.
      * by rewrite Hf1 by auto with clib.
      * rewrite <- Hf1, Hout by auto with clib. simpl. rewrite lookup_insert_ne.
        -- apply (below_missing _ q); auto with clib.
        -- intros E%(f_equal length). rewrite length_app in E. simpl in E. lia.
  - rewrite (existsb_under_false q x) by done. destruct (under p x) eqn:Ep.
    + apply under_spec in Ep as [[|c r] ->].
      * rewrite app_nil_r, bool_decide_true, existsb_under_self by done. destruct mv; [done|].
        simpl. by rewrite lookup_insert_ne.
      * rewrite existsb_under_cons. destruct mv; simpl.
        -- case_bool_decide; [done|]. case_bool_decide; [done|]. by apply Hout.
        -- by rewrite lookup_insert_ne by (intros ->; by rewrite under_refl in Eq).
    + rewrite (existsb_under_false p x) by done.
      rewrite (bool_decide_false (x = p)) by (intros ->; by rewrite under_refl in Ep).
      rewrite !andb_false_r. simpl. rewrite lookup_insert_ne; [done|].
      intros ->. by rewrite under_refl in Eq.
Qed.

(** A new node at the destination leaves the source ready. *)
Lemma tree_ready_new f s d p q h n :
  tree_ready f s p h -> dst_ready f d p q -> dst_free f q ->
  tree_ready (set_nodes f (<[q := n]> (nodes f))) s p h /\
  dst_ready (set_nodes f (<[q := n]> (nodes f))) d p q.
Proof.
  intros Ht Hd Hf. destruct (ds_apart _ _ _ _ Hd) as [Ha _].
  assert (forall r, <[q := n]> (nodes f) !! (p ++ r) = nodes f !! (p ++ r)) as Hsame.
  { intros r. apply lookup_insert_ne. intros ->. by rewrite under_app in Ha. }
  split.
  - eapply tree_ready_same; [done| |done|simpl; auto].
    apply fs_ok_insert; [apply (tr_ok _ _ _ _ Ht) | apply (ds_names _ _ _ _ Hd) | apply Hf..].
  - eapply dst_ready_same; [done..|simpl; auto].
Qed.

(** After the entries of the source are moved, its directory is empty and goes. *)
Lemma rmdir_moved f s p q h mode m :
  tree_ready f s p h -> nodes f !! p = Some (Dir mode) -> fs_ok m ->
  under p q = false -> under q p = false ->
  transferred_entries true f p q (child_names (nodes f) p) m ->
  rmdir (set_nodes f m) s = Some (set_nodes f (delete p m)).
Proof.
  intros Ht Hn Hok H1 H2 Hm.
  assert (forall r, m !! (p ++ r) =
    if existsb (fun c => under (p ++ [c]) (p ++ r)) (child_names (nodes f) p) then None
    else nodes f !! (p ++ r)) as Hmp.
  { intros r. rewrite Hm, (existsb_under_false q); [done|]. apply (apart_disjoint p q); auto with clib. }
  apply (ready_rmdir (set_nodes f m) s p h (Dir mode)) with (mode := mode); [| |done|].
  - eapply tree_ready_same; [done..|]. intros r. simpl. rewrite Hmp. case_if; auto.
  - simpl. rewrite <- (app_nil_r p), Hmp, app_nil_r, existsb_under_self. done.
  - intros c. simpl. rewrite Hmp, existsb_under_cons. case_bool_decide as Hc; [done|].
    rewrite elem_of_child_names in Hc. by apply eq_None_not_Some.
Qed.

Lemma fs_ok_transferred_entries mv f p q l m mode :
  fs_ok (nodes f) -> p <> [] -> under p q = false -> under q p = false ->
  Forall name_ok q -> q <> [] ->
  nodes f !! q = Some (Dir mode) -> transferred_entries mv f p q l m ->
  (forall c, c ∈ l -> name_ok c) -> fs_ok m.
Proof.
  intros Hok Hp0 H1 H2 Hq Hq0 Hqd Hm Hl. split.
  { destruct (ok_root _ Hok) as [md Hroot]. exists md.
    by rewrite Hm, !existsb_under_false, andb_false_r by by apply under_nil. }
  intros y c n. rewrite !Hm.
  destruct (existsb (fun e => under (q ++ [e]) (y ++ [c])) l) eqn:E.
  - apply existsb_exists in E as (e & He%list_elem_of_In & E).
    destruct (decide (y ++ [c] = q ++ [e])) as [[-> ->]%app_inj_tail|Hne].
    + intros _. split; [by apply Hl|]. exists mode.
      rewrite existsb_under_self, existsb_under_false, andb_false_r by done. done.
    + pose proof (under_snoc_inv _ _ _ E Hne) as Ey.
      rewrite drop_snoc_under, app_assoc by by eapply under_snoc.
      intros (n0 & En & _)%fmap_Some. destruct (ok_parent _ Hok _ _ _ En) as [Hc [md Hmd]].
      split; [done|]. exists (Z.ldiff MODE_0755 (umask f)).
      assert (existsb (fun e => under (q ++ [e]) y) l = true) as ->.
      { apply existsb_exists. exists e. split; [by apply list_elem_of_In | done]. }
      by rewrite Hmd.
  - destruct (mv && existsb (fun e => under (p ++ [e]) (y ++ [c])) l) eqn:Ep; [done|].
    intros [Hc [md Hd]]%(ok_parent _ Hok). split; [done|]. exists md.
    assert (forall z, existsb (fun e => under (z ++ [e]) (y ++ [c])) l = false ->
      existsb (fun e => under (z ++ [e]) y) l = false) as Hmono.
    { intros z Hz. apply not_true_is_false. intros (e & He & Hu)%existsb_exists.
      apply not_true_iff_false in Hz. apply Hz, existsb_exists. exists e. split; [done|].
      eapply under_trans; [exact Hu | apply under_app]. }
    rewrite (Hmono q E). destruct mv; [|done]. by rewrite (Hmono p Ep).
Qed.

Lemma transfer_file mv h f s d p q c md :
  tree_ready f s p (S h) -> dst_ready f d p q -> dst_free f q ->
  (mv = true -> apart_devices f p q) -> nodes f !! p = Some (File c md) ->
  exists m, process_tree (S h) f s (Some d) (op_of mv) = Some (0, set_nodes f m) /\
    transferred mv f p q m.
Proof.
  intros Ht Hd Hf Hdev Hn. destruct (ds_apart _ _ _ _ Hd) as [H1 H2].
  rewrite (process_tree_transfer mv h f s d p q (File c md)) by done. cbn [is_dir].
  rewrite (copy_file_copies _ _ _ _ _ _ _ _ Ht Hd Hf Hn).
  pose proof (transferred_leaf _ _ _ q _ _ Ht Hn eq_refl (df_free _ _ Hf)) as Hm.
  simpl in Hm. destruct mv; simpl; [|eauto].
  destruct (tree_ready_new _ _ _ _ _ _ (File c (Z.ldiff md (umask f))) Ht Hd Hf) as [Ht1 _].
  assert (<[q := File c (Z.ldiff md (umask f))]> (nodes f) !! p = Some (File c md)) as Hn1.
  { rewrite lookup_insert_ne; [done|]. intros ->. by rewrite under_refl in H1. }
  rewrite (ready_unlink _ _ _ _ _ Ht1 Hn1) by done. simpl. eexists. split; [done|].
  pose proof (prune_leaf _ _ _ _ _ Ht1 Hn1 eq_refl) as Hpr. simpl in Hpr. rewrite Hpr.
  by apply transferred_pruned.
Qed.

Lemma transfer_directory mv h f s d p q mode :
  transfers mv h -> tree_ready f s p (S h) -> dst_ready f d p q -> dst_free f q ->
  (mv = true -> apart_devices f p q) -> nodes f !! p = Some (Dir mode) ->
  exists m, process_tree (S h) f s (Some d) (op_of mv) = Some (0, set_nodes f m) /\
    transferred mv f p q m.
Proof.
  intros IH Ht Hd Hf Hdev Hn. destruct (ds_apart _ _ _ _ Hd) as [H1 H2].
  pose proof (tr_ok _ _ _ _ Ht) as Hok.
  rewrite (process_tree_transfer mv h f s d p q (Dir mode)) by done. cbn [is_dir].
  rewrite (mkdir_dst _ _ _ _ Hok Hd Hf). set (nd := Dir _). set (f1 := set_nodes f _).
  destruct (tree_ready_new _ _ _ _ _ _ nd Ht Hd Hf) as [Ht1 Hd1]. fold f1 in Ht1, Hd1.
  assert (nodes f1 !! p = Some (Dir mode)) as Hn1.
  { simpl. rewrite lookup_insert_ne; [done|]. intros ->. by rewrite under_refl in H1. }
  assert (nodes f1 !! q = Some nd) as Hq1 by (simpl; by rewrite lookup_insert_eq).
  rewrite (ready_opendir _ _ _ _ _ Ht1 Hn1 mode), for_entries_dots by done.
  destruct (transfer_loop mv h s d p q IH (df_root _ _ Hf) (child_names (nodes f1) p) f1)
    as (m & Hloop & Hm); [done..| | | | |].
  - intros E. destruct (Hdev E). by split.
  - eexists. exact Hq1.
  - auto with clib.
  - intros c Hc. apply elem_of_child_names in Hc. split; [done|]. simpl. rewrite lookup_insert_ne.
    + apply (below_missing _ q); [done | apply Hf | auto with clib].
    + intros E%(f_equal length). rewrite length_app in E. simpl in E. lia.
  - rewrite Hloop. simpl. exists (if mv then delete p m else m).
    split; [|eapply transferred_dir; [done.. | apply Hf | exact Hm]].
    destruct mv; [|done]. rewrite (rmdir_moved f1 s p q (S h) mode m); try done.
    eapply fs_ok_transferred_entries; [apply Ht1 | apply Ht | done | done | apply Hd
      | apply Hf | exact Hq1 | exact Hm |].
    intros c [n Hc]%elem_of_child_names. by destruct (ok_parent _ (tr_ok _ _ _ _ Ht1) _ _ _ Hc).
Qed.

Lemma process_tree_transfers mv h : transfers mv h.
Proof.
  induction h as [|h IH]; intros f s d p q n Ht Hd Hf Hdev Hn.
  { destruct (tr_size _ _ _ _ Ht [] n) as [H _]; [by rewrite app_nil_r | simpl in H; lia]. }
  destruct n as [c md|mode|t].
  - by eapply transfer_file.
  - by eapply transfer_directory.
  - by destruct (ready_not_link _ _ _ _ _ Ht Hn t).
Qed.
