(* ===== verification/FmTreeProps.v ===== *)
(** * File manager: what the tree operations guarantee

    The theorems about [process_tree] of [simple_file_manager/src/dialog.c]: exact
    effect of deletion, copy and both forms of a move, and the cases in which the
    operations lose data. *)

From S2P Require Import Prelude CString Vfs FmTree.

(** ** Deciding the preconditions

    The conditions of [FmTree] quantify over all paths; over a finite file system
    they can be decided, which is how they are discharged on concrete ones. *)

Definition is_link (n : node) : bool := match n with Link _ => true | _ => false end.

Definition tree_readyc (f : fs) (s : cstr) (p : path) (h : nat) : Prop :=
  fs_okc (nodes f) /\ namesc s p /\ p <> [] /\
  map_Forall (fun q n => under p q = true ->
    (length q < length p + h)%nat /\
    (length s + plen (drop (length p) q) < PATH_MAX)%nat /\ is_link n = false) (nodes f) /\
  set_Forall (fun q => under p q = false) (locked f) /\ parent p ∉ locked f.

Definition dst_readyc (f : fs) (d : cstr) (p q : path) : Prop :=
  namesc d q /\ under p q = false /\ under q p = false /\
  map_Forall (fun x n => under p x = true ->
    (length d + plen (drop (length p) x) < PATH_MAX)%nat /\
    match n with File c _ => (length c <= max_file f)%nat | _ => True end) (nodes f) /\
  set_Forall (fun x => under q x = false) (locked f).

Definition dst_freec (f : fs) (q : path) : Prop :=
  q <> [] /\ nodes f !! q = None /\ dir_at (nodes f) (parent q) = true /\ parent q ∉ locked f.

Definition apart_devicesc (f : fs) (p q : path) : Prop :=
  device f p <> device f q /\
  set_Forall (fun x => under p x = false /\ under q x = false) (mounts f).

#[export] Instance tree_readyc_dec f s p h : Decision (tree_readyc f s p h).
Proof. unfold tree_readyc. apply _. Defined.
#[export] Instance dst_readyc_dec f d p q : Decision (dst_readyc f d p q).
Proof.
  unfold dst_readyc. repeat (apply and_dec; [try apply _|]); try apply _.
  apply map_Forall_dec. intros x n. apply impl_dec; [apply _|].
  apply and_dec; [apply _|]. destruct n; apply _.
Defined.
#[export] Instance dst_freec_dec f q : Decision (dst_freec f q).
Proof. unfold dst_freec. apply _. Defined.
#[export] Instance apart_devicesc_dec f p q : Decision (apart_devicesc f p q).
Proof. unfold apart_devicesc. apply _. Defined.

Lemma tree_readyc_sound f s p h : tree_readyc f s p h -> tree_ready f s p h.
Proof.
  intros (Hok & Hn & Hp & Hm & Hl & Hpar). split; try done.
  - by apply fs_okc_sound.
  - by apply namesc_sound.
  - intros r n Hr. destruct (Hm _ _ Hr (under_app p r)) as (H1 & H2 & _).
    rewrite length_app in H1. rewrite drop_app_length in H2. lia.
  - intros r t Hr. by destruct (Hm _ _ Hr (under_app p r)) as (_ & _ & ?).
  - intros r Hr. pose proof (Hl _ Hr) as H. simpl in H. by rewrite under_app in H.
Qed.

Lemma dst_readyc_sound f d p q : dst_readyc f d p q -> dst_ready f d p q.
Proof.
  intros (Hn & H1 & H2 & Hm & Hl). split; try done.
  - by apply namesc_sound.
  - intros r n Hr. destruct (Hm _ _ Hr (under_app p r)) as [H _]. by rewrite drop_app_length in H.
  - intros r Hr. pose proof (Hl _ Hr) as H. simpl in H. by rewrite under_app in H.
  - intros r c md Hr. by destruct (Hm _ _ Hr (under_app p r)) as [_ ?].
Qed.

Lemma dst_freec_sound f q : dst_freec f q -> dst_free f q.
Proof. intros (H1 & H2 & H3 & H4). split; try done. by apply dir_at_sound. Qed.

Lemma apart_devicesc_sound f p q : apart_devicesc f p q -> apart_devices f p q.
Proof.
  intros [Hd Hm]. split; [done|]. intros r.
  split; intros Hr; destruct (Hm _ Hr) as [H1 H2]; by rewrite under_app in *.
Qed.

(** Discharge a precondition on a concrete file system by evaluation. *)
Ltac ready :=
  first [ apply tree_readyc_sound | apply dst_readyc_sound | apply dst_freec_sound
        | apply apart_devicesc_sound | apply fs_okc_sound | apply namesc_sound ];
  apply (bool_decide_unpack _); vm_compute; exact I.

(** ** [rename] *)

Lemma rekey_inj (m : gmap path node) p q x y :
  (forall z, under q z = true -> z <> q -> m !! z = None) ->
  is_Some (delete q m !! x) -> is_Some (delete q m !! y) ->
  rekey p q x = rekey p q y -> x = y.
Proof.
  intros Hq Hx Hy. unfold rekey.
  assert (forall z, is_Some (delete q m !! z) -> under q z = false) as Hz.
  { intros z [n Hn]. apply not_true_is_false. intros Hu. apply lookup_delete_Some in Hn as [Hne Hn].
    rewrite Hq in Hn; by auto. }
  destruct (under p x) eqn:Ex, (under p y) eqn:Ey; [| | |done].
  - apply under_spec in Ex as [r ->], Ey as [r' ->]. rewrite !drop_app_length.
    by intros ->%app_inv_head.
  - intros <-. specialize (Hz _ Hy). by rewrite under_app in Hz.
  - intros ->. specialize (Hz _ Hx). by rewrite under_app in Hz.
Qed.

Lemma lookup_move_nodes m p q x :
  fs_ok m -> m !! q = None -> under p q = false -> under q p = false ->
  move_nodes m p q !! x =
    if under q x then m !! (p ++ drop (length q) x) else if under p x then None else m !! x.
Proof.
  intros Hok Hq H1 H2. unfold move_nodes.
  assert (forall z, under q z = true -> z <> q -> m !! z = None) as Hbelow
    by (intros; by eapply below_missing).
  assert (NoDup ((fun x => (rekey p q x.1, x.2)) <$> map_to_list (delete q m)).*1) as Hnd.
  { rewrite <- list_fmap_compose. apply NoDup_fmap_2_strong.
    - intros [a n] [b n'] Ha%elem_of_map_to_list Hb%elem_of_map_to_list Heq. simpl in Heq.
      assert (a = b) as <- by (eapply rekey_inj; [done | by eexists.. | done]). congruence.
    - apply NoDup_map_to_list. }
  apply option_eq. intros n. rewrite <- elem_of_list_to_map by done.
  rewrite list_elem_of_fmap. rewrite delete_id by done. split.
  - intros ([a n'] & [= -> ->] & Ha%elem_of_map_to_list). unfold rekey.
    destruct (under p a) eqn:Ea.
    + apply under_spec in Ea as [r ->]. by rewrite !drop_app_length, under_app.
    + destruct (under q a) eqn:Eq; [|by rewrite Ea].
      by rewrite (below_missing m q a) in Ha.
  - destruct (under q x) eqn:Eq.
    + apply under_spec in Eq as [r ->]. rewrite drop_app_length. intros Hr.
      exists (p ++ r, n). rewrite elem_of_map_to_list. split; [|done]. simpl. unfold rekey.
      by rewrite under_app, drop_app_length.
    + destruct (under p x) eqn:Ep; [done|]. intros Hx. exists (x, n).
      rewrite elem_of_map_to_list. split; [|done]. simpl. unfold rekey. by rewrite Ep.
Qed.

(** ** A small file system

    [/a] holds a file and a directory with another file, [/m] is a mount point,
    [/l] is a link to [/a]. *)

Definition demo_nodes : gmap path node :=
  list_to_map
    [ ([], Dir 493); ([lit "a"], Dir 493); ([lit "a"; lit "f"], File (lit "hello") 420);
      ([lit "a"; lit "b"], Dir 448); ([lit "a"; lit "b"; lit "g"], File (lit "x") 511);
      ([lit "m"], Dir 493) ].

Definition demo_fs : fs := mkFs demo_nodes ∅ {[ []; [lit "m"] ]} 100 [] 18.
Definition small_fs : fs := mkFs demo_nodes ∅ {[ []; [lit "m"] ]} 3 [] 18.
Definition link_fs : fs := set_nodes demo_fs (<[[lit "l"] := Link (lit "/a")]> demo_nodes).

Lemma process_tree_onto_itself h f s p c md :
  fs_ok (nodes f) -> names s p -> nodes f !! p = Some (File c md) -> p ∉ locked f ->
  process_tree (S h) f s (Some s) OP_COPY =
    Some (0, set_nodes f (<[p := File [] md]> (nodes f))).
Proof.
  intros Hok Hs Hn Hl.
  assert (forall fl, resolve f fl s = Some p) as Hr by (intros; by eapply resolve_existing).
  cbn [process_tree]. unfold stat. rewrite Hr. cbn [mbind option_bind]. rewrite Hn. simpl is_dir.
  unfold copy_file, open_read, open_write. rewrite Hr. simpl. rewrite Hn, bool_decide_true by done.
  unfold copy_fuel. simpl. rewrite lookup_insert_eq. simpl. unfold read. simpl.
  rewrite lookup_insert_eq. by rewrite drop_nil, take_nil.
Qed.

(** ** Properties *)

(** C3 (functional).  Deletion is exact.  On a ready tree (no symbolic links, usable
    directories, names that fit) of fewer than [h] levels,
    [process_tree(src, NULL, OP_DELETE)] ends, returns 0, and the file system is
    the old one without everything at or below [src]: nothing of the tree is left
    and nothing else is touched. *)
Theorem delete_tree_exact h f s p n :
  tree_ready f s p h -> nodes f !! p = Some n ->
  exists f', process_tree h f s None OP_DELETE = Some (0, f') /\
    locked f' = locked f /\ mounts f' = mounts f /\
    forall x, nodes f' !! x = if under p x then None else nodes f !! x.
Proof.
  intros Ht Hn. rewrite (process_tree_deletes h f s p n Ht Hn).
  eexists. split_and!; [done..|]. intros x. apply lookup_prune.
Qed.

Lemma delete_tree_exact_witness :
  exists f', process_tree 3 demo_fs (lit "/a") None OP_DELETE = Some (0, f') /\
    locked f' = ∅ /\ mounts f' = {[ []; [lit "m"] ]} /\
    forall x, nodes f' !! x = if under [lit "a"] x then None else demo_nodes !! x.
Proof.
  refine (delete_tree_exact 3 demo_fs (lit "/a") [lit "a"] (Dir 493) _ _).
  - ready.
  - reflexivity.
Defined.

(** C4 (functional).  Copying is exact.  For a ready tree and a destination that is
    apart from it, free and usable, [process_tree(src, dst, OP_COPY)] ends, returns
    0, and afterwards the destination holds an image of the tree (the same shape and
    file contents, modes cut by the [umask], directories with mode 0755) while every
    path outside the destination is as before. *)
Theorem copy_tree_exact h f s d p q n :
  tree_ready f s p h -> dst_ready f d p q -> dst_free f q -> nodes f !! p = Some n ->
  exists f', process_tree h f s (Some d) OP_COPY = Some (0, f') /\
    forall x, nodes f' !! x =
      if under q x then image f <$> (nodes f !! (p ++ drop (length q) x)) else nodes f !! x.
Proof.
  intros Ht Hd Hf Hn.
  destruct (process_tree_transfers false h f s d p q n) as (m & Hp & Hm); [done..|].
  eexists. split; [exact Hp|]. exact Hm.
Qed.

Lemma copy_tree_exact_witness :
  exists f', process_tree 3 demo_fs (lit "/a") (Some (lit "/m/a")) OP_COPY = Some (0, f') /\
    forall x, nodes f' !! x =
      if under [lit "m"; lit "a"] x
      then image demo_fs <$> (demo_nodes !! ([lit "a"] ++ drop 2 x)) else demo_nodes !! x.
Proof.
  refine (copy_tree_exact 3 demo_fs (lit "/a") (lit "/m/a") [lit "a"] [lit "m"; lit "a"] (Dir 493)
    _ _ _ _).
  - ready.
  - ready.
  - ready.
  - reflexivity.
Defined.

(** C31 (functional).  A move across devices, where [rename] fails and the code copies
    and deletes entry by entry, has the same result as it should: it ends, returns
    0, the image of the tree is at the destination, the source tree is gone and
    everything else is as before. *)
Theorem move_across_devices h f s d p q n :
  tree_ready f s p h -> dst_ready f d p q -> dst_free f q -> apart_devices f p q ->
  nodes f !! p = Some n ->
  exists f', process_tree h f s (Some d) OP_MOVE = Some (0, f') /\
    forall x, nodes f' !! x =
      if under q x then image f <$> (nodes f !! (p ++ drop (length q) x))
      else if under p x then None else nodes f !! x.
Proof.
  intros Ht Hd Hf Ha Hn.
  destruct (process_tree_transfers true h f s d p q n) as (m & Hp & Hm); [done..|].
  eexists. split; [exact Hp|]. exact Hm.
Qed.

Lemma move_across_devices_witness :
  exists f', process_tree 3 demo_fs (lit "/a") (Some (lit "/m/a")) OP_MOVE = Some (0, f') /\
    forall x, nodes f' !! x =
      if under [lit "m"; lit "a"] x then image demo_fs <$> (demo_nodes !! ([lit "a"] ++ drop 2 x))
      else if under [lit "a"] x then None else demo_nodes !! x.
Proof.
  refine (move_across_devices 3 demo_fs (lit "/a") (lit "/m/a") [lit "a"] [lit "m"; lit "a"]
    (Dir 493) _ _ _ _ _).
  - ready.
  - ready.
  - ready.
  - ready.
  - reflexivity.
Defined.

(** A move on one device needs no recursion: with one unit of fuel
    [process_tree(src, dst, OP_MOVE)] returns 0 and the whole tree, links and modes
    included, is at the destination, and nothing else changes. *)
Theorem move_on_device h f s d p q n :
  fs_ok (nodes f) -> names s p -> names d q -> nodes f !! p = Some n ->
  (forall t, n <> Link t) -> dst_free f q -> under p q = false -> parent p ∉ locked f ->
  device f p = device f q ->
  exists f', process_tree (S h) f s (Some d) OP_MOVE = Some (0, f') /\
    forall x, nodes f' !! x =
      if under q x then nodes f !! (p ++ drop (length q) x)
      else if under p x then None else nodes f !! x.
Proof.
  intros Hok Hs Hd Hn Hl Hf H1 Hlk Hdev. pose proof (df_free _ _ Hf) as Hq.
  pose proof (dst_free_ne _ _ _ _ Hf Hn) as Hne.
  assert (under q p = false) as H2.
  { apply not_true_is_false. intros Hu. by rewrite (below_missing _ q p Hok Hq Hu) in Hn. }
  assert (forall fl, resolve f fl s = Some p) as Hrs by (intros; by eapply resolve_existing).
  exists (set_nodes f (move_nodes (nodes f) p q)). split; [|intros x; by apply lookup_move_nodes].
  cbn [process_tree]. unfold stat. rewrite Hrs. cbn [mbind option_bind]. rewrite Hn.
  rewrite (dst_not_src s d p q) by done. unfold rename.
  rewrite Hrs, (dst_resolve _ _ _ _ Hok Hd Hf). simpl. rewrite Hn. simpl.
  rewrite (dst_writable _ _ Hf), (bool_decide_true (device f p = device f q)) by done.
  unfold writable. rewrite bool_decide_true, bool_decide_false, H1, Hq by done. done.
Qed.

Lemma move_on_device_witness :
  exists f', process_tree 1 demo_fs (lit "/a/b") (Some (lit "/c")) OP_MOVE = Some (0, f') /\
    forall x, nodes f' !! x =
      if under [lit "c"] x then demo_nodes !! ([lit "a"; lit "b"] ++ drop 1 x)
      else if under [lit "a"; lit "b"] x then None else demo_nodes !! x.
Proof.
  refine (move_on_device 0 demo_fs (lit "/a/b") (lit "/c") [lit "a"; lit "b"] [lit "c"] (Dir 448)
    _ _ _ _ _ _ _ _ _).
  - ready.
  - ready.
  - ready.
  - reflexivity.
  - done.
  - ready.
  - reflexivity.
  - apply (bool_decide_unpack _). vm_compute. exact I.
  - reflexivity.
Defined.

(** Counterexample.  Copying a file onto itself destroys it.  There is
    no test that source and destination differ (the move has one): the destination
    is opened with [O_TRUNC] before the first [read], so the call reports success
    and leaves the file empty.  In the program this is the copy dialogue confirmed
    while both panels show the same directory, as they do at the start. *)
Theorem copy_onto_itself_empties h f s p c md :
  fs_ok (nodes f) -> names s p -> nodes f !! p = Some (File c md) -> p ∉ locked f ->
  process_tree (S h) f s (Some s) OP_COPY =
    Some (0, set_nodes f (<[p := File [] md]> (nodes f))).
Proof. apply process_tree_onto_itself. Qed.

Lemma copy_onto_itself_empties_witness :
  process_tree 1 demo_fs (lit "/a/f") (Some (lit "/a/f")) OP_COPY =
    Some (0, set_nodes demo_fs (<[[lit "a"; lit "f"] := File [] 420]> demo_nodes)).
Proof.
  refine (copy_onto_itself_empties 0 demo_fs (lit "/a/f") [lit "a"; lit "f"] (lit "hello") 420
    _ _ _ _).
  - ready.
  - ready.
  - reflexivity.
  - apply (bool_decide_unpack _). vm_compute. exact I.
Defined.

(** Counterexample.  A move across devices can lose data and report
    success.  [copy_file] does not look at what [write] returned: when the
    destination cannot hold the whole file, the copy is cut at what fits,
    [copy_file] returns 0, the source is removed and the move returns 0. *)
Theorem short_write_loses_data h f s d p q c md :
  tree_ready f s p (S h) -> names d q -> dst_free f q -> device f p <> device f q ->
  nodes f !! p = Some (File c md) -> (max_file f < length c)%nat ->
  exists f' c', process_tree (S h) f s (Some d) OP_MOVE = Some (0, f') /\
    nodes f' !! p = None /\ nodes f' !! q = Some (File c' (Z.ldiff md (umask f))) /\
    (length c' < length c)%nat.
Proof.
  intros Ht Hd Hf Hdev Hn Hlen. pose proof (dst_free_ne _ _ _ _ Hf Hn) as Hne.
  set (c' := take (max_file f) c). set (n' := File c' (Z.ldiff md (umask f))).
  exists (set_nodes f (delete p (<[q := n']> (nodes f)))), c'. split_and!.
  - cbn [process_tree]. rewrite (ready_stat _ _ _ _ _ Ht Hn).
    rewrite (dst_not_src s d p q) by (done || apply Ht).
    rewrite (rename_across _ _ _ _ _ _ _ Ht Hd Hf Hdev Hn). simpl is_dir. cbn match.
    rewrite (copy_file_new _ _ _ _ _ _ _ _ Ht Hd Hf Hn). simpl.
    assert (resolve (set_nodes f (<[q := n']> (nodes f))) false s = Some p) as Hr.
    { eapply resolve_existing; simpl; [|apply Ht|by rewrite lookup_insert_ne|done].
      apply fs_ok_insert; [apply Ht | apply Hd | apply Hf..]. }
    unfold unlink. fold c' n'. rewrite Hr. simpl. rewrite lookup_insert_ne, Hn by done.
    unfold writable. simpl. by rewrite bool_decide_true by apply Ht.
  - simpl. apply lookup_delete_eq.
  - simpl. by rewrite lookup_delete_ne, lookup_insert_eq.
  - unfold c'. rewrite length_take. lia.
Qed.

Lemma short_write_loses_data_witness :
  exists f' c', process_tree 1 small_fs (lit "/a/f") (Some (lit "/m/f")) OP_MOVE = Some (0, f') /\
    nodes f' !! [lit "a"; lit "f"] = None /\
    nodes f' !! [lit "m"; lit "f"] = Some (File c' 420) /\ (length c' < 5)%nat.
Proof.
  refine (short_write_loses_data 0 small_fs (lit "/a/f") (lit "/m/f") [lit "a"; lit "f"]
    [lit "m"; lit "f"] (lit "hello") 420 _ _ _ _ _ _).
  - ready.
  - ready.
  - ready.
  - vm_compute. done.
  - reflexivity.
  - vm_compute. lia.
Defined.

(** Counterexample.  Deleting a symbolic link to a directory empties the
    directory.  [process_tree] uses [stat], which follows links: deleting [/l], a
    link to [/a], returns 0, leaves the link (on which [rmdir] fails) and the
    directory [/a], and removes everything inside [/a]. *)
Theorem delete_follows_links :
  exists f', process_tree 5 link_fs (lit "/l") None OP_DELETE = Some (0, f') /\
    nodes f' !! [lit "l"] = Some (Link (lit "/a")) /\
    nodes f' !! [lit "a"] = Some (Dir 493) /\
    nodes f' !! [lit "a"; lit "f"] = None /\
    nodes f' !! [lit "a"; lit "b"] = None /\
    nodes f' !! [lit "a"; lit "b"; lit "g"] = None /\
    demo_nodes !! [lit "a"; lit "b"; lit "g"] = Some (File (lit "x") 511).
Proof.
  destruct (process_tree 5 link_fs (lit "/l") None OP_DELETE) as [[r f']|] eqn:E;
    [|by vm_compute in E].
  exists f'. vm_compute in E. injection E as <- <-. split_and!; reflexivity.
Qed.
