(* ===== verification/FmPanel.v ===== *)
(** * File manager: panels

    [simple_file_manager/src/panel.c] and the [Panel] structure of
    [include/app.h]: a listing of a directory with a selected entry and the part
    of the listing that is shown.  Calls return [None] when the C code would
    dereference [NULL] or read outside the array of entries. *)

From S2P Require Import Prelude CString Vfs FmTree.

Inductive dtype := DT_DIR | DT_REG | DT_LNK.

#[export] Instance dtype_eq_dec : EqDecision dtype.
Proof. solve_decision. Defined.

Record dirent := mkDirent { d_name : cstr; d_type : dtype }.

(** [entries] is [None] for the [NULL] pointer. *)
Record Panel := mkPanel {
  cwd : cstr;
  entries : option (list dirent);
  count : Z;
  selected : Z;
  scroll : Z;
  px : Z; py : Z; pw : Z; ph : Z
}.

Definition set_cwd (d : cstr) (p : Panel) : Panel :=
  mkPanel d (entries p) (count p) (selected p) (scroll p) (px p) (py p) (pw p) (ph p).
Definition set_entries (e : option (list dirent)) (n : Z) (p : Panel) : Panel :=
  mkPanel (cwd p) e n (selected p) (scroll p) (px p) (py p) (pw p) (ph p).
Definition set_view (sel scr : Z) (p : Panel) : Panel :=
  mkPanel (cwd p) (entries p) (count p) sel scr (px p) (py p) (pw p) (ph p).
Definition set_rect (x y w h : Z) (p : Panel) : Panel :=
  mkPanel (cwd p) (entries p) (count p) (selected p) (scroll p) x y w h.

(** ** Operations *)

(** The loop frees [entries[0..count)]. *)
Definition free_panel (p : Panel) : option Panel :=
  match entries p with
  | None => Some p
  | Some es => if count p <=? Z.of_nat (length es) then Some (set_entries None (count p) p) else None
  end.

Definition dirent_of (x : cstr * node) : dirent :=
  mkDirent x.1 (match x.2 with Dir _ => DT_DIR | File _ _ => DT_REG | Link _ => DT_LNK end).

(** [for (i = 0; i < count; i++) if (strcmp(entries[i]->d_name, "..") == 0) selected = i;] *)
Fixpoint select_dotdot (i sel : Z) (es : list dirent) : Z :=
  match es with
  | [] => sel
  | e :: es' => select_dotdot (i + 1) (if streq (d_name e) DOTDOT then i else sel) es'
  end.

Definition load_directory (f : fs) (p : Panel) : option (Z * Panel) :=
  p1 ← free_panel p;
  match scandir f (cwd p1) with
  | None => Some (-1, set_entries (entries p1) (-1) p1)
  | Some l =>
      let es := dirent_of <$> l in
      Some (0, set_view (select_dotdot 0 0 es) 0
                 (set_entries (Some es) (Z.of_nat (length es)) p1))
  end.

(** [realpath] writes into [cwd] directly; [junk] is what it leaves there when it
    fails (unspecified by the library). *)
Definition enter_directory (f : fs) (junk : cstr) (p : Panel) : option Panel :=
  es ← entries p;
  e ← aget es (selected p);
  if negb (bool_decide (d_type e = DT_DIR)) then Some p
  else
    let new_path := if streq (d_name e) DOTDOT then join (cwd p) DOTDOT else join (cwd p) (d_name e) in
    if (PATH_MAX <=? length new_path)%nat then Some p
    else
      match realpath f new_path with
      | None => Some (set_cwd junk p)
      | Some r => snd <$> load_directory f (set_cwd r p)
      end.

Definition move_selection (p : Panel) (dir : Z) : Panel :=
  if count p <=? 0 then p
  else if ph p <=? 2 then set_view 0 0 p
  else
    let visible := ph p - 2 in
    let sel := selected p + dir in
    let sel := if sel <? 0 then 0 else sel in
    let sel := if sel >=? count p then count p - 1 else sel in
    let scr := scroll p in
    let scr := if sel <? scr then sel else scr in
    let scr := if sel >=? scr + visible then sel - visible + 1 else scr in
    let scr := if scr <? 0 then 0 else scr in
    let scr := if scr >? count p - visible then count p - visible else scr in
    let scr := if scr <? 0 then 0 else scr in
    set_view sel scr p.

(** ** Invariants *)

(** The count matches the array and the selection is an entry; after a listing
    that failed there is no array and the count is negative. *)
Definition panel_ok (p : Panel) : Prop :=
  match entries p with
  | Some es => count p = Z.of_nat (length es) /\ (0 <= selected p < count p) /\ 0 <= scroll p
  | None => count p = -1 /\ 0 <= selected p /\ 0 <= scroll p
  end.

(** The selected entry is on the screen and the window is not past the end. *)
Definition view_ok (p : Panel) : Prop :=
  0 <= scroll p <= selected p /\ selected p < scroll p + (ph p - 2) /\
  scroll p <= Z.max 0 (count p - (ph p - 2)).

(** ** Lemmas *)

Lemma panel_ok_scroll p : panel_ok p -> 0 <= scroll p /\ 0 <= selected p.
Proof. unfold panel_ok. destruct (entries p); lia. Qed.

Lemma move_selection_unchanged p dir :
  cwd (move_selection p dir) = cwd p /\ entries (move_selection p dir) = entries p /\
  count (move_selection p dir) = count p /\ ph (move_selection p dir) = ph p /\
  pw (move_selection p dir) = pw p /\ px (move_selection p dir) = px p /\
  py (move_selection p dir) = py p.
Proof. unfold move_selection. repeat case_if; done. Qed.

Lemma move_selection_selected p dir :
  0 < count p -> 2 < ph p ->
  selected (move_selection p dir) = Z.min (count p - 1) (Z.max 0 (selected p + dir)).
Proof.
  intros Hc Hh. unfold move_selection. rewrite (proj2 (Z.leb_gt _ _)) by lia.
  rewrite (proj2 (Z.leb_gt (ph p) 2)) by lia. cbv zeta. cbn [selected set_view]. inner_ifs.
Qed.

Lemma move_selection_view p dir : 0 < count p -> 2 < ph p -> view_ok (move_selection p dir).
Proof.
  intros Hc Hh. unfold move_selection. rewrite (proj2 (Z.leb_gt _ _)) by lia.
  rewrite (proj2 (Z.leb_gt (ph p) 2)) by lia. cbv zeta. unfold view_ok.
  cbn [selected scroll count ph set_view].
  inner_ifs.
Qed.

Lemma move_selection_ok p dir : panel_ok p -> panel_ok (move_selection p dir).
Proof.
  intros Hp. destruct (move_selection_unchanged p dir) as (_ & He & Hc & _).
  unfold panel_ok in *. rewrite He, Hc.
  assert (0 < count p -> (0 <= selected (move_selection p dir) < count p) /\
    0 <= scroll (move_selection p dir)) as Hpos.
  { intros H0. destruct (decide (2 < ph p)) as [Hh|Hh].
    - rewrite move_selection_selected by done.
      destruct (move_selection_view p dir H0 Hh) as (H1 & _). lia.
    - unfold move_selection. rewrite (proj2 (Z.leb_gt _ _)) by lia.
      rewrite (proj2 (Z.leb_le (ph p) 2)) by lia. simpl. lia. }
  destruct (entries p).
  - destruct Hp as (H1 & H2 & H3). destruct Hpos; [lia|]. done.
  - unfold move_selection. rewrite (proj2 (Z.leb_le _ _)) by lia. done.
Qed.

(** The listing of directory [p] of [f], with [".."] selected. *)
Definition shows (f : fs) (p : path) (pn : Panel) : Prop :=
  cwd pn = path_string p /\
  exists mode es e, nodes f !! p = Some (Dir mode) /\ entries pn = Some es /\
    es ≡ₚ dirent_of <$> ((DOT, Dir mode) :: (DOTDOT, Dir mode)
            :: omap (child_entry p) (map_to_list (nodes f))) /\
    count pn = Z.of_nat (length es) /\ scroll pn = 0 /\
    aget es (selected pn) = Some e /\ d_name e = DOTDOT /\ d_type e = DT_DIR.

(** What [load_directory] may be called on: nothing loaded, or a consistent listing. *)
Definition loadable (p : Panel) : Prop :=
  forall es, entries p = Some es -> count p = Z.of_nat (length es).

Lemma panel_ok_loadable p : panel_ok p -> loadable p.
Proof. unfold panel_ok. intros H es Hes. rewrite Hes in H. tauto. Qed.

Lemma free_panel_loadable p :
  loadable p -> free_panel p = Some (set_entries None (count p) p).
Proof.
  intros H. unfold free_panel. destruct (entries p) as [es|] eqn:E.
  - rewrite (H es) by done. by rewrite Z.leb_refl.
  - destruct p; simpl in *; by subst.
Qed.

Lemma select_dotdot_cases i sel es :
  (select_dotdot i sel es = sel /\ Forall (fun e => d_name e <> DOTDOT) es) \/
  exists k e, select_dotdot i sel es = i + Z.of_nat k /\ es !! k = Some e /\ d_name e = DOTDOT.
Proof.
  revert i sel. induction es as [|e es IH]; intros i sel; simpl; [by left|].
  destruct (IH (i + 1) (if streq (d_name e) DOTDOT then i else sel))
    as [[-> HF]|(k & e' & -> & Hk & He)].
  - destruct (streq (d_name e) DOTDOT) eqn:E.
    + right. exists 0%nat, e. apply streq_true in E. split_and!; [lia | done..].
    + left. split; [done|]. constructor; [|done]. intros H. apply streq_true in H. congruence.
  - right. exists (S k), e'. split_and!; [lia | done..].
Qed.

Lemma select_dotdot_found es e :
  e ∈ es -> d_name e = DOTDOT ->
  exists e', aget es (select_dotdot 0 0 es) = Some e' /\ e' ∈ es /\ d_name e' = DOTDOT.
Proof.
  intros He Hn. destruct (select_dotdot_cases 0 0 es) as [[_ HF]|(k & e' & -> & Hk & He')].
  - rewrite Forall_forall in HF. by apply HF in He.
  - exists e'. split_and!; [|by eapply list_elem_of_lookup_2|done].
    apply aget_Some. split; [lia|]. by rewrite Z.add_0_l, Nat2Z.id.
Qed.

(** Entries that exist carry proper names, so only one is [".."]. *)
Lemma dotdot_is_dir f p l mode :
  fs_ok (nodes f) -> l ≡ₚ dirent_of <$> ((DOT, Dir mode) :: (DOTDOT, Dir mode)
    :: omap (child_entry p) (map_to_list (nodes f))) ->
  forall e, e ∈ l -> d_name e = DOTDOT -> d_type e = DT_DIR.
Proof.
  intros Hok Hl e He Hn. rewrite Hl in He.
  apply list_elem_of_fmap in He as ([w n] & -> & Hin). simpl in Hn. subst w.
  apply elem_of_cons in Hin as [[= ]|Hin].
  apply elem_of_cons in Hin as [[= ->]|Hin]; [done|].
  apply list_elem_of_omap in Hin as ([q n'] & Hq%elem_of_map_to_list & Hc).
  unfold child_entry in Hc. simpl in Hc. apply bind_Some in Hc as (w & Hw & [= -> ->]).
  apply child_name_Some in Hw as ->. by destruct (ok_parent _ Hok _ _ _ Hq) as [(_ & _ & ? & _) _].
Qed.

Lemma load_directory_shows f p mode pn :
  fs_ok (nodes f) -> nodes f !! p = Some (Dir mode) -> p ∉ locked f ->
  (length (path_string p) < PATH_MAX)%nat -> cwd pn = path_string p -> loadable pn ->
  exists pn', load_directory f pn = Some (0, pn') /\ shows f p pn' /\ panel_ok pn' /\
    (px pn', py pn', pw pn', ph pn') = (px pn, py pn, pw pn, ph pn).
Proof.
  intros Hok Hp Hlk Hl Hc Hld. unfold load_directory. rewrite free_panel_loadable by done.
  simpl. rewrite Hc, (scandir_dir _ _ _ Hok Hp) by done.
  set (raw := _ :: _ :: omap _ _). set (es := dirent_of <$> sort_names raw).
  assert (es ≡ₚ dirent_of <$> raw) as Hperm by (apply fmap_Permutation, sort_names_perm).
  destruct (select_dotdot_found es (mkDirent DOTDOT DT_DIR)) as (e & He & Hin & Hn).
  { rewrite Hperm. apply list_elem_of_further, list_elem_of_here. }
  { done. }
  eexists. split; [done|]. pose proof (aget_lt _ _ _ He) as Hlt. split_and!; [..|done].
  - split; [done|]. exists mode, es, e. split_and!; try done.
    by eapply (dotdot_is_dir f p es mode).
  - unfold panel_ok. simpl. lia.
Qed.

(** A directory of the listing can be entered. *)
Lemma enter_directory_entry f junk p mode c md pn es :
  fs_ok (nodes f) -> nodes f !! p = Some (Dir mode) -> nodes f !! (p ++ [c]) = Some (Dir md) ->
  cwd pn = path_string p -> entries pn = Some es ->
  aget es (selected pn) = Some (mkDirent c DT_DIR) ->
  (length (path_string p) + 1 + length c < PATH_MAX)%nat ->
  enter_directory f junk pn = snd <$> load_directory f (set_cwd (path_string (p ++ [c])) pn).
Proof.
  intros Hok Hp Hc Hcwd Hes Hsel Hl. destruct (ok_parent _ Hok _ _ _ Hc) as [(_ & _ & Hdd & _) _].
  unfold enter_directory, streq. rewrite Hes. cbn [mbind option_bind]. rewrite Hsel.
  cbn [mbind option_bind d_type d_name]. rewrite bool_decide_true by done.
  rewrite (bool_decide_false (c = DOTDOT)) by done. cbn [negb]. unfold join. rewrite Hcwd.
  replace (PATH_MAX <=? length (path_string p ++ SLASH :: c))%nat with false
    by (symmetry; apply Nat.leb_gt; rewrite length_app; simpl; lia).
  by rewrite (realpath_entry f p mode Hok Hp c md).
Qed.

Lemma enter_directory_dotdot f junk p mode pn es e :
  fs_ok (nodes f) -> nodes f !! p = Some (Dir mode) ->
  cwd pn = path_string p -> entries pn = Some es ->
  aget es (selected pn) = Some e -> d_name e = DOTDOT -> d_type e = DT_DIR ->
  (length (path_string p) + 3 < PATH_MAX)%nat ->
  (length (path_string (parent p)) < PATH_MAX)%nat ->
  enter_directory f junk pn = snd <$> load_directory f (set_cwd (path_string (parent p)) pn).
Proof.
  intros Hok Hp Hcwd Hes Hsel Hn Ht Hl Hl2. unfold enter_directory. rewrite Hes.
  cbn [mbind option_bind]. rewrite Hsel. cbn [mbind option_bind]. rewrite Ht, Hn, Hcwd.
  rewrite bool_decide_true by done. unfold join.
  assert (streq DOTDOT DOTDOT = true) as -> by done. cbn [negb].
  replace (PATH_MAX <=? length (path_string p ++ SLASH :: DOTDOT))%nat with false
    by (symmetry; apply Nat.leb_gt; rewrite length_app; simpl; lia).
  by rewrite (realpath_dotdot f p mode Hok Hp).
Qed.

Lemma length_path_string_snoc p c :
  (length (path_string (p ++ [c])) <= length (path_string p) + 1 + length c)%nat.
Proof.
  destruct (decide (p = [])) as [->|Hne]; [simpl; rewrite app_nil_r; lia|].
  rewrite path_string_snoc, length_app by done. simpl. lia.
Qed.

(** ** A concrete panel *)

(** [/] holds a directory [d], a file [x] and a directory [z] that cannot be read. *)
Definition home_fs : fs :=
  mkFs (list_to_map [([], Dir 493); ([lit "d"], Dir 493); ([lit "x"], File [] 420);
                     ([lit "z"], Dir 0)])
    {[ [lit "z"] ]} {[ [] ]} 1000 [] 18.

Definition home_panel (sel : Z) : Panel :=
  mkPanel (lit "/")
    (Some [mkDirent DOT DT_DIR; mkDirent DOTDOT DT_DIR; mkDirent (lit "d") DT_DIR;
           mkDirent (lit "x") DT_REG; mkDirent (lit "z") DT_DIR]) 5 sel 0 0 0 40 20.

(** ** Properties *)

(** Moving the selection, from any state of a listing and by any
    amount, selects the entry the clamped sum names and leaves it visible: the
    window starts at a non-negative index, contains the selection and does not go
    past the end of a listing longer than the window. *)
Theorem move_selection_correct p dir :
  panel_ok p -> 0 < count p -> 2 < ph p ->
  let p' := move_selection p dir in
  panel_ok p' /\ view_ok p' /\
  selected p' = Z.min (count p - 1) (Z.max 0 (selected p + dir)) /\
  cwd p' = cwd p /\ entries p' = entries p.
Proof.
  intros Hp Hc Hh p'. destruct (move_selection_unchanged p dir) as (H1 & H2 & _).
  split_and!; [by apply move_selection_ok | by apply move_selection_view
    | by apply move_selection_selected | done | done].
Qed.

Lemma move_selection_correct_witness :
  let p' := move_selection (home_panel 4) 1 in
  panel_ok p' /\ view_ok p' /\ selected p' = Z.min 4 (Z.max 0 5) /\
  cwd p' = lit "/" /\ entries p' = entries (home_panel 4).
Proof.
  refine (move_selection_correct (home_panel 4) 1 _ _ _).
  - vm_compute. split_and!; done.
  - reflexivity.
  - reflexivity.
Defined.

(** Entering a readable directory of the listing and pressing Enter
    again returns to the same directory: the first step shows the directory, with
    [".."] selected, and the second shows the directory one came from, freshly
    listed, with [".."] selected; the panel's invariant holds at both points. *)
Theorem enter_and_return f junk p mode c md pn es :
  fs_ok (nodes f) -> nodes f !! p = Some (Dir mode) -> nodes f !! (p ++ [c]) = Some (Dir md) ->
  p ∉ locked f -> p ++ [c] ∉ locked f ->
  panel_ok pn -> cwd pn = path_string p -> entries pn = Some es ->
  aget es (selected pn) = Some (mkDirent c DT_DIR) ->
  (length (path_string p) + length c + 4 < PATH_MAX)%nat ->
  exists pn1 pn2,
    enter_directory f junk pn = Some pn1 /\ shows f (p ++ [c]) pn1 /\ panel_ok pn1 /\
    enter_directory f junk pn1 = Some pn2 /\ shows f p pn2 /\ panel_ok pn2.
Proof.
  intros Hok Hp Hc Hlk Hlkc Hpn Hcwd Hes Hsel Hl.
  pose proof (length_path_string_snoc p c) as Hlc.
  destruct (load_directory_shows f (p ++ [c]) md (set_cwd (path_string (p ++ [c])) pn))
    as (pn1 & Hl1 & Hs1 & Hok1 & _); [done..|lia|done|by apply panel_ok_loadable|].
  pose proof Hs1 as (Hcwd1 & md1 & es1 & e1 & Hd1 & He1 & _ & _ & _ & Hsel1 & Hn1 & Ht1).
  destruct (load_directory_shows f p mode (set_cwd (path_string p) pn1))
    as (pn2 & Hl2 & Hs2 & Hok2 & _); [done..|lia|done|by apply panel_ok_loadable|].
  exists pn1, pn2. split_and!; try done.
  - rewrite (enter_directory_entry f junk p mode c md pn es) by (done || lia). by rewrite Hl1.
  - erewrite (enter_directory_dotdot f junk (p ++ [c]));
      [|done| |done|done|done|done|done|lia|rewrite parent_snoc; lia]; [|done].
    by rewrite parent_snoc, Hl2.
Qed.

Lemma enter_and_return_witness :
  exists pn1 pn2,
    enter_directory home_fs [] (home_panel 2) = Some pn1 /\ shows home_fs [lit "d"] pn1 /\
    panel_ok pn1 /\ enter_directory home_fs [] pn1 = Some pn2 /\ shows home_fs [] pn2 /\
    panel_ok pn2.
Proof.
  refine (enter_and_return home_fs [] [] 493 (lit "d") 493 (home_panel 2) _ _ _ _ _ _ _ _ _ _ _).
  - apply fs_okc_sound, (bool_decide_unpack _). vm_compute. exact I.
  - reflexivity.
  - reflexivity.
  - apply (bool_decide_unpack _). vm_compute. exact I.
  - apply (bool_decide_unpack _). vm_compute. exact I.
  - vm_compute. split_and!; done.
  - reflexivity.
  - reflexivity.
  - reflexivity.
  - vm_compute. lia.
Defined.

(** Counterexample.  A directory that cannot be listed breaks the panel:
    entering it changes [cwd] and then fails, which leaves no entries and a count
    of -1, and the next Enter dereferences the [NULL] array (there is no test of
    [count] or [entries]). *)
Theorem enter_unreadable_crashes f junk p mode c md pn es :
  fs_ok (nodes f) -> nodes f !! p = Some (Dir mode) -> nodes f !! (p ++ [c]) = Some (Dir md) ->
  p ++ [c] ∈ locked f ->
  panel_ok pn -> cwd pn = path_string p -> entries pn = Some es ->
  aget es (selected pn) = Some (mkDirent c DT_DIR) ->
  (length (path_string p) + length c + 4 < PATH_MAX)%nat ->
  exists pn1, enter_directory f junk pn = Some pn1 /\
    cwd pn1 = path_string (p ++ [c]) /\ entries pn1 = None /\ count pn1 = -1 /\
    enter_directory f junk pn1 = None.
Proof.
  intros Hok Hp Hc Hlk Hpn Hcwd Hes Hsel Hl. pose proof (length_path_string_snoc p c) as Hlc.
  rewrite (enter_directory_entry f junk p mode c md pn es) by (done || lia). unfold load_directory.
  rewrite free_panel_loadable by by apply panel_ok_loadable. simpl.
  rewrite (scandir_locked f (p ++ [c]) md Hok Hc) by (done || lia).
  eexists. split_and!; done.
Qed.

Lemma enter_unreadable_crashes_witness :
  exists pn1, enter_directory home_fs [] (home_panel 4) = Some pn1 /\
    cwd pn1 = lit "/z" /\ entries pn1 = None /\ count pn1 = -1 /\
    enter_directory home_fs [] pn1 = None.
Proof.
  refine (enter_unreadable_crashes home_fs [] [] 493 (lit "z") 0 (home_panel 4) _
    _ _ _ _ _ _ _ _ _).
  - apply fs_okc_sound, (bool_decide_unpack _). vm_compute. exact I.
  - reflexivity.
  - reflexivity.
  - apply (bool_decide_unpack _). vm_compute. exact I.
  - vm_compute. split_and!; done.
  - reflexivity.
  - reflexivity.
  - reflexivity.
  - vm_compute. lia.
Defined.
