(* ===== verification/FmUi.v ===== *)
(** * File manager: the application structure, its layout and drawing

    [App] and [Button] of [simple_file_manager/include/app.h], and the functions of
    [src/ui.c] that compute the layout and draw the panels and the buttons.
    Drawing produces the list of the writes to the screen; [None] means that the
    code reads an entry that does not exist.  The [libmagic] database is a
    parameter. *)

From S2P Require Import Prelude CString Vfs FmTree FmPanel.

(** The functions a button can call ([None] is the [NULL] pointer: exit). *)
Inductive dialog := move_dlg | open_file_dlg | create_directory_dlg | copy_dlg | delete_directory_dlg.

Record Button := mkButton {
  bx : Z; by_ : Z; bw : Z; bh : Z;
  label : cstr; hotkey : Z; action : option dialog
}.

Record App := mkApp {
  rows : Z; cols : Z;
  buttons : list Button;
  left : Panel; right : Panel;
  active : Z
}.

Definition button_count (app : App) : Z := Z.of_nat (length (buttons app)).

Definition set_size (r c : Z) (app : App) : App :=
  mkApp r c (buttons app) (left app) (right app) (active app).
Definition set_active (a : Z) (app : App) : App :=
  mkApp (rows app) (cols app) (buttons app) (left app) (right app) a.

(** [Panel *p = (app->active == 0) ? &app->left : &app->right;] and a change of
    the panel it points to. *)
Definition active_panel (app : App) : Panel := if active app =? 0 then left app else right app.
Definition other_panel (app : App) : Panel := if active app =? 0 then right app else left app.
Definition set_active_panel (p : Panel) (app : App) : App :=
  if active app =? 0 then mkApp (rows app) (cols app) (buttons app) p (right app) (active app)
  else mkApp (rows app) (cols app) (buttons app) (left app) p (active app).
Definition set_other_panel (p : Panel) (app : App) : App :=
  if active app =? 0 then mkApp (rows app) (cols app) (buttons app) (left app) p (active app)
  else mkApp (rows app) (cols app) (buttons app) p (right app) (active app).

(** ** Layout *)

Fixpoint place_buttons (x y : Z) (bs : list Button) : list Button :=
  match bs with
  | [] => []
  | b :: bs' =>
      let w := Z.of_nat (length (label b)) + 4 in
      mkButton x y w 1 (label b) (hotkey b) (action b) :: place_buttons (x + (w + 2)) y bs'
  end.

(** [term] is the size of the terminal, [getmaxyx(stdscr, ...)]. *)
Definition update_layout (term : Z * Z) (app : App) : App :=
  let '(rows, cols) := term in
  let mid := Z.quot cols 2 in
  let bottom := rows - 4 in
  mkApp rows cols (place_buttons 2 (rows - 2) (buttons app))
    (set_rect 0 0 mid bottom (left app))
    (set_rect mid 0 (cols - mid) bottom (right app)) (active app).

(** ** Colours *)

Definition S_IXUSR : Z := 64.

Definition node_mode (n : node) : Z := match n with File _ m | Dir m => m | Link _ => 511 end.

Definition get_file_color (magic_file : cstr -> option cstr) (f : fs) (dir name : cstr) : Z :=
  let path := trunc PATH_MAX (join dir name) in
  let by_magic :=
    match magic_file path with
    | None => 7
    | Some mime =>
        let has := fun s => has_substr mime (lit s) in
        if has "text" then 4
        else if has "zip" || has "gzip" || has "tar" || has "rar" || has "7z" then 5
        else if has "image" || has "video" then 6
        else if has "application" then 3
        else 7
    end in
  match stat f path with
  | Some n => if is_dir n then 7
              else if negb (Z.land (node_mode n) S_IXUSR =? 0) then 3 else by_magic
  | None => by_magic
  end.

(** [init_curses]: the colours of the pairs, for a terminal with [COLORS] colours.  [init_pair] refuses a
    colour the terminal does not have; -1 is its default. *)
Definition COLOR_BLACK : Z := 0.
Definition COLOR_GREEN : Z := 2.
Definition COLOR_YELLOW : Z := 3.
Definition COLOR_BLUE : Z := 4.
Definition COLOR_MAGENTA : Z := 5.
Definition COLOR_WHITE : Z := 7.

Definition color_ok (COLORS c : Z) : bool := (c =? -1) || ((0 <=? c) && (c <? COLORS)).

Definition init_pair (COLORS n fg bg : Z) (pairs : gmap Z (Z * Z)) : gmap Z (Z * Z) :=
  if color_ok COLORS fg && color_ok COLORS bg then <[n := (fg, bg)]> pairs else pairs.

Definition init_colors (COLORS : Z) : gmap Z (Z * Z) :=
  let p := init_pair COLORS 1 COLOR_WHITE (-1) ∅ in
  let p := init_pair COLORS 2 COLOR_BLACK COLOR_WHITE p in
  let p := init_pair COLORS 3 COLOR_GREEN (-1) p in
  let p := if COLORS >=? 16 then init_pair COLORS 4 208 (-1) p else init_pair COLORS 4 COLOR_YELLOW (-1) p in
  let p := init_pair COLORS 5 COLOR_MAGENTA (-1) p in
  let p := init_pair COLORS 6 COLOR_BLUE (-1) p in
  init_pair COLORS 7 COLOR_WHITE (-1) p.

(** ** Drawing *)

Inductive glyph := ULCORNER | URCORNER | LLCORNER | LRCORNER | HLINE | VLINE | BLANK.

(** A glyph at a position, or a text starting at a position in a colour pair. *)
Inductive draw :=
  | Cell (y x : Z) (g : glyph)
  | Text (y x : Z) (color : Z) (s : cstr).

(** ["%-*.*s"]: a negative width is a left adjustment to its absolute value. *)
Definition fmt_field (n : Z) (s : cstr) : cstr :=
  let t := fmt_prec n s in t ++ replicate (Z.to_nat (Z.abs n) - length t) SP.

Definition seqZ0 (n : Z) : list Z := Z.of_nat <$> seq 0 (Z.to_nat n).

Definition frame_cell (x0 y0 w h y x : Z) : list draw :=
  let put := fun g => [Cell (y0 + y) (x0 + x) g] in
  if (y =? 0) && (x =? 0) then put ULCORNER
  else if (y =? 0) && (x =? w - 1) then put URCORNER
  else if (y =? h - 1) && (x =? 0) then put LLCORNER
  else if (y =? h - 1) && (x =? w - 1) then put LRCORNER
  else if (y =? 0) || (y =? h - 1) then put HLINE
  else if (x =? 0) || (x =? w - 1) then put VLINE
  else [].

Definition draw_frame (x0 y0 w h : Z) : list draw :=
  mjoin ((fun y => mjoin (frame_cell x0 y0 w h y <$> seqZ0 w)) <$> seqZ0 h).

(** [for (i = 0; i < visible; i++) { idx = scroll + i; if (idx >= count) break; ... }] *)
Fixpoint draw_rows (color : cstr -> Z) (p : Panel) (act : bool) (i : Z) (n : nat) : option (list draw) :=
  match n with
  | O => Some []
  | S n' =>
      let idx := scroll p + i in
      if idx >=? count p then Some []
      else
        es ← entries p;
        e ← aget es idx;
        let is_selected := (idx =? selected p) && act in
        let c := if is_selected then 2 else color (d_name e) in
        rest ← draw_rows color p act (i + 1) n';
        Some (Text (py p + 1 + i) (px p + 2) c (fmt_field (pw p - 4) (d_name e)) :: rest)
  end.

Definition draw_panel (color : cstr -> cstr -> Z) (p : Panel) (act : bool) : option (list draw) :=
  rows ← draw_rows (color (cwd p)) p act 0 (Z.to_nat (ph p - 2));
  Some (draw_frame (px p) (py p) (pw p) (ph p)
        ++ [Text (py p) (px p + 2) 1 (fmt_prec (pw p - 4) (cwd p))] ++ rows).

Definition draw_button (b : Button) : list draw :=
  ((fun i => Cell (by_ b) (bx b + i) BLANK) <$> seqZ0 (bw b)) ++ [Text (by_ b) (bx b + 2) 2 (label b)].

Definition draw_ui (color : cstr -> cstr -> Z) (app : App) : option (list draw) :=
  l ← draw_panel color (left app) (active app =? 0);
  r ← draw_panel color (right app) (active app =? 1);
  Some (l ++ r ++ mjoin (draw_button <$> buttons app)).

(** ** What drawing may touch *)

(** The columns a write covers, on its row. *)
Definition inside (x0 y0 w h : Z) (d : draw) : Prop :=
  match d with
  | Cell y x _ => (y0 <= y < y0 + h) /\ (x0 <= x < x0 + w)
  | Text y x _ s => (y0 <= y < y0 + h) /\ x0 <= x /\ x + Z.of_nat (length s) <= x0 + w
  end.

(** The point [(x, y)] is on the button. *)
Definition hits (b : Button) (x y : Z) : bool :=
  (y =? by_ b) && (x >=? bx b) && (x <? bx b + bw b).

(** ** Lemmas *)

Lemma elem_of_seqZ0 n i : i ∈ seqZ0 n -> 0 <= i < n.
Proof.
  unfold seqZ0. intros (k & -> & Hk)%list_elem_of_fmap. apply elem_of_seq in Hk. lia.
Qed.

Lemma frame_cell_inside x0 y0 w h y x d :
  0 <= y < h -> 0 <= x < w -> d ∈ frame_cell x0 y0 w h y x -> inside x0 y0 w h d.
Proof.
  intros Hy Hx. unfold frame_cell. repeat case_match; intros Hd;
    first [ apply list_elem_of_singleton in Hd as ->; simpl; lia | by apply not_elem_of_nil in Hd ].
Qed.

Lemma draw_frame_inside x0 y0 w h d : d ∈ draw_frame x0 y0 w h -> inside x0 y0 w h d.
Proof.
  unfold draw_frame. intros (l & Hd & (y & -> & Hy)%list_elem_of_fmap)%list_elem_of_join.
  apply list_elem_of_join in Hd as (k & Hd & (x & -> & Hx)%list_elem_of_fmap).
  apply elem_of_seqZ0 in Hy, Hx. by eapply frame_cell_inside.
Qed.

Lemma length_fmt_field n s : 0 <= n -> Z.of_nat (length (fmt_field n s)) = n.
Proof.
  intros H. unfold fmt_field. rewrite length_app, length_replicate.
  pose proof (length_fmt_prec n s H). lia.
Qed.

Lemma aget_entry p es i :
  panel_ok p -> entries p = Some es -> 0 <= i < count p -> exists e, aget es i = Some e.
Proof.
  unfold panel_ok. intros Hp He Hi. rewrite He in Hp. apply aget_is_Some. lia.
Qed.

Lemma draw_rows_defined color p act n : panel_ok p -> forall i, 0 <= i ->
  exists l, draw_rows color p act i n = Some l /\
    (forall d, d ∈ l -> exists j e es, i <= j < i + Z.of_nat n /\ entries p = Some es /\
      aget es (scroll p + j) = Some e /\
      d = Text (py p + 1 + j) (px p + 2)
            (if (scroll p + j =? selected p) && act then 2 else color (d_name e))
            (fmt_field (pw p - 4) (d_name e))) /\
    (forall j, i <= j < i + Z.of_nat n -> scroll p + j < count p ->
      exists e es, entries p = Some es /\ aget es (scroll p + j) = Some e /\
        Text (py p + 1 + j) (px p + 2)
            (if (scroll p + j =? selected p) && act then 2 else color (d_name e))
            (fmt_field (pw p - 4) (d_name e)) ∈ l).
Proof.
  intros Hp. induction n as [|n IH]; intros i Hi; cbn [draw_rows].
  { exists []. split_and!; [done| |lia]. intros d Hd. by apply not_elem_of_nil in Hd. }
  destruct (scroll p + i >=? count p) eqn:E.
  { exists []. split_and!; [done| |lia]. intros d Hd. by apply not_elem_of_nil in Hd. }
  assert (0 <= scroll p) as Hs by (unfold panel_ok in Hp; destruct (entries p); lia).
  destruct (entries p) as [es|] eqn:He.
  2: { unfold panel_ok in Hp. rewrite He in Hp. lia. }
  destruct (aget_entry p es (scroll p + i) Hp He) as [e Hae]; [lia|].
  cbn [mbind option_bind]. rewrite Hae. cbn [mbind option_bind].
  destruct (IH (i + 1)) as (l & -> & Hl1 & Hl2); [lia|]. cbn [mbind option_bind].
  eexists. split_and!; [done| |].
  - intros d [->|Hd]%elem_of_cons.
    + exists i, e, es. split_and!; [lia.. | done | done | done].
    + destruct (Hl1 d Hd) as (j & e' & es' & Hj & H). exists j, e', es'. split; [lia | done].
  - intros j Hj Hc. destruct (decide (j = i)) as [->|Hne].
    + exists e, es. split_and!; [done | done | apply list_elem_of_here].
    + destruct (Hl2 j) as (e' & es' & H1 & H2 & H3); [lia.. |]. exists e', es'.
      split_and!; [done | done | by apply list_elem_of_further].
Qed.

Lemma place_buttons_row x y bs b : b ∈ place_buttons x y bs -> by_ b = y /\ x <= bx b /\ 4 <= bw b.
Proof.
  revert x. induction bs as [|b0 bs IH]; intros x; simpl; [by intros ?%not_elem_of_nil|].
  intros [->|Hb]%elem_of_cons; [simpl; lia|]. apply IH in Hb. lia.
Qed.

Lemma place_buttons_ordered x y bs i j b c :
  place_buttons x y bs !! i = Some b -> place_buttons x y bs !! j = Some c -> (i < j)%nat ->
  bx b + bw b < bx c.
Proof.
  revert x i j. induction bs as [|b0 bs IH]; intros x i j; simpl; [done|].
  destruct i as [|i], j as [|j]; simpl; intros Hb Hc Hij; try lia.
  - injection Hb as <-. apply list_elem_of_lookup_2, place_buttons_row in Hc. simpl. lia.
  - eapply (IH _ i j); [done..|lia].
Qed.

Lemma place_buttons_hit x y bs i j b c px py :
  place_buttons x y bs !! i = Some b -> place_buttons x y bs !! j = Some c ->
  hits b px py = true -> hits c px py = true -> i = j.
Proof.
  unfold hits. intros Hb Hc H1 H2. destruct (Nat.lt_total i j) as [H|[H|H]]; [|done|].
  - pose proof (place_buttons_ordered _ _ _ _ _ _ _ Hb Hc H). lia.
  - pose proof (place_buttons_ordered _ _ _ _ _ _ _ Hc Hb H). lia.
Qed.

(** ** Properties *)

(** The layout tiles the screen.  For any terminal of at least 5
    rows the two panels side by side cover exactly the columns, from row 0 to the
    row above the last four; all the buttons are on the row below them, and a
    point of the screen is on at most one button, so a click triggers at most one
    action. *)
Theorem layout_tiles rows0 cols0 app :
  0 <= cols0 -> 5 <= rows0 ->
  let app' := update_layout (rows0, cols0) app in
  px (left app') = 0 /\ px (right app') = pw (left app') /\
  pw (left app') + pw (right app') = cols0 /\ 0 <= pw (left app') <= pw (right app') /\
  pw (right app') <= pw (left app') + 1 /\
  (forall b, b ∈ buttons app' ->
    ph (left app') < by_ b /\ ph (right app') < by_ b /\ by_ b < rows app') /\
  (forall i j b c x y, buttons app' !! i = Some b -> buttons app' !! j = Some c ->
    hits b x y = true -> hits c x y = true -> i = j).
Proof.
  intros Hc Hr app'. cbn [app' update_layout left right px pw ph buttons rows set_rect].
  rewrite Z.quot_div_nonneg by lia.
  pose proof (Z.div_mod cols0 2 ltac:(lia)). pose proof (Z.mod_pos_bound cols0 2 ltac:(lia)).
  split_and!; try lia.
  - intros b Hb. apply place_buttons_row in Hb. lia.
  - intros i j b c x y. apply place_buttons_hit.
Qed.

Definition demo_app : App :=
  mkApp 0 0 [mkButton 0 0 0 0 (lit "MOVE (m)") 109 (Some move_dlg);
             mkButton 0 0 0 0 (lit "EXIT (q)") 113 None]
    (home_panel 2) (home_panel 0) 0.

Lemma layout_tiles_witness :
  let app' := update_layout (24, 81) demo_app in
  px (left app') = 0 /\ px (right app') = pw (left app') /\
  pw (left app') + pw (right app') = 81 /\ 0 <= pw (left app') <= pw (right app') /\
  pw (right app') <= pw (left app') + 1 /\
  (forall b, b ∈ buttons app' ->
    ph (left app') < by_ b /\ ph (right app') < by_ b /\ by_ b < rows app') /\
  (forall i j b c x y, buttons app' !! i = Some b -> buttons app' !! j = Some c ->
    hits b x y = true -> hits c x y = true -> i = j).
Proof. refine (layout_tiles 24 81 demo_app _ _); lia. Defined.

(** Drawing a panel is safe and stays inside it.  When the panel's
    invariant holds no entry outside the array is read; in a panel at least 4
    columns wide every write falls inside the panel's rectangle, so one panel never
    overwrites the other; and when the view is consistent, the selected entry of the
    active panel is on the screen, in the highlight colour. *)
Theorem draw_panel_safe color p act :
  panel_ok p -> 4 <= pw p -> 2 <= ph p ->
  exists l, draw_panel color p act = Some l /\
    (forall d, d ∈ l -> inside (px p) (py p) (pw p) (ph p) d) /\
    (view_ok p -> 0 < count p -> act = true ->
      exists e es, entries p = Some es /\ aget es (selected p) = Some e /\
        Text (py p + 1 + (selected p - scroll p)) (px p + 2) 2 (fmt_field (pw p - 4) (d_name e)) ∈ l).
Proof.
  intros Hp Hw Hh. unfold draw_panel.
  destruct (draw_rows_defined (color (cwd p)) p act (Z.to_nat (ph p - 2)) Hp 0)
    as (l & -> & Hin & Hall); [lia|].
  simpl. eexists. split_and!; [done| |].
  - intros d [Hd|[->|Hd]%elem_of_cons]%elem_of_app; [by apply draw_frame_inside| |].
    + simpl. pose proof (length_fmt_prec (pw p - 4) (cwd p) ltac:(lia)). lia.
    + destruct (Hin d Hd) as (j & e & es & Hj & _ & _ & ->). simpl.
      rewrite length_fmt_field by lia. lia.
  - intros (Hv1 & Hv2 & _) Hc ->.
    assert (selected p < count p) as Hsel by (unfold panel_ok in Hp; destruct (entries p); lia).
    destruct (Hall (selected p - scroll p)) as (e & es & He & Ha & Hd); [lia.. |].
    replace (scroll p + (selected p - scroll p)) with (selected p) in * by lia.
    rewrite Z.eqb_refl in Hd. exists e, es. split_and!; [done | done |].
    apply elem_of_app. right. by apply list_elem_of_further.
Qed.

Lemma draw_panel_safe_witness :
  exists l, draw_panel (fun _ _ => 7) (home_panel 2) true = Some l /\
    (forall d, d ∈ l -> inside 0 0 40 20 d) /\
    (view_ok (home_panel 2) -> 0 < 5 -> true = true ->
      exists e es, entries (home_panel 2) = Some es /\ aget es 2 = Some e /\
        Text (0 + 1 + (2 - 0)) (0 + 2) 2 (fmt_field (40 - 4) (d_name e)) ∈ l).
Proof.
  refine (draw_panel_safe (fun _ _ => 7) (home_panel 2) true _ _ _).
  - vm_compute. split_and!; done.
  - done.
  - done.
Defined.

Lemma get_file_color_range magic_file f dir name :
  get_file_color magic_file f dir name ∈ [3; 4; 5; 6; 7].
Proof. unfold get_file_color. repeat case_match; set_solver. Qed.

Lemma init_pair_ok COLORS n fg bg p :
  -1 <= fg < COLORS -> -1 <= bg < COLORS -> init_pair COLORS n fg bg p = <[n := (fg, bg)]> p.
Proof.
  intros Hf Hb. unfold init_pair, color_ok.
  replace ((fg =? -1) || ((0 <=? fg) && (fg <? COLORS))) with true by lia.
  by replace ((bg =? -1) || ((0 <=? bg) && (bg <? COLORS))) with true by lia.
Qed.

Lemma init_pair_refused COLORS n fg bg p : 0 <= fg -> COLORS <= fg -> init_pair COLORS n fg bg p = p.
Proof. intros H0 Hc. unfold init_pair, color_ok. by replace ((fg =? -1) || ((0 <=? fg) && (fg <? COLORS))) with false by lia. Qed.

(** Every colour pair the panels use has been initialised, on a terminal with at least eight colours, except
    the one of text files when there are at least 16 colours and no colour 208. *)
Theorem file_colors_defined COLORS magic_file f dir name :
  8 <= COLORS ->
  is_Some (init_colors COLORS !! 1) /\ is_Some (init_colors COLORS !! 2) /\
  (is_Some (init_colors COLORS !! get_file_color magic_file f dir name) <->
   ~ (get_file_color magic_file f dir name = 4 /\ 16 <= COLORS <= 208)).
Proof.
  intros Hc. unfold init_colors, COLOR_WHITE, COLOR_BLACK, COLOR_GREEN, COLOR_YELLOW, COLOR_MAGENTA, COLOR_BLUE.
  rewrite !(init_pair_ok _ 7), !(init_pair_ok _ 6), !(init_pair_ok _ 5), (init_pair_ok _ 3), (init_pair_ok _ 2), (init_pair_ok _ 1) by lia.
  pose proof (get_file_color_range magic_file f dir name) as Hr. set (k := get_file_color _ _ _ _) in *. clearbody k.
  destruct (COLORS >=? 16) eqn:E; [destruct (decide (COLORS <= 208))|];
    [rewrite init_pair_refused by lia|rewrite init_pair_ok by lia..];
    (split_and!; [by simplify_map_eq|by simplify_map_eq|]);
    rewrite !elem_of_cons in Hr; destruct Hr as [->|[->|[->|[->|[->|[]%not_elem_of_nil]]]]];
    rewrite ?lookup_insert_eq, ?lookup_insert_ne by done; (split; [|simplify_map_eq]; try done; try lia).
  by rewrite lookup_empty; intros [].
Qed.
