(* ===== verification/FmTerm.v ===== *)
(** * File manager: the terminal

    The state of the terminal that ncurses keeps for the file manager, and the functions of
    [simple_file_manager/src/ui.c] that begin and end its use, [init_curses] and [cleanup_curses].  The windows
    that exist are a set of handles; deleting a window that does not exist is undefined ([None]).  Which mouse
    events the terminal can report, how many colours it has and whether [libmagic] opens its database belong to
    the environment. *)

From S2P Require Import Prelude CString Vfs FmTree FmPanel FmUi.

(** What a call of the library changes and the code changes back. *)
Record modes := mkModes {
  curses : bool;      (** the terminal belongs to ncurses; otherwise it is as a shell has it *)
  cbreak_on : bool;
  echo_on : bool;
  keypad_on : bool;   (** of [stdscr], as the next one *)
  nodelay_on : bool;
  cursor_on : bool;
  mouse_mask : Z
}.

Record tty := mkTty {
  can_report : Z;             (** the mouse events the terminal can report *)
  COLORS : Z;
  the_modes : modes;
  pairs : gmap Z (Z * Z);     (** colour pairs *)
  windows : gset nat;
  magic_cookie : bool         (** [libmagic] is open *)
}.

Definition set_modes (g : modes -> modes) (t : tty) : tty :=
  mkTty (can_report t) (COLORS t) (g (the_modes t)) (pairs t) (windows t) (magic_cookie t).
Definition set_windows (ws : gset nat) (t : tty) : tty :=
  mkTty (can_report t) (COLORS t) (the_modes t) (pairs t) ws (magic_cookie t).
Definition set_magic (b : bool) (t : tty) : tty :=
  mkTty (can_report t) (COLORS t) (the_modes t) (pairs t) (windows t) b.
Definition set_pairs (p : gmap Z (Z * Z)) (t : tty) : tty :=
  mkTty (can_report t) (COLORS t) (the_modes t) p (windows t) (magic_cookie t).

(** ** The calls of the library *)

Definition set_curses (b : bool) : tty -> tty := set_modes (fun m =>
  mkModes b (cbreak_on m) (echo_on m) (keypad_on m) (nodelay_on m) (cursor_on m) (mouse_mask m)).
Definition cbreak : tty -> tty := set_modes (fun m =>
  mkModes (curses m) true (echo_on m) (keypad_on m) (nodelay_on m) (cursor_on m) (mouse_mask m)).
Definition noecho : tty -> tty := set_modes (fun m =>
  mkModes (curses m) (cbreak_on m) false (keypad_on m) (nodelay_on m) (cursor_on m) (mouse_mask m)).
Definition keypad (b : bool) : tty -> tty := set_modes (fun m =>
  mkModes (curses m) (cbreak_on m) (echo_on m) b (nodelay_on m) (cursor_on m) (mouse_mask m)).
Definition nodelay (b : bool) : tty -> tty := set_modes (fun m =>
  mkModes (curses m) (cbreak_on m) (echo_on m) (keypad_on m) b (cursor_on m) (mouse_mask m)).
Definition curs_set (b : bool) : tty -> tty := set_modes (fun m =>
  mkModes (curses m) (cbreak_on m) (echo_on m) (keypad_on m) (nodelay_on m) b (mouse_mask m)).

(** [mousemask] keeps the events that can be reported; the old mask is [mouse_mask]. *)
Definition mousemask (k : Z) (t : tty) : tty := set_modes (fun m =>
  mkModes (curses m) (cbreak_on m) (echo_on m) (keypad_on m) (nodelay_on m) (cursor_on m)
    (Z.land k (can_report t))) t.

Definition is_nodelay (t : tty) : bool := nodelay_on (the_modes t).
Definition old_mask (t : tty) : Z := mouse_mask (the_modes t).

(** [initscr] makes the terminal the program's and begins with the defaults; [endwin] gives it back, and the
    next [refresh] takes it again with the modes it had. *)
Definition initscr (t : tty) : tty :=
  set_pairs ∅ (set_modes (fun m => mkModes true false true false false true 0) t).
Definition endwin : tty -> tty := set_curses false.
Definition refresh : tty -> tty := set_curses true.

(** A window at a position of the screen: a new handle. *)
Definition newwin (t : tty) : nat * tty :=
  let w := fresh (windows t) in (w, set_windows ({[w]} ∪ windows t) t).
Definition delwin (w : nat) (t : tty) : option tty :=
  if bool_decide (w ∈ windows t) then Some (set_windows (windows t ∖ {[w]}) t) else None.

(** ** [init_curses] and [cleanup_curses] *)

Definition ALL_MOUSE_EVENTS : Z := 268435455.
Definition REPORT_MOUSE_POSITION : Z := 268435456.

(** [opens] is whether [magic_open] succeeds. *)
Definition init_curses (opens : bool) (t : tty) : tty :=
  let t := initscr t in
  let t := cbreak t in
  let t := noecho t in
  let t := keypad true t in
  let t := nodelay true t in
  let t := curs_set false t in
  let t := mousemask (Z.lor ALL_MOUSE_EVENTS REPORT_MOUSE_POSITION) t in
  let t := set_pairs (init_colors (COLORS t)) t in
  set_magic opens t.

Definition cleanup_curses (t : tty) : tty :=
  let t := if magic_cookie t then set_magic false t else t in
  endwin t.

(** ** The state between two inputs *)

(** The terminal is the program's, the keypad is on, the cursor hidden, and the mouse mask was set by
    [mousemask]. *)
Record tty_ready (t : tty) : Prop := {
  ready_curses : curses (the_modes t) = true;
  ready_keypad : keypad_on (the_modes t) = true;
  ready_cursor : cursor_on (the_modes t) = false;
  ready_mask : Z.land (mouse_mask (the_modes t)) (can_report t) = mouse_mask (the_modes t)
}.

(** A window more. *)
Definition with_window (w : nat) (t : tty) : tty := set_windows ({[w]} ∪ windows t) t.

(** ** Lemmas *)

Lemma tty_eq t c co m p w g :
  can_report t = c -> COLORS t = co -> the_modes t = m -> pairs t = p -> windows t = w ->
  magic_cookie t = g -> t = mkTty c co m p w g.
Proof. by destruct t; simpl; intros; subst. Qed.

Lemma newwin_fresh t w t' : newwin t = (w, t') -> w ∉ windows t /\ t' = with_window w t.
Proof. intros [= <- <-]. split; [apply is_fresh | done]. Qed.

(** A new window and its deletion leave no trace. *)
Lemma delwin_with_window w t : w ∉ windows t -> delwin w (with_window w t) = Some t.
Proof.
  intros Hw. unfold delwin, with_window, set_windows. cbn [windows can_report COLORS the_modes pairs magic_cookie].
  rewrite bool_decide_true by set_solver. f_equal. destruct t; cbn [windows] in *. f_equal. set_solver.
Qed.

Lemma init_curses_ready opens t : tty_ready (init_curses opens t).
Proof.
  split; try done. cbn. by rewrite <- Z.land_assoc, Z.land_diag.
Qed.

Lemma with_window_ready w t : tty_ready t -> tty_ready (with_window w t).
Proof. intros []. by constructor. Qed.

Lemma init_curses_windows opens t : windows (init_curses opens t) = windows t.
Proof. done. Qed.

(** Giving the terminal to a program and taking it back. *)
Lemma refresh_endwin t : tty_ready t -> refresh (endwin t) = t.
Proof. intros [H _ _ _]. destruct t as [? ? [] ? ? ?]; simpl in *. by subst. Qed.
