(* ===== verification/FmModal.v ===== *)
(** * File manager: modal windows

    [run_confirm_dialog] and [run_input_dialog] of
    [simple_file_manager/src/modal.c].  A dialogue is a function of the list of
    events the terminal delivers and of the state of the terminal, which it changes and has to restore: [Waiting]
    means that all of the events were read and the window is still open, [Crash] that the code went outside an
    array, read a variable nobody had written or deleted a window that does not exist.  What is drawn in the dialogue's own window is in FmModalDraw.v. *)

From S2P Require Import Prelude CString Vfs FmTree FmPanel FmUi FmTerm.

Definition KEY_BACKSPACE : Z := 263.
Definition ESC : Z := 27.
Definition ENTER : Z := 10.

Record MEVENT := mkMouse { mx : Z; my : Z; bstate : Z }.

(** What [getch] and [wget_wch] deliver: a character ([OK]), a function key
    ([KEY_CODE_YES]), a resize of the terminal to a new size, a mouse event (with
    what [getmouse] returns), or nothing ([ERR], only without blocking). *)
Inductive event :=
  | NoInput
  | Char (c : Z)
  | FKey (k : Z)
  | Resize (r c : Z)
  | Mouse (m : option MEVENT).

Inductive dlg (A : Type) := Waiting | Crash | Ret (a : A).
Arguments Waiting {A}. Arguments Crash {A}. Arguments Ret {A} a.

Definition dlg_bind {A B} (x : dlg A) (k : A -> dlg B) : dlg B :=
  match x with Waiting => Waiting | Crash => Crash | Ret a => k a end.
Definition dlg_opt {A} (x : option A) : dlg A := match x with Some a => Ret a | None => Crash end.

Declare Scope dlg_scope.
Notation "'let!' x := e 'in' k" := (dlg_bind e (fun x => k))
  (at level 10, x pattern, e at level 100, k at level 200) : dlg_scope.
Open Scope dlg_scope.

Definition BUTTON1_RELEASED : Z := 1.

(** [if (win) delwin(win); win = newwin(...)], when there is a window. *)
Definition renew (win : nat) (t : tty) : option (nat * tty) :=
  t ← delwin win t;
  Some (newwin t).

(** ** The confirmation dialogue *)

Definition CONFIRM_W : Z := 60.
Definition CONFIRM_H : Z := 10.

Definition clamp0 (z : Z) : Z := if z <? 0 then 0 else z.
Definition confirm_startx (app : App) : Z := clamp0 (Z.quot (cols app - CONFIRM_W) 2).
Definition confirm_starty (app : App) : Z := clamp0 (Z.quot (rows app - CONFIRM_H) 2).

Definition strlen (s : cstr) : Z := Z.of_nat (length s).

Definition ok_len (ok_label : cstr) : Z := strlen ok_label + 4.
Definition ok_x (ok_label cancel_label : cstr) : Z :=
  Z.quot (CONFIRM_W - (ok_len ok_label + ok_len cancel_label + 6)) 2.
Definition cancel_x (ok_label cancel_label : cstr) : Z :=
  ok_x ok_label cancel_label + ok_len ok_label + 6.

(** The focus and the key after a mouse event. *)
Definition confirm_mouse (okl cl : cstr) (app : App) (focus : Z) (e : MEVENT) : Z * bool :=
  if my e =? confirm_starty app + (CONFIRM_H - 3) then
    let x0 := confirm_startx app in
    let focus := if (mx e >=? x0 + ok_x okl cl) && (mx e <? x0 + ok_x okl cl + ok_len okl)
                 then 0 else focus in
    let focus := if (mx e >=? x0 + cancel_x okl cl) && (mx e <? x0 + cancel_x okl cl + ok_len cl)
                 then 1 else focus in
    (focus, true)
  else (focus, false).

(** The two nested loops; [app] has the size of the terminal as of the last pass
    through the outer one, [win] is the window; [delay] and [mask] are what to restore. *)
Fixpoint confirm_loop (okl cl : cstr) (delay : bool) (mask : Z) (app : App) (t : tty) (win : nat)
  (focus : Z) (evs : list event) : dlg (Z * App * tty * list event) :=
  match evs with
  | [] => Waiting
  | ev :: evs =>
      let enter := fun focus : Z =>
        let! t := dlg_opt (delwin win t) in
        Ret (if focus =? 0 then 1 else 0, app, nodelay delay (mousemask mask t), evs) in
      match ev with
      | Resize r c =>
          let! (win, t) := dlg_opt (renew win t) in
          confirm_loop okl cl delay mask (set_size r c app) t win focus evs
      | Char ch =>
          if ch =? TAB then confirm_loop okl cl delay mask app t win (if focus =? 0 then 1 else 0) evs
          else if ch =? ESC then
            let! t := dlg_opt (delwin win t) in
            Ret (0, app, nodelay delay (keypad true (mousemask mask t)), evs)
          else if ch =? ENTER then enter focus
          else confirm_loop okl cl delay mask app t win focus evs
      | Mouse (Some e) =>
          let '(focus, hit) := confirm_mouse okl cl app focus e in
          if hit then enter focus else confirm_loop okl cl delay mask app t win focus evs
      | Mouse None | FKey _ | NoInput => confirm_loop okl cl delay mask app t win focus evs
      end
  end.

Definition run_confirm_dialog (term : Z * Z) (app : App) (t : tty) (ok_label cancel_label : cstr)
  (evs : list event) : dlg (Z * App * tty * list event) :=
  let old_delay := is_nodelay t in
  let t := nodelay false t in
  let old := old_mask t in
  let t := mousemask BUTTON1_RELEASED t in
  let (win, t) := newwin t in
  confirm_loop ok_label cancel_label old_delay old (set_size term.1 term.2 app) t win 0 evs.

(** ** The input dialogue *)

Definition INPUT_W : Z := 70.
Definition INPUT_H : Z := 12.

Definition input_startx (app : App) : Z := Z.quot (cols app - INPUT_W) 2.
Definition input_starty (app : App) : Z := Z.quot (rows app - INPUT_H) 2.

(** [newwin] refuses a window that begins left of the screen or above it.  The code goes on with [NULL]: every call on
    it fails, and [ch] is compared although [wget_wch] stored nothing. *)
Definition input_window (app : App) : bool := (0 <=? input_starty app) && (0 <=? input_startx app).

(** [start_buttons = (70 - (6 + 10 + 18)) / 2] *)
Definition input_ok_x : Z := 18.
Definition input_cancel_x : Z := 42.

Definition input_mouse (app : App) (focus : Z) (e : MEVENT) : Z * bool :=
  if my e =? input_starty app + (INPUT_H - 3) then
    let x0 := input_startx app in
    let focus := if (mx e >=? x0 + input_ok_x) && (mx e <? x0 + input_ok_x + 6) then 1 else focus in
    let focus := if (mx e >=? x0 + input_cancel_x) && (mx e <? x0 + input_cancel_x + 10)
                 then 2 else focus in
    (focus, true)
  else (focus, false).

(** [wcslen] of a buffer: the characters before the first NUL; [None] when there is
    none. *)
Definition wcslen (buf : list Z) : option Z :=
  if bool_decide (NUL ∈ buf) then Some (Z.of_nat (length (c_str buf))) else None.

(** What an Enter does: a result, or the window stays open. *)
Definition input_enter (focus len : Z) : option Z :=
  if focus =? 0 then if len >? 0 then Some 1 else None
  else if focus =? 1 then if len >? 0 then Some 1 else None
  else Some 0.

Section input_dialog.
Context (color : cstr -> cstr -> Z).

(** The two nested loops; [delay] and [mask] are what to restore. *)
Fixpoint input_loop (delay : bool) (mask : Z) (app : App) (t : tty) (win : nat) (focus len : Z)
  (buf : list Z) (evs : list event) : dlg (Z * list Z * App * tty * list event) :=
  match evs with
  | [] => Waiting
  | ev :: evs =>
      let enter := fun focus : Z =>
        match input_enter focus len with
        | Some r =>
            let! t := dlg_opt (delwin win t) in
            Ret (r, buf, app, nodelay delay (curs_set false (mousemask mask t)), evs)
        | None => input_loop delay mask app t win focus len buf evs
        end in
      match ev with
      | Resize r c =>
          let app := update_layout (r, c) (set_size r c app) in
          match draw_ui color app with
          | None => Crash
          | Some _ =>
              if input_window app then
                let! (win, t) := dlg_opt (renew win t) in
                input_loop delay mask app t win focus len buf evs
              else Crash
          end
      | Char ch =>
          if ch =? TAB then input_loop delay mask app t win ((focus + 1) mod 3) len buf evs
          else if ch =? ESC then
            let! t := dlg_opt (delwin win t) in
            Ret (0, buf, app, nodelay delay (curs_set false (keypad true (mousemask mask t))), evs)
          else if ch =? ENTER then enter focus
          else if (focus =? 0) && (len <? Z.of_nat (length buf) - 1) then
            match aset buf len ch with
            | None => Crash
            | Some buf1 =>
                match aset buf1 (len + 1) NUL with
                | None => Crash
                | Some buf2 => input_loop delay mask app t win focus (len + 1) buf2 evs
                end
            end
          else input_loop delay mask app t win focus len buf evs
      | FKey k =>
          if (focus =? 0) && (k =? KEY_BACKSPACE) && (len >? 0) then
            match aset buf (len - 1) NUL with
            | None => Crash
            | Some buf1 => input_loop delay mask app t win focus (len - 1) buf1 evs
            end
          else input_loop delay mask app t win focus len buf evs
      | Mouse (Some e) =>
          let '(focus, hit) := input_mouse app focus e in
          if hit then enter focus else input_loop delay mask app t win focus len buf evs
      | Mouse None | NoInput => input_loop delay mask app t win focus len buf evs
      end
  end.

(** [buf] has [buffer_len] elements. *)
Definition run_input_dialog (term : Z * Z) (app : App) (t : tty) (buf : list Z) (evs : list event)
  : dlg (Z * list Z * App * tty * list event) :=
  match wcslen buf with
  | None => Crash
  | Some len =>
      let old_delay := is_nodelay t in
      let t := nodelay false t in
      let t := curs_set true t in
      let old := old_mask t in
      let t := mousemask BUTTON1_RELEASED t in
      let app := set_size term.1 term.2 app in
      if input_window app then
        let (win, t) := newwin t in
        input_loop old_delay old app t win 0 len buf evs
      else Crash
  end.
End input_dialog.

(** ** Invariants *)

Definition panels_ok (app : App) : Prop := panel_ok (left app) /\ panel_ok (right app).

(** A terminal on which the window of the input dialogue has room, now and after the resizes to come. *)
Definition roomy (term : Z * Z) : Prop := 11 <= term.1 /\ 69 <= term.2.
Definition stays_roomy (evs : list event) : Prop :=
  Forall (fun ev => match ev with Resize r c => roomy (r, c) | _ => True end) evs.

(** [len] is the end of the text: inside the buffer, on a NUL. *)
Definition input_ok (len : Z) (buf : list Z) : Prop := 0 <= len /\ aget buf len = Some NUL.

(** ... and the first NUL. *)
Definition text_is (len : Z) (buf : list Z) (t : list Z) : Prop :=
  len = Z.of_nat (length t) /\ (NUL ∉ t) /\ take (length t) buf = t /\ aget buf len = Some NUL.

(** ** Lemmas *)

Lemma panel_ok_set_rect x y w h p : panel_ok (set_rect x y w h p) <-> panel_ok p.
Proof. done. Qed.

Lemma roomy_window app : roomy (rows app, cols app) -> input_window app = true.
Proof.
  intros [Hr Hc]. cbn in Hr, Hc. unfold input_window, input_starty, input_startx, INPUT_H, INPUT_W.
  apply andb_true_intro; split; apply Z.leb_le; Z.to_euclidean_division_equations; lia.
Qed.

Lemma roomy_size term app : roomy term -> input_window (set_size term.1 term.2 app) = true.
Proof. intros Ht. apply roomy_window. by destruct term. Qed.

Lemma roomy_layout term app : roomy term -> input_window (update_layout term app) = true.
Proof. intros Ht. apply roomy_window. by destruct term. Qed.

Lemma panels_ok_layout term app : panels_ok app -> panels_ok (update_layout term app).
Proof. by destruct term. Qed.

Lemma draw_ui_defined color app : panels_ok app -> exists l, draw_ui color app = Some l.
Proof.
  intros [Hl Hr]. unfold draw_ui, draw_panel.
  destruct (draw_rows_defined (color (cwd (left app))) (left app) (active app =? 0)
    (Z.to_nat (ph (left app) - 2)) Hl 0) as (a & -> & _); [lia|].
  destruct (draw_rows_defined (color (cwd (right app))) (right app) (active app =? 1)
    (Z.to_nat (ph (right app) - 2)) Hr 0) as (b & -> & _); [lia|].
  simpl. eauto.
Qed.

Lemma input_ok_bounds len buf : input_ok len buf -> 0 <= len < Z.of_nat (length buf).
Proof. intros [H1 H2]. apply aget_lt in H2. lia. Qed.

Lemma input_ok_NUL len buf : input_ok len buf -> NUL ∈ buf.
Proof. intros [_ [_ H]%aget_Some]. by eapply list_elem_of_lookup_2. Qed.

(** Storing a character and the NUL after it. *)
Lemma input_ok_type len buf ch :
  input_ok len buf -> len < Z.of_nat (length buf) - 1 ->
  exists buf1 buf2, aset buf len ch = Some buf1 /\ aset buf1 (len + 1) NUL = Some buf2 /\
    input_ok (len + 1) buf2 /\ length buf2 = length buf /\
    take (Z.to_nat (len + 1)) buf2 = take (Z.to_nat len) buf ++ [ch].
Proof.
  intros H Hl. pose proof (input_ok_bounds _ _ H) as Hb.
  eexists _, _. split_and!.
  - apply aset_is_Some. lia.
  - apply aset_is_Some. rewrite length_insert. lia.
  - split; [lia|]. apply aget_insert_eq. rewrite length_insert. lia.
  - by rewrite !length_insert.
  - replace (Z.to_nat (len + 1)) with (S (Z.to_nat len)) by lia.
    erewrite take_S_r; [rewrite take_insert_ge, take_insert_ge by lia; done|].
    rewrite list_lookup_insert_ne by lia. apply list_lookup_insert_eq. lia.
Qed.

Lemma input_ok_back len buf :
  input_ok len buf -> 0 < len ->
  exists buf1, aset buf (len - 1) NUL = Some buf1 /\ input_ok (len - 1) buf1 /\
    length buf1 = length buf.
Proof.
  intros H Hl. pose proof (input_ok_bounds _ _ H) as Hb. eexists. split_and!.
  - apply aset_is_Some. lia.
  - split; [lia|]. apply aget_insert_eq. lia.
  - by rewrite length_insert.
Qed.

Lemma wcslen_ok buf : NUL ∈ buf ->
  exists len, wcslen buf = Some len /\ text_is len buf (c_str buf) /\ input_ok len buf.
Proof.
  intros Hn. unfold wcslen. rewrite bool_decide_true by done. eexists. split; [done|].
  assert (text_is (Z.of_nat (length (c_str buf))) buf (c_str buf)) as Ht.
  { unfold text_is, c_str. rewrite aget_Some, Nat2Z.id.
    clear -Hn. induction buf as [|c buf IH]; simpl; [by apply not_elem_of_nil in Hn|].
    destruct (c =? NUL) eqn:E; simpl.
    - apply Z.eqb_eq in E as ->. split_and!; (done || lia || by intros ?%not_elem_of_nil).
    - apply Z.eqb_neq in E. apply elem_of_cons in Hn as [Hn|Hn]; [congruence|].
      destruct (IH Hn) as (_ & H2 & H3 & _ & H4). split_and!; try lia.
      + apply not_elem_of_cons. split; [congruence | done].
      + by f_equal.
      + done. }
  split; [done|]. destruct Ht as (_ & _ & _ & H). split; [lia | done].
Qed.

Lemma input_enter_result focus len r :
  0 <= focus <= 2 -> input_enter focus len = Some r -> r = 0 \/ (r = 1 /\ 0 < len).
Proof. unfold input_enter. intros Hf H. repeat case_if; simplify_eq; lia. Qed.

Lemma input_mouse_focus app focus e f' hit :
  0 <= focus <= 2 -> input_mouse app focus e = (f', hit) -> 0 <= f' <= 2.
Proof. unfold input_mouse. intros Hf H. repeat case_if; simplify_eq; lia. Qed.

(** The terminal while a dialogue is open, the window apart; closing the dialogue restores it. *)
Definition confirm_modes (t : tty) : tty := mousemask BUTTON1_RELEASED (nodelay false t).
Definition input_modes (t : tty) : tty := mousemask BUTTON1_RELEASED (curs_set true (nodelay false t)).

Ltac restores := intros [? ? ? ?]; match goal with t : tty |- _ => destruct t as [? ? [] ? ? ?] end;
  lazy -[Z.land] in *; congruence.

Lemma confirm_restores t : tty_ready t ->
  nodelay (is_nodelay t) (mousemask (old_mask t) (confirm_modes t)) = t.
Proof. restores. Qed.
Lemma confirm_restores_esc t : tty_ready t ->
  nodelay (is_nodelay t) (keypad true (mousemask (old_mask t) (confirm_modes t))) = t.
Proof. restores. Qed.
Lemma input_restores t : tty_ready t ->
  nodelay (is_nodelay t) (curs_set false (mousemask (old_mask t) (input_modes t))) = t.
Proof. restores. Qed.
Lemma input_restores_esc t : tty_ready t ->
  nodelay (is_nodelay t) (curs_set false (keypad true (mousemask (old_mask t) (input_modes t)))) = t.
Proof. restores. Qed.

Lemma renew_with_window w t : w ∉ windows t ->
  exists w', renew w (with_window w t) = Some (w', with_window w' t) /\ w' ∉ windows t.
Proof.
  intros Hw. unfold renew. rewrite delwin_with_window by done. cbn [mbind option_bind].
  destruct (newwin t) as [w' t'] eqn:E. apply newwin_fresh in E as [Hw' ->]. eauto.
Qed.

(** When the dialogue returns, however it went, the terminal is as it was, [t0]. *)
Definition input_restored (t0 : tty) (r : dlg (Z * list Z * App * tty * list event)) : Prop :=
  match r with Ret (_, _, _, t, _) => t = t0 | _ => True end.

Lemma input_loop_restores color t0 evs : tty_ready t0 -> forall app win focus len buf,
  win ∉ windows (input_modes t0) ->
  input_restored t0 (input_loop color (is_nodelay t0) (old_mask t0) app
    (with_window win (input_modes t0)) win focus len buf evs).
Proof.
  intros Ht. induction evs as [|ev evs IH]; intros app win focus len buf Hw; [done|].
  cbn [input_loop]. rewrite delwin_with_window by done. cbn [dlg_opt dlg_bind].
  rewrite input_restores, input_restores_esc by done.
  destruct (renew_with_window win (input_modes t0) Hw) as (w' & -> & Hw'). cbn [dlg_opt dlg_bind].
  repeat first [ done | by apply IH | case_match ].
Qed.

(** What is known of a run of the dialogue in a terminal that has room. *)
Definition input_done (n : nat) (r : dlg (Z * list Z * App * tty * list event)) : Prop :=
  match r with
  | Waiting => True
  | Crash => False
  | Ret (r, buf, app, _, evs) =>
      (r = 0 \/ r = 1) /\ length buf = n /\ panels_ok app /\ stays_roomy evs /\
      exists len, input_ok len buf /\ (r = 1 -> 0 < len)
  end.

Lemma input_loop_safe color t0 evs : tty_ready t0 -> forall app win focus len buf,
  win ∉ windows (input_modes t0) -> stays_roomy evs -> panels_ok app -> 0 <= focus <= 2 ->
  input_ok len buf ->
  input_done (length buf) (input_loop color (is_nodelay t0) (old_mask t0) app
    (with_window win (input_modes t0)) win focus len buf evs).
Proof.
  intros Ht. induction evs as [|ev evs IH]; intros app win focus len buf Hw Hroom Ha Hf Hb; [done|].
  apply Forall_cons in Hroom as [Hev Hroom].
  assert (forall focus, 0 <= focus <= 2 -> input_done (length buf)
    (match input_enter focus len with
     | Some r =>
         let! t := dlg_opt (delwin win (with_window win (input_modes t0))) in
         Ret (r, buf, app, nodelay (is_nodelay t0) (curs_set false (mousemask (old_mask t0) t)), evs)
     | None => input_loop color (is_nodelay t0) (old_mask t0) app (with_window win (input_modes t0)) win
                 focus len buf evs
     end)) as Henter.
  { intros fo Hfo. destruct (input_enter fo len) as [r|] eqn:E; [|by apply IH].
    apply input_enter_result in E; [|done]. rewrite delwin_with_window by done. cbn [dlg_opt dlg_bind].
    rewrite input_restores by done. simpl. split_and!; try done; [lia|].
    exists len. split; [done|]. lia. }
  cbn [input_loop]. destruct ev as [|ch|k|r c|[e|]]; try by apply IH.
  - destruct (ch =? TAB); [apply IH; try done; pose proof (Z.mod_pos_bound (focus + 1) 3); lia|].
    destruct (ch =? ESC).
    { rewrite delwin_with_window by done. cbn [dlg_opt dlg_bind]. rewrite input_restores_esc by done.
      simpl. split_and!; try done; [lia|]. exists len. split; [done | lia]. }
    destruct (ch =? ENTER); [by apply Henter|].
    destruct ((focus =? 0) && (len <? Z.of_nat (length buf) - 1)) eqn:E; [|by apply IH].
    bool_to_prop. destruct (input_ok_type len buf ch Hb) as (b1 & b2 & -> & -> & Hb2 & Hl & _); [done|].
    rewrite <- Hl. by apply IH.
  - destruct ((focus =? 0) && (k =? KEY_BACKSPACE) && (len >? 0)) eqn:E; [|by apply IH].
    bool_to_prop. destruct (input_ok_back len buf Hb) as (b1 & -> & Hb1 & Hl); [lia|].
    rewrite <- Hl. by apply IH.
  - destruct (draw_ui_defined color (update_layout (r, c) (set_size r c app))) as [l ->].
    { by apply panels_ok_layout. }
    rewrite roomy_layout by done. destruct (renew_with_window win (input_modes t0) Hw) as (w' & -> & Hw').
    by apply IH.
  - destruct (input_mouse app focus e) as [f' hit] eqn:E. apply input_mouse_focus in E; [|done].
    destruct hit; [by apply Henter | by apply IH].
Qed.

(** Typing characters that are no commands. *)
Definition plain (ch : Z) : Prop := ch <> NUL /\ ch <> TAB /\ ch <> ESC /\ ch <> ENTER.

Lemma input_loop_type color delay mask app t win rest s : Forall plain s -> forall len buf txt,
  text_is len buf txt -> (length txt + length s < length buf)%nat ->
  exists len' buf', text_is len' buf' (txt ++ s) /\ length buf' = length buf /\
    input_loop color delay mask app t win 0 len buf ((Char <$> s) ++ rest) = input_loop color delay mask app t win 0 len' buf' rest.
Proof.
  induction 1 as [|ch s (H0 & H1 & H2 & H3) Hs IH]; intros len buf txt Ht Hl.
  { exists len, buf. rewrite app_nil_r. done. }
  destruct Ht as (Hlen & Hn & Htake & Hnul). simpl in Hl.
  destruct (input_ok_type len buf ch) as (b1 & b2 & Hb1 & Hb2 & [_ Hnul2] & Hlb & Htk).
  { split; [lia | done]. }
  { lia. }
  destruct (IH (len + 1) b2 (txt ++ [ch])) as (len' & buf' & Hx & Hlx & Hr).
  - split_and!.
    + rewrite length_app. simpl. lia.
    + rewrite not_elem_of_app. split; [done|]. rewrite list_elem_of_singleton. congruence.
    + rewrite length_app. simpl length. replace (length txt + 1)%nat with (Z.to_nat (len + 1)) by lia.
      rewrite Htk. f_equal. by replace (Z.to_nat len) with (length txt) by lia.
    + done.
  - rewrite length_app, Hlb. simpl. lia.
  - exists len', buf'. rewrite <- app_assoc in Hx. split_and!; [done|congruence|]. rewrite <- Hr.
    rewrite fmap_cons, <- app_comm_cons. cbn [input_loop].
    rewrite !(proj2 (Z.eqb_neq ch _)) by done.
    replace ((0 =? 0) && (len <? Z.of_nat (length buf) - 1)) with true by lia.
    by rewrite Hb1, Hb2.
Qed.

Lemma text_is_c_str len buf t : text_is len buf t -> c_str buf = t.
Proof.
  intros (-> & Hn & Ht & [_ H]%aget_Some). rewrite Nat2Z.id in H.
  rewrite <- (take_drop (length t) buf), Ht. unfold c_str.
  erewrite drop_S by exact H. rewrite take_while_app_all; [simpl; by rewrite app_nil_r|].
  apply Forall_forall. intros x Hx. apply negb_true_iff, Z.eqb_neq. intros ->. done.
Qed.

Lemma run_input_types color term app t buf s rest :
  roomy term -> tty_ready t -> NUL ∈ buf -> Forall plain s -> c_str buf ++ s <> [] ->
  (length (c_str buf) + length s < length buf)%nat ->
  exists buf', c_str buf' = c_str buf ++ s /\ length buf' = length buf /\
    run_input_dialog color term app t buf ((Char <$> s) ++ [Char ENTER] ++ rest)
      = Ret (1, buf', set_size term.1 term.2 app, t, rest).
Proof.
  intros Hroom Htty Hn Hs Hne Hl. unfold run_input_dialog.
  destruct (wcslen_ok buf Hn) as (len & -> & Ht & _). cbv zeta. rewrite roomy_size by done.
  change (mousemask _ (curs_set _ _)) with (input_modes t).
  change (old_mask (curs_set _ _)) with (old_mask t).
  destruct (newwin (input_modes t)) as [win t'] eqn:E. apply newwin_fresh in E as [Hw ->].
  destruct (input_loop_type color (is_nodelay t) (old_mask t) (set_size term.1 term.2 app)
    (with_window win (input_modes t)) win ([Char ENTER] ++ rest) s Hs
    len buf (c_str buf) Ht Hl) as (len' & buf' & Ht' & Hlb & ->).
  exists buf'. split_and!; [by eapply text_is_c_str | done |].
  destruct Ht' as (Hlen & _). rewrite <- app_comm_cons. cbn [input_loop]. simpl (ENTER =? _). cbv iota.
  unfold input_enter. simpl (0 =? 0). cbv iota.
  destruct (len' >? 0) eqn:E.
  { rewrite delwin_with_window by done. cbn [dlg_opt dlg_bind]. by rewrite input_restores. }
  destruct (c_str buf ++ s); [done|]. simpl in Hlen. lia.
Qed.

(** The whole dialogue. *)
Lemma run_input_restores color term app t buf evs :
  tty_ready t -> input_restored t (run_input_dialog color term app t buf evs).
Proof.
  intros Ht. unfold run_input_dialog. destruct (wcslen buf) as [len|]; [|done]. cbv zeta.
  change (mousemask _ (curs_set _ _)) with (input_modes t).
  change (old_mask (curs_set _ _)) with (old_mask t).
  destruct (input_window _); [|done].
  destruct (newwin (input_modes t)) as [win t'] eqn:E. apply newwin_fresh in E as [Hw ->].
  by apply input_loop_restores.
Qed.

Lemma run_input_done color term app t buf evs :
  roomy term -> stays_roomy evs -> tty_ready t -> panels_ok app -> NUL ∈ buf ->
  input_done (length buf) (run_input_dialog color term app t buf evs).
Proof.
  intros Hroom Hevs Ht Ha Hn. unfold run_input_dialog. destruct (wcslen_ok buf Hn) as (len & -> & _ & Hok).
  cbv zeta. rewrite roomy_size by done.
  change (mousemask _ (curs_set _ _)) with (input_modes t).
  change (old_mask (curs_set _ _)) with (old_mask t).
  destruct (newwin (input_modes t)) as [win t'] eqn:E. apply newwin_fresh in E as [Hw ->].
  apply input_loop_safe; try done; lia.
Qed.

(** The confirmation dialogue does not touch the panels, and it restores the terminal. *)
Definition confirm_done (t0 : tty) (app : App) (x : dlg (Z * App * tty * list event)) : Prop :=
  match x with
  | Waiting => True
  | Crash => False
  | Ret (_, a, t, _) => t = t0 /\ left a = left app /\ right a = right app
  end.

Lemma confirm_loop_safe okl cl t0 evs : tty_ready t0 -> forall app win focus,
  win ∉ windows (confirm_modes t0) ->
  confirm_done t0 app (confirm_loop okl cl (is_nodelay t0) (old_mask t0) app
    (with_window win (confirm_modes t0)) win focus evs).
Proof.
  intros Ht. induction evs as [|ev evs IH]; intros app win focus Hw; [done|]. cbn [confirm_loop].
  rewrite delwin_with_window by done. cbn [dlg_opt dlg_bind].
  rewrite confirm_restores, confirm_restores_esc by done.
  destruct ev as [|ch|k|r c|[e|]]; try by apply IH.
  - destruct (ch =? TAB); [by apply IH|]. destruct (ch =? ESC); [done|].
    destruct (ch =? ENTER); [done | by apply IH].
  - destruct (renew_with_window win (confirm_modes t0) Hw) as (w' & -> & Hw').
    exact (IH (set_size r c app) w' focus Hw').
  - destruct (confirm_mouse _ _ _ _ _) as [f []]; [done | by apply IH].
Qed.

Lemma run_confirm_done term app t okl cl evs :
  tty_ready t -> confirm_done t app (run_confirm_dialog term app t okl cl evs).
Proof.
  intros Ht. unfold run_confirm_dialog. cbv zeta.
  change (mousemask _ (nodelay false t)) with (confirm_modes t).
  change (old_mask (nodelay false t)) with (old_mask t).
  destruct (newwin (confirm_modes t)) as [win t'] eqn:E. apply newwin_fresh in E as [Hw ->].
  exact (confirm_loop_safe okl cl t evs Ht (set_size _ _ app) win 0 Hw).
Qed.

(** The window of a dialogue that is closed again by Enter or Escape. *)
Lemma confirm_enter okl cl t app win focus evs : tty_ready t -> win ∉ windows (confirm_modes t) ->
  confirm_loop okl cl (is_nodelay t) (old_mask t) app (with_window win (confirm_modes t)) win focus
    (Char ENTER :: evs) = Ret (if focus =? 0 then 1 else 0, app, t, evs) /\
  confirm_loop okl cl (is_nodelay t) (old_mask t) app (with_window win (confirm_modes t)) win focus
    (Char ESC :: evs) = Ret (0, app, t, evs).
Proof.
  intros Ht Hw. cbn [confirm_loop]. simpl (_ =? _). cbv iota. rewrite !delwin_with_window by done.
  cbn [dlg_opt dlg_bind]. by rewrite confirm_restores, confirm_restores_esc.
Qed.

Lemma run_confirm_enter term app t okl cl rest : tty_ready t ->
  run_confirm_dialog term app t okl cl (Char ENTER :: rest) = Ret (1, set_size term.1 term.2 app, t, rest).
Proof.
  intros Ht. unfold run_confirm_dialog. cbv zeta.
  change (mousemask _ (nodelay false t)) with (confirm_modes t).
  change (old_mask (nodelay false t)) with (old_mask t).
  destruct (newwin (confirm_modes t)) as [win t'] eqn:E. apply newwin_fresh in E as [Hw ->].
  by rewrite (proj1 (confirm_enter okl cl t _ win 0 rest Ht Hw)).
Qed.

(** ** Properties *)

(** The input dialogue is memory safe for every sequence of events, as long as the terminal has room for it:
    started on a buffer that holds a NUL, it never writes outside the buffer,
    never draws an entry that does not exist and never deletes a window twice, the terminal is as it was before, the
    buffer it returns holds a NUL, and it confirms only a text of at least one character. *)
Theorem input_dialog_safe color term app t buf evs :
  roomy term -> stays_roomy evs -> tty_ready t -> panels_ok app -> NUL ∈ buf ->
  run_input_dialog color term app t buf evs <> Crash /\
  forall r buf' app' t' evs', run_input_dialog color term app t buf evs = Ret (r, buf', app', t', evs') ->
    t' = t /\ (r = 0 \/ r = 1) /\ length buf' = length buf /\ NUL ∈ buf' /\ panels_ok app' /\
    (r = 1 -> exists len, input_ok len buf' /\ 0 < len).
Proof.
  intros Hroom Hevs Ht Ha Hn.
  pose proof (run_input_done color term app t buf evs Hroom Hevs Ht Ha Hn) as H.
  pose proof (run_input_restores color term app t buf evs Ht) as Hrest.
  split; [by intros E; rewrite E in H|]. intros r buf' app' t' evs' E. rewrite E in H, Hrest.
  destruct H as (Hr & Hl & Hp & _ & len' & Hb & Hpos).
  split_and!; try done; [by eapply input_ok_NUL|].
  intros Hr1. exists len'. auto.
Qed.

(** A terminal of 256 colours whose mouse reports everything, as [init_curses] leaves it. *)
Definition demo_tty : tty :=
  init_curses true (mkTty (2 ^ 32 - 1) 256 (mkModes false false true false false true 0) ∅ ∅ false).

Lemma input_dialog_safe_witness :
  let run := run_input_dialog (fun _ _ => 7) (24, 80) demo_app demo_tty [97; 0; 0] [Char 98; Char 99; Char 10] in
  run <> Crash /\
  forall r buf' app' t' evs', run = Ret (r, buf', app', t', evs') ->
    t' = demo_tty /\ (r = 0 \/ r = 1) /\ length buf' = 3%nat /\ NUL ∈ buf' /\ panels_ok app' /\
    (r = 1 -> exists len, input_ok len buf' /\ 0 < len).
Proof.
  refine (input_dialog_safe (fun _ _ => 7) (24, 80) demo_app demo_tty [97; 0; 0] _ _ _ _ _ _).
  - by vm_compute.
  - repeat constructor.
  - apply init_curses_ready.
  - vm_compute. split_and!; done.
  - apply (bool_decide_unpack _). vm_compute. exact I.
Defined.

(** Typing a text that fits into the buffer and pressing Enter
    confirms the dialogue with the text appended to what the buffer held. *)
Theorem input_dialog_types color term app t buf s rest :
  roomy term -> tty_ready t -> NUL ∈ buf -> Forall plain s -> c_str buf ++ s <> [] ->
  (length (c_str buf) + length s < length buf)%nat ->
  exists buf', c_str buf' = c_str buf ++ s /\ length buf' = length buf /\
    run_input_dialog color term app t buf ((Char <$> s) ++ [Char ENTER] ++ rest)
      = Ret (1, buf', set_size term.1 term.2 app, t, rest).
Proof. apply run_input_types. Qed.

Lemma input_dialog_types_witness :
  exists buf', c_str buf' = lit "/tmpab" /\ length buf' = 10%nat /\
    run_input_dialog (fun _ _ => 7) (24, 80) demo_app demo_tty (lit "/tmp" ++ replicate 6 0)
      ((Char <$> lit "ab") ++ [Char ENTER] ++ []) = Ret (1, buf', set_size 24 80 demo_app, demo_tty, []).
Proof.
  refine (input_dialog_types (fun _ _ => 7) (24, 80) demo_app demo_tty (lit "/tmp" ++ replicate 6 0)
    (lit "ab") [] _ _ _ _ _ _).
  - by vm_compute.
  - apply init_curses_ready.
  - apply (bool_decide_unpack _). vm_compute. exact I.
  - repeat constructor; done.
  - done.
  - vm_compute. lia.
Defined.

(** Counterexample.  On a terminal of fewer than 69 columns or 11 rows the input dialogue has no window, and what the
    program does is undefined; the confirmation dialogue begins at 0 there. *)
Theorem small_terminal_crashes color app t buf evs r c :
  NUL ∈ buf -> r < 11 \/ c < 69 -> run_input_dialog color (r, c) app t buf evs = Crash.
Proof.
  intros Hn Hrc. unfold run_input_dialog. destruct (wcslen_ok buf Hn) as (len & -> & _). cbn [fst snd]. cbv zeta.
  assert (input_window (set_size r c app) = false) as ->; [|done].
  unfold input_window, input_starty, input_startx, INPUT_H, INPUT_W. cbn [rows cols set_size].
  apply andb_false_iff. rewrite !Z.leb_gt. destruct Hrc; [left|right]; Z.to_euclidean_division_equations; lia.
Qed.

Lemma small_terminal_crashes_witness :
  run_input_dialog (fun _ _ => 7) (24, 60) demo_app demo_tty [0; 0] [Char 97] = Crash.
Proof. apply small_terminal_crashes; [left|lia]. Defined.

(** The keyboard in the confirmation dialogue: after any number of
    Tabs, Enter confirms when that number is even and cancels when it is odd (the
    focus starts on the confirming button), and Escape always cancels; the terminal is as it was. *)
Theorem confirm_dialog_keys term app t okl cl k rest :
  tty_ready t ->
  run_confirm_dialog term app t okl cl (replicate k (Char TAB) ++ [Char ENTER] ++ rest)
    = Ret (if Nat.even k then 1 else 0, set_size term.1 term.2 app, t, rest) /\
  run_confirm_dialog term app t okl cl (replicate k (Char TAB) ++ [Char ESC] ++ rest)
    = Ret (0, set_size term.1 term.2 app, t, rest).
Proof.
  intros Ht. unfold run_confirm_dialog. cbv zeta. set (a := set_size _ _ app).
  change (mousemask _ (nodelay false t)) with (confirm_modes t).
  change (old_mask (nodelay false t)) with (old_mask t).
  destruct (newwin (confirm_modes t)) as [win t'] eqn:E. apply newwin_fresh in E as [Hw ->].
  set (loop := confirm_loop okl cl (is_nodelay t) (old_mask t) a (with_window win (confirm_modes t)) win).
  assert (forall focus, focus = 0 \/ focus = 1 -> forall tail,
    loop focus (replicate k (Char TAB) ++ tail) =
    loop (if Nat.even k then focus else 1 - focus) tail) as Htabs.
  { induction k as [|k IH]; intros focus Hf tail; [done|].
    rewrite Nat.even_succ, <- Nat.negb_even. cbn [replicate]. rewrite <- app_comm_cons.
    unfold loop. cbn [confirm_loop]. rewrite Z.eqb_refl. fold loop.
    rewrite IH by (destruct (focus =? 0); auto). destruct (Nat.even k), Hf as [-> | ->]; done. }
  rewrite !Htabs by auto. unfold loop. rewrite <- !app_comm_cons, !app_nil_l.
  split; [rewrite (proj1 (confirm_enter _ _ _ _ _ _ _ Ht Hw)) | rewrite (proj2 (confirm_enter _ _ _ _ _ _ _ Ht Hw))];
    by destruct (Nat.even k).
Qed.

Lemma confirm_dialog_keys_witness :
  run_confirm_dialog (24, 80) demo_app demo_tty (lit "Delete") (lit "Cancel")
    (replicate 3 (Char TAB) ++ [Char ENTER] ++ []) = Ret (0, set_size 24 80 demo_app, demo_tty, []) /\
  run_confirm_dialog (24, 80) demo_app demo_tty (lit "Delete") (lit "Cancel")
    (replicate 3 (Char TAB) ++ [Char ESC] ++ []) = Ret (0, set_size 24 80 demo_app, demo_tty, []).
Proof. refine (confirm_dialog_keys (24, 80) demo_app demo_tty _ _ 3 [] _). apply init_curses_ready. Defined.

(** Counterexample.  A click beside the buttons confirms.  Any click on the
    row of the buttons counts as Enter, also far outside both of them: with the
    focus where it starts, the dialogue that asks before deleting returns 1 for a
    click to the left of both buttons, even outside the window. *)
Theorem stray_click_confirms term app t okl cl x b rest :
  let app' := set_size term.1 term.2 app in
  tty_ready t -> x < confirm_startx app' + ok_x okl cl ->
  run_confirm_dialog term app t okl cl
    (Mouse (Some (mkMouse x (confirm_starty app' + (CONFIRM_H - 3)) b)) :: rest)
    = Ret (1, app', t, rest).
Proof.
  intros app' Ht Hx. unfold run_confirm_dialog. cbv zeta.
  change (mousemask _ (nodelay false t)) with (confirm_modes t).
  change (old_mask (nodelay false t)) with (old_mask t).
  destruct (newwin (confirm_modes t)) as [win t'] eqn:E. apply newwin_fresh in E as [Hw ->].
  cbn [confirm_loop]. unfold confirm_mouse. rewrite delwin_with_window by done. cbn [dlg_opt dlg_bind].
  rewrite confirm_restores by done.
  cbn [mx my]. fold app'. rewrite Z.eqb_refl.
  assert (0 <= ok_len okl) by (unfold ok_len, strlen; lia).
  replace (x >=? confirm_startx app' + ok_x okl cl) with false by lia.
  replace (x >=? confirm_startx app' + cancel_x okl cl) with false by (unfold cancel_x; lia).
  done.
Qed.

Lemma stray_click_confirms_witness :
  run_confirm_dialog (24, 80) demo_app demo_tty (lit "Delete") (lit "Cancel")
    [Mouse (Some (mkMouse 0 14 4))] = Ret (1, set_size 24 80 demo_app, demo_tty, []).
Proof.
  refine (stray_click_confirms (24, 80) demo_app demo_tty (lit "Delete") (lit "Cancel") 0 4 [] _ _).
  - apply init_curses_ready.
  - vm_compute. reflexivity.
Defined.
