(* ===== verification/FmModalDraw.v ===== *)
(** * File manager: what the modal windows show

    The drawing in the inner loops of [run_confirm_dialog] and [run_input_dialog]
    ([simple_file_manager/src/modal.c]) as the writes to the window, in its own
    coordinates, and its agreement with what the mouse does. *)

From S2P Require Import Prelude CString Vfs FmTree FmPanel FmUi FmModal.

(** A border, a text in a colour pair (0 for none), wide characters, the cursor. *)
Inductive wdraw :=
  | WBox
  | WText (y x color : Z) (s : cstr)
  | WWide (y x : Z) (s : list Z)
  | WCursor (y x : Z).

(** [COLOR_PAIR(2)] is on around the button with the focus. *)
Definition lit_up (on : bool) : Z := if on then 2 else 0.

Definition title_x (w : Z) (title : cstr) : Z :=
  let x := Z.quot (w - strlen title) 2 in if x <? 1 then 1 else x.

(** ["[ %s ]"] *)
Definition button_text (label : cstr) : cstr := lit "[ " ++ label ++ lit " ]".

Definition confirm_draw (title line1 : cstr) (line2 : option cstr) (okl cl : cstr) (focus : Z) : list wdraw :=
  [WBox; WText 1 (title_x CONFIRM_W title) 0 title; WText 3 2 0 line1]
  ++ match line2 with Some l => [WText 4 2 0 l] | None => [] end
  ++ [WText (CONFIRM_H - 3) (ok_x okl cl) (lit_up (focus =? 0)) (button_text okl);
      WText (CONFIRM_H - 3) (cancel_x okl cl) (lit_up (focus =? 1)) (button_text cl)].

Definition OK : cstr := lit "OK".
Definition CANCEL : cstr := lit "Cancel".

Definition input_draw (title prompt : cstr) (buf : list Z) (len focus : Z) : option (list wdraw) :=
  if bool_decide (NUL ∈ buf) then
    Some ([WBox; WText 1 (title_x INPUT_W title) 0 title; WText 3 2 0 prompt;
           WText 5 2 0 (lit "> "); WWide 5 4 (c_str buf);
           WText (INPUT_H - 3) input_ok_x (lit_up (focus =? 1)) (button_text OK);
           WText (INPUT_H - 3) input_cancel_x (lit_up (focus =? 2)) (button_text CANCEL)]
          ++ (if focus =? 0 then [WCursor 5 (4 + len)] else []))
  else None.

(** ** Lemmas *)

Lemma length_button_text l : Z.of_nat (length (button_text l)) = ok_len l.
Proof.
  unfold button_text, ok_len, strlen. rewrite !length_app. change (length (lit "[ ")) with 2%nat.
  change (length (lit " ]")) with 2%nat. lia.
Qed.

(** The cells of the screen a text of a window covers. *)
Definition covers (startx starty : Z) (d : wdraw) (e : MEVENT) : Prop :=
  match d with
  | WText y x _ s => my e = starty + y /\ startx + x <= mx e < startx + x + Z.of_nat (length s)
  | _ => False
  end.

Definition is_button (label : cstr) (d : wdraw) : Prop :=
  exists y x c, d = WText y x c (button_text label).

(** ** Properties *)

(** C38 (functional).  The dialogues react where they draw.  In both modal windows, wherever
    the window is on the screen and whichever button has the focus, a click on any
    character drawn of a button moves the focus to that button and presses it; the button
    in reverse colours is the one with the focus; and a click on another row does
    nothing. *)
Theorem click_hits_drawn_button app title prompt line2 okl cl focus e :
  let cx := confirm_startx app in
  let cy := confirm_starty app in
  let cok := WText (CONFIRM_H - 3) (ok_x okl cl) (lit_up (focus =? 0)) (button_text okl) in
  let ccancel := WText (CONFIRM_H - 3) (cancel_x okl cl) (lit_up (focus =? 1)) (button_text cl) in
  let iok := WText (INPUT_H - 3) input_ok_x (lit_up (focus =? 1)) (button_text OK) in
  let icancel := WText (INPUT_H - 3) input_cancel_x (lit_up (focus =? 2)) (button_text CANCEL) in
  (cok ∈ confirm_draw title prompt line2 okl cl focus /\
   ccancel ∈ confirm_draw title prompt line2 okl cl focus) /\
  (forall buf len ds, input_draw title prompt buf len focus = Some ds -> iok ∈ ds /\ icancel ∈ ds) /\
  (covers cx cy cok e -> confirm_mouse okl cl app focus e = (0, true)) /\
  (covers cx cy ccancel e -> confirm_mouse okl cl app focus e = (1, true)) /\
  (my e <> cy + (CONFIRM_H - 3) -> confirm_mouse okl cl app focus e = (focus, false)) /\
  (covers (input_startx app) (input_starty app) iok e -> input_mouse app focus e = (1, true)) /\
  (covers (input_startx app) (input_starty app) icancel e -> input_mouse app focus e = (2, true)) /\
  (my e <> input_starty app + (INPUT_H - 3) -> input_mouse app focus e = (focus, false)).
Proof.
  intros cx cy cok ccancel iok icancel.
  assert (forall s : cstr, 0 <= strlen s) as Hs by (intros s; unfold strlen; lia).
  pose proof (Hs okl) as Hok. pose proof (Hs cl) as Hcl.
  split_and!.
  - unfold confirm_draw. set_solver.
  - unfold confirm_draw. set_solver.
  - intros buf len ds. unfold input_draw. case_bool_decide; [|done]. intros [= <-]. set_solver.
  - intros [Hy Hx]. rewrite length_button_text in Hx. unfold confirm_mouse, cancel_x, ok_len in *.
    fold cx cy. rewrite Hy, Z.eqb_refl. case_ifs; done.
  - intros [Hy Hx]. rewrite length_button_text in Hx. unfold confirm_mouse, cancel_x, ok_len in *.
    fold cx cy. rewrite Hy, Z.eqb_refl. case_ifs; done.
  - intros Hy. unfold confirm_mouse. fold cy. by rewrite (proj2 (Z.eqb_neq _ _)).
  - intros [Hy Hx]. rewrite length_button_text in Hx. change (ok_len OK) with 6 in Hx. unfold input_mouse.
    rewrite Hy, Z.eqb_refl. unfold input_ok_x, input_cancel_x in *. case_ifs; done.
  - intros [Hy Hx]. rewrite length_button_text in Hx. change (ok_len CANCEL) with 10 in Hx. unfold input_mouse.
    rewrite Hy, Z.eqb_refl. unfold input_ok_x, input_cancel_x in *. case_ifs; done.
  - intros Hy. unfold input_mouse. by rewrite (proj2 (Z.eqb_neq _ _)).
Qed.
