(* ===== verification/FmApp.v ===== *)
(** * File manager: dialogues, input handling and the main loop

    The dialogue functions of [simple_file_manager/src/dialog.c], [handle_input] of
    [src/ui.c], [run_app] of [src/app.c] and [main].  The state is a [world]: the file
    system, the [App] structure, the size and the state of the terminal, the events still to
    come, and the static variables of [handle_input].  A function returns [Waiting]
    when it has not returned after the given events (or when a tree is deeper than
    the fuel), and [Crash] for an access outside an array or through [NULL], or a window deleted twice. *)

From S2P Require Import Prelude CString Vfs FmTree FmPanel FmUi FmTerm FmModal.

Record world := mkWorld {
  w_fs : fs;
  w_app : App;
  w_term : Z * Z;
  w_tty : tty;
  w_evs : list event;
  last_click_idx : Z;
  last_click_time : Z
}.

Definition set_app (a : App) (w : world) : world :=
  mkWorld (w_fs w) a (w_term w) (w_tty w) (w_evs w) (last_click_idx w) (last_click_time w).
Definition set_fs (f : fs) (w : world) : world :=
  mkWorld f (w_app w) (w_term w) (w_tty w) (w_evs w) (last_click_idx w) (last_click_time w).
Definition set_click (i t : Z) (w : world) : world :=
  mkWorld (w_fs w) (w_app w) (w_term w) (w_tty w) (w_evs w) i t.

Definition set_tty (t : tty) (w : world) : world :=
  mkWorld (w_fs w) (w_app w) (w_term w) t (w_evs w) (last_click_idx w) (last_click_time w).

(** After a dialogue: its window tracked the size of the terminal. *)
Definition after_dialog (a : App) (t : tty) (evs : list event) (w : world) : world :=
  mkWorld (w_fs w) a (rows a, cols a) t evs (last_click_idx w) (last_click_time w).

(** ** Multibyte conversions

    The program never calls [setlocale], so the conversions are those of the C
    locale: ASCII only. *)
Definition ascii (c : Z) : bool := (0 <? c) && (c <=? 127).

(** Into a zeroed array: the conversion stops at the NUL or at the first character
    that has no encoding. *)
Definition wcstombs (buf : list Z) : cstr := take_while ascii buf.

(** Into an array of [PATH_MAX] characters; [None] when a byte is not ASCII, which
    leaves the array without a terminating NUL.  What follows the NUL is not read. *)
Definition mbstowcs (s : cstr) : option (list Z) :=
  if forallb ascii s then Some (s ++ replicate (PATH_MAX - length s) NUL) else None.

(** ** Dialogues *)

Section dialogs.
(** The [libmagic] database, the editor that [system] starts, what [malloc] returns,
    what a failing [realpath] leaves in its buffer, and the fuel for trees. *)
Context (magic_file : cstr -> option cstr) (editor : cstr -> fs -> fs)
  (malloc_ok : bool) (junk : cstr) (fuel : nat).

Definition color_of (f : fs) : cstr -> cstr -> Z := get_file_color magic_file f.

(** [load_directory(p)] for the active or the other panel. *)
Definition reload_active (w : world) : dlg world :=
  let! (_, p) := dlg_opt (load_directory (w_fs w) (active_panel (w_app w))) in
  Ret (set_app (set_active_panel p (w_app w)) w).
Definition reload_other (w : world) : dlg world :=
  let! (_, p) := dlg_opt (load_directory (w_fs w) (other_panel (w_app w))) in
  Ret (set_app (set_other_panel p (w_app w)) w).

Definition create_directory_dialog (w : world) : dlg world :=
  let! (r, name, a, t, evs) := run_input_dialog (color_of (w_fs w)) (w_term w) (w_app w) (w_tty w)
                                 (replicate PATH_MAX NUL) (w_evs w) in
  let w := after_dialog a t evs w in
  if r =? 0 then Ret w
  else
    match build_path_alloc malloc_ok (Some (cwd (active_panel a))) (Some (wcstombs name)) with
    | None => Ret w
    | Some fullpath => reload_active (set_fs (or_same (mkdir (w_fs w) fullpath MODE_0755) (w_fs w)) w)
    end.

(** [p->entries[p->selected]] when [count > 0]; [Ret None] is the early return of
    the dialogues: nothing selected, or ["."] or [".."]. *)
Definition selected_entry (p : Panel) : dlg (option dirent) :=
  if count p <=? 0 then Ret None
  else
    let! es := dlg_opt (entries p) in
    let! e := dlg_opt (aget es (selected p)) in
    Ret (if streq (d_name e) DOT || streq (d_name e) DOTDOT then None else Some e).

Definition copy_dialog (w : world) : dlg world :=
  let! oe := selected_entry (active_panel (w_app w)) in
  match oe with
  | None => Ret w
  | Some e =>
      let! input := dlg_opt (mbstowcs (cwd (other_panel (w_app w)))) in
      let! (r, input, a, t, evs) :=
        run_input_dialog (color_of (w_fs w)) (w_term w) (w_app w) (w_tty w) input (w_evs w) in
      let w := after_dialog a t evs w in
      if r =? 0 then Ret w
      else
        let src_path := build_path_alloc malloc_ok (Some (cwd (active_panel a))) (Some (d_name e)) in
        let dst_path := build_path_alloc malloc_ok (Some (wcstombs input)) (Some (d_name e)) in
        match src_path, dst_path with
        | Some s, Some d =>
            match process_tree fuel (w_fs w) s (Some d) OP_COPY with
            | None => Waiting
            | Some (_, f) => reload_other (set_fs f w)
            end
        | _, _ => Ret w
        end
  end.

Definition delete_directory_dialog (w : world) : dlg world :=
  let! oe := selected_entry (active_panel (w_app w)) in
  match oe with
  | None => Ret w
  | Some e =>
      match build_path_alloc malloc_ok (Some (cwd (active_panel (w_app w)))) (Some (d_name e)) with
      | None => Ret w
      | Some path =>
          match stat (w_fs w) path with
          | None => Ret w
          | Some _ =>
              let! (r, a, t, evs) := run_confirm_dialog (w_term w) (w_app w) (w_tty w)
                                       (lit "Delete") (lit "Cancel") (w_evs w) in
              let w := after_dialog a t evs w in
              if r =? 0 then Ret w
              else
                match process_tree fuel (w_fs w) path None OP_DELETE with
                | None => Waiting
                | Some (_, f) => reload_active (set_fs f w)
                end
          end
      end
  end.

Definition open_file_dialog (w : world) : dlg world :=
  let! oe := selected_entry (active_panel (w_app w)) in
  match oe with
  | None => Ret w
  | Some e =>
      match build_path_alloc malloc_ok (Some (cwd (active_panel (w_app w)))) (Some (d_name e)) with
      | None => Ret w
      | Some path =>
          match stat (w_fs w) path with
          | None => Ret w
          | Some n =>
              if is_dir n then Ret w
              else
                let command := trunc (PATH_MAX + 10) (lit "nano " ++ [34] ++ path ++ [34]) in
                let t := endwin (w_tty w) in
                let f := editor command (w_fs w) in
                Ret (set_tty (refresh t) (set_fs f w))
          end
      end
  end.

Definition move_dialog (w : world) : dlg world :=
  let! oe := selected_entry (active_panel (w_app w)) in
  match oe with
  | None => Ret w
  | Some e =>
      match build_path_alloc malloc_ok (Some (cwd (active_panel (w_app w)))) (Some (d_name e)) with
      | None => Ret w
      | Some s =>
          let! input := dlg_opt (mbstowcs (cwd (other_panel (w_app w)))) in
          let! (r, input, a, t, evs) :=
            run_input_dialog (color_of (w_fs w)) (w_term w) (w_app w) (w_tty w) input (w_evs w) in
          let w := after_dialog a t evs w in
          if r =? 0 then Ret w
          else
            match build_path_alloc malloc_ok (Some (wcstombs input)) (Some (d_name e)) with
            | None => Ret w
            | Some d =>
                match process_tree fuel (w_fs w) s (Some d) OP_MOVE with
                | None => Waiting
                | Some (_, f) => let! w1 := reload_active (set_fs f w) in reload_other w1
                end
            end
      end
  end.

Definition run_dialog (d : dialog) (w : world) : dlg world :=
  match d with
  | move_dlg => move_dialog w
  | open_file_dlg => open_file_dialog w
  | create_directory_dlg => create_directory_dialog w
  | copy_dlg => copy_dialog w
  | delete_directory_dlg => delete_directory_dialog w
  end.

(** ** [handle_input] *)

Definition KEY_DOWN : Z := 258.
Definition KEY_UP : Z := 259.
Definition BUTTON4_MASK : Z := 98304.
Definition BUTTON5_MASK : Z := 3145728.
Definition HALF_SECOND : Z := 500000.

Definition relayout (w : world) : world := set_app (update_layout (w_term w) (w_app w)) w.

Definition on_active (g : Panel -> Panel) (w : world) : world :=
  set_app (set_active_panel (g (active_panel (w_app w))) (w_app w)) w.

Definition enter_active (w : world) : dlg world :=
  let! p := dlg_opt (enter_directory (w_fs w) junk (active_panel (w_app w))) in
  Ret (on_active (fun _ => p) w).

(** The first button with the hotkey; [None] when no button has it. *)
Definition hotkey_button (ch : Z) (bs : list Button) : option Button :=
  List.find (fun b => (ch =? hotkey b) || (ch =? toupper (hotkey b))) bs.

Definition clicked_button (x y : Z) (bs : list Button) : option Button :=
  List.find (fun b => hits b x y) bs.

Definition handle_key (ch : Z) (w : world) : dlg (Z * world) :=
  if (ch =? 113) || (ch =? 81) then Ret (0, w)
  else
    match hotkey_button ch (buttons (w_app w)) with
    | Some b =>
        match action b with
        | None => Ret (0, w)
        | Some d => let! w := run_dialog d w in Ret (1, relayout w)
        end
    | None =>
        if ch =? KEY_UP then Ret (1, on_active (fun p => move_selection p (-1)) w)
        else if ch =? KEY_DOWN then Ret (1, on_active (fun p => move_selection p 1) w)
        else if ch =? TAB then
          Ret (1, set_app (set_active (if active (w_app w) =? 0 then 1 else 0) (w_app w)) w)
        else if ch =? ENTER then let! w := enter_active w in Ret (1, w)
        else if (ch =? 101) || (ch =? 69) then let! w := open_file_dialog w in Ret (1, w)
        else Ret (1, w)
    end.

(** A release of the first button at row [y]; [now] is [clock()]. *)
Definition click_entry (y now : Z) (w : world) : dlg (Z * world) :=
  let p := active_panel (w_app w) in
  let idx := scroll p + (y - (py p + 1)) in
  if (idx >=? 0) && (idx <? count p) then
    let w := on_active (fun p => set_view idx (scroll p) p) w in
    if (idx =? last_click_idx w) && (now - last_click_time w <? HALF_SECOND) then
      let! w := enter_active w in Ret (1, set_click (-1) (last_click_time w) w)
    else Ret (1, set_click idx now w)
  else Ret (1, w).

Definition handle_mouse (e : MEVENT) (now : Z) (w : world) : dlg (Z * world) :=
  match clicked_button (mx e) (my e) (buttons (w_app w)) with
  | Some b =>
      match action b with
      | Some d => let! w := run_dialog d w in Ret (1, w)
      | None => Ret (0, w)
      end
  | None =>
      let w := set_app (set_active (if mx e <? Z.quot (cols (w_app w)) 2 then 0 else 1) (w_app w)) w in
      let w := if negb (Z.land (bstate e) BUTTON4_MASK =? 0)
               then on_active (fun p => move_selection p (-1)) w else w in
      let w := if negb (Z.land (bstate e) BUTTON5_MASK =? 0)
               then on_active (fun p => move_selection p 1) w else w in
      if negb (Z.land (bstate e) BUTTON1_RELEASED =? 0) then click_entry (my e) now w
      else Ret (1, w)
  end.

Definition handle_input (now : Z) (w : world) : dlg (Z * world) :=
  match w_evs w with
  | [] => Ret (1, w)
  | ev :: evs =>
      let w := mkWorld (w_fs w) (w_app w) (w_term w) (w_tty w) evs (last_click_idx w) (last_click_time w) in
      match ev with
      | NoInput => Ret (1, w)
      | Resize r c =>
          Ret (1, relayout (mkWorld (w_fs w) (set_size r c (w_app w)) (r, c) (w_tty w) evs
                     (last_click_idx w) (last_click_time w)))
      | Char ch | FKey ch => handle_key ch w
      | Mouse None => Ret (1, w)
      | Mouse (Some e) => handle_mouse e now w
      end
  end.

(** ** [run_app] *)

Definition app_buttons : list Button :=
  [ mkButton 0 0 0 0 (lit "MOVE (m)") 109 (Some move_dlg);
    mkButton 0 0 0 0 (lit "OPEN FILE (e)") 110 (Some open_file_dlg);
    mkButton 0 0 0 0 (lit "NEW DIR (c)") 99 (Some create_directory_dlg);
    mkButton 0 0 0 0 (lit "COPY (f)") 102 (Some copy_dlg);
    mkButton 0 0 0 0 (lit "DEL DIR (d)") 100 (Some delete_directory_dlg);
    mkButton 0 0 0 0 (lit "EXIT (q)") 113 None ].

(** A panel before its first listing: no entries, the counters not initialised. *)
Definition new_panel (dir : cstr) (cnt sel scr : Z) : Panel := mkPanel dir None cnt sel scr 0 0 0 0.

(** One turn of the loop: input, then drawing. *)
Definition turn (now : Z) (w : world) : dlg (Z * world) :=
  let! (running, w) := handle_input now w in
  let! _ := dlg_opt (draw_ui (color_of (w_fs w)) (w_app w)) in
  Ret (running, w).

(** [n] bounds the number of turns. *)
Fixpoint main_loop (n : nat) (clock : nat -> Z) (w : world) : dlg world :=
  match n with
  | O => Waiting
  | S n' =>
      let! (running, w) := turn (clock n) w in
      if running =? 0 then
        let! l := dlg_opt (free_panel (left (w_app w))) in
        let! r := dlg_opt (free_panel (right (w_app w))) in
        Ret (set_app (mkApp (rows (w_app w)) (cols (w_app w)) (buttons (w_app w)) l r
                        (active (w_app w))) w)
      else main_loop n' clock w
  end.

(** [cnt], [sel] and [scr] are the indeterminate initial values of the panels; [opens] is whether [libmagic]
    opens its database, [t] the terminal before. *)
Definition run_app (n : nat) (clock : nat -> Z) (f : fs) (dir : cstr) (cnt sel scr : Z)
  (opens : bool) (t : tty) (term : Z * Z) (evs : list event) : dlg world :=
  let t := init_curses opens t in
  let (wnd, t) := newwin t in
  let p := new_panel dir cnt sel scr in
  let app := update_layout term (mkApp term.1 term.2 app_buttons p p 0) in
  let! (_, l) := dlg_opt (load_directory f (left app)) in
  let! (_, r) := dlg_opt (load_directory f (right app)) in
  let! w := main_loop n clock
    (mkWorld f (mkApp (rows app) (cols app) (buttons app) l r (active app)) term t evs (-1) 0) in
  let! t := dlg_opt (delwin wnd (w_tty w)) in
  Ret (set_tty (cleanup_curses t) w).

(** [src/main.c] *)
Definition main := run_app.

End dialogs.

(** ** Safety *)

Definition listed (p : Panel) : Prop :=
  panel_ok p /\ is_Some (entries p) /\ forallb ascii (cwd p) = true /\
  (length (cwd p) < PATH_MAX)%nat.

(** Both panels show a listing, the terminal is in the modes of the program and has room for the dialogues,
    whatever resizes come. *)
Definition world_ready (w : world) : Prop :=
  listed (left (w_app w)) /\ listed (right (w_app w)) /\ tty_ready (w_tty w) /\
  roomy (w_term w) /\ stays_roomy (w_evs w).

Definition safe_world (x : dlg world) : Prop :=
  match x with Waiting => True | Crash => False | Ret w => panels_ok (w_app w) end.

Definition safe_turn (x : dlg (Z * world)) : Prop :=
  match x with Waiting => True | Crash => False | Ret (_, w) => panels_ok (w_app w) end.

Lemma load_directory_safe f p :
  panel_ok p -> exists r p', load_directory f p = Some (r, p') /\ panel_ok p'.
Proof.
  intros Hp. unfold load_directory. rewrite free_panel_loadable by by apply panel_ok_loadable.
  cbn [mbind option_bind cwd set_entries].
  assert (0 <= selected p /\ 0 <= scroll p) as [H1 H2] by (unfold panel_ok in Hp; destruct (entries p); lia).
  destruct (scandir f (cwd p)) as [l|] eqn:E; [|by eexists _, _].
  eexists _, _. split; [done|]. unfold panel_ok. cbn [entries set_view set_entries count selected scroll].
  assert (l <> []) as Hne.
  { unfold scandir in E. apply bind_Some in E as (q & _ & E).
    repeat case_match; simplify_eq. intros Hl%(f_equal length).
    rewrite (Permutation_length (sort_names_perm _)) in Hl. done. }
  rewrite length_fmap. split_and!; try lia.
  - destruct (select_dotdot_cases 0 0 (dirent_of <$> l)) as [[-> _]|(k & e & -> & _)]; lia.
  - destruct (select_dotdot_cases 0 0 (dirent_of <$> l)) as [[-> _]|(k & e & -> & Hk & _)].
    + destruct l; [done | simpl; lia].
    + apply lookup_lt_Some in Hk. rewrite length_fmap in Hk. lia.
Qed.

Lemma enter_directory_safe f junk p :
  panel_ok p -> is_Some (entries p) -> exists p', enter_directory f junk p = Some p' /\ panel_ok p'.
Proof.
  intros Hp [es He]. unfold enter_directory. rewrite He. cbn [mbind option_bind].
  destruct (aget_entry p es (selected p) Hp He) as [e ->].
  { unfold panel_ok in Hp. rewrite He in Hp. lia. }
  cbn [mbind option_bind]. case_match; [by eexists|]. case_match; [by eexists|].
  destruct (realpath _ _) as [r|]; [|by eexists].
  destruct (load_directory_safe f (set_cwd r p)) as (x & p' & -> & Hp'); [done|]. by eexists.
Qed.

Lemma selected_entry_safe p : panel_ok p -> exists oe, selected_entry p = Ret oe.
Proof.
  intros Hp. unfold selected_entry. destruct (count p <=? 0) eqn:E; [by eexists|].
  destruct (entries p) as [es|] eqn:He.
  - simpl. destruct (aget_entry p es (selected p) Hp He) as [e ->]; [|by eexists].
    unfold panel_ok in Hp. rewrite He in Hp. lia.
  - unfold panel_ok in Hp. rewrite He in Hp. lia.
Qed.

Lemma active_panel_ok app : panels_ok app -> panel_ok (active_panel app).
Proof. intros [H1 H2]. unfold active_panel. by destruct (_ =? _). Qed.
Lemma other_panel_ok app : panels_ok app -> panel_ok (other_panel app).
Proof. intros [H1 H2]. unfold other_panel. by destruct (_ =? _). Qed.
Lemma set_active_panel_ok p app : panel_ok p -> panels_ok app -> panels_ok (set_active_panel p app).
Proof. intros Hp [H1 H2]. unfold set_active_panel. by destruct (_ =? _). Qed.
Lemma set_other_panel_ok p app : panel_ok p -> panels_ok app -> panels_ok (set_other_panel p app).
Proof. intros Hp [H1 H2]. unfold set_other_panel. by destruct (_ =? _). Qed.

#[export] Hint Resolve active_panel_ok other_panel_ok set_active_panel_ok set_other_panel_ok
  panels_ok_layout : clib.

Lemma reload_active_safe w : panels_ok (w_app w) -> safe_world (reload_active w).
Proof.
  intros H. unfold reload_active.
  destruct (load_directory_safe (w_fs w) (active_panel (w_app w))) as (r & p & -> & Hp);
    [auto with clib|]. simpl. auto with clib.
Qed.

Lemma reload_other_safe w : panels_ok (w_app w) -> safe_world (reload_other w).
Proof.
  intros H. unfold reload_other.
  destruct (load_directory_safe (w_fs w) (other_panel (w_app w))) as (r & p & -> & Hp);
    [auto with clib|]. simpl. auto with clib.
Qed.

Lemma world_ready_panels w : world_ready w -> panels_ok (w_app w).
Proof. by intros ((H1 & _) & (H2 & _) & _). Qed.

Lemma world_ready_tty w : world_ready w -> tty_ready (w_tty w).
Proof. by intros (_ & _ & Ht & _). Qed.

(** A dialogue with the terminal returns the panels as they were. *)
Lemma input_dialog_bind color w buf k :
  world_ready w -> NUL ∈ buf ->
  (forall r b a t evs, panels_ok a -> safe_world (k (r, b, a, t, evs))) ->
  safe_world
    (dlg_bind (run_input_dialog color (w_term w) (w_app w) (w_tty w) buf (w_evs w)) k).
Proof.
  intros Hw Hn Hk. pose proof Hw as (_ & _ & Htty & Ht & Hevs).
  pose proof (run_input_done color _ _ _ buf _ Ht Hevs Htty (world_ready_panels _ Hw) Hn) as H.
  destruct (run_input_dialog _ _ _ _ _ _) as [| |[[[[r b] a] t] evs]]; simpl in *; [done..|].
  destruct H as (_ & _ & Ha & _). by apply Hk.
Qed.

Lemma confirm_dialog_bind w okl cl k :
  world_ready w -> (forall r a t evs, panels_ok a -> safe_world (k (r, a, t, evs))) ->
  safe_world
    (dlg_bind (run_confirm_dialog (w_term w) (w_app w) (w_tty w) okl cl (w_evs w)) k).
Proof.
  intros Hw Hk.
  pose proof (run_confirm_done (w_term w) (w_app w) (w_tty w) okl cl (w_evs w)
    (world_ready_tty _ Hw)) as H.
  destruct (run_confirm_dialog _ _ _ _ _ _) as [| |[[[r a] t] evs]]; simpl in *; [done..|].
  destruct H as (_ & Hl & Hr). apply Hk. destruct (world_ready_panels _ Hw). split; [by rewrite Hl | by rewrite Hr].
Qed.

Lemma mbstowcs_ready p : listed p -> exists buf, mbstowcs (cwd p) = Some buf /\ NUL ∈ buf.
Proof.
  intros (_ & _ & Ha & Hl). unfold mbstowcs. rewrite Ha. eexists. split; [done|].
  apply elem_of_app. right. destruct (PATH_MAX - length (cwd p))%nat eqn:E; [lia|].
  apply list_elem_of_here.
Qed.

Lemma other_listed w : world_ready w -> listed (other_panel (w_app w)).
Proof. intros (H1 & H2 & _). unfold other_panel. by destruct (_ =? _). Qed.
Lemma active_listed w : world_ready w -> listed (active_panel (w_app w)).
Proof. intros (H1 & H2 & _). unfold active_panel. by destruct (_ =? _). Qed.

#[export] Hint Resolve other_listed active_listed world_ready_panels reload_active_safe
  reload_other_safe : clib.

Section safety.
Context (magic_file : cstr -> option cstr) (editor : cstr -> fs -> fs)
  (malloc_ok : bool) (junk : cstr) (fuel : nat).

(** The common start of the dialogues about the selected entry. *)
Lemma selected_entry_bind w k :
  panels_ok (w_app w) -> (forall oe, safe_world (k oe)) ->
  safe_world (dlg_bind (selected_entry (active_panel (w_app w))) k).
Proof.
  intros Hp Hk. destruct (selected_entry_safe (active_panel (w_app w))) as [oe ->];
    [auto with clib|]. apply Hk.
Qed.

Lemma NUL_elem_zeroed : NUL ∈ replicate PATH_MAX NUL.
Proof. apply elem_of_replicate. done. Qed.

Lemma create_directory_safe w :
  world_ready w -> safe_world (create_directory_dialog magic_file malloc_ok w).
Proof.
  intros Hw. apply input_dialog_bind; [done | apply NUL_elem_zeroed |].
  intros r b a t evs Ha. cbv beta iota zeta. destruct (r =? 0); [done|]. destruct (build_path_alloc _ _ _); [|done].
  by apply reload_active_safe.
Qed.

Lemma copy_safe w : world_ready w -> safe_world (copy_dialog magic_file malloc_ok fuel w).
Proof.
  intros Hw. apply selected_entry_bind; [auto with clib|]. intros [e|]; [|by apply world_ready_panels].
  destruct (mbstowcs_ready (other_panel (w_app w))) as (buf & -> & Hn); [auto with clib|].
  apply input_dialog_bind; [done..|].
  intros r b a t evs Ha. cbv beta iota zeta. destruct (r =? 0); [done|].
  destruct (build_path_alloc malloc_ok (Some (cwd _)) _) as [s|]; [|done].
  destruct (build_path_alloc _ _ _) as [d|]; [|done].
  destruct (process_tree _ _ _ _ _) as [[x f]|]; [|done]. by apply reload_other_safe.
Qed.

Lemma delete_safe w : world_ready w -> safe_world (delete_directory_dialog malloc_ok fuel w).
Proof.
  intros Hw. apply selected_entry_bind; [auto with clib|]. intros [e|]; [|by apply world_ready_panels].
  destruct (build_path_alloc _ _ _) as [s|]; [|by apply world_ready_panels].
  destruct (stat _ _); [|by apply world_ready_panels]. apply confirm_dialog_bind; [done|].
  intros r a t evs Ha. cbv beta iota zeta. destruct (r =? 0); [done|].
  destruct (process_tree _ _ _ _ _) as [[x f]|]; [|done]. by apply reload_active_safe.
Qed.

Lemma open_file_safe w : world_ready w -> safe_world (open_file_dialog editor malloc_ok w).
Proof.
  intros Hw. apply selected_entry_bind; [auto with clib|]. intros [e|]; [|by apply world_ready_panels].
  destruct (build_path_alloc _ _ _) as [s|]; [|by apply world_ready_panels].
  destruct (stat _ _) as [n|]; [|by apply world_ready_panels]. destruct (is_dir n); by apply (world_ready_panels w).
Qed.

Lemma move_safe w : world_ready w -> safe_world (move_dialog magic_file malloc_ok fuel w).
Proof.
  intros Hw. apply selected_entry_bind; [auto with clib|]. intros [e|]; [|by apply world_ready_panels].
  destruct (build_path_alloc _ _ _) as [s|]; [|by apply world_ready_panels].
  destruct (mbstowcs_ready (other_panel (w_app w))) as (buf & -> & Hn); [auto with clib|].
  apply input_dialog_bind; [done..|].
  intros r b a t evs Ha. cbv beta iota zeta. destruct (r =? 0); [done|].
  destruct (build_path_alloc _ _ _) as [d|]; [|done].
  destruct (process_tree _ _ _ _ _) as [[x f]|]; [|done].
  pose proof (reload_active_safe (set_fs f (after_dialog a t evs w)) Ha) as H.
  destruct (reload_active _) as [| |w1]; [done..|]. by apply reload_other_safe.
Qed.

Lemma run_dialog_safe d w :
  world_ready w -> safe_world (run_dialog magic_file editor malloc_ok fuel d w).
Proof.
  intros Hw. destruct d; simpl; [by apply move_safe | by apply open_file_safe
    | by apply create_directory_safe | by apply copy_safe | by apply delete_safe].
Qed.

Lemma enter_active_safe w :
  panels_ok (w_app w) -> is_Some (entries (active_panel (w_app w))) ->
  safe_world (enter_active junk w).
Proof.
  intros Hp He. unfold enter_active.
  destruct (enter_directory_safe (w_fs w) junk (active_panel (w_app w))) as (p & -> & Hpo);
    [auto with clib | done |]. simpl. auto with clib.
Qed.

Lemma safe_world_turn r x :
  safe_world x -> safe_turn (dlg_bind x (fun w => Ret (r, w))).
Proof. by destruct x. Qed.

Lemma handle_key_safe ch w :
  world_ready w -> safe_turn (handle_key magic_file editor malloc_ok junk fuel ch w).
Proof.
  intros Hw. pose proof (world_ready_panels w Hw) as Hp. unfold handle_key.
  destruct (_ || _); [done|]. destruct (hotkey_button _ _) as [b|].
  - destruct (action b) as [d|]; [|done]. pose proof (run_dialog_safe d w Hw) as H.
    destruct (run_dialog _ _ _ _ _ _) as [| |w1]; simpl in *; [done..|].
    by apply panels_ok_layout.
  - destruct (ch =? KEY_UP); [simpl; auto using move_selection_ok with clib|].
    destruct (ch =? KEY_DOWN); [simpl; auto using move_selection_ok with clib|].
    destruct (ch =? TAB); [done|].
    destruct (ch =? ENTER).
    { apply safe_world_turn, enter_active_safe; [done|]. by apply active_listed in Hw as (_ & ? & _). }
    destruct (_ || _); [|done]. by apply safe_world_turn, open_file_safe.
Qed.
End safety.
