(* ===== verification/FmAppProps.v ===== *)
(** * File manager: the program as a whole

    Theorems about [handle_input] and [run_app] that go through all the layers:
    key press, dialogue, file system, listing. *)

From S2P Require Import Prelude CString Vfs FmTree FmTreeProps FmPanel FmUi FmTerm FmModal FmApp.

Section whole.
Context (magic_file : cstr -> option cstr) (editor : cstr -> fs -> fs)
  (malloc_ok : bool) (junk : cstr) (fuel : nat).

Abbreviation handle := (handle_input magic_file editor malloc_ok junk fuel).

(** ** Safety of one input *)

Lemma listed_view p sel scr :
  listed p -> 0 <= sel < count p -> 0 <= scr -> listed (set_view sel scr p).
Proof.
  intros (Hp & He & Ha & Hl) Hs Hc. split_and!; try done.
  destruct He as [es He]. unfold panel_ok in *. simpl. rewrite He in *. lia.
Qed.

Lemma listed_move p dir : listed p -> listed (move_selection p dir).
Proof.
  intros (Hp & He & Ha & Hl). destruct (move_selection_unchanged p dir) as (H1 & H2 & _).
  unfold listed. rewrite H1, H2. split_and!; try done. by apply move_selection_ok.
Qed.

Lemma world_ready_on_active g w :
  (listed (active_panel (w_app w)) -> listed (g (active_panel (w_app w)))) ->
  world_ready w -> world_ready (on_active g w).
Proof.
  intros Hg (Hl & Hr & Ht). unfold world_ready, on_active, set_active_panel, active_panel in *. simpl.
  destruct (active (w_app w) =? 0); simpl; auto.
Qed.

Lemma click_entry_safe y now w :
  world_ready w -> safe_turn (click_entry junk y now w).
Proof.
  intros Hw. pose proof (world_ready_panels w Hw) as Hp. unfold click_entry. cbv zeta.
  destruct (_ && _) eqn:E; [|done]. set (w1 := on_active _ w).
  assert (world_ready w1) as Hw1.
  { apply world_ready_on_active; [|done]. intros Hl. apply listed_view; [done|lia|].
    destruct Hl as ((Ho & _)%panel_ok_scroll & _). done. }
  destruct ((_ =? last_click_idx w1) && _).
  - pose proof (enter_active_safe junk w1 (world_ready_panels _ Hw1)) as H.
    destruct (active_listed w1 Hw1) as (_ & He & _). specialize (H He).
    revert H. by destruct (enter_active junk w1).
  - by apply (world_ready_panels w1).
Qed.

Lemma handle_mouse_safe e now w :
  world_ready w -> safe_turn (handle_mouse magic_file editor malloc_ok junk fuel e now w).
Proof.
  intros Hw. unfold handle_mouse. destruct (clicked_button _ _ _) as [b|].
  { destruct (action b); [|by apply world_ready_panels].
    by apply safe_world_turn, run_dialog_safe. }
  set (w1 := set_app _ w). assert (world_ready w1) as Hw1 by done. clearbody w1.
  cbv zeta. set (w2 := if negb _ then on_active _ w1 else w1).
  assert (world_ready w2) as Hw2.
  { unfold w2. destruct (negb _); [|done]. apply world_ready_on_active; [apply listed_move | done]. }
  clearbody w2. set (w3 := if negb _ then on_active _ w2 else w2).
  assert (world_ready w3) as Hw3.
  { unfold w3. destruct (negb _); [|done]. apply world_ready_on_active; [apply listed_move | done]. }
  clearbody w3. destruct (negb _); [by apply click_entry_safe | by apply world_ready_panels].
Qed.

Lemma handle_input_keeps now w : world_ready w -> safe_turn (handle now w).
Proof.
  intros Hw. unfold handle_input. destruct (w_evs w) as [|ev evs] eqn:Eevs; [by apply world_ready_panels|].
  set (w1 := mkWorld _ _ _ _ _ _ _). assert (world_ready w1) as Hw1.
  { destruct Hw as (Hl & Hr & Htty & Ht & Hevs). rewrite Eevs in Hevs. apply Forall_inv_tail in Hevs. by split_and!. }
  destruct ev as [|ch|k|r c|[e|]].
  - by apply world_ready_panels.
  - by apply handle_key_safe.
  - by apply handle_key_safe.
  - by apply (world_ready_panels w).
  - by apply handle_mouse_safe.
  - by apply world_ready_panels.
Qed.

(** ** The terminal after one input

    Whatever happens in between, the terminal is as it was when the program waits for the next input. *)

Definition keeps_tty (t : tty) (x : dlg world) : Prop :=
  match x with Ret w => w_tty w = t | _ => True end.
Definition turn_keeps (t : tty) (x : dlg (Z * world)) : Prop :=
  match x with Ret (_, w) => w_tty w = t | _ => True end.

Lemma keeps_bind {A} t (x : dlg A) k :
  (forall a, x = Ret a -> keeps_tty t (k a)) -> keeps_tty t (dlg_bind x k).
Proof. intros H. destruct x; simpl; auto. Qed.

Lemma keeps_then t x k :
  keeps_tty t x -> (forall w, w_tty w = t -> keeps_tty t (k w)) -> keeps_tty t (dlg_bind x k).
Proof. intros H Hk. destruct x; simpl; auto. Qed.

Lemma turn_bind t x k :
  keeps_tty t x -> (forall w, w_tty w = t -> turn_keeps t (k w)) -> turn_keeps t (dlg_bind x k).
Proof. intros H Hk. destruct x; simpl; auto. Qed.

Lemma keeps_input color term app t buf evs k :
  tty_ready t -> (forall r b a evs, keeps_tty t (k (r, b, a, t, evs))) ->
  keeps_tty t (dlg_bind (run_input_dialog color term app t buf evs) k).
Proof.
  intros Ht Hk. pose proof (run_input_restores color term app t buf evs Ht) as H.
  destruct (run_input_dialog _ _ _ _ _ _) as [| |[[[[r b] a] t'] e]]; simpl in *; [done..|]. by subst.
Qed.

Lemma keeps_confirm term app t okl cl evs k :
  tty_ready t -> (forall r a evs, keeps_tty t (k (r, a, t, evs))) ->
  keeps_tty t (dlg_bind (run_confirm_dialog term app t okl cl evs) k).
Proof.
  intros Ht Hk. pose proof (run_confirm_done term app t okl cl evs Ht) as H.
  destruct (run_confirm_dialog _ _ _ _ _ _) as [| |[[[r a] t'] e]]; simpl in *; [done..|].
  destruct H as [-> _]. apply Hk.
Qed.

Ltac keep := repeat first
  [ done | apply keeps_input; [done|]; intros; cbv beta iota zeta
  | apply keeps_confirm; [done|]; intros; cbv beta iota zeta
  | apply keeps_then; [|intros ? <-] | apply keeps_bind; intros ? _ | case_match ].

Lemma run_dialog_keeps d w :
  tty_ready (w_tty w) -> keeps_tty (w_tty w) (run_dialog magic_file editor malloc_ok fuel d w).
Proof.
  intros Ht. pose proof (refresh_endwin _ Ht) as He.
  destruct d; simpl; unfold move_dialog, open_file_dialog, create_directory_dialog, copy_dialog,
    delete_directory_dialog, reload_active, reload_other; keep.
Qed.

Lemma enter_active_keeps w : keeps_tty (w_tty w) (enter_active junk w).
Proof. unfold enter_active. keep. Qed.

Lemma handle_key_tty ch w :
  tty_ready (w_tty w) -> turn_keeps (w_tty w) (handle_key magic_file editor malloc_ok junk fuel ch w).
Proof.
  intros Ht. unfold handle_key. destruct (_ || _); [done|]. destruct (hotkey_button _ _) as [b|].
  - destruct (action b) as [d|]; [|done]. apply turn_bind; [by apply run_dialog_keeps | done].
  - repeat case_match; try done.
    + by apply turn_bind; [apply enter_active_keeps|].
    + by apply turn_bind; [apply (run_dialog_keeps open_file_dlg)|].
Qed.

Lemma click_entry_tty y now w : turn_keeps (w_tty w) (click_entry junk y now w).
Proof.
  unfold click_entry. cbv zeta. destruct (_ && _); [|done]. set (w1 := on_active _ w).
  change (w_tty w) with (w_tty w1). clearbody w1. destruct (_ && _); [|done].
  by apply turn_bind; [apply enter_active_keeps|].
Qed.

Lemma handle_mouse_tty e now w :
  tty_ready (w_tty w) ->
  turn_keeps (w_tty w) (handle_mouse magic_file editor malloc_ok junk fuel e now w).
Proof.
  intros Ht. unfold handle_mouse. destruct (clicked_button _ _ _) as [b|].
  - destruct (action b) as [d|]; [|done]. apply turn_bind; [by apply run_dialog_keeps | done].
  - cbv zeta. set (w1 := set_app _ w). change (w_tty w) with (w_tty w1). clearbody w1.
    assert (forall w2, w_tty w2 = w_tty w1 -> turn_keeps (w_tty w1)
      (if negb (Z.land (bstate e) BUTTON1_RELEASED =? 0) then click_entry junk (my e) now w2
       else Ret (1, w2))) as H.
    { intros w2 <-. destruct (negb _); [apply click_entry_tty | done]. }
    apply H. by repeat case_match.
Qed.

Lemma handle_input_tty now w : tty_ready (w_tty w) -> turn_keeps (w_tty w) (handle now w).
Proof.
  intros Ht. unfold handle_input. destruct (w_evs w) as [|ev evs]; [done|].
  set (w1 := mkWorld _ _ _ _ _ _ _). assert (w_tty w1 = w_tty w) as Hw by done. rewrite <- Hw in *.
  clearbody w1.
  destruct ev as [|ch|ch|r c|[e|]]; try done;
    [by apply handle_key_tty | by apply handle_key_tty | by apply handle_mouse_tty].
Qed.

Lemma main_loop_tty n clock w : tty_ready (w_tty w) ->
  keeps_tty (w_tty w) (main_loop magic_file editor malloc_ok junk fuel n clock w).
Proof.
  revert w. induction n as [|n IH]; intros w Ht; [done|]. cbn [main_loop]. unfold turn.
  pose proof (handle_input_tty (clock (S n)) w Ht) as H.
  destruct (handle_input _ _ _ _ _ _ _) as [| |[r w']]; [done..|]. simpl in H. cbn [dlg_bind].
  destruct (draw_ui _ _); [|done]. cbn [dlg_opt dlg_bind]. rewrite <- H.
  destruct (r =? 0); [keep | by apply IH; rewrite H].
Qed.

(** ** Helpers for runs from a key to the file system *)

(** The active panel stands at directory [p]. *)
Record at_dir (w : world) (p : path) (mode : Z) : Prop := {
  at_ok : fs_ok (nodes (w_fs w));
  at_node : nodes (w_fs w) !! p = Some (Dir mode);
  at_unlocked : p ∉ locked (w_fs w);
  at_panel : panel_ok (active_panel (w_app w));
  at_cwd : cwd (active_panel (w_app w)) = path_string p
}.

(** The key [ch] is the hotkey of a button that starts dialogue [d]. *)
Definition bound_to (ch : Z) (d : dialog) (w : world) : Prop :=
  ch <> 113 /\ ch <> 81 /\
  exists b, hotkey_button ch (buttons (w_app w)) = Some b /\ action b = Some d.

Definition pending (w : world) (evs : list event) : world :=
  mkWorld (w_fs w) (w_app w) (w_term w) (w_tty w) evs (last_click_idx w) (last_click_time w).

Lemma handle_hotkey now w ch d evs :
  w_evs w = Char ch :: evs -> bound_to ch d w ->
  handle now w =
    dlg_bind (run_dialog magic_file editor malloc_ok fuel d (pending w evs))
      (fun w => Ret (1, relayout w)).
Proof.
  intros He (H1 & H2 & b & Hb & Ha). unfold handle_input. rewrite He.
  unfold handle_key. rewrite !(proj2 (Z.eqb_neq _ _)) by done.
  cbn [orb w_app buttons]. rewrite Hb, Ha. done.
Qed.

Lemma build_path_join d n : build_path_alloc true (Some d) (Some n) = Some (join d n).
Proof.
  simpl. f_equal. apply trunc_id. unfold join. rewrite length_app. simpl. lia.
Qed.

Lemma wcstombs_c_str buf : wcstombs buf = take_while ascii (c_str buf).
Proof.
  unfold wcstombs, c_str. induction buf as [|c buf IH]; simpl; [done|].
  destruct (c =? NUL) eqn:E; simpl.
  - apply Z.eqb_eq in E as ->. done.
  - destruct (ascii c); [by rewrite IH | done].
Qed.

Lemma wcstombs_text buf t : c_str buf = t -> forallb ascii t = true -> wcstombs buf = t.
Proof.
  intros Hb Ht. rewrite wcstombs_c_str, Hb. apply take_while_all.
  apply Forall_forall. intros x Hx. eapply forallb_forall in Ht; [exact Ht|].
  by apply list_elem_of_In.
Qed.

Lemma c_str_zeroed n : c_str (replicate n NUL) = [].
Proof. by destruct n. Qed.

Lemma c_str_padded t n : forallb ascii t = true -> c_str (t ++ replicate n NUL) = t.
Proof.
  intros Ht. unfold c_str. rewrite take_while_app_all; [by destruct n; simpl; rewrite app_nil_r|].
  apply Forall_forall. intros x Hx. eapply forallb_forall in Ht; [|by apply list_elem_of_In].
  unfold ascii in Ht. apply negb_true_iff, Z.eqb_neq. unfold NUL. lia.
Qed.

(** The selected entry of a panel, when it is a proper name. *)
Lemma selected_entry_named p es e :
  panel_ok p -> entries p = Some es -> aget es (selected p) = Some e -> name_ok (d_name e) ->
  selected_entry p = Ret (Some e).
Proof.
  intros Hp He Ha (_ & H1 & H2 & _). unfold selected_entry. unfold panel_ok in Hp. rewrite He in Hp.
  rewrite (proj2 (Z.leb_gt (count p) 0)) by lia. rewrite He. simpl. rewrite Ha. simpl.
  unfold streq. by rewrite !bool_decide_false.
Qed.

(** Reloading the active panel after the file system changed elsewhere. *)
Lemma reload_active_shows w p mode :
  at_dir w p mode -> (length (path_string p) < PATH_MAX)%nat ->
  exists w', reload_active w = Ret w' /\ w_fs w' = w_fs w /\ w_evs w' = w_evs w /\
    shows (w_fs w) p (active_panel (w_app w')).
Proof.
  intros [Hok Hn Hl Hp Hc] Hlen. unfold reload_active.
  destruct (load_directory_shows (w_fs w) p mode (active_panel (w_app w)))
    as (p' & -> & Hs & _ & _); try done; [by apply panel_ok_loadable|].
  simpl. eexists. split_and!; try done. simpl. unfold set_active_panel, active_panel.
  destruct (active (w_app w) =? 0) eqn:E; simpl; rewrite E; done.
Qed.

Lemma shows_relayout f p w : shows f p (active_panel (w_app w)) ->
  shows f p (active_panel (w_app (relayout w))).
Proof.
  unfold relayout, active_panel. destruct (w_term w) as [r c]. simpl.
  by destruct (active (w_app w) =? 0).
Qed.

End whole.

(** ** Properties *)


(** Making a directory, from the key to the screen: in a panel at a
    readable directory, the hotkey of the button, a new name that fits, and Enter,
    make the program create exactly that directory (mode 0755 cut by the [umask])
    and show the new listing of the panel's directory; the rest of the input is
    left alone. *)
Theorem create_directory_key magic_file editor junk fuel now w p mode s ch rest :
  roomy (w_term w) -> tty_ready (w_tty w) -> at_dir w p mode -> bound_to ch create_directory_dlg w ->
  w_evs w = Char ch :: (Char <$> s) ++ [Char ENTER] ++ rest ->
  Forall plain s -> forallb ascii s = true -> name_ok s -> nodes (w_fs w) !! (p ++ [s]) = None ->
  (length (path_string p) + length s + 1 < PATH_MAX)%nat ->
  exists w', handle_input magic_file editor true junk fuel now w = Ret (1, w') /\
    w_fs w' = set_nodes (w_fs w)
      (<[p ++ [s] := Dir (Z.ldiff MODE_0755 (umask (w_fs w)))]> (nodes (w_fs w))) /\
    shows (w_fs w') p (active_panel (w_app w')) /\ w_evs w' = rest.
Proof.
  intros Hroom Htty Hat Hb He Hs Has Hname Hnew Hlen. pose proof Hat as [Hok Hn Hl Hp Hc].
  rewrite (handle_hotkey _ _ _ _ _ _ _ _ _ _ He Hb). cbn [run_dialog].
  unfold create_directory_dialog. cbn [pending w_fs w_app w_term w_tty w_evs].
  destruct (run_input_types (color_of magic_file (w_fs w)) (w_term w) (w_app w) (w_tty w)
    (replicate PATH_MAX NUL) s rest) as (buf & Hbuf & _ & ->).
  { done. }
  { done. }
  { apply NUL_elem_zeroed. }
  { done. }
  { rewrite c_str_zeroed. apply Hname. }
  { rewrite c_str_zeroed, length_replicate. simpl. lia. }
  rewrite c_str_zeroed in Hbuf. cbn [dlg_bind]. simpl (1 =? 0). cbv iota zeta.
  change (active_panel (set_size _ _ (w_app w))) with (active_panel (w_app w)).
  rewrite (wcstombs_text buf s), Hc, build_path_join by done.
  assert (names (path_string p) p) as Hnm
    by (apply names_path_string; [by eapply fs_ok_names | lia]).
  set (w1 := after_dialog _ _ _ _). change (w_fs w1) with (w_fs w).
  set (nd := Dir _). set (f1 := set_nodes (w_fs w) _).
  assert (mkdir (w_fs w) (join (path_string p) s) MODE_0755 = Some f1) as ->.
  { unfold mkdir, join. rewrite (resolve_names (w_fs w) _ (p ++ [s])); simpl; [..|done].
    - rewrite Hnew. unfold writable. rewrite parent_snoc. by rewrite bool_decide_true.
    - done.
    - apply names_join; [done..|lia].
    - rewrite parent_snoc. eauto. }
  destruct (reload_active_shows (set_fs f1 w1) p mode) as (w2 & H2 & Hf & Hev & Hsh).
  { split; try done; simpl.
    - apply fs_ok_insert; [done| | |done|rewrite parent_snoc; eauto].
      + apply Forall_app. split; [apply Hnm | by constructor].
      + by destruct p.
    - rewrite lookup_insert_ne; [done|]. intros E%(f_equal length).
      rewrite length_app in E. simpl in E. lia. }
  { lia. }
  cbn [pending or_same]. rewrite H2. cbn [dlg_bind]. eexists. split_and!; [done| | |].
  - simpl. by rewrite Hf.
  - cbn [relayout w_fs set_app]. rewrite Hf. by apply shows_relayout.
  - simpl. by rewrite Hev.
Qed.

(** The demonstration world: both panels at [/], the third entry selected on the
    left. *)
Definition demo_world (sel : Z) (f : fs) (evs : list event) : world :=
  mkWorld f (update_layout (24, 80) (mkApp 24 80 app_buttons (home_panel sel) (home_panel 0) 0))
    (24, 80) demo_tty evs (-1) 0.

Lemma demo_world_at sel evs :
  0 <= sel < 5 -> at_dir (demo_world sel home_fs evs) [] 493.
Proof.
  intros Hs. split.
  - apply fs_okc_sound, (bool_decide_unpack _). vm_compute. exact I.
  - reflexivity.
  - apply (bool_decide_unpack _). vm_compute. exact I.
  - unfold panel_ok. simpl. lia.
  - reflexivity.
Qed.


Lemma create_directory_key_witness :
  exists w', handle_input (fun _ => None) (fun _ f => f) true [] 5 0
      (demo_world 2 home_fs [Char 99; Char 97; Char 10]) = Ret (1, w') /\
    w_fs w' = set_nodes home_fs (<[[lit "a"] := Dir 493]> (nodes home_fs)) /\
    shows (w_fs w') [] (active_panel (w_app w')) /\ w_evs w' = [].
Proof.
  refine (create_directory_key (fun _ => None) (fun _ f => f) [] 5 0
    (demo_world 2 home_fs [Char 99; Char 97; Char 10]) [] 493 (lit "a") 99 []
    _ _ _ _ _ _ _ _ _ _).
  - by vm_compute.
  - apply init_curses_ready.
  - apply demo_world_at. lia.
  - split_and!; [done | done |]. eexists. split; reflexivity.
  - reflexivity.
  - repeat constructor; done.
  - reflexivity.
  - apply name_okb_sound. reflexivity.
  - reflexivity.
  - vm_compute. lia.
Defined.

(** Deleting, from the key to the screen: with a proper entry
    selected, the hotkey and Enter remove exactly the tree of the selected entry and
    show the new listing; everything else in the file system is as before. *)
Theorem delete_key magic_file editor junk fuel now w p mode es e n ch rest :
  tty_ready (w_tty w) -> at_dir w p mode -> bound_to ch delete_directory_dlg w ->
  w_evs w = Char ch :: Char ENTER :: rest ->
  entries (active_panel (w_app w)) = Some es ->
  aget es (selected (active_panel (w_app w))) = Some e ->
  tree_ready (w_fs w) (join (path_string p) (d_name e)) (p ++ [d_name e]) fuel ->
  nodes (w_fs w) !! (p ++ [d_name e]) = Some n ->
  (length (path_string p) < PATH_MAX)%nat ->
  exists w', handle_input magic_file editor true junk fuel now w = Ret (1, w') /\
    (forall x, nodes (w_fs w') !! x =
      if under (p ++ [d_name e]) x then None else nodes (w_fs w) !! x) /\
    shows (w_fs w') p (active_panel (w_app w')) /\ w_evs w' = rest.
Proof.
  intros Htty Hat Hb He Hes Hsel Ht Hnode Hlen. pose proof Hat as [Hok Hn Hl Hp Hc].
  destruct (ok_parent _ Hok _ _ _ Hnode) as [Hname _].
  rewrite (handle_hotkey _ _ _ _ _ _ _ _ _ _ He Hb). cbn [run_dialog].
  unfold delete_directory_dialog. cbn [pending w_fs w_app w_term w_tty w_evs].
  rewrite (selected_entry_named _ es e) by done. cbn [dlg_bind].
  rewrite Hc, build_path_join, (ready_stat _ _ _ _ _ Ht Hnode).
  rewrite run_confirm_enter by done. cbn [dlg_bind]. simpl (1 =? 0). cbv iota zeta.
  set (w1 := after_dialog _ _ _ _). change (w_fs w1) with (w_fs w).
  rewrite (process_tree_deletes _ _ _ _ _ Ht Hnode). set (f1 := set_nodes _ _).
  destruct (reload_active_shows (set_fs f1 w1) p mode) as (w2 & -> & Hf & Hev & Hsh).
  { split; try done; simpl.
    - apply fs_ok_prune; [by destruct p | done].
    - by rewrite lookup_prune, not_under_snoc. }
  { done. }
  cbn [dlg_bind]. eexists. split_and!; [done| | |].
  - intros x. simpl. rewrite Hf. apply lookup_prune.
  - cbn [relayout w_fs set_app]. rewrite Hf. by apply shows_relayout.
  - simpl. by rewrite Hev.
Qed.

Lemma delete_key_witness :
  exists w', handle_input (fun _ => None) (fun _ f => f) true [] 1 0
      (demo_world 2 home_fs [Char 100; Char 10]) = Ret (1, w') /\
    (forall x, nodes (w_fs w') !! x =
      if under [lit "d"] x then None else nodes home_fs !! x) /\
    shows (w_fs w') [] (active_panel (w_app w')) /\ w_evs w' = [].
Proof.
  refine (delete_key (fun _ => None) (fun _ f => f) [] 1 0
    (demo_world 2 home_fs [Char 100; Char 10]) [] 493 _ (mkDirent (lit "d") DT_DIR) (Dir 493)
    100 [] _ _ _ _ eq_refl _ _ _ _).
  - apply init_curses_ready.
  - apply demo_world_at. lia.
  - split_and!; [done | done |]. eexists. split; reflexivity.
  - reflexivity.
  - reflexivity.
  - ready.
  - reflexivity.
  - vm_compute. lia.
Defined.

(** Counterexample.  The copy dialogue destroys files.  When both panels
    are in the same directory, which is how the program starts, selecting a file,
    pressing the hotkey of COPY and confirming the proposed destination with Enter
    leaves the file there with no content. *)
Theorem copy_key_empties_file magic_file editor junk h now w p mode es e c md ch rest :
  roomy (w_term w) -> tty_ready (w_tty w) -> at_dir w p mode -> bound_to ch copy_dlg w ->
  w_evs w = Char ch :: Char ENTER :: rest ->
  entries (active_panel (w_app w)) = Some es ->
  aget es (selected (active_panel (w_app w))) = Some e ->
  panel_ok (other_panel (w_app w)) -> cwd (other_panel (w_app w)) = path_string p ->
  forallb ascii (path_string p) = true ->
  nodes (w_fs w) !! (p ++ [d_name e]) = Some (File c md) -> p ++ [d_name e] ∉ locked (w_fs w) ->
  (length (path_string p) + length (d_name e) + 1 < PATH_MAX)%nat ->
  exists w', handle_input magic_file editor true junk (S h) now w = Ret (1, w') /\
    nodes (w_fs w') = <[p ++ [d_name e] := File [] md]> (nodes (w_fs w)) /\ w_evs w' = rest.
Proof.
  intros Hroom Htty Hat Hb He Hes Hsel Hop Hoc Hasc Hnode Hlk Hlen. pose proof Hat as [Hok Hn Hl Hp Hc].
  destruct (ok_parent _ Hok _ _ _ Hnode) as [Hname _].
  rewrite (handle_hotkey _ _ _ _ _ _ _ _ _ _ He Hb). cbn [run_dialog].
  unfold copy_dialog. cbn [pending w_fs w_app w_term w_tty w_evs].
  rewrite (selected_entry_named _ es e) by done. cbn [dlg_bind].
  unfold mbstowcs. rewrite Hoc, Hasc. cbn [dlg_opt dlg_bind].
  set (buf := path_string p ++ _).
  destruct (run_input_types (color_of magic_file (w_fs w)) (w_term w) (w_app w) (w_tty w) buf [] rest)
    as (buf' & Hbuf & _ & Hrun).
  { done. }
  { done. }
  { apply elem_of_app. right. apply elem_of_replicate. split; [done | lia]. }
  { done. }
  { unfold buf. rewrite c_str_padded, app_nil_r by done. by destruct p. }
  { unfold buf. rewrite c_str_padded, length_app, length_replicate by done. simpl. lia. }
  simpl fmap in Hrun. rewrite !app_nil_l in Hrun. cbn [app] in Hrun. rewrite Hrun. clear Hrun.
  unfold buf in Hbuf. rewrite c_str_padded, app_nil_r in Hbuf by done.
  cbn [dlg_bind]. simpl (1 =? 0). cbv iota zeta.
  change (active_panel (set_size _ _ (w_app w))) with (active_panel (w_app w)).
  rewrite (wcstombs_text buf' _ Hbuf Hasc), Hc, build_path_join.
  set (w1 := after_dialog _ _ _ _). change (w_fs w1) with (w_fs w).
  rewrite (process_tree_onto_itself h _ _ (p ++ [d_name e]) c md); try done.
  2: { apply names_join; [|done|lia]. apply names_path_string; [by eapply fs_ok_names | lia]. }
  unfold reload_other.
  match goal with |- context [load_directory ?f ?q] =>
    destruct (load_directory_safe f q) as (r & q' & -> & _); [done|] end.
  cbn [dlg_opt dlg_bind]. eexists. split_and!; done.
Qed.

Definition data_fs : fs :=
  set_nodes home_fs (<[[lit "x"] := File (lit "data") 420]> (nodes home_fs)).

Lemma copy_key_empties_file_witness :
  exists w', handle_input (fun _ => None) (fun _ f => f) true [] 1 0
      (demo_world 3 data_fs [Char 102; Char 10]) = Ret (1, w') /\
    nodes (w_fs w') = <[[lit "x"] := File [] 420]> (nodes data_fs) /\ w_evs w' = [].
Proof.
  refine (copy_key_empties_file (fun _ => None) (fun _ f => f) [] 0 0
    (demo_world 3 data_fs [Char 102; Char 10]) [] 493 _ (mkDirent (lit "x") DT_REG) (lit "data") 420 102 [] _ _ _ _ _ eq_refl _ _ _ _ _ _ _).
  - by vm_compute.
  - apply init_curses_ready.
  - split.
    + apply fs_okc_sound, (bool_decide_unpack _). vm_compute. exact I.
    + reflexivity.
    + apply (bool_decide_unpack _). vm_compute. exact I.
    + vm_compute. split_and!; done.
    + reflexivity.
  - split_and!; [done | done |]. eexists. split; reflexivity.
  - reflexivity.
  - reflexivity.
  - vm_compute. split_and!; done.
  - reflexivity.
  - reflexivity.
  - reflexivity.
  - apply (bool_decide_unpack _). vm_compute. exact I.
  - vm_compute. lia.
Defined.

(** ** A whole session *)

(** Waiting without input, then [q]. *)
Lemma main_loop_quits magic_file editor malloc_ok junk fuel clock w rest k :
  panels_ok (w_app w) -> w_evs w = replicate k NoInput ++ Char 113 :: rest ->
  exists w', main_loop magic_file editor malloc_ok junk fuel (S k) clock w = Ret w' /\ w_fs w' = w_fs w.
Proof.
  revert w. induction k as [|k IH]; intros w Hp He; cbn [main_loop]; unfold turn, handle_input; rewrite He;
    cbn [replicate app].
  - cbn [handle_key Z.eqb Pos.eqb orb dlg_bind w_fs w_app].
    destruct (draw_ui_defined (color_of magic_file (w_fs w)) (w_app w) Hp) as [l ->]. cbn [dlg_opt dlg_bind Z.eqb].
    destruct Hp as [Hl Hr]. rewrite !free_panel_loadable by by apply panel_ok_loadable.
    cbn [dlg_opt dlg_bind]. by eexists.
  - cbn [dlg_bind w_fs w_app].
    destruct (draw_ui_defined (color_of magic_file (w_fs w)) (w_app w) Hp) as [l ->]. cbn [dlg_opt dlg_bind Z.eqb].
    apply (IH (mkWorld (w_fs w) (w_app w) (w_term w) (w_tty w) (replicate k NoInput ++ Char 113 :: rest)
      (last_click_idx w) (last_click_time w))); done.
Qed.

(** However a session ends, the terminal is given back: it is a shell's again, no window of the program is left and
    [libmagic] is closed, whatever the events, the sizes of the terminal and the failures were.  And a session in
    which the user waits any number of turns and presses [q] does end, with the files untouched. *)
Theorem session_restores_terminal magic_file editor malloc_ok junk fuel clock f p mode cnt sel scr opens t term :
  fs_ok (nodes f) -> nodes f !! p = Some (Dir mode) -> p ∉ locked f -> (length (path_string p) < PATH_MAX)%nat ->
  let run := fun n evs =>
    main magic_file editor malloc_ok junk fuel n clock f (path_string p) cnt sel scr opens t term evs in
  (forall n evs w, run n evs = Ret w ->
    curses (the_modes (w_tty w)) = false /\ windows (w_tty w) = windows t /\
    (magic_cookie (w_tty w) = false)) /\
  (forall k rest, exists w, run (S k) (replicate k NoInput ++ Char 113 :: rest) = Ret w /\ w_fs w = f).
Proof.
  intros Hok Hp Hlk Hlen run. unfold run, main, run_app. cbv zeta. set (t1 := init_curses opens t).
  destruct (newwin t1) as [wnd t2] eqn:E. apply newwin_fresh in E as [Hw ->].
  set (app := update_layout _ _).
  assert (tty_ready (with_window wnd t1)) as Ht by apply with_window_ready, init_curses_ready.
  destruct (load_directory_shows f p mode (left app) Hok Hp Hlk Hlen) as (l & Hl & _ & Hlo & _);
    [by destruct term | by destruct term |].
  destruct (load_directory_shows f p mode (right app) Hok Hp Hlk Hlen) as (r & Hr & _ & Hro & _);
    [by destruct term | by destruct term |].
  rewrite Hl, Hr. cbn [dlg_opt dlg_bind]. set (start := mkWorld _ _ _ _).
  split.
  - intros n evs w. pose proof (main_loop_tty magic_file editor malloc_ok junk fuel n clock (start evs (-1) 0) Ht) as H.
    destruct (main_loop _ _ _ _ _ _ _ _) as [| |w1]; [done..|]. cbn [keeps_tty] in H. cbn [dlg_bind].
    rewrite H. unfold start. cbn [w_tty]. rewrite delwin_with_window by done. cbn [dlg_opt dlg_bind].
    intros [= <-]. cbn [w_tty set_tty]. unfold t1. by destruct opens.
  - intros k rest. destruct (main_loop_quits magic_file editor malloc_ok junk fuel clock
      (start (replicate k NoInput ++ Char 113 :: rest) (-1) 0) rest k) as (w & Hrun & Hf); [by split | done |].
    pose proof (main_loop_tty magic_file editor malloc_ok junk fuel (S k) clock
      (start (replicate k NoInput ++ Char 113 :: rest) (-1) 0) Ht) as H.
    rewrite Hrun in *. cbn [keeps_tty dlg_bind] in *. rewrite H. unfold start. cbn [w_tty].
    rewrite delwin_with_window by done. cbn [dlg_opt dlg_bind]. eexists. split; [done|]. exact Hf.
Qed.

Lemma session_restores_terminal_witness :
  let run := fun n evs => main (fun _ => None) (fun _ f => f) true [] 1 n (fun _ => 0) home_fs (lit "/")
    7 7 7 true (mkTty 1 8 (mkModes false false true false false true 0) ∅ ∅ false) (24, 80) evs in
  (forall n evs w, run n evs = Ret w ->
    curses (the_modes (w_tty w)) = false /\ windows (w_tty w) = ∅ /\
    (magic_cookie (w_tty w) = false)) /\
  (forall k rest, exists w, run (S k) (replicate k NoInput ++ Char 113 :: rest) = Ret w /\ w_fs w = home_fs).
Proof.
  refine (session_restores_terminal (fun _ => None) (fun _ f => f) true [] 1 (fun _ => 0) home_fs [] 493
    7 7 7 true (mkTty 1 8 (mkModes false false true false false true 0) ∅ ∅ false) (24, 80) _ _ _ _).
  - apply fs_okc_sound, (bool_decide_unpack _). vm_compute. exact I.
  - reflexivity.
  - apply (bool_decide_unpack _). vm_compute. exact I.
  - vm_compute. lia.
Defined.
