(* ===== verification/Echo.v ===== *)
(** * UDP echo server and client over raw sockets

    [echo-client_echo-server/server/server.c] and [client/client.c]: the server's
    table of clients, the parsing and building of packets, its main loop, and the
    client's two halves.  Buffers are lists of bytes; [None] is undefined
    behaviour: an access outside a buffer, or an overflow of a counter.  What a raw socket delivers is the IP packet, header included; the
    header is added by [ip_packet]. *)

From S2P Require Import Prelude CString.

Definition SERVER_PORT : Z := 8080.
Definition CLIENT_PORT : Z := 12345.
Definition IPPROTO_UDP : Z := 17.
Definition UDP_HEADER : Z := 8.
Definition BUFFER_SIZE : nat := 1024.
Definition OUT_SIZE : nat := 1500.
Definition INPUT_SIZE : nat := 512.
Definition DISCONNECT : cstr := lit "__CLIENT_DISCONNECT__".

(** ** Bytes in network order *)

Definition htons (z : Z) : list byte := [z / 256 mod 256; z mod 256].

Definition get_be16 (b : list byte) (off : Z) : option Z :=
  h ← aget b off; l ← aget b (off + 1); Some (h * 256 + l).

(** [uint32_t saddr], four bytes as they lie in memory. *)
Definition get_u32 (b : list byte) (off : Z) : option Z :=
  b0 ← aget b off; b1 ← aget b (off + 1); b2 ← aget b (off + 2); b3 ← aget b (off + 3);
  Some (b0 + 256 * b1 + 65536 * b2 + 16777216 * b3).

(** ["%.*s"] with [len] as the precision, at offset [off]: a negative precision
    counts as none; the bytes are read up to the precision or to a NUL. *)
Definition fmt_bytes (b : list byte) (off len : Z) : option cstr :=
  let rest := drop (Z.to_nat off) b in
  let text := c_str rest in
  if (0 <=? len) && (len <=? Z.of_nat (length rest)) then Some (c_str (take (Z.to_nat len) rest))
  else if bool_decide (NUL ∈ rest) then Some text
  else None.

(** [memcmp(b + off, t, strlen(t)) == 0] *)
Definition memeq (b : list byte) (off : Z) (t : cstr) : bool :=
  bool_decide (take (length t) (drop (Z.to_nat off) b) = t).

(** ** The server *)

Record ClientData := mkClient { ip : Z; port : Z; counter : Z }.

Definition zero_client : ClientData := mkClient 0 0 0.

(** The capacity is the length of the array. *)
Record server := mkServer {
  clients_list : list ClientData;
  count_of_clients : nat;
  buffer : list byte
}.

Definition capacity (s : server) : nat := length (clients_list s).

Definition init_clients : list ClientData := replicate 16 zero_client.

Definition expand_clients (l : list ClientData) : list ClientData :=
  l ++ replicate (length l) zero_client.

Definition same_client (i p : Z) (c : ClientData) : bool := (ip c =? i) && (port c =? p).

(** The table, the count, the index and the [disconnected] flag. *)
Definition find_or_add_client (l : list ClientData) (count : nat) (i p payload_len : Z)
  (is_disconnect : bool) : option (list ClientData * nat * Z * bool) :=
  let idx := find_index (same_client i p) (take count l) in
  if idx =? -1 then
    let l := if (count =? length l)%nat then expand_clients l else l in
    l ← aset l (Z.of_nat count) (mkClient i p 1);
    Some (l, S count, Z.of_nat count, false)
  else
    c ← aget l idx;
    if (payload_len =? Z.of_nat (length DISCONNECT)) && is_disconnect then
      l ← aset l idx (mkClient (ip c) (port c) 0); Some (l, count, idx, true)
    else if in_int (counter c + 1) then
      l ← aset l idx (mkClient (ip c) (port c) (counter c + 1)); Some (l, count, idx, false)
    else None.

(** The source address and port, the offset and length of the payload; [Some None] is
    the return value 0. *)
Record parsed := mkParsed { p_src_ip : Z; p_src_port : Z; p_payload : Z; p_len : Z }.

Definition parse_udp (b : list byte) : option (option parsed) :=
  proto ← aget b 9;
  if negb (proto =? IPPROTO_UDP) then Some None
  else
    b0 ← aget b 0;
    let ip_header_len := Z.land b0 15 * 4 in
    dest ← get_be16 b (ip_header_len + 2);
    if negb (dest =? SERVER_PORT) then Some None
    else
      udp_len ← get_be16 b (ip_header_len + 4);
      saddr ← get_u32 b 12;
      source ← get_be16 b ip_header_len;
      Some (Some (mkParsed saddr source (ip_header_len + UDP_HEADER) (udp_len - UDP_HEADER))).

Definition udp_packet (source dest : Z) (payload : list byte) : list byte :=
  htons source ++ htons dest ++ htons (UDP_HEADER + Z.of_nat (length payload)) ++ [0; 0] ++ payload.

Definition build_packet (out : cstr) (src_port : Z) (packet_size_limit : nat) : list byte :=
  udp_packet SERVER_PORT src_port (take (packet_size_limit - 8) out).

(** [recvfrom(sock, buffer, sizeof(buffer) - 1, ...)]: the start of the packet is
    stored, the rest of the buffer keeps what it held. *)
Definition receive (b data : list byte) : list byte :=
  let d := take (length b - 1) data in d ++ drop (length d) b.

(** One turn of the main loop for a received packet: the new state and the packet
    sent, if any, with its destination address. *)
Definition server_packet (s : server) (data : list byte) : option (server * option (Z * list byte)) :=
  let b := receive (buffer s) data in
  r ← parse_udp b;
  match r with
  | None => Some (mkServer (clients_list s) (count_of_clients s) b, None)
  | Some p =>
      r ← find_or_add_client (clients_list s) (count_of_clients s) (p_src_ip p) (p_src_port p)
            (p_len p) (memeq b (p_payload p) DISCONNECT);
      let '(l, count, idx, disconnected) := r in
      let s' := mkServer l count b in
      if (disconnected : bool) then Some (s', None)
      else
        c ← aget l idx;
        text ← fmt_bytes b (p_payload p) (p_len p);
        let out := trunc OUT_SIZE (text ++ [SP] ++ dec (counter c)) in
        Some (s', Some (p_src_ip p, build_packet out (p_src_port p) BUFFER_SIZE))
  end.

(** What [recvfrom] may report: a packet, an error, or the interruption by SIGINT. *)
Inductive recv := Packet (data : list byte) | RecvError | Interrupted.

(** The loop [while (running)]: the packets sent, when SIGINT ends it. *)
Fixpoint server_loop (s : server) (rs : list recv) : option (server * list (Z * list byte)) :=
  match rs with
  | [] => Some (s, [])
  | Interrupted :: _ => Some (s, [])
  | RecvError :: rs => server_loop s rs
  | Packet d :: rs =>
      r ← server_packet s d;
      let '(s, sent) := r in
      r ← server_loop s rs;
      let '(s, rest) := r in
      Some (s, match sent with Some x => x :: rest | None => rest end)
  end.

(** [buffer] is not initialised: [junk] is what it holds. *)
Definition init_server (junk : list byte) : server := mkServer init_clients 0 junk.

(** ** The client *)

(** [strcpy] into the packet overflows for a message longer than the buffer. *)
Definition send_udp_message (message : cstr) : option (list byte) :=
  if (8 + length message <? BUFFER_SIZE)%nat
  then Some (udp_packet CLIENT_PORT SERVER_PORT message) else None.

(** One turn of the receiving thread: what is printed after ["[SERVER] "]. *)
Definition receiver_packet (b : list byte) : option (option cstr) :=
  b0 ← aget b 0;
  let ip_header_len := Z.land b0 15 * 4 in
  dest ← get_be16 b (ip_header_len + 2);
  if negb (dest =? CLIENT_PORT) then Some None
  else
    source ← get_be16 b ip_header_len;
    if negb (source =? SERVER_PORT) then Some None
    else
      udp_len ← get_be16 b (ip_header_len + 4);
      let payload_len := udp_len - UDP_HEADER in
      if payload_len <=? 0 then Some None
      else Some <$> fmt_bytes b (ip_header_len + UDP_HEADER) payload_len.

(** The input loop up to SIGINT, which comes when [stop] lines were read (at the end
    of the input the loop turns without reading anything until it comes): the
    packets sent, the last one being the disconnect notice. *)
Fixpoint input_lines (stop : nat) (input : list byte) : option (list (list byte)) :=
  match stop with
  | O => p ← send_udp_message DISCONNECT; Some [p]
  | S stop' =>
      match fgets INPUT_SIZE input with
      | None => p ← send_udp_message DISCONNECT; Some [p]
      | Some (raw, rest) =>
          let line := chop_newline (c_str raw) in
          if bool_decide (line = []) then input_lines stop' rest
          else p ← send_udp_message line; ps ← input_lines stop' rest; Some (p :: ps)
      end
  end.

(** ** The network *)

Definition u32_bytes (z : Z) : list byte :=
  [z mod 256; z / 256 mod 256; z / 65536 mod 256; z / 16777216 mod 256].

(** The packet with the IP header the kernel puts before it: [opts] are the options,
    in 32-bit words, [hdr] the fields the programs do not read. *)
Definition ip_header (saddr words : Z) (hdr : Z -> byte) : list byte :=
  [64 + (5 + words)] ++ (hdr <$> [1; 2; 3; 4; 5; 6; 7; 8]) ++ [IPPROTO_UDP]
  ++ (hdr <$> [10; 11]) ++ u32_bytes saddr ++ (hdr <$> [16; 17; 18; 19]).

Definition ip_packet (saddr : Z) (opts : list byte) (hdr : Z -> byte) (payload : list byte) : list byte :=
  ip_header saddr (Z.of_nat (length opts) / 4) hdr ++ opts ++ payload.

(** ** Invariant and abstract view *)

Definition key (c : ClientData) : Z * Z := (ip c, port c).

Record table_ok (l : list ClientData) (count : nat) : Prop := {
  to_count : (count <= length l)%nat;
  to_capacity : (0 < length l)%nat;
  to_keys : NoDup (key <$> take count l);
  to_counters : Forall (fun c => 0 <= counter c < INT_MAX) (take count l)
}.

Definition server_ok (s : server) : Prop :=
  table_ok (clients_list s) (count_of_clients s) /\ length (buffer s) = BUFFER_SIZE.

(** The packets counted for each client. *)
Definition counts (l : list ClientData) (count : nat) : gmap (Z * Z) Z :=
  list_to_map ((fun c => (key c, counter c)) <$> take count l).

(** What a packet does to the counts: a new client starts at 1, a disconnect notice
    of a known client resets to 0, any other packet adds 1. *)
Definition count_packet (k : Z * Z) (disconnect : bool) (m : gmap (Z * Z) Z) : gmap (Z * Z) Z :=
  match m !! k with
  | None => <[k := 1]> m
  | Some n => if disconnect then <[k := 0]> m else <[k := n + 1]> m
  end.

(** ** Lemmas on the table *)

Lemma list_to_map_update {K V} `{Countable K} (xs : list (K * V)) i k v v' :
  NoDup xs.*1 -> xs !! i = Some (k, v) ->
  list_to_map (M := gmap K V) (<[i := (k, v')]> xs) = <[k := v']> (list_to_map xs).
Proof.
  revert i. induction xs as [|[k0 v0] xs IH]; intros [|i] Hnd Hi; simplify_eq/=.
  - by rewrite insert_insert_eq.
  - apply NoDup_cons in Hnd as [Hk Hnd]. rewrite (IH i Hnd Hi). rewrite insert_insert_ne; [done|].
    intros <-. apply Hk. apply list_elem_of_fmap. exists (k0, v). split; [done|].
    by eapply list_elem_of_lookup_2.
Qed.

Lemma counts_fst l n : ((fun c => (key c, counter c)) <$> take n l).*1 = key <$> take n l.
Proof. rewrite <- list_fmap_compose. done. Qed.

Lemma same_client_key i p c : same_client i p c = true <-> key c = (i, p).
Proof.
  unfold same_client, key. split; intros H; [bool_to_prop; congruence|].
  injection H as <- <-. by rewrite !Z.eqb_refl.
Qed.

Lemma counts_none l n i p :
  find_index (same_client i p) (take n l) = -1 -> counts l n !! (i, p) = None.
Proof.
  intros Hf. apply find_index_none in Hf. apply not_elem_of_list_to_map_1. rewrite counts_fst.
  intros (c & Hk & Hc)%list_elem_of_fmap. rewrite Forall_forall in Hf. apply Hf in Hc.
  assert (same_client i p c = true) by by apply same_client_key. congruence.
Qed.

Lemma counts_some l n i p idx c :
  NoDup (key <$> take n l) -> aget (take n l) idx = Some c -> same_client i p c = true ->
  counts l n !! (i, p) = Some (counter c).
Proof.
  intros Hnd [_ Hc]%aget_Some Hs%same_client_key. apply elem_of_list_to_map.
  - by rewrite counts_fst.
  - apply list_elem_of_fmap. exists c. rewrite Hs. split; [done|]. by eapply list_elem_of_lookup_2.
Qed.

Lemma table_ok_set l n idx c v :
  table_ok l n -> aget (take n l) idx = Some c -> 0 <= v < INT_MAX ->
  let l' := <[Z.to_nat idx := mkClient (ip c) (port c) v]> l in
  table_ok l' n /\ counts l' n = <[key c := v]> (counts l n) /\ aset l idx (mkClient (ip c) (port c) v) = Some l'.
Proof.
  intros [Hc Hcap Hk Hf] Ha Hv l'. pose proof Ha as [Hidx Hl]%aget_Some.
  pose proof (lookup_lt_Some _ _ _ Hl) as Hlt. rewrite length_take in Hlt.
  assert (take n l' = <[Z.to_nat idx := mkClient (ip c) (port c) v]> (take n l)) as Ht
    by (apply take_insert_lt; lia).
  assert (key <$> take n l' = key <$> take n l) as Hkeys.
  { rewrite Ht, list_fmap_insert. apply list_insert_id. rewrite list_lookup_fmap, Hl. done. }
  split_and!.
  - split.
    + unfold l'. by rewrite length_insert.
    + unfold l'. by rewrite length_insert.
    + by rewrite Hkeys.
    + rewrite Ht. apply Forall_insert; [done|]. done.
  - unfold counts. rewrite Ht, list_fmap_insert. simpl.
    eapply list_to_map_update; [by rewrite counts_fst|]. rewrite list_lookup_fmap, Hl. done.
  - apply aset_is_Some. lia.
Qed.

Lemma table_ok_add l n i p :
  table_ok l n -> find_index (same_client i p) (take n l) = -1 ->
  let l1 := if (n =? length l)%nat then expand_clients l else l in
  let l' := <[n := mkClient i p 1]> l1 in
  table_ok l' (S n) /\ counts l' (S n) = <[(i, p) := 1]> (counts l n) /\
  aset l1 (Z.of_nat n) (mkClient i p 1) = Some l'.
Proof.
  intros [Hc Hcap Hk Hf] Hfi l1 l'.
  assert (n < length l1)%nat as Hn.
  { unfold l1, expand_clients. destruct (n =? length l)%nat eqn:E; [|bool_to_prop; lia].
    rewrite length_app, length_replicate. lia. }
  assert (take n l1 = take n l) as Htl.
  { unfold l1, expand_clients. destruct (n =? length l)%nat; [|done]. apply take_app_le. lia. }
  assert (take (S n) l' = take n l ++ [mkClient i p 1]) as Ht.
  { unfold l'. erewrite take_S_r by (apply list_lookup_insert_eq; lia).
    by rewrite take_insert_ge, Htl by lia. }
  pose proof (counts_none l n i p Hfi) as Hnone.
  assert ((i, p) ∉ key <$> take n l) as Hfresh.
  { rewrite <- counts_fst. by apply not_elem_of_list_to_map_2. }
  split_and!.
  - split.
    + unfold l'. rewrite length_insert. lia.
    + unfold l'. rewrite length_insert. lia.
    + rewrite Ht, fmap_app. apply NoDup_app. split_and!; [done| |].
      * intros x Hx ->%list_elem_of_singleton. done.
      * simpl. apply NoDup_singleton.
    + rewrite Ht. apply Forall_app. split; [done|]. constructor; [|done].
      simpl. unfold INT_MAX. lia.
  - unfold counts. rewrite Ht, fmap_app. simpl. apply list_to_map_snoc. by rewrite counts_fst.
  - rewrite aset_is_Some by lia. by rewrite Nat2Z.id.
Qed.

Lemma find_or_add_ok l n i p plen disc :
  table_ok l n -> (forall v, counts l n !! (i, p) = Some v -> v + 1 < INT_MAX) ->
  exists l' n' idx v,
    find_or_add_client l n i p plen disc =
      Some (l', n', idx, bool_decide (is_Some (counts l n !! (i, p))) &&
                         ((plen =? Z.of_nat (length DISCONNECT)) && disc)) /\
    table_ok l' n' /\ aget l' idx = Some (mkClient i p v) /\ 0 <= v /\
    counts l' n' = count_packet (i, p) ((plen =? Z.of_nat (length DISCONNECT)) && disc) (counts l n) /\
    counts l' n' !! (i, p) = Some v.
Proof.
  intros Hok Hmax. unfold find_or_add_client, count_packet.
  set (idx := find_index (same_client i p) (take n l)).
  destruct (idx =? -1) eqn:E; bool_to_prop.
  - rewrite (counts_none l n i p E). destruct (table_ok_add l n i p Hok E) as (Hok' & Hc & Hs).
    cbv zeta in *. rewrite Hs. simpl. eexists _, _, _, 1. split_and!; [done|done| |lia|done|].
    + rewrite <- (Nat2Z.id n) at 1. apply aget_insert_eq.
      destruct (proj1 (aset_Some _ _ _ _) Hs) as [H _]. done.
    + rewrite Hc. by rewrite lookup_insert_eq.
  - destruct (find_index_found (same_client i p) (take n l) idx eq_refl E) as (c & Hc & Hsame & _).
    rewrite (counts_some l n i p idx c (to_keys _ _ Hok) Hc Hsame).
    rewrite bool_decide_true by eauto.
    assert (aget l idx = Some c) as Hl.
    { apply aget_Some in Hc as [H0 Hc]. apply aget_Some. split; [done|].
      by apply lookup_take_Some in Hc as [? _]. }
    assert (0 <= counter c < INT_MAX) as Hcnt.
    { apply aget_Some in Hc as [_ Hc]. pose proof (to_counters _ _ Hok) as HF.
      by eapply Forall_lookup_1 in HF; [|exact Hc]. }
    pose proof (Hmax _ (counts_some l n i p idx c (to_keys _ _ Hok) Hc Hsame)) as Hm.
    assert (forall v, 0 <= v < INT_MAX -> exists l', aset l idx (mkClient (ip c) (port c) v) = Some l' /\
      table_ok l' n /\ counts l' n = <[(i, p) := v]> (counts l n) /\
      aget l' idx = Some (mkClient i p v)) as Hupd.
    { intros v Hv. destruct (table_ok_set l n idx c v Hok Hc Hv) as (H1 & H2 & H3).
      apply same_client_key in Hsame. rewrite Hsame in H2. eexists.
      split_and!; [exact H3 | done | done |].
      unfold key in Hsame. injection Hsame as <- <-. by eapply aget_aset_eq. }
    rewrite Hl. simpl. destruct (_ && disc) eqn:Ed.
    + destruct (Hupd 0) as (l' & -> & H1 & H2 & H3); [unfold INT_MAX; lia|]. simpl.
      eexists _, _, _, 0. split_and!; [done|done|done|lia|done|]. rewrite H2. by rewrite lookup_insert_eq.
    + replace (in_int (counter c + 1)) with true
        by (symmetry; unfold in_int, INT_MIN; lia).
      destruct (Hupd (counter c + 1)) as (l' & -> & H1 & H2 & H3); [lia|]. simpl.
      eexists _, _, _, (counter c + 1). split_and!; [done|done|done|lia|done|].
      rewrite H2. by rewrite lookup_insert_eq.
Qed.

(** ** Lemmas on packets *)

Lemma aget_app_r {A} (a b : list A) i :
  0 <= i -> aget (a ++ b) (Z.of_nat (length a) + i) = aget b i.
Proof.
  intros Hi. unfold aget. rewrite !(proj2 (Z.leb_le 0 _)) by lia.
  rewrite lookup_app_r by lia. f_equal. lia.
Qed.

Lemma get_be16_app_r a b i :
  0 <= i -> get_be16 (a ++ b) (Z.of_nat (length a) + i) = get_be16 b i.
Proof.
  intros Hi. unfold get_be16. rewrite aget_app_r by done.
  replace (Z.of_nat (length a) + i + 1) with (Z.of_nat (length a) + (i + 1)) by lia.
  by rewrite aget_app_r by lia.
Qed.

Lemma htons_value z : 0 <= z < 65536 -> z / 256 mod 256 * 256 + z mod 256 = z.
Proof.
  intros Hz. rewrite (Z.mod_small (z / 256)).
  - pose proof (Z.div_mod z 256 ltac:(lia)). lia.
  - split; [apply Z.div_pos; lia | apply Z.div_lt_upper_bound; lia].
Qed.

Lemma u32_value z : 0 <= z < 4294967296 ->
  z mod 256 + 256 * (z / 256 mod 256) + 65536 * (z / 65536 mod 256)
  + 16777216 * (z / 16777216 mod 256) = z.
Proof.
  intros Hz. change 65536 with (256 * 256). change 16777216 with (256 * 256 * 256).
  rewrite <- !Z.div_div by lia.
  set (a := z / 256). set (b := a / 256). set (c := b / 256).
  pose proof (Z.div_mod z 256 ltac:(lia)). pose proof (Z.div_mod a 256 ltac:(lia)).
  pose proof (Z.div_mod b 256 ltac:(lia)).
  assert (0 <= c < 256) as Hc.
  { unfold c, b, a. rewrite !Z.div_div by lia. split; [apply Z.div_pos; lia|].
    apply Z.div_lt_upper_bound; lia. }
  rewrite (Z.mod_small c) by lia. fold a in H. fold b in H0. fold c in H1. lia.
Qed.

(** The fields of a UDP packet inside an IP packet, whatever follows it in the
    buffer. *)
Section packet.
Context (saddr source dest : Z) (opts : list byte) (hdr : Z -> byte) (payload rest : list byte).
Context (Hopts : (Z.of_nat (length opts) mod 4 = 0) /\ Z.of_nat (length opts) <= 40).
Context (Hs : 0 <= source < 65536) (Hd : 0 <= dest < 65536) (Ha : 0 <= saddr < 4294967296).
Context (Hp : Z.of_nat (length payload) < 65528).

Let pkt : list byte := ip_packet saddr opts hdr (udp_packet source dest payload) ++ rest.
Let hlen : Z := 20 + Z.of_nat (length opts).

Lemma ihl_value : Z.land (64 + (5 + Z.of_nat (length opts) / 4)) 15 * 4 = hlen.
Proof using All.
  set (q := Z.of_nat (length opts) / 4). destruct Hopts as [Hm Hl].
  assert (Z.of_nat (length opts) = 4 * q) as Hq
    by (pose proof (Z.div_mod (Z.of_nat (length opts)) 4 ltac:(lia)); unfold q; lia).
  change 15 with (Z.ones 4). rewrite Z.land_ones by lia. change (2 ^ 4) with 16.
  replace (64 + (5 + q)) with ((5 + q) + 4 * 16) by lia. rewrite Z.mod_add by lia.
  rewrite Z.mod_small by lia. unfold hlen. lia.
Qed.

Lemma pkt_split :
  exists h, pkt = (h ++ opts) ++ udp_packet source dest payload ++ rest /\ length h = 20%nat /\
    Z.of_nat (length (h ++ opts)) = hlen.
Proof using All.
  exists (ip_header saddr (Z.of_nat (length opts) / 4) hdr). split_and!.
  - unfold pkt, ip_packet. by rewrite <- !app_assoc.
  - reflexivity.
  - rewrite length_app. unfold hlen. simpl. lia.
Qed.

Lemma pkt_ports :
  get_be16 pkt hlen = Some source /\ get_be16 pkt (hlen + 2) = Some dest /\
  get_be16 pkt (hlen + 4) = Some (8 + Z.of_nat (length payload)).
Proof using All.
  destruct pkt_split as (h & -> & _ & <-).
  rewrite <- (Z.add_0_r (Z.of_nat _)) at 1. rewrite !get_be16_app_r by lia.
  unfold get_be16, udp_packet, aget. simpl. unfold UDP_HEADER.
  by rewrite !htons_value by lia.
Qed.

Lemma pkt_head :
  aget pkt 0 = Some (64 + (5 + Z.of_nat (length opts) / 4)) /\ aget pkt 9 = Some IPPROTO_UDP /\
  get_u32 pkt 12 = Some saddr.
Proof using All.
  unfold pkt, ip_packet. split_and!; try reflexivity.
  unfold get_u32, aget. simpl. f_equal. by apply u32_value.
Qed.

Lemma pkt_payload : drop (Z.to_nat (hlen + 8)) pkt = payload ++ rest.
Proof using All.
  destruct pkt_split as (h & -> & Hh & Hl).
  replace (Z.to_nat (hlen + 8)) with (length (h ++ opts) + 8)%nat by lia.
  rewrite drop_app_add. reflexivity.
Qed.

Lemma pkt_text : NUL ∉ payload ->
  fmt_bytes pkt (hlen + 8) (Z.of_nat (length payload)) = Some payload.
Proof using All.
  intros Hn. unfold fmt_bytes. rewrite pkt_payload.
  rewrite !(proj2 (Z.leb_le _ _)) by (rewrite ?length_app; lia). cbn [andb].
  rewrite Nat2Z.id, take_app_length. f_equal. apply take_while_all.
  apply Forall_forall. intros x Hx. apply negb_true_iff, Z.eqb_neq. intros ->. done.
Qed.

Lemma pkt_disconnect :
  (Z.of_nat (length payload) =? Z.of_nat (length DISCONNECT)) &&
  memeq pkt (hlen + 8) DISCONNECT = bool_decide (payload = DISCONNECT).
Proof using All.
  unfold memeq. rewrite pkt_payload.
  destruct (Z.of_nat (length payload) =? _) eqn:E; bool_to_prop; cbn [andb].
  - rewrite take_app_length' by lia. done.
  - symmetry. apply bool_decide_eq_false. intros ->. done.
Qed.
End packet.

(** What the server does with a client's packet. *)
Lemma receive_data b data :
  (length data < length b)%nat -> receive b data = data ++ drop (length data) b.
Proof. intros H. unfold receive. by rewrite take_ge by lia. Qed.

Lemma length_receive b data : b <> [] -> length (receive b data) = length b.
Proof.
  intros Hb. unfold receive. rewrite length_app, length_drop, length_take.
  destruct b; [done|]. simpl. lia.
Qed.

Lemma length_ip_packet saddr opts hdr payload :
  length (ip_packet saddr opts hdr payload) = (20 + length opts + length payload)%nat.
Proof. unfold ip_packet. rewrite !length_app. reflexivity. Qed.

Lemma length_udp_packet s d payload : length (udp_packet s d payload) = (8 + length payload)%nat.
Proof. reflexivity. Qed.

Lemma parse_udp_packet saddr source opts hdr msg b :
  Z.of_nat (length opts) mod 4 = 0 -> Z.of_nat (length opts) <= 40 ->
  0 <= source < 65536 -> 0 <= saddr < 4294967296 -> Z.of_nat (length msg) < 65528 ->
  parse_udp (ip_packet saddr opts hdr (udp_packet source SERVER_PORT msg) ++ b) =
    Some (Some (mkParsed saddr source (20 + Z.of_nat (length opts) + 8) (Z.of_nat (length msg)))).
Proof.
  intros Ho1 Ho2 Hs Ha Hm. unfold parse_udp.
  assert (0 <= SERVER_PORT < 65536) as Hd by (unfold SERVER_PORT; lia).
  destruct (pkt_head saddr source SERVER_PORT opts hdr msg b (conj Ho1 Ho2) Hs Hd Ha Hm) as (H0 & H9 & H12).
  destruct (pkt_ports saddr source SERVER_PORT opts hdr msg b (conj Ho1 Ho2) Hs Hd Ha Hm) as (P0 & P2 & P4).
  rewrite H9. cbn [mbind option_bind]. rewrite Z.eqb_refl. cbn [negb]. rewrite H0.
  cbn [mbind option_bind]. rewrite (ihl_value saddr source SERVER_PORT opts hdr msg b (conj Ho1 Ho2) Hs Hd Ha Hm).
  rewrite P2. cbn [mbind option_bind]. rewrite Z.eqb_refl. cbn [negb]. rewrite P4, H12, P0.
  cbn [mbind option_bind]. unfold UDP_HEADER. do 3 f_equal. lia.
Qed.

(** A packet of a known or new client through the server. *)
Lemma server_packet_client s saddr source opts hdr msg :
  server_ok s ->
  Z.of_nat (length opts) mod 4 = 0 -> Z.of_nat (length opts) <= 40 ->
  0 <= source < 65536 -> 0 <= saddr < 4294967296 ->
  (length msg < INPUT_SIZE)%nat -> NUL ∉ msg ->
  (forall v, counts (clients_list s) (count_of_clients s) !! (saddr, source) = Some v -> v + 1 < INT_MAX) ->
  let m := counts (clients_list s) (count_of_clients s) in
  let disc := bool_decide (msg = DISCONNECT) in
  exists s' v,
    server_packet s (ip_packet saddr opts hdr (udp_packet source SERVER_PORT msg)) =
      Some (s', if bool_decide (is_Some (m !! (saddr, source))) && disc then None
                else Some (saddr, udp_packet SERVER_PORT source (msg ++ [SP] ++ dec v))) /\
    server_ok s' /\
    counts (clients_list s') (count_of_clients s') = count_packet (saddr, source) disc m /\
    counts (clients_list s') (count_of_clients s') !! (saddr, source) = Some v /\ 0 <= v < INT_MAX.
Proof.
  intros [Hok Hbuf] Ho1 Ho2 Hs Ha Hm Hn Hmax m disc. unfold INPUT_SIZE in Hm.
  unfold server_packet. set (pkt := ip_packet _ _ _ _).
  assert (length pkt < length (buffer s))%nat as Hlp.
  { unfold pkt. rewrite length_ip_packet, length_udp_packet, Hbuf. unfold BUFFER_SIZE. lia. }
  rewrite receive_data by done. set (b := drop (length pkt) (buffer s)).
  assert (0 <= SERVER_PORT < 65536) as Hd by (unfold SERVER_PORT; lia).
  assert (Z.of_nat (length msg) < 65528) as Hmz by lia.
  unfold pkt. rewrite parse_udp_packet by done. cbn [mbind option_bind p_src_ip p_src_port p_len p_payload].
  pose proof (pkt_disconnect saddr source SERVER_PORT opts hdr msg b (conj Ho1 Ho2) Hs Hd Ha Hmz) as Hdc.
  destruct (find_or_add_ok _ _ saddr source (Z.of_nat (length msg))
    (memeq (ip_packet saddr opts hdr (udp_packet source SERVER_PORT msg) ++ b)
       (20 + Z.of_nat (length opts) + 8) DISCONNECT) Hok Hmax)
    as (l & n & idx & v & -> & Hok' & Hidx & Hv & Hcnt & Hcv).
  rewrite Hdc in *. cbn [mbind option_bind]. fold m disc.
  set (s' := mkServer l n _).
  assert (server_ok s') as Hs'.
  { split; [done|]. change (buffer s') with (pkt ++ b). unfold b. rewrite length_app, length_drop. lia. }
  assert (v < INT_MAX) as Hv2.
  { unfold counts in Hcv. apply elem_of_list_to_map_2 in Hcv.
    apply list_elem_of_fmap in Hcv as (c & [= _ _ Hvc] & Hc). pose proof (to_counters _ _ Hok') as HF.
    rewrite Forall_forall in HF. apply HF in Hc. lia. }
  exists s', v. split_and!; try done. destruct (bool_decide _ && disc); [done|].
  rewrite Hidx. cbn [mbind option_bind counter].
  rewrite (pkt_text saddr source SERVER_PORT opts hdr msg b (conj Ho1 Ho2) Hs Hd Ha Hmz Hn).
  cbn [mbind option_bind]. pose proof (length_dec_int v ltac:(lia)) as Hld.
  rewrite trunc_id by (rewrite !length_app; unfold OUT_SIZE; simpl length; lia).
  unfold build_packet. rewrite take_ge; [done|].
  rewrite !length_app. unfold BUFFER_SIZE. simpl length. lia.
Qed.

(** A packet for another port leaves the table alone. *)
Lemma server_packet_other s saddr source dest opts hdr payload :
  length (buffer s) = BUFFER_SIZE ->
  Z.of_nat (length opts) mod 4 = 0 -> Z.of_nat (length opts) <= 40 ->
  0 <= source < 65536 -> 0 <= dest < 65536 -> 0 <= saddr < 4294967296 ->
  (length payload < 900)%nat -> dest <> SERVER_PORT ->
  exists b, length b = BUFFER_SIZE /\
    server_packet s (ip_packet saddr opts hdr (udp_packet source dest payload)) =
      Some (mkServer (clients_list s) (count_of_clients s) b, None).
Proof.
  intros Hbuf Ho1 Ho2 Hs Hd Ha Hl Hne. unfold server_packet. set (pkt := ip_packet _ _ _ _).
  assert (length pkt < length (buffer s))%nat as Hlp.
  { unfold pkt. rewrite length_ip_packet, length_udp_packet, Hbuf. unfold BUFFER_SIZE. lia. }
  exists (receive (buffer s) pkt).
  split; [rewrite length_receive; [done|intros E; rewrite E in Hlp; cbn in Hlp; lia]|].
  rewrite receive_data by done. set (b := drop (length pkt) (buffer s)). unfold parse_udp, pkt.
  assert (Z.of_nat (length payload) < 65528) as Hp by lia.
  destruct (pkt_head saddr source dest opts hdr payload b (conj Ho1 Ho2) Hs Hd Ha Hp) as (H0 & H9 & _).
  destruct (pkt_ports saddr source dest opts hdr payload b (conj Ho1 Ho2) Hs Hd Ha Hp) as (_ & P2 & _).
  rewrite H9. cbn [mbind option_bind]. rewrite Z.eqb_refl. cbn [negb]. rewrite H0. cbn [mbind option_bind].
  rewrite (ihl_value saddr source dest opts hdr payload b (conj Ho1 Ho2) Hs Hd Ha Hp), P2.
  cbn [mbind option_bind]. by rewrite (proj2 (Z.eqb_neq dest SERVER_PORT) Hne).
Qed.

(** What a client's receiver makes of a packet. *)
Section receiver.
Context (sip source dest : Z) (opts : list byte) (hdr : Z -> byte) (text stale : list byte).
Context (Hopts : (Z.of_nat (length opts) mod 4 = 0) /\ Z.of_nat (length opts) <= 40).
Context (Hs : 0 <= source < 65536) (Hd : 0 <= dest < 65536) (Hip : 0 <= sip < 4294967296).
Context (Hl : Z.of_nat (length text) < 65528).

Let b : list byte := ip_packet sip opts hdr (udp_packet source dest text) ++ stale.

Lemma receiver_reads :
  dest = CLIENT_PORT -> source = SERVER_PORT -> (0 < length text)%nat -> NUL ∉ text ->
  receiver_packet b = Some (Some text).
Proof using All.
  intros Hdest Hsrc Hpos Hnt. unfold receiver_packet, b.
  destruct (pkt_head sip source dest opts hdr text stale Hopts Hs Hd Hip Hl) as (H0 & _ & _).
  destruct (pkt_ports sip source dest opts hdr text stale Hopts Hs Hd Hip Hl) as (P0 & P2 & P4).
  rewrite H0. cbn [mbind option_bind]. rewrite (ihl_value sip source dest opts hdr text stale Hopts Hs Hd Hip Hl).
  rewrite P2. cbn [mbind option_bind]. rewrite (proj2 (Z.eqb_eq dest _) Hdest). cbn [negb]. rewrite P0.
  cbn [mbind option_bind]. rewrite (proj2 (Z.eqb_eq source _) Hsrc). cbn [negb]. rewrite P4. cbn [mbind option_bind].
  unfold UDP_HEADER. replace (8 + Z.of_nat (length text) - 8) with (Z.of_nat (length text)) by lia.
  rewrite (proj2 (Z.leb_gt _ 0)) by lia. by rewrite (pkt_text sip source dest opts hdr text stale).
Qed.

Lemma receiver_skips : dest <> CLIENT_PORT -> receiver_packet b = Some None.
Proof using All.
  intros Hdest. unfold receiver_packet, b.
  destruct (pkt_head sip source dest opts hdr text stale Hopts Hs Hd Hip Hl) as (H0 & _ & _).
  destruct (pkt_ports sip source dest opts hdr text stale Hopts Hs Hd Hip Hl) as (_ & P2 & _).
  rewrite H0. cbn [mbind option_bind]. rewrite (ihl_value sip source dest opts hdr text stale Hopts Hs Hd Hip Hl), P2.
  cbn [mbind option_bind]. by rewrite (proj2 (Z.eqb_neq dest CLIENT_PORT) Hdest).
Qed.
End receiver.

(** What the server answers has no NUL, as its parts have none. *)
Lemma answer_clean msg v : NUL ∉ msg -> NUL ∉ msg ++ [SP] ++ dec v.
Proof.
  intros Hn. rewrite !not_elem_of_app. split_and!; [done| |].
  - rewrite list_elem_of_singleton. done.
  - intros Hin. pose proof (dec_not_space v) as HF. rewrite Forall_forall in HF. by apply HF in Hin as [_ ?].
Qed.

Definition demo_server : server := init_server (replicate BUFFER_SIZE 65).

Lemma init_server_ok junk : length junk = BUFFER_SIZE -> server_ok (init_server junk).
Proof.
  intros H. split; [|done]. split; simpl; [lia | lia | constructor | constructor].
Qed.

(** ** Properties *)

(** C18 (refinement).  The table counts packets per client.  For any state of the server
    that satisfies its invariant and any message of a client (any source address and
    port, any IP options), the server answers or stays silent without leaving its
    buffers, its invariant holds again (distinct clients, count within the capacity,
    which doubles when the table is full), and the table seen as a map from clients to
    counters changes as specified by [count_packet]: a new client starts at 1, a
    disconnect notice resets a known client to 0 without a reply, and any other message
    adds 1. *)
Theorem server_table_refines s saddr source opts hdr msg :
  server_ok s ->
  Z.of_nat (length opts) mod 4 = 0 -> Z.of_nat (length opts) <= 40 ->
  0 <= source < 65536 -> 0 <= saddr < 4294967296 ->
  (length msg < INPUT_SIZE)%nat -> NUL ∉ msg ->
  (forall v, counts (clients_list s) (count_of_clients s) !! (saddr, source) = Some v -> v + 1 < INT_MAX) ->
  let m := counts (clients_list s) (count_of_clients s) in
  exists s' sent,
    server_packet s (ip_packet saddr opts hdr (udp_packet source SERVER_PORT msg)) = Some (s', sent) /\
    server_ok s' /\
    counts (clients_list s') (count_of_clients s') =
      count_packet (saddr, source) (bool_decide (msg = DISCONNECT)) m /\
    (sent = None <-> is_Some (m !! (saddr, source)) /\ msg = DISCONNECT).
Proof.
  intros Hok Ho1 Ho2 Hs Ha Hm Hn Hmax m.
  destruct (server_packet_client s saddr source opts hdr msg Hok Ho1 Ho2 Hs Ha Hm Hn Hmax)
    as (s' & v & -> & Hok' & Hc & _).
  eexists _, _. split_and!; [done..|]. fold m.
  destruct (bool_decide (is_Some (m !! (saddr, source)))) eqn:E1,
    (bool_decide (msg = DISCONNECT)) eqn:E2; bool_to_prop; simpl; tauto || (split; [done | tauto]).
Qed.

Lemma server_table_refines_witness :
  exists s' sent,
    server_packet demo_server
      (ip_packet 16777343 [] (fun _ => 0) (udp_packet 12345 SERVER_PORT (lit "hi"))) = Some (s', sent) /\
    server_ok s' /\
    counts (clients_list s') (count_of_clients s') =
      count_packet (16777343, 12345) (bool_decide (lit "hi" = DISCONNECT))
        (counts (clients_list demo_server) 0) /\
    (sent = None <-> is_Some (counts (clients_list demo_server) 0 !! (16777343, 12345))
      /\ lit "hi" = DISCONNECT).
Proof.
  refine (server_table_refines demo_server 16777343 12345 [] (fun _ => 0) (lit "hi")
    _ _ _ _ _ _ _ _).
  - apply init_server_ok. reflexivity.
  - reflexivity.
  - simpl. lia.
  - lia.
  - lia.
  - vm_compute. lia.
  - apply (bool_decide_unpack _). vm_compute. exact I.
  - intros v Hv. vm_compute in Hv. done.
Defined.

(** C35 (roundtrip).  The echo: a message the client sends, carried to the server in an IP
    packet and answered, is printed by the client's receiver as the same text
    followed by a space and the number of packets counted for this client, whatever
    the receive buffers held before. *)
Theorem echo_roundtrip s saddr sip opts hdr opts' hdr' msg pkt stale :
  server_ok s ->
  Z.of_nat (length opts) mod 4 = 0 -> Z.of_nat (length opts) <= 40 ->
  Z.of_nat (length opts') mod 4 = 0 -> Z.of_nat (length opts') <= 40 ->
  0 <= saddr < 4294967296 -> 0 <= sip < 4294967296 ->
  msg <> [] -> (length msg < INPUT_SIZE)%nat -> NUL ∉ msg -> msg <> DISCONNECT ->
  (forall v, counts (clients_list s) (count_of_clients s) !! (saddr, CLIENT_PORT) = Some v ->
    v + 1 < INT_MAX) ->
  send_udp_message msg = Some pkt ->
  exists s' reply v,
    server_packet s (ip_packet saddr opts hdr pkt) = Some (s', Some (saddr, reply)) /\
    counts (clients_list s') (count_of_clients s') !! (saddr, CLIENT_PORT) = Some v /\
    receiver_packet (ip_packet sip opts' hdr' reply ++ stale) = Some (Some (msg ++ [SP] ++ dec v)).
Proof.
  intros Hok Ho1 Ho2 Ho3 Ho4 Ha Hsip Hne Hm Hn Hnd Hmax Hsend.
  unfold send_udp_message in Hsend. case_match; [|done]. injection Hsend as <-.
  assert (0 <= CLIENT_PORT < 65536) as Hcp by (unfold CLIENT_PORT; lia).
  assert (0 <= SERVER_PORT < 65536) as Hsp by (unfold SERVER_PORT; lia).
  destruct (server_packet_client s saddr CLIENT_PORT opts hdr msg Hok Ho1 Ho2 Hcp Ha Hm Hn Hmax)
    as (s' & v & -> & _ & _ & Hv & Hvr).
  rewrite (bool_decide_false (msg = DISCONNECT)), andb_false_r by done.
  eexists _, _, v. split_and!; [done | done |]. set (text := msg ++ _).
  pose proof (length_dec_int v ltac:(lia)) as Hld. unfold INPUT_SIZE in Hm.
  assert (Z.of_nat (length text) < 65528) as Hlt
    by (unfold text; rewrite !length_app; simpl length; lia).
  assert (0 < length text)%nat as Hpos by (unfold text; rewrite !length_app; simpl; lia).
  apply receiver_reads; try done. by apply answer_clean.
Qed.

Lemma echo_roundtrip_witness :
  exists s' reply v,
    server_packet demo_server
      (ip_packet 16777343 [] (fun _ => 0) (udp_packet CLIENT_PORT SERVER_PORT (lit "hi")))
      = Some (s', Some (16777343, reply)) /\
    counts (clients_list s') (count_of_clients s') !! (16777343, CLIENT_PORT) = Some v /\
    receiver_packet (ip_packet 16777343 [] (fun _ => 7) reply ++ [1; 2; 3])
      = Some (Some (lit "hi" ++ [SP] ++ dec v)).
Proof.
  refine (echo_roundtrip demo_server 16777343 16777343 [] (fun _ => 0) [] (fun _ => 7) (lit "hi")
    _ [1; 2; 3] _ _ _ _ _ _ _ _ _ _ _ _ eq_refl).
  - apply init_server_ok. reflexivity.
  - reflexivity.
  - simpl. lia.
  - reflexivity.
  - simpl. lia.
  - lia.
  - lia.
  - done.
  - vm_compute. lia.
  - apply (bool_decide_unpack _). vm_compute. exact I.
  - done.
  - intros v Hv. vm_compute in Hv. done.
Defined.

(** Counterexample.  The server repeats one client's data to another.  It
    trusts the length in the UDP header and keeps what the buffer held: a packet of 31
    bytes that claims a payload of 10 bytes is answered with 7 bytes of the message
    that another client sent before. *)
Theorem stale_bytes_leak :
  exists s1 r1 s2 reply,
    server_packet demo_server
      (ip_packet 1 [] (fun _ => 0) (udp_packet 5000 SERVER_PORT (lit "my secret!"))) = Some (s1, r1) /\
    server_packet s1
      (ip_packet 2 [] (fun _ => 0) (htons 6000 ++ htons SERVER_PORT ++ htons 18 ++ [0; 0] ++ lit "abc"))
      = Some (s2, Some (2, reply)) /\
    reply = udp_packet SERVER_PORT 6000 (lit "abc" ++ lit "secret!" ++ lit " 1").
Proof.
  eexists _, _, _, _. split; [vm_compute; reflexivity|]. split; vm_compute; reflexivity.
Qed.
