(* ===== verification/EchoSystem.v ===== *)
(** * The echo server and its clients as a system

    [echo-client_echo-server]: [main] of the server, [main] and [receiver_thread] of any number of clients.  The
    clients send to 127.0.0.1, so all run on the host of the server, and every raw socket gets every UDP packet of
    that host, its own included.  A step is one turn of a loop, Ctrl-C, or the start of a client. *)

From S2P Require Import Prelude CString Echo.

(** [inet_pton(AF_INET, "127.0.0.1", ...)] as the server reads it back. *)
Definition LOCALHOST : Z := 127 + 256 * (0 + 256 * (0 + 256 * 1)).

(** [main] of a client reads lines, has left its loop, or has returned. *)
Inductive phase := Typing | Leaving | Cancelling | Gone.

(** What a client prints. *)
Inductive shown := Banner | Answer (text : cstr) | Notice | Terminated.

Definition line (s : cstr) : cstr := s ++ [NL].
Definition render (x : shown) : list byte :=
  match x with
  | Banner =>
      line (lit "[SYSTEM] Client started.") ++ line (lit "[SYSTEM] Type messages and press Enter.") ++
      line (line (lit "[SYSTEM] Press Ctrl+C to exit.")) ++ lit ">"
  | Answer text => [NL] ++ lit "[SERVER] " ++ line text ++ lit ">"
  | Notice => line (lit "[CLIENT] Sending disconnect notification...")
  | Terminated => line (lit "[SYSTEM] Client terminated.")
  end.

(** A client: what is left of its input, its [main], [running], whether [receiver_thread] runs, the packets its
    socket holds, and what it has printed. *)
Record client := mkCl {
  cl_in : list byte;
  cl_phase : phase;
  cl_running : bool;
  cl_thread : bool;
  cl_box : list (list byte);
  cl_out : list shown
}.

(** [g_sent] are the texts all clients have sent so far, in order; the programs do not have it. *)
Record system := mkSys {
  srv : server;
  up : bool;
  s_box : list (list byte);
  clients : list client;
  g_sent : list cstr
}.

Inductive event :=
  | Start (input : list byte)
  | ReadLine (i : nat)
  | Interrupt (i : nat)
  | Receive (i : nat)
  | Notify (i : nat)
  | Finish (i : nat)
  | Serve
  | StopServer.

(** A step is not possible now, leaves what C defines, or leads to a state. *)
Inductive result := Waits | Undefined | Moves (s : system).

Section system.
(** The header fields nobody reads, and what is behind a packet in the client's buffer. *)
Context (hdr : Z -> byte) (stale : list byte).

Definition is_open (c : client) : bool := match cl_phase c with Gone => false | _ => true end.

Definition deliver (d : list byte) (c : client) : client :=
  if is_open c then mkCl (cl_in c) (cl_phase c) (cl_running c) (cl_thread c) (cl_box c ++ [d]) (cl_out c) else c.

(** [sendto] of the UDP packet [p] to 127.0.0.1. *)
Definition wire (p : list byte) (s : system) : system :=
  let d := ip_packet LOCALHOST [] hdr p in
  mkSys (srv s) (up s) (if up s then s_box s ++ [d] else s_box s) (deliver d <$> clients s) (g_sent s).

(** [send_udp_message] of a client. *)
Definition send (msg : cstr) (s : system) : result :=
  match send_udp_message msg with
  | Some p => Moves (wire p (mkSys (srv s) (up s) (s_box s) (clients s) (g_sent s ++ [msg])))
  | None => Undefined
  end.

Definition set_client (i : nat) (c : client) (s : system) : system :=
  mkSys (srv s) (up s) (s_box s) (<[i := c]> (clients s)) (g_sent s).

(** [socket], [pthread_create] and what is printed. *)
Definition start_client (input : list byte) : client := mkCl input Typing true true [] [Banner].

(** A turn of the input loop; at the end of the input it turns without effect. *)
Definition read_line (i : nat) (c : client) (s : system) : result :=
  match cl_phase c with
  | Typing =>
      match fgets INPUT_SIZE (cl_in c) with
      | None => Moves s
      | Some (raw, rest) =>
          let input := chop_newline (c_str raw) in
          let s' := set_client i (mkCl rest Typing (cl_running c) (cl_thread c) (cl_box c) (cl_out c)) s in
          if bool_decide (input = []) then Moves s' else send input s'
      end
  | _ => Waits
  end.

(** Ctrl-C: [running = 0], and [fgets] returns [NULL]. *)
Definition sigint (i : nat) (c : client) (s : system) : result :=
  match cl_phase c with
  | Typing => Moves (set_client i (mkCl (cl_in c) Leaving false (cl_thread c) (cl_box c) (cl_out c)) s)
  | _ => Waits
  end.

(** A turn of [receiver_thread]: the next packet; then it ends if [running] is 0. *)
Definition receiver_turn (i : nat) (c : client) (s : system) : result :=
  if negb (cl_thread c) then Waits
  else match cl_box c with
       | [] => Waits
       | d :: box =>
           match receiver_packet (d ++ stale) with
           | None => Undefined
           | Some r =>
               let out := match r with Some text => cl_out c ++ [Answer text] | None => cl_out c end in
               Moves (set_client i (mkCl (cl_in c) (cl_phase c) (cl_running c) (cl_running c) box out) s)
           end
       end.

(** After the loop: the notice is sent, then the thread is cancelled and the socket closed. *)
Definition notify (i : nat) (c : client) (s : system) : result :=
  match cl_phase c with
  | Leaving =>
      send DISCONNECT (set_client i (mkCl (cl_in c) Cancelling (cl_running c) (cl_thread c) (cl_box c) (cl_out c ++ [Notice])) s)
  | _ => Waits
  end.
Definition finish (i : nat) (c : client) (s : system) : result :=
  match cl_phase c with
  | Cancelling => Moves (set_client i (mkCl (cl_in c) Gone false false [] (cl_out c ++ [Terminated])) s)
  | _ => Waits
  end.

(** A turn of the server's loop. *)
Definition serve (s : system) : result :=
  match s_box s with
  | [] => Waits
  | d :: box =>
      match server_packet (srv s) d with
      | None => Undefined
      | Some (srv', sent) =>
          let s' := mkSys srv' (up s) box (clients s) (g_sent s) in
          Moves (match sent with Some (_, p) => wire p s' | None => s' end)
      end
  end.

(** Ctrl-C for the server: [running = 0], and [recvfrom] fails. *)
Definition stop_server (s : system) : system := mkSys (srv s) false [] (clients s) (g_sent s).

Definition with_client (i : nat) (s : system) (f : nat -> client -> system -> result) : result :=
  match clients s !! i with Some c => f i c s | None => Waits end.

Definition step (e : event) (s : system) : result :=
  match e with
  | Start input => Moves (mkSys (srv s) (up s) (s_box s) (clients s ++ [start_client input]) (g_sent s))
  | ReadLine i => with_client i s read_line
  | Interrupt i => with_client i s sigint
  | Receive i => with_client i s receiver_turn
  | Notify i => with_client i s notify
  | Finish i => with_client i s finish
  | Serve => if up s then serve s else Waits
  | StopServer => if up s then Moves (stop_server s) else Waits
  end.

(** Events that are not possible now are passed over. *)
Fixpoint run (es : list event) (s : system) : result :=
  match es with
  | [] => Moves s
  | e :: es' => match step e s with Moves s' => run es' s' | Waits => run es' s | Undefined => Undefined end
  end.

End system.

(** The server has started, with [junk] in its buffer, and no client. *)
Definition init (junk : list byte) : system := mkSys (init_server junk) true [] [] [].

(** ** What the clients are told *)

(** All clients are one to the server: [count] packets of theirs so far, none if unknown. *)
Definition answer_to (count : option Z) (msg : cstr) : Z * option cstr :=
  match count with
  | None => (1, Some (msg ++ [SP] ++ dec 1))
  | Some n => if bool_decide (msg = DISCONNECT) then (0, None) else (n + 1, Some (msg ++ [SP] ++ dec (n + 1)))
  end.

Fixpoint count_after (count : option Z) (msgs : list cstr) : option Z :=
  match msgs with [] => count | m :: l => count_after (Some (answer_to count m).1) l end.

Fixpoint replies (count : option Z) (msgs : list cstr) : list cstr :=
  match msgs with
  | [] => []
  | m :: l => option_list (answer_to count m).2 ++ replies (Some (answer_to count m).1) l
  end.

(** What a client has printed of the answers. *)
Definition answers (c : client) : list cstr :=
  omap (fun x => match x with Answer t => Some t | _ => None end) (cl_out c).

(** ** Invariant *)

Section proofs.
Context (hdr : Z -> byte) (stale : list byte).

(** What is on the wire: a client's message or the server's answer. *)
Inductive message := Req (m : cstr) | Rep (t : cstr).

Definition udp_of (w : message) : list byte :=
  match w with Req m => udp_packet CLIENT_PORT SERVER_PORT m | Rep t => udp_packet SERVER_PORT CLIENT_PORT t end.
Definition bytes (w : message) : list byte := ip_packet LOCALHOST [] hdr (udp_of w).

Definition msg_ok (m : cstr) : Prop := (length m < INPUT_SIZE)%nat /\ NUL ∉ m.
Definition good (w : message) : Prop :=
  match w with Req m => msg_ok m | Rep t => t <> [] /\ NUL ∉ t /\ (length t < 600)%nat end.

Definition reqs : list message -> list cstr := omap (fun w => match w with Req m => Some m | _ => None end).
Definition reps : list message -> list cstr := omap (fun w => match w with Rep t => Some t | _ => None end).

Definition all_clients (c : option Z) : gmap (Z * Z) Z :=
  match c with None => ∅ | Some n => {[ (LOCALHOST, CLIENT_PORT) := n ]} end.

(** [R] are the answers of the server so far. *)
Record client_ok (R : list cstr) (c : client) : Prop := {
  co_open : cl_thread c = true -> is_open c = true;
  co_out : exists k, (k <= length R)%nat /\
    (if cl_thread c then exists W, cl_box c = bytes <$> W /\ Forall good W /\ answers c ++ reps W = drop k R
     else answers c `prefix_of` drop k R)
}.

(** The server has seen the first [n] messages. *)
Record inv (n : nat) (s : system) : Prop := {
  in_n : (n <= length (g_sent s))%nat;
  in_msgs : Forall msg_ok (g_sent s);
  in_server : server_ok (srv s);
  in_counts : counts (clients_list (srv s)) (count_of_clients (srv s)) = all_clients (count_after None (take n (g_sent s)));
  in_box : up s = true -> exists W, s_box s = bytes <$> W /\ Forall good W /\ reqs W = drop n (g_sent s);
  in_clients : forall (i : nat) c, clients s !! i = Some c -> client_ok (replies None (take n (g_sent s))) c
}.

Lemma client_ok_wire R c w :
  client_ok R c -> good w -> client_ok (R ++ reps [w]) (deliver (bytes w) c).
Proof.
  intros [Ho (k & Hk & Hout)] Hw. unfold deliver. destruct (is_open c) eqn:Eo.
  - split; [done|]. exists k. rewrite length_app. split; [lia|]. cbn [cl_thread cl_box].
    rewrite drop_app_le by done. destruct (cl_thread c).
    + destruct Hout as (W & -> & HW & HR). exists (W ++ [w]). split_and!.
      * by rewrite fmap_app.
      * by apply Forall_app_2; [|constructor].
      * change (answers _) with (answers c). unfold reps. rewrite omap_app, app_assoc. by f_equal.
    + change (answers _) with (answers c). by apply prefix_app_r.
  - assert (cl_thread c = false) as Et by (destruct (cl_thread c); [by specialize (Ho eq_refl)|done]).
    split; [by rewrite Et|]. exists k. rewrite length_app, Et in *. split; [lia|].
    rewrite drop_app_le by done. by apply prefix_app_r.
Qed.

Lemma clients_wire R (cs : list client) w :
  (forall (i : nat) c, cs !! i = Some c -> client_ok R c) -> good w ->
  forall (i : nat) c, (deliver (bytes w) <$> cs) !! i = Some c -> client_ok (R ++ reps [w]) c.
Proof. intros H Hw i c. rewrite list_lookup_fmap_Some. intros (c' & -> & Hc). apply client_ok_wire; eauto. Qed.

Lemma inv_set_client n s i c : inv n s -> client_ok (replies None (take n (g_sent s))) c -> inv n (set_client i c s).
Proof.
  intros [? ? ? ? ? Hc] Hok. split; try done. intros j d. cbn. intros [(-> & <- & _)|[_ Hd]]%list_lookup_insert_Some; eauto.
Qed.

(** A message is sent. *)
Lemma inv_send n s m :
  inv n s -> msg_ok m -> exists s', send hdr m s = Moves s' /\ inv n s' /\ g_sent s' = g_sent s ++ [m].
Proof.
  intros [Hn Hm Hs Hc Hb Hcl] Hok. unfold send, send_udp_message. destruct Hok as [Hlen Hnul].
  rewrite (proj2 (Nat.ltb_lt _ _)) by (unfold INPUT_SIZE, BUFFER_SIZE in *; lia).
  eexists. split; [done|]. split; [|done]. split; cbn [wire g_sent srv up s_box clients].
  - rewrite length_app. lia.
  - apply Forall_app_2; [done|]. by constructor.
  - done.
  - by rewrite take_app_le.
  - intros Hup. rewrite Hup. destruct (Hb Hup) as (W & -> & HW & HR). exists (W ++ [Req m]). split_and!.
    + by rewrite fmap_app.
    + apply Forall_app_2; [done|]. by constructor.
    + unfold reqs in *. rewrite omap_app, HR. by rewrite drop_app_le.
  - rewrite take_app_le by done. intros i c Hi. rewrite <- (app_nil_r (replies _ _)).
    by apply (clients_wire _ _ (Req m) Hcl (conj Hlen Hnul) i c).
Qed.

Lemma disconnect_ok : msg_ok DISCONNECT.
Proof. split; [vm_compute; lia|apply (bool_decide_unpack _); vm_compute; exact I]. Qed.

Lemma line_ok raw : (length raw < INPUT_SIZE)%nat -> msg_ok (chop_newline (c_str raw)).
Proof.
  intros Hl. unfold chop_newline, c_str. split.
  - eapply Nat.le_lt_trans; [apply take_while_length|].
    eapply Nat.le_lt_trans; [apply take_while_length|done].
  - assert (Forall (fun c => negb (c =? NUL) = true) (take_while (fun c => negb (c =? NL)) (take_while (fun c => negb (c =? NUL)) raw)))
      as HF by apply take_while_Forall_pres, take_while_Forall.
    rewrite Forall_forall in HF. intros Hin. by apply HF in Hin.
Qed.

Lemma count_after_snoc c l m : count_after c (l ++ [m]) = Some (answer_to (count_after c l) m).1.
Proof. revert c. induction l as [|x l IH]; intros c; [done|apply IH]. Qed.

Lemma replies_snoc c l m : replies c (l ++ [m]) = replies c l ++ option_list (answer_to (count_after c l) m).2.
Proof.
  revert c. induction l as [|x l IH]; intros c; cbn; [by rewrite app_nil_r|]. by rewrite IH, app_assoc.
Qed.

Lemma count_after_bound l n : count_after None l = Some n -> 0 <= n <= Z.of_nat (length l).
Proof.
  revert n. induction l as [|m l IH] using rev_ind; intros n; [done|].
  rewrite count_after_snoc, length_app. intros [= <-]. cbn [length].
  destruct (count_after None l) as [v|]; cbn; [|lia]. specialize (IH v eq_refl). case_bool_decide; cbn; lia.
Qed.

Lemma client_bounds :
  0 <= LOCALHOST < 4294967296 /\ 0 <= CLIENT_PORT < 65536 /\ 0 <= SERVER_PORT < 65536.
Proof. unfold LOCALHOST, CLIENT_PORT, SERVER_PORT. lia. Qed.

(** The server's table after one more message. *)
Lemma serve_request sv cnt m :
  server_ok sv -> counts (clients_list sv) (count_of_clients sv) = all_clients cnt ->
  msg_ok m -> (forall v, cnt = Some v -> 0 <= v /\ v + 1 < INT_MAX) ->
  exists sv', server_packet sv (bytes (Req m)) = Some (sv', (fun t => (LOCALHOST, udp_of (Rep t))) <$> (answer_to cnt m).2) /\
    server_ok sv' /\ counts (clients_list sv') (count_of_clients sv') = all_clients (Some (answer_to cnt m).1).
Proof.
  intros Hs Hc [Hlen Hnul] Hmax. destruct client_bounds as (Hip & Hcp & Hsp).
  assert (counts (clients_list sv) (count_of_clients sv) !! (LOCALHOST, CLIENT_PORT) = cnt) as Hlook.
  { rewrite Hc. destruct cnt; [apply lookup_singleton_eq|apply lookup_empty]. }
  destruct (server_packet_client sv LOCALHOST CLIENT_PORT [] hdr m Hs eq_refl) as (sv' & v & Hstep & Hs' & Hc' & Hv & Hvr);
    [cbn; lia|done..| |].
  { intros v Hv. rewrite Hlook in Hv. by apply Hmax. }
  exists sv'. unfold bytes, udp_of. rewrite Hstep, Hlook. rewrite Hc in Hc'.
  assert (v = (answer_to cnt m).1 /\
    counts (clients_list sv') (count_of_clients sv') = all_clients (Some (answer_to cnt m).1)) as [-> Hc2].
  { rewrite Hc' in Hv |- *. unfold count_packet, all_clients, answer_to in *. destruct cnt as [k|].
    - rewrite lookup_singleton_eq, insert_singleton_eq, insert_singleton_eq in Hv |- *.
      case_bool_decide; rewrite lookup_singleton_eq in Hv; by injection Hv as <-.
    - rewrite lookup_empty in Hv |- *. rewrite lookup_insert_eq in Hv. by injection Hv as <-. }
  split_and!; [|done..]. destruct cnt as [k|]; unfold answer_to.
  - rewrite (bool_decide_true (is_Some (Some k))) by done. by case_bool_decide.
  - by rewrite (bool_decide_false (is_Some None)) by by intros [].
Qed.

Lemma serve_answer sv t :
  server_ok sv -> good (Rep t) ->
  exists b, server_packet sv (bytes (Rep t)) = Some (mkServer (clients_list sv) (count_of_clients sv) b, None) /\
    length b = BUFFER_SIZE.
Proof.
  intros [Hs Hb] (_ & _ & Hl). destruct client_bounds as (Hip & Hcp & Hsp).
  destruct (server_packet_other sv LOCALHOST SERVER_PORT CLIENT_PORT [] hdr t Hb eq_refl) as (b & Hlb & Hstep);
    [cbn; lia|done..|lia|done|by exists b].
Qed.

Lemma answer_good cnt m t :
  msg_ok m -> (forall v, cnt = Some v -> 0 <= v /\ v + 1 < INT_MAX) -> (answer_to cnt m).2 = Some t -> good (Rep t).
Proof.
  intros [Hlen Hnul] Hmax Ht.
  assert (exists v, 0 <= v <= INT_MAX /\ t = m ++ [SP] ++ dec v) as (v & Hv & ->).
  { destruct cnt as [k|]; cbn in Ht; [|exists 1; by injection Ht as <-].
    case_bool_decide; [done|]. injection Ht as <-. exists (k + 1). specialize (Hmax k eq_refl). split; [lia|done]. }
  split_and!; [by destruct m|by apply answer_clean|].
  pose proof (length_dec_int v Hv). rewrite !length_app. unfold INPUT_SIZE in Hlen. cbn [length]. lia.
Qed.

(** The server takes a packet. *)
Lemma inv_serve n s :
  inv n s -> up s = true -> Z.of_nat (length (g_sent s)) + 1 < INT_MAX ->
  match serve hdr s with
  | Undefined => False
  | Moves s' => g_sent s' = g_sent s /\ exists n', inv n' s'
  | Waits => True
  end.
Proof.
  intros [Hn Hm Hs Hc Hb Hcl] Hup Hmax. destruct (Hb Hup) as (W & HW & HWg & HR). unfold serve. rewrite HW.
  destruct W as [|w W]; [done|]. cbn [fmap list_fmap]. inversion_clear HWg as [|? ? Hw HWg'].
  destruct w as [m|t].
  - set (cnt := count_after None (take n (g_sent s))) in *.
    assert (g_sent s !! n = Some m) as Hnth by (by rewrite <- (Nat.add_0_r n), <- lookup_drop, <- HR).
    pose proof (take_S_r _ _ _ Hnth) as Htake. pose proof (lookup_lt_Some _ _ _ Hnth) as Hlt.
    assert (reqs W = drop (S n) (g_sent s)) as HR'.
    { rewrite (drop_S _ _ _ Hnth) in HR. by injection HR. }
    assert (forall v, cnt = Some v -> 0 <= v /\ v + 1 < INT_MAX) as Hv.
    { intros v Hv%count_after_bound. rewrite length_take in Hv. lia. }
    destruct (serve_request (srv s) cnt m Hs Hc Hw Hv) as (sv' & -> & Hs' & Hc').
    assert (forall t, (answer_to cnt m).2 = Some t -> good (Rep t)) as Hgood by (intros t; by apply answer_good).
    assert (replies None (take (S n) (g_sent s)) = replies None (take n (g_sent s)) ++ option_list (answer_to cnt m).2) as Hrep
      by by rewrite Htake, replies_snoc.
    destruct (answer_to cnt m).2 as [t|] eqn:Et; cbn [fmap option_fmap option_map]; (split; [done|]); exists (S n);
      (split; cbn [wire srv up s_box clients g_sent]; [lia|done|done|by rewrite Htake, count_after_snoc|..]).
    + intros _. rewrite Hup. exists (W ++ [Rep t]). split_and!; [by rewrite fmap_app| |].
      * apply Forall_app_2; [done|]. constructor; [by apply Hgood|done].
      * unfold reqs in *. by rewrite omap_app, HR', app_nil_r.
    + rewrite Hrep. apply (clients_wire _ _ (Rep t)); [done|by apply Hgood].
    + intros _. by exists W.
    + by rewrite Hrep, app_nil_r.
  - destruct (serve_answer (srv s) t Hs Hw) as (b & -> & Hlb). split; [done|]. exists n.
    destruct Hs as [Hs1 Hs2]. split; try done. intros _. by exists W.
Qed.

(** A client prints or skips a packet. *)
Lemma inv_receive n s i c :
  inv n s -> clients s !! i = Some c ->
  match receiver_turn stale i c s with
  | Undefined => False
  | Moves s' => g_sent s' = g_sent s /\ inv n s'
  | Waits => True
  end.
Proof.
  intros Hinv Hi. pose proof (in_clients _ _ Hinv _ _ Hi) as [Ho (k & Hk & Hout)]. unfold receiver_turn.
  destruct (cl_thread c) eqn:Et; [|done]. destruct Hout as (W & HW & HWg & HR). rewrite HW.
  destruct W as [|w W]; [done|]. cbn [fmap list_fmap negb]. inversion_clear HWg as [|? ? Hw HWg'].
  destruct client_bounds as (Hip & Hcp & Hsp).
  assert (receiver_packet (bytes w ++ stale) = Some (head (reps [w]))) as ->.
  { destruct w as [m|t]; cbn [bytes udp_of].
    - destruct Hw as [Hl Hn]. unfold INPUT_SIZE in Hl. unfold bytes.
      apply (receiver_skips LOCALHOST CLIENT_PORT SERVER_PORT [] hdr m stale); try done; lia.
    - destruct Hw as (Hne & Hn & Hl). unfold bytes.
      apply (receiver_reads LOCALHOST SERVER_PORT CLIENT_PORT [] hdr t stale); try done; [lia|]. destruct t; [done|cbn; lia]. }
  split; [done|]. apply inv_set_client; [done|]. split; cbn [cl_thread is_open cl_phase]; [by intros _; apply Ho|].
  exists k. split; [done|]. rewrite <- HR.
  set (c' := mkCl _ _ _ _ _ _).
  assert (answers c' ++ reps W = answers c ++ reps (w :: W)) as Ha.
  { unfold answers. destruct w as [m|t]; cbn [c' cl_out head reps omap list_omap]; [done|]. by rewrite omap_app, <- app_assoc. }
  destruct (cl_running c); [by exists W|]. rewrite <- Ha. by eexists.
Qed.

Lemma client_ok_same R c c' :
  client_ok R c -> cl_thread c' = cl_thread c -> cl_box c' = cl_box c -> answers c' = answers c ->
  is_open c' = true -> client_ok R c'.
Proof.
  intros [Ho (k & Hk & Hout)] Ht Hb Ha Hop. split; [done|]. exists k. by rewrite Ht, Hb, Ha.
Qed.

Lemma client_ok_gone R c c' : client_ok R c -> cl_thread c' = false -> answers c' = answers c -> client_ok R c'.
Proof.
  intros [Ho (k & Hk & Hout)] Ht Ha. split; [by rewrite Ht|]. exists k. rewrite Ht, Ha. split; [done|].
  destruct (cl_thread c); [|done]. destruct Hout as (W & _ & _ & <-). by eexists.
Qed.

Lemma answers_snoc c x inp ph r t b :
  (forall u, x <> Answer u) -> answers (mkCl inp ph r t b (cl_out c ++ [x])) = answers c.
Proof. intros Hx. unfold answers. cbn. rewrite omap_app. destruct x; try by rewrite app_nil_r. by destruct (Hx text). Qed.

Lemma start_ok R input : client_ok R (start_client input).
Proof.
  split; [done|]. exists (length R). split; [done|]. exists []. by rewrite drop_all.
Qed.

(** One step from a state of the invariant. *)
Lemma net_step_inv e n s :
  inv n s -> Z.of_nat (length (g_sent s)) + 1 < INT_MAX ->
  match step hdr stale e s with
  | Undefined => False
  | Moves s' => (exists n', inv n' s') /\ (length (g_sent s') <= length (g_sent s) + 1)%nat
  | Waits => True
  end.
Proof.
  intros Hinv Hmax.
  destruct e as [input|i|i|i|i|i| |]; cbn [step]; unfold with_client; try destruct (clients s !! i) as [c|] eqn:Hi; try done;
    try pose proof (in_clients _ _ Hinv _ _ Hi) as Hc.
  - split; [|cbn; lia]. exists n. destruct Hinv as [? ? ? ? ? Hcl]. split; try done. cbn. intros j d Hj.
    apply lookup_app_Some in Hj as [Hj|[_ Hj]]; [by eapply Hcl|].
    apply list_lookup_singleton_Some in Hj as [_ <-]. apply start_ok.
  - unfold read_line. destruct (cl_phase c) eqn:Ep; try done.
    destruct (fgets INPUT_SIZE (cl_in c)) as [[raw rest]|] eqn:Ef; [|split; [by exists n|lia]].
    apply fgets_spec in Ef as [_ Hraw].
    set (s' := set_client i _ s).
    assert (inv n s') as Hinv' by (apply inv_set_client; [done|]; by apply (client_ok_same _ c)).
    case_bool_decide; [split; [by exists n|cbn; lia]|].
    destruct (inv_send n s' (chop_newline (c_str raw)) Hinv') as (s2 & -> & H2 & Hg); [apply line_ok; unfold INPUT_SIZE in *; lia|].
    split; [by exists n|]. rewrite Hg, length_app. cbn. lia.
  - unfold sigint. destruct (cl_phase c) eqn:Ep; try done. split; [|cbn; lia]. exists n.
    apply inv_set_client; [done|]. by apply (client_ok_same _ c).
  - pose proof (inv_receive n s i c Hinv Hi) as H. destruct (receiver_turn stale i c s); try done.
    destruct H as [Hg H]. rewrite Hg. split; [by exists n|lia].
  - unfold notify. destruct (cl_phase c) eqn:Ep; try done. set (s' := set_client i _ s).
    assert (inv n s') as Hinv'.
    { apply inv_set_client; [done|]. apply (client_ok_same _ c); try done. by apply answers_snoc. }
    destruct (inv_send n s' DISCONNECT Hinv' disconnect_ok) as (s2 & -> & H2 & Hg).
    split; [by exists n|]. rewrite Hg, length_app. cbn. lia.
  - unfold finish. destruct (cl_phase c) eqn:Ep; try done. split; [|cbn; lia]. exists n.
    apply inv_set_client; [done|]. apply (client_ok_gone _ c); try done. by apply answers_snoc.
  - destruct (up s) eqn:Eu; [|done]. pose proof (inv_serve n s Hinv Eu Hmax) as H.
    destruct (serve hdr s); try done. destruct H as [Hg H]. rewrite Hg. split; [done|lia].
  - destruct (up s) eqn:Eu; [|done]. split; [|cbn; lia]. exists n. by destruct Hinv; split.
Qed.

Lemma run_inv es n s :
  inv n s -> Z.of_nat (length (g_sent s)) + Z.of_nat (length es) < INT_MAX ->
  exists s' n', run hdr stale es s = Moves s' /\ inv n' s'.
Proof.
  revert n s. induction es as [|e es IH]; intros n s Hinv Hl; cbn [run length] in *; [by exists s, n|].
  pose proof (net_step_inv e n s Hinv ltac:(lia)) as Hs. destruct (step hdr stale e s) as [| |s']; [|done|].
  - apply (IH n); [done|lia].
  - destruct Hs as [[n' Hn'] Hg]. apply (IH n'); [done|lia].
Qed.

Lemma net_init_inv junk : length junk = BUFFER_SIZE -> inv 0 (init junk).
Proof.
  intros Hj. split; try done.
  - by apply init_server_ok.
  - intros _. by exists [].
Qed.

(** A table of one key. *)
Lemma one_client sv c :
  server_ok sv -> counts (clients_list sv) (count_of_clients sv) = all_clients c -> (count_of_clients sv <= 1)%nat.
Proof.
  intros [[Hcount _ Hkeys _] _] Hc. unfold counts in Hc. apply (f_equal size) in Hc.
  rewrite map_size_list_to_map in Hc by by rewrite counts_fst.
  rewrite length_fmap, length_take, Nat.min_l in Hc by done. rewrite Hc. destruct c; cbn; [by rewrite map_size_singleton|].
  rewrite map_size_empty. lia.
Qed.

End proofs.

(** Two clients: the second one also prints the answer to the first, and is number two. *)
Definition two_clients : list event :=
  [Start (line (lit "hello")); Start (line (lit "me too")); ReadLine 0; Serve; Receive 1; Receive 1; ReadLine 1; Serve; Serve;
   Receive 0; Receive 0; Receive 0; Receive 0; Interrupt 0; Notify 0; Finish 0; Serve; Serve].


Example two_clients_print :
  match run (fun _ => 0) [] two_clients (init (replicate BUFFER_SIZE 65)) with
  | Moves s => answers <$> clients s = [[lit "hello 1"; lit "me too 2"]; [lit "hello 1"]] /\ g_sent s = [lit "hello"; lit "me too"; DISCONNECT]
  | _ => False
  end.
Proof. vm_compute. done. Qed.
