(* ===== verification/RawNet.v ===== *)
(** * Raw socket programs

    [sockets/raw_sockets]: the clients of [headers/udp], [headers/udp_ip] and
    [headers/udp_ip_eth], which build the headers of a packet in a buffer and wait for
    the answer of [headers/server.c], that server, and [sniffer/simple_udp_sniffer.c].
    A buffer on the stack is a list of bytes of unknown content ([junk]); [None] is
    an access outside it.  Packets are those of [Echo]. *)

From S2P Require Import Prelude CString.
From S2P Require Import Echo.

Definition ETH_P_IP : Z := 2048.
Definition ETH_HLEN : nat := 14.
Definition IP_HLEN : nat := 20.
Definition UDP_HLEN : nat := 8.
Definition STAR : byte := 42.

(** ** Stores *)

(** Storing bytes at an offset of a buffer. *)
Definition put (off : nat) (bs buf : list byte) : option (list byte) :=
  if (off + length bs <=? length buf)%nat
  then Some (take off buf ++ bs ++ drop (off + length bs) buf) else None.

(** [strcpy] *)
Definition put_str (off : nat) (s : cstr) (buf : list byte) : option (list byte) :=
  put off (s ++ [NUL]) buf.

(** ** The checksum of the IP header *)

(** An [unsigned short] read through a pointer: the low byte is the first. *)
Definition get_le16 (b : list byte) (off : Z) : option Z :=
  l ← aget b off; h ← aget b (off + 1); Some (l + h * 256).

Definition le16 (z : Z) : list byte := [z mod 256; z / 256 mod 256].

Fixpoint sum_words (b : list byte) (ptr : Z) (n : nat) (csum : Z) : option Z :=
  match n with
  | O => Some csum
  | S n' => w ← get_le16 b ptr; sum_words b (ptr + 2) n' (u32 (csum + w))
  end.

Definition checksum (b : list byte) (data : Z) : option Z :=
  csum ← sum_words b data 10 0;
  let tmp := Z.shiftr csum 16 in
  let csum := u32 (Z.land csum 65535 + tmp) in
  let csum := u32 (Z.land csum 65535 + Z.shiftr csum 16) in
  Some (u16 (Z.lnot csum)).

(** ** Building the packets *)

(** [udp->source = ...; udp->dest = ...; udp->len = ...; udp->check = 0;] *)
Definition put_udp (off : nat) (data : cstr) (buf : list byte) : option (list byte) :=
  b ← put off (htons 12345) buf;
  b ← put (off + 2) (htons 8080) b;
  b ← put (off + 4) (htons (Z.of_nat UDP_HLEN + Z.of_nat (length data))) b;
  put (off + 6) [0; 0] b.

(** The two fields of four bits share the first byte, the low one first. *)
Definition put_low (off : nat) (v : Z) (buf : list byte) : option (list byte) :=
  x ← aget buf (Z.of_nat off); put off [Z.lor (Z.land x 240) v] buf.
Definition put_high (off : nat) (v : Z) (buf : list byte) : option (list byte) :=
  x ← aget buf (Z.of_nat off); put off [Z.lor (Z.land x 15) (Z.shiftl v 4)] buf.

(** From [ip->ihl] to [ip->protocol]. *)
Definition put_ip (off : nat) (data : cstr) (buf : list byte) : option (list byte) :=
  b ← put_low off 5 buf;
  b ← put_high off 4 b;
  b ← put (off + 1) [0] b;
  b ← put (off + 2) (htons (Z.of_nat IP_HLEN + Z.of_nat UDP_HLEN + Z.of_nat (length data))) b;
  b ← put (off + 4) (htons 1234) b;
  b ← put (off + 6) [0; 0] b;
  b ← put (off + 8) [64] b;
  put (off + 9) [IPPROTO_UDP] b.

(** [headers/udp/client.c]: the buffer and the number of bytes sent. *)
Definition udp_client (data : cstr) (packet : list byte) : option (list byte * nat) :=
  b ← put_str UDP_HLEN data packet;
  b ← put_udp 0 data b;
  Some (b, UDP_HLEN + length data)%nat.

(** [headers/udp_ip/client.c]; the addresses are four bytes in network order. *)
Definition udp_ip_client (saddr daddr : list byte) (data : cstr) (packet : list byte)
  : option (list byte * nat) :=
  b ← put_str (IP_HLEN + UDP_HLEN) data packet;
  b ← put_udp IP_HLEN data b;
  b ← put_ip 0 data b;
  b ← put 10 [0; 0] b;
  b ← put 12 saddr b;
  b ← put 16 daddr b;
  Some (b, IP_HLEN + UDP_HLEN + length data)%nat.

(** [headers/udp_ip_eth/client.c] *)
Definition udp_ip_eth_client (src_mac dst_mac saddr daddr : list byte) (data : cstr) (packet : list byte)
  : option (list byte * nat) :=
  let ip := ETH_HLEN in
  let udp := (ETH_HLEN + IP_HLEN)%nat in
  b ← put_str (udp + UDP_HLEN) data packet;
  b ← put 6 src_mac b;
  b ← put 0 dst_mac b;
  b ← put 12 (htons ETH_P_IP) b;
  b ← put_ip ip data b;
  b ← put (ip + 12) saddr b;
  b ← put (ip + 16) daddr b;
  b ← put (ip + 10) [0; 0] b;
  check ← checksum b (Z.of_nat ip);
  b ← put (ip + 10) (le16 check) b;
  b ← put_udp udp data b;
  Some (b, udp + UDP_HLEN + length data)%nat.

(** ** Waiting for the answer *)

(** What [recvfrom] reports: a packet (possibly empty) or an error. *)
Inductive received := Got (data : list byte) | Failed.

(** [recvfrom(sock, buf, sizeof(buf), ...)] *)
Definition fill (buf data : list byte) : list byte :=
  let d := take (length buf) data in d ++ drop (length d) buf.

(** From the IP header at [off]: what is printed after ["Server: "], [Some None] when the
    packet is for somebody else. *)
Definition read_udp (off : Z) (buf : list byte) : option (option cstr) :=
  ver_ihl ← aget buf off;
  let ip_header_len := Z.land ver_ihl 15 * 4 in
  let udp := off + ip_header_len in
  dest ← get_be16 buf (udp + 2);
  if negb (dest =? 12345) then Some None
  else
    source ← get_be16 buf udp;
    if negb (source =? 8080) then Some None
    else
      udp_len ← get_be16 buf (udp + 4);
      let payload_len := udp_len - Z.of_nat UDP_HLEN in
      text ← fmt_bytes buf (udp + Z.of_nat UDP_HLEN) payload_len;
      Some (Some text).

Definition read_eth (buf : list byte) : option (option cstr) :=
  h_proto ← get_be16 buf 12;
  if negb (h_proto =? ETH_P_IP) then Some None else read_udp (Z.of_nat ETH_HLEN) buf.

(** The loop [while (1)]: the text of the first answer, or none as yet. *)
Fixpoint wait_reply (read : list byte -> option (option cstr)) (buf : list byte) (rs : list received)
  : option (option cstr) :=
  match rs with
  | [] => Some None
  | Failed :: rs' | Got [] :: rs' => wait_reply read buf rs'
  | Got data :: rs' =>
      let buf := fill buf data in
      r ← read buf;
      match r with Some text => Some (Some text) | None => wait_reply read buf rs' end
  end.

(** ** The server *)

Definition SERVER_BUF : nat := 1024.

(** A turn of the loop of [headers/server.c]: the datagram sent back; [rand] is what [rand()]
    returns. *)
Definition server_turn (rand : Z) (buf data : list byte) : option (list byte * option (list byte)) :=
  let d := take (SERVER_BUF - 1) data in
  if bool_decide (d = []) then Some (buf, None)
  else
    let n := Z.of_nat (length d) in
    b ← aset (fill buf d) n NUL;
    b ← (if n >? 1 then aset b (Z.rem rand (n - 1)) STAR else Some b);
    Some (b, Some (c_str b)).

(** ** The sniffer *)

(** [inet_ntoa] *)
Definition inet_ntoa (a : list byte) : cstr :=
  match a with
  | [a; b; c; d] => dec a ++ lit "." ++ dec b ++ lit "." ++ dec c ++ lit "." ++ dec d
  | _ => []
  end.

(** The line printed for a packet: [inet_ntoa] returns the same static buffer both
    times, so both addresses read as the one formatted last, which C leaves open
    ([dst_last]). *)
Definition sniff (dst_last : bool) (buf data : list byte)
  : option (list byte * cstr) :=
  let buf := fill buf data in
  b0 ← aget buf 0;
  let udp := Z.land b0 15 * 4 in
  let saddr := take 4 (drop 12 buf) in
  let daddr := take 4 (drop 16 buf) in
  let shown := inet_ntoa (if dst_last then daddr else saddr) in
  dest ← get_be16 buf (udp + 2);
  source ← get_be16 buf udp;
  udp_len ← get_be16 buf (udp + 4);
  Some (buf,
    lit "UDP |" ++ (if (dest =? 53) || (source =? 53) then lit " DNS |" else [])
    ++ lit " " ++ shown ++ lit ":" ++ dec source ++ lit " -> " ++ shown ++ lit ":" ++ dec dest
    ++ lit " | packet=" ++ dec (Z.of_nat (length (take (Z.to_nat 65536) data))) ++ lit " bytes | udp_len="
    ++ dec udp_len ++ [NL]).

(** ** The packets meant, and the checksum of RFC 1071 *)

Definition byte_ok (x : Z) : Prop := 0 <= x < 256.

(** Addition of 16-bit words with the carry added back, and the sum of a list of words. *)
Definition oc_add (a b : Z) : Z := if a + b <? 65536 then a + b else a + b - 65535.
Definition oc_sum (ws : list Z) : Z := foldl oc_add 0 ws.

(** The words of a header, as the machine reads them and as the network means them. *)
Fixpoint words (word : byte -> byte -> Z) (b : list byte) : list Z :=
  match b with
  | x :: y :: b' => word x y :: words word b'
  | _ => []
  end.
Definition le_word (x y : byte) : Z := x + y * 256.
Definition be_word (x y : byte) : Z := x * 256 + y.

Definition sum (ws : list Z) : Z := foldr Z.add 0 ws.

(** The IP header the clients mean to send. *)
Definition iphdr (check saddr daddr : list byte) (data : cstr) : list byte :=
  [69; 0] ++ htons (20 + 8 + Z.of_nat (length data)) ++ htons 1234 ++ [0; 0; 64; IPPROTO_UDP]
  ++ check ++ saddr ++ daddr.

Definition ethhdr (dst src : list byte) : list byte := dst ++ src ++ htons ETH_P_IP.

(** ** Lemmas: one's complement sums *)

Definition word_ok (w : Z) : Prop := 0 <= w <= 65535.

Lemma oc_add_ok a b : word_ok a -> word_ok b ->
  word_ok (oc_add a b) /\ (oc_add a b) mod 65535 = (a + b) mod 65535 /\ (oc_add a b = 0 <-> a + b = 0).
Proof.
  unfold word_ok, oc_add. intros Ha Hb. case_if; split_and!; try lia.
  replace (a + b - 65535) with (a + b + (-1) * 65535) by lia. apply Z.mod_add. lia.
Qed.

Lemma oc_sum_from_ok ws a : word_ok a -> Forall word_ok ws ->
  word_ok (foldl oc_add a ws) /\ (foldl oc_add a ws) mod 65535 = (a + sum ws) mod 65535 /\
  (foldl oc_add a ws = 0 <-> a + sum ws = 0) /\ 0 <= sum ws.
Proof.
  intros Ha HF. revert a Ha. induction HF as [|w ws Hw _ IH]; intros a Ha; cbn [foldl sum foldr].
  { rewrite Z.add_0_r. split_and!; try done; lia. }
  destruct (oc_add_ok a w Ha Hw) as (H1 & H2 & H3). destruct (IH _ H1) as (I1 & I2 & I3 & I4).
  fold (sum ws). unfold word_ok in *. split_and!; try lia.
  rewrite I2, Zplus_mod, H2, <- Zplus_mod. f_equal. lia.
Qed.

Lemma oc_sum_ok ws : Forall word_ok ws ->
  word_ok (oc_sum ws) /\ (oc_sum ws) mod 65535 = (sum ws) mod 65535 /\
  (oc_sum ws = 0 <-> sum ws = 0) /\ 0 <= sum ws.
Proof. intros HF. apply (oc_sum_from_ok ws 0); [unfold word_ok; lia | done]. Qed.

(** A word is known by its class modulo 65535 and by whether it is 0. *)
Lemma oc_unique a b : word_ok a -> word_ok b -> a mod 65535 = b mod 65535 -> (a = 0 <-> b = 0) -> a = b.
Proof.
  unfold word_ok. intros Ha Hb Hm Hz. destruct (decide (a = 65535)) as [->|Ha'].
  - destruct (decide (b = 65535)); [done|]. rewrite (Z.mod_small b) in Hm by lia.
    change (65535 mod 65535) with 0 in Hm. lia.
  - rewrite (Z.mod_small a) in Hm by lia. destruct (decide (b = 65535)) as [->|]; [|by rewrite Z.mod_small in Hm by lia].
    change (65535 mod 65535) with 0 in Hm. lia.
Qed.

(** Folding the carries of a sum of at most 65537 words twice. *)
Definition fold_carries (s : Z) : Z :=
  let t := s mod 65536 + s / 65536 in t mod 65536 + t / 65536.

Lemma fold_once_mod s : (s mod 65536 + s / 65536) mod 65535 = s mod 65535.
Proof.
  pose proof (Z.div_mod s 65536 ltac:(lia)). set (q := s / 65536) in *. set (r := s mod 65536) in *.
  replace s with (r + q + q * 65535) by lia. by rewrite Z.mod_add.
Qed.

Lemma high_bound s n : 0 <= s < 65536 * (n + 1) -> 0 <= s / 65536 <= n.
Proof. intros Hs. split; [apply Z.div_pos; lia | apply Z.lt_succ_r, Z.div_lt_upper_bound; lia]. Qed.

Lemma fold_carries_ok s : 0 <= s <= 655350 ->
  word_ok (fold_carries s) /\ fold_carries s mod 65535 = s mod 65535 /\ (fold_carries s = 0 <-> s = 0).
Proof.
  intros Hs. unfold fold_carries, word_ok. set (t := s mod 65536 + s / 65536).
  pose proof (Z.div_mod s 65536 ltac:(lia)). pose proof (Z.mod_pos_bound s 65536 ltac:(lia)).
  pose proof (high_bound s 9 ltac:(lia)). pose proof (Z.div_mod t 65536 ltac:(lia)). pose proof (Z.mod_pos_bound t 65536 ltac:(lia)).
  pose proof (high_bound t 1 ltac:(lia)).
  split_and!; try lia. rewrite fold_once_mod. unfold t. by rewrite fold_once_mod.
Qed.

Lemma fold_is_oc ws : Forall word_ok ws -> sum ws <= 655350 -> fold_carries (sum ws) = oc_sum ws.
Proof.
  intros HF Hs. destruct (oc_sum_ok ws HF) as (H1 & H2 & H3 & H4).
  destruct (fold_carries_ok (sum ws)) as (I1 & I2 & I3); [lia|].
  apply oc_unique; [done | done | congruence | tauto].
Qed.

(** ** Lemmas: the checksum of the code *)

Lemma words_app f a b : Nat.Even (length a) -> words f (a ++ b) = words f a ++ words f b.
Proof.
  intros [n Hn]. revert a Hn. induction n as [|n IH]; intros a Hn.
  - by destruct a.
  - destruct a as [|x [|y a]]; simpl in Hn; [lia|lia|]. simpl. f_equal. apply IH. lia.
Qed.

Lemma words_ok b : Forall byte_ok b -> Forall word_ok (words le_word b) /\ Forall word_ok (words be_word b).
Proof.
  assert (forall n b, (length b <= n)%nat -> Forall byte_ok b ->
    Forall word_ok (words le_word b) /\ Forall word_ok (words be_word b)) as H; [|by apply (H (length b))].
  clear b. induction n as [|n IH]; intros [|x [|y b]] Hl HF; simpl in *; try (split; constructor; fail); try lia.
  apply Forall_cons in HF as [Hx [Hy HF]%Forall_cons]. destruct (IH b) as [I1 I2]; [lia | done |].
  unfold byte_ok in *. split; constructor; try done; unfold word_ok, le_word, be_word; lia.
Qed.

(** Swapping the bytes of every word multiplies the sum by 256. *)
Lemma sum_swapped b : (sum (words be_word b)) mod 65535 = (256 * sum (words le_word b)) mod 65535.
Proof.
  assert (forall n b, (length b <= n)%nat ->
    exists k, sum (words be_word b) = 256 * sum (words le_word b) + k * 65535) as H.
  { clear b. induction n as [|n IH]; intros [|x [|y b]] Hl; simpl in *; try (exists 0; lia); try lia.
    destruct (IH b) as [k Hk]; [lia|]. exists (k - y). unfold sum in *. cbn [words foldr]. rewrite Hk.
    unfold be_word, le_word. lia. }
  destruct (H (length b) b) as [k ->]; [done|]. by rewrite Z.mod_add.
Qed.

Lemma sum_words_spec b off n csum :
  Forall byte_ok (take (2 * n) (drop off b)) -> (off + 2 * n <= length b)%nat -> 0 <= csum ->
  csum + 65535 * Z.of_nat n < 4294967296 ->
  sum_words b (Z.of_nat off) n csum = Some (csum + sum (words le_word (take (2 * n) (drop off b)))).
Proof.
  revert off csum. induction n as [|n IH]; intros off csum HF Hl H0 Hb; cbn [sum_words].
  { simpl. by rewrite Z.add_0_r. }
  destruct (lookup_lt_is_Some_2 b off) as [x Hx]; [lia|].
  destruct (lookup_lt_is_Some_2 b (S off)) as [y Hy]; [lia|].
  assert (get_le16 b (Z.of_nat off) = Some (le_word x y)) as ->.
  { unfold get_le16, aget. rewrite !(proj2 (Z.leb_le 0 _)) by lia. rewrite Nat2Z.id, Hx. simpl.
    replace (Z.to_nat (Z.of_nat off + 1)) with (S off) by lia. by rewrite Hy. }
  cbn [mbind option_bind]. rewrite (drop_S b x off Hx), (drop_S b y (S off) Hy) in *.
  replace (2 * S n)%nat with (S (S (2 * n))) in * by lia. cbn [take words] in *.
  apply Forall_cons in HF as [Hxb [Hyb HF]%Forall_cons].
  assert (0 <= le_word x y <= 65535) as Hw by (unfold le_word, byte_ok in *; lia).
  replace (u32 (csum + le_word x y)) with (csum + le_word x y) by (unfold u32; rewrite Z.mod_small; lia).
  replace (Z.of_nat off + 2) with (Z.of_nat (S (S off))) by lia.
  rewrite IH by (done || lia). f_equal. cbn [sum foldr]. unfold sum. lia.
Qed.

Lemma sum_bound ws : Forall word_ok ws -> sum ws <= 65535 * Z.of_nat (length ws).
Proof. induction 1 as [|w ws Hw _ IH]; cbn [sum foldr length]; [lia|]. unfold word_ok, sum in *. lia. Qed.

Lemma length_words f b n : length b = (2 * n)%nat -> length (words f b) = n.
Proof.
  revert b. induction n as [|n IH]; intros b Hb; [by destruct b|].
  destruct b as [|x [|y b]]; simpl in Hb; [lia|lia|]. simpl. f_equal. apply IH. lia.
Qed.

Lemma checksum_value b off :
  Forall byte_ok (take 20 (drop off b)) -> (off + 20 <= length b)%nat ->
  let ws := words le_word (take 20 (drop off b)) in
  checksum b (Z.of_nat off) = Some (65535 - oc_sum ws) /\ Forall word_ok ws.
Proof.
  intros HF Hl ws. unfold checksum. rewrite sum_words_spec by (done || lia). cbn [mbind option_bind].
  change (2 * 10)%nat with 20%nat. fold ws. rewrite Z.add_0_l.
  assert (Forall word_ok ws) as Hws by (by apply words_ok).
  split; [|done].
  assert (sum ws <= 655350) as Hs.
  { assert (length ws = 10%nat) as H10 by (apply length_words; rewrite length_take, length_drop; lia).
    pose proof (sum_bound ws Hws). lia. }
  rewrite <- (fold_is_oc ws Hws Hs). destruct (oc_sum_ok ws Hws) as (_ & _ & _ & H0).
  destruct (fold_carries_ok (sum ws)) as (H1 & _); [lia|]. f_equal.
  assert (forall z, Z.land z 65535 = z mod 65536) as Hland by (intros z; apply (Z.land_ones z 16); lia).
  rewrite !Hland, !Z.shiftr_div_pow2 by lia. change (2 ^ 16) with 65536.
  assert (forall s, 0 <= s <= 655350 -> u32 (s mod 65536 + s / 65536) = s mod 65536 + s / 65536) as Hu.
  { intros s Hs'. unfold u32. apply Z.mod_small. pose proof (Z.mod_pos_bound s 65536 ltac:(lia)).
    pose proof (high_bound s 9 ltac:(lia)). lia. }
  rewrite (Hu (sum ws)) by lia. rewrite Hu.
  2: { pose proof (Z.mod_pos_bound (sum ws) 65536 ltac:(lia)).
    pose proof (high_bound (sum ws) 9 ltac:(lia)). lia. }
  change (_ mod 65536 + _ / 65536) with (fold_carries (sum ws)) at 1. set (c := fold_carries _) in *. unfold word_ok in H1.
  unfold u16, Z.lnot. replace (Z.pred (- c)) with (65535 - c + (-1) * 65536) by lia.
  rewrite Z.mod_add by lia. apply Z.mod_small. lia.
Qed.

Lemma sum_app a b : sum (a ++ b) = sum a + sum b.
Proof. induction a as [|x a IH]; cbn [app sum foldr]; [done|]. unfold sum in *. lia. Qed.

Lemma sum_le_be b : Forall byte_ok b -> sum (words le_word b) <= 256 * sum (words be_word b).
Proof.
  assert (forall n b, (length b <= n)%nat -> Forall byte_ok b ->
    sum (words le_word b) <= 256 * sum (words be_word b)) as H; [|by apply (H (length b))].
  clear b. induction n as [|n IH]; intros [|x [|y b]] Hl HF; simpl in Hl; try (simpl; lia).
  apply Forall_cons in HF as [Hx [Hy HF]%Forall_cons]. pose proof (IH b ltac:(lia) HF) as Hb.
  unfold sum in *. cbn [words foldr]. unfold byte_ok, le_word, be_word in *. lia.
Qed.

Lemma le16_ok z : 0 <= z <= 65535 -> Forall byte_ok (le16 z) /\ words le_word (le16 z) = [z].
Proof.
  intros Hz. unfold le16. rewrite (Z.mod_small (z / 256))
    by (split; [apply Z.div_pos; lia | apply Z.div_lt_upper_bound; lia]).
  pose proof (Z.div_mod z 256 ltac:(lia)). pose proof (Z.mod_pos_bound z 256 ltac:(lia)).
  assert (0 <= z / 256 < 256) by (split; [apply Z.div_pos; lia | apply Z.div_lt_upper_bound; lia]).
  split; [by list_forall|]. cbn [words]. unfold le_word. f_equal. lia.
Qed.

(** A header with the complement of its sum in place adds up to all ones, whichever way
    round the receiver reads the words. *)
Lemma header_verifies a c :
  Nat.Even (length a) -> Forall byte_ok a -> Forall byte_ok c ->
  let check := 65535 - oc_sum (words le_word (a ++ [0; 0] ++ c)) in
  oc_sum (words be_word (a ++ le16 check ++ c)) = 65535.
Proof.
  intros He Ha Hc check.
  assert (Forall byte_ok (a ++ [0; 0] ++ c)) as H0.
  { rewrite !Forall_app. split_and!; [done| |done]. by list_forall. }
  destruct (oc_sum_ok _ (proj1 (words_ok _ H0))) as (H1 & H2 & H3 & H4).
  unfold word_ok in H1. fold check in H1.
  destruct (le16_ok check) as [Hb Hw]; [unfold check; lia|].
  assert (Forall byte_ok (a ++ le16 check ++ c)) as HF by (rewrite !Forall_app; done).
  destruct (oc_sum_ok _ (proj2 (words_ok _ HF))) as (I1 & I2 & I3 & I4).
  assert (sum (words le_word (a ++ le16 check ++ c)) = sum (words le_word (a ++ [0; 0] ++ c)) + check) as Hs.
  { rewrite !words_app by (done || by exists 1%nat). rewrite Hw, !sum_app. cbn [words sum foldr].
    change (le_word 0 0) with 0. lia. }
  pose proof (sum_le_be _ HF) as Hle. rewrite Hs in Hle.
  apply oc_unique; [done | unfold word_ok; lia | |].
  - rewrite I2, sum_swapped, Hs, Zmult_mod, Zplus_mod, <- H2, <- Zplus_mod. unfold check.
    set (o := oc_sum _). replace (o + (65535 - o)) with 65535 by lia. done.
  - rewrite I3. split; [|lia]. intros Hz. unfold check in *. lia.
Qed.

(** ** Lemmas: the packets *)

Lemma nibbles x : Z.lor (Z.land (Z.lor (Z.land x 240) 5) 15) (Z.shiftl 4 4) = 69.
Proof. rewrite Z.land_lor_distr_l, <- Z.land_assoc. change (Z.land 240 15) with 0. by rewrite Z.land_0_r. Qed.

(** A buffer seen as its fields: a store to a field replaces it. *)
Lemma put_field k off bs (fs : list (list byte)) x :
  fs !! k = Some x -> length x = length bs -> off = length (mjoin (take k fs)) ->
  put off bs (mjoin fs) = Some (mjoin (<[k := bs]> fs)).
Proof.
  intros Hk Hx ->. pose proof (lookup_lt_Some _ _ _ Hk) as Hlt.
  rewrite <- (take_drop_middle fs k x Hk) at 2.
  rewrite insert_take_drop by done. rewrite !join_app. cbn [mjoin list_join].
  unfold put. rewrite (proj2 (Nat.leb_le _ _)) by (rewrite !length_app; lia).
  by rewrite take_app_length, <- Hx, drop_app_add, drop_app_length.
Qed.

Lemma get_field k off (fs : list (list byte)) x :
  fs !! k = Some [x] -> off = length (mjoin (take k fs)) -> aget (mjoin fs) (Z.of_nat off) = Some x.
Proof.
  intros Hk ->. rewrite <- (take_drop_middle fs k [x] Hk) at 1. rewrite join_app.
  rewrite <- (Z.add_0_r (Z.of_nat _)), aget_app_r by lia. done.
Qed.

(** The fields of the lengths [lens] and what follows them. *)
Lemma cut_fields lens (b : list byte) :
  (foldr Nat.add 0 lens <= length b)%nat ->
  exists fs rest, b = mjoin (fs ++ [rest]) /\ length <$> fs = lens.
Proof.
  revert b. induction lens as [|n lens IH]; intros b Hl; cbn [foldr] in Hl.
  - exists [], b. simpl. by rewrite app_nil_r.
  - destruct (IH (drop n b)) as (fs & rest & Hd & Hf); [rewrite length_drop; lia|].
    exists (take n b :: fs), rest. split.
    { change (b = take n b ++ mjoin (fs ++ [rest])). by rewrite <- Hd, take_drop. }
    csimpl. rewrite Hf, length_take. f_equal. lia.
Qed.

Lemma put_low_field k off v (fs : list (list byte)) x :
  fs !! k = Some [x] -> off = length (mjoin (take k fs)) ->
  put_low off v (mjoin fs) = Some (mjoin (<[k := [Z.lor (Z.land x 240) v]]> fs)).
Proof. intros Hk Ho. unfold put_low. rewrite (get_field k off fs x) by done. simpl. by eapply put_field. Qed.

Lemma put_high_field k off v (fs : list (list byte)) x :
  fs !! k = Some [x] -> off = length (mjoin (take k fs)) ->
  put_high off v (mjoin fs) = Some (mjoin (<[k := [Z.lor (Z.land x 15) (Z.shiftl v 4)]]> fs)).
Proof. intros Hk Ho. unfold put_high. rewrite (get_field k off fs x) by done. simpl. by eapply put_field. Qed.

(** Lengths of the fields in front of a store. *)
Ltac field_len := cbn [take mjoin list_join]; rewrite ?length_app; simpl; lia.
Ltac store k :=
  first [erewrite (put_field k); [|reflexivity|field_len|field_len]
        |erewrite (put_low_field k); [|reflexivity|field_len]
        |erewrite (put_high_field k); [|reflexivity|field_len]];
  cbn [insert list_insert mbind option_bind].

Lemma take_front {A} n (x p q : list A) : x = p ++ q -> length p = n -> take n x = p.
Proof. intros -> <-. apply take_app_length. Qed.

Lemma udp_client_sends data junk :
  (8 + length data < length junk)%nat ->
  exists b, udp_client data junk = Some (b, 8 + length data)%nat /\
    take (8 + length data) b = udp_packet 12345 8080 data.
Proof.
  intros Hl. destruct (cut_fields [2; 2; 2; 2; length data + 1]%nat junk) as (fs & rest & Hj & Hf);
    [simpl; lia|].
  destruct fs as [|f0 [|f1 [|f2 [|f3 [|f4 [|]]]]]]; try discriminate Hf. injection Hf as H0 H1 H2 H3 H4.
  unfold udp_client, put_str, put_udp. rewrite Hj. cbn [app]. change UDP_HLEN with 8%nat.
  store 4%nat. store 0%nat. store 1%nat. store 2%nat. store 3%nat.
  eexists. split; [done|]. apply (take_front _ _ _ ([NUL] ++ rest)); [|done].
  unfold udp_packet, UDP_HEADER. cbn [mjoin list_join]. by rewrite !app_nil_r, <- !app_assoc.
Qed.

Lemma udp_ip_client_sends saddr daddr data junk :
  length saddr = 4%nat -> length daddr = 4%nat -> (28 + length data < length junk)%nat ->
  exists b, udp_ip_client saddr daddr data junk = Some (b, 28 + length data)%nat /\
    take (28 + length data) b = iphdr [0; 0] saddr daddr data ++ udp_packet 12345 8080 data.
Proof.
  intros Hsa Hda Hl.
  destruct (cut_fields [1; 1; 2; 2; 2; 1; 1; 2; 4; 4; 2; 2; 2; 2; length data + 1]%nat junk)
    as (fs & rest & Hj & Hf); [simpl; lia|].
  destruct fs as [|f0 [|f1 [|f2 [|f3 [|f4 [|f5 [|f6 [|f7 [|f8 [|f9 [|f10 [|f11 [|f12 [|f13 [|f14 [|]]]]]]]]]]]]]]]];
    try discriminate Hf. injection Hf as H0 H1 H2 H3 H4 H5 H6 H7 H8 H9 H10 H11 H12 H13 H14.
  destruct f0 as [|x [|]]; try discriminate H0.
  unfold udp_ip_client, put_str, put_udp, put_ip. rewrite Hj. cbn [app]. change UDP_HLEN with 8%nat.
  change IP_HLEN with 20%nat.
  store 14%nat. store 10%nat. store 11%nat. store 12%nat. store 13%nat.
  store 0%nat. store 0%nat. rewrite nibbles. store 1%nat. store 2%nat. store 3%nat. store 4%nat.
  store 5%nat. store 6%nat. store 7%nat. store 8%nat. store 9%nat.
  eexists. split; [done|]. apply (take_front _ _ _ ([NUL] ++ rest)).
  - unfold iphdr, udp_packet, UDP_HEADER. cbn [mjoin list_join]. by rewrite !app_nil_r, <- !app_assoc.
  - unfold iphdr. rewrite !length_app, length_udp_packet. simpl. lia.
Qed.

Lemma htons_ok z : Forall byte_ok (htons z).
Proof. unfold htons. list_forall; unfold byte_ok; apply Z.mod_pos_bound; lia. Qed.

Lemma iphdr_bytes check saddr daddr data :
  Forall byte_ok check -> Forall byte_ok saddr -> Forall byte_ok daddr ->
  Forall byte_ok (iphdr check saddr daddr data).
Proof.
  intros Hc Hs Hd. unfold iphdr. rewrite !Forall_app. split_and!; try apply htons_ok; try done.
  - by list_forall.
  - by list_forall.
Qed.

(** The complement of the sum of the header without its checksum. *)
Definition ip_check (saddr daddr : list byte) (data : cstr) : Z :=
  65535 - oc_sum (words le_word (iphdr [0; 0] saddr daddr data)).

Lemma ip_check_verifies saddr daddr data :
  Forall byte_ok saddr -> Forall byte_ok daddr ->
  oc_sum (words be_word (iphdr (le16 (ip_check saddr daddr data)) saddr daddr data)) = 65535.
Proof.
  intros Hs Hd.
  pose proof (header_verifies ([69; 0] ++ htons (20 + 8 + Z.of_nat (length data)) ++ htons 1234
    ++ [0; 0; 64; IPPROTO_UDP]) (saddr ++ daddr)) as H. cbn zeta in H. rewrite <- !app_assoc in H.
  apply H.
  - by exists 5%nat.
  - rewrite !Forall_app. split_and!; try apply htons_ok; by list_forall.
  - by apply Forall_app.
Qed.

Lemma udp_ip_eth_client_sends src dst saddr daddr data junk :
  length src = 6%nat -> length dst = 6%nat -> length saddr = 4%nat -> length daddr = 4%nat ->
  Forall byte_ok saddr -> Forall byte_ok daddr -> (42 + length data < length junk)%nat ->
  exists b, udp_ip_eth_client src dst saddr daddr data junk = Some (b, 42 + length data)%nat /\
    take (42 + length data) b =
      ethhdr dst src ++ iphdr (le16 (ip_check saddr daddr data)) saddr daddr data
      ++ udp_packet 12345 8080 data.
Proof.
  intros Hsm Hdm Hsa Hda Hsb Hdb Hl.
  destruct (cut_fields [6; 6; 2; 1; 1; 2; 2; 2; 1; 1; 2; 4; 4; 2; 2; 2; 2; length data + 1]%nat junk)
    as (fs & rest & Hj & Hf); [simpl; lia|].
  destruct fs as [|f0 [|f1 [|f2 [|f3 [|f4 [|f5 [|f6 [|f7 [|f8 [|f9 [|f10 [|f11 [|f12 [|f13 [|f14
    [|f15 [|f16 [|f17 [|]]]]]]]]]]]]]]]]]]]; try discriminate Hf.
  injection Hf as H0 H1 H2 H3 H4 H5 H6 H7 H8 H9 H10 H11 H12 H13 H14 H15 H16 H17.
  destruct f3 as [|x [|]]; try discriminate H3.
  unfold udp_ip_eth_client, put_str, put_udp, put_ip. rewrite Hj. cbn [app]. change UDP_HLEN with 8%nat.
  change IP_HLEN with 20%nat. change ETH_HLEN with 14%nat.
  store 17%nat. store 1%nat. store 0%nat. store 2%nat.
  store 3%nat. store 3%nat. rewrite nibbles. store 4%nat. store 5%nat. store 6%nat. store 7%nat.
  store 8%nat. store 9%nat. store 11%nat. store 12%nat. store 10%nat.
  lazymatch goal with |- context [checksum ?b _] => set (B := b) end.
  assert (B = ethhdr dst src ++ iphdr [0; 0] saddr daddr data
    ++ f13 ++ f14 ++ f15 ++ f16 ++ (data ++ [NUL]) ++ rest) as HB.
  { unfold B, ethhdr, iphdr. cbn [mjoin list_join]. by rewrite !app_nil_r, <- !app_assoc. }
  assert (length (ethhdr dst src) = 14%nat /\ length (iphdr [0; 0] saddr daddr data) = 20%nat) as [He Hi]
    by (unfold ethhdr, iphdr; rewrite !length_app; simpl; lia).
  assert (take 20 (drop 14 B) = iphdr [0; 0] saddr daddr data) as Htd
    by (rewrite HB, drop_app_length' by done; by apply take_app_length').
  destruct (checksum_value B 14) as [Hcheck _].
  { rewrite Htd. apply iphdr_bytes; [by list_forall | done | done]. }
  { rewrite HB, !length_app. lia. }
  rewrite Hcheck, Htd. fold (ip_check saddr daddr data). cbn [mbind option_bind]. subst B.
  store 10%nat. store 13%nat. store 14%nat. store 15%nat. store 16%nat.
  eexists. split; [done|]. apply (take_front _ _ _ ([NUL] ++ rest)).
  - unfold ethhdr, iphdr, udp_packet, UDP_HEADER. cbn [mjoin list_join]. by rewrite !app_nil_r, <- !app_assoc.
  - unfold ethhdr, iphdr. rewrite !length_app, length_udp_packet. simpl. lia.
Qed.

(** ** Lemmas: the server *)

(** The text with one character, never the last, replaced. *)
Definition starred (rand : Z) (d : cstr) : cstr :=
  if (1 <? length d)%nat then <[Z.to_nat (rand mod (Z.of_nat (length d) - 1)) := STAR]> d else d.

Lemma starred_clean rand d : NUL ∉ d -> NUL ∉ starred rand d.
Proof.
  intros Hn. unfold starred. destruct (_ <? _)%nat; [|done].
  intros (i & Hi)%list_elem_of_lookup_1. apply list_lookup_insert_Some in Hi as [(_ & ? & _)|(_ & Hi)]; [done|].
  by apply Hn, (list_elem_of_lookup_2 _ i).
Qed.

Lemma server_turn_ok rand buf d :
  length buf = SERVER_BUF -> 0 <= rand -> d <> [] -> NUL ∉ d -> (length d < SERVER_BUF)%nat ->
  exists buf', server_turn rand buf d = Some (buf', Some (starred rand d)) /\ length buf' = SERVER_BUF.
Proof.
  intros Hb Hr Hd Hn Hl. unfold server_turn. rewrite take_ge by lia. rewrite bool_decide_false by done.
  assert (0 < length d)%nat as Hpos by (destruct d; [done | simpl; lia]).
  destruct (drop (length d) buf) as [|x rest] eqn:Hx.
  { apply (f_equal length) in Hx. rewrite length_drop in Hx. simpl in Hx. lia. }
  unfold fill. rewrite take_ge by lia. rewrite Hx.
  assert (length rest = SERVER_BUF - length d - 1)%nat as Hlr.
  { apply (f_equal length) in Hx. rewrite length_drop in Hx. cbn [length] in Hx. lia. }
  rewrite aset_is_Some by (rewrite length_app; cbn [length]; lia). cbn [mbind option_bind].
  rewrite Nat2Z.id, insert_app_r_alt, Nat.sub_diag by lia. cbn [insert list_insert].
  unfold starred. destruct (Z.of_nat (length d) >? 1) eqn:E; bool_to_prop.
  - apply Z.gtb_lt in E. rewrite (proj2 (Nat.ltb_lt 1 _)) by lia.
    rewrite Z.rem_mod_nonneg by lia. pose proof (Z.mod_pos_bound rand (Z.of_nat (length d) - 1) ltac:(lia)).
    rewrite aset_is_Some by (rewrite length_app; cbn [length]; lia). cbn [mbind option_bind].
    rewrite insert_app_l by lia. rewrite c_str_prefix.
    2: { pose proof (starred_clean rand d Hn) as Hs. unfold starred in Hs.
         by rewrite (proj2 (Nat.ltb_lt 1 _)) in Hs by lia. }
    eexists. split; [done|]. rewrite length_app, length_insert. cbn [length]. unfold SERVER_BUF in *. lia.
  - rewrite Z.gtb_ltb in E. bool_to_prop. rewrite (proj2 (Nat.ltb_ge 1 _)) by lia. cbn [mbind option_bind].
    rewrite c_str_prefix by done.
    eexists. split; [done|]. rewrite length_app. cbn [length]. unfold SERVER_BUF in *. lia.
Qed.

(** ** Lemmas: waiting for the answer *)

Lemma read_udp_shift pre b : read_udp (Z.of_nat (length pre)) (pre ++ b) = read_udp 0 b.
Proof.
  unfold read_udp. rewrite <- (Z.add_0_r (Z.of_nat _)), aget_app_r by lia. rewrite Z.add_0_r.
  destruct (aget b 0) as [v|]; [|done]. cbn [mbind option_bind].
  pose proof (proj2 (Z.land_nonneg v 15) ltac:(right; lia)) as Hv.
  set (l := Z.land v 15 * 4). assert (0 <= l) by lia.
  rewrite <- !Z.add_assoc, !get_be16_app_r by lia. rewrite !Z.add_0_l.
  destruct (get_be16 b (l + 2)) as [d|]; [|done]. cbn [mbind option_bind]. case_if; [done|].
  destruct (get_be16 b l) as [s|]; [|done]. cbn [mbind option_bind]. case_if; [done|].
  destruct (get_be16 b (l + 4)) as [u|]; [|done]. cbn [mbind option_bind].
  unfold fmt_bytes. replace (Z.to_nat (Z.of_nat (length pre) + (l + Z.of_nat UDP_HLEN)))
    with (length pre + Z.to_nat (l + Z.of_nat UDP_HLEN))%nat by lia.
  by rewrite drop_app_add.
Qed.

(** A UDP packet as the network delivers it. *)
Record datagram := mkDatagram {
  d_saddr : Z; d_opts : list byte; d_hdr : Z -> byte; d_source : Z; d_dest : Z; d_text : list byte
}.

Record datagram_ok (d : datagram) : Prop := {
  do_opts : (Z.of_nat (length (d_opts d)) mod 4 = 0) /\ Z.of_nat (length (d_opts d)) <= 40;
  do_saddr : 0 <= d_saddr d < 4294967296;
  do_source : 0 <= d_source d < 65536;
  do_dest : 0 <= d_dest d < 65536;
  do_text : NUL ∉ d_text d;
  do_len : (length (d_text d) <= 900)%nat
}.

Definition bytes_of (d : datagram) : list byte :=
  ip_packet (d_saddr d) (d_opts d) (d_hdr d) (udp_packet (d_source d) (d_dest d) (d_text d)).

Definition for_client (d : datagram) : bool := (d_dest d =? 12345) && (d_source d =? 8080).

Lemma length_bytes_of d : datagram_ok d -> (28 <= length (bytes_of d) <= 968)%nat.
Proof.
  intros [[_ Ho] _ _ _ _ Hl]. unfold bytes_of. rewrite length_ip_packet, length_udp_packet. lia.
Qed.

Lemma read_datagram d rest :
  datagram_ok d ->
  read_udp 0 (bytes_of d ++ rest) = Some (if for_client d then Some (d_text d) else None).
Proof.
  intros [Ho Hs Hsp Hdp Ht Hl]. unfold bytes_of.
  assert (Z.of_nat (length (d_text d)) < 65528) as Hlt by lia.
  destruct (pkt_head (d_saddr d) (d_source d) (d_dest d) (d_opts d) (d_hdr d) (d_text d) rest)
    as (Hh & _ & _); try done.
  destruct (pkt_ports (d_saddr d) (d_source d) (d_dest d) (d_opts d) (d_hdr d) (d_text d) rest)
    as (H0 & H2 & H4); try done.
  pose proof (pkt_text (d_saddr d) (d_source d) (d_dest d) (d_opts d) (d_hdr d) (d_text d) rest) as Htx.
  unfold read_udp. rewrite Hh. cbn [mbind option_bind]. 
  rewrite (ihl_value (d_saddr d) (d_source d) (d_dest d) (d_opts d) (d_hdr d) (d_text d) rest) by done. rewrite !Z.add_0_l.
  rewrite H2. cbn [mbind option_bind]. unfold for_client.
  destruct (d_dest d =? 12345); [|done]. cbn [negb andb]. rewrite H0. cbn [mbind option_bind].
  destruct (d_source d =? 8080); [|done]. cbn [negb]. rewrite H4. cbn [mbind option_bind].
  change (Z.of_nat UDP_HLEN) with 8. replace (8 + _ - 8) with (Z.of_nat (length (d_text d))) by lia.
  rewrite Htx by done. done.
Qed.

(** What may come before the answer. *)
Definition noise_ok (wrap : list byte -> list byte) (r : received) : Prop :=
  r = Failed \/ r = Got [] \/ exists d, datagram_ok d /\ for_client d = false /\ r = Got (wrap (bytes_of d)).

(** A client whose buffer holds [size] bytes and which finds the IP packets it reads behind
    [wrap]. *)
Lemma wait_reply_ok read wrap size :
  (forall d rest, datagram_ok d ->
     read (wrap (bytes_of d) ++ rest) = Some (if for_client d then Some (d_text d) else None)) ->
  (forall d, datagram_ok d -> (0 < length (wrap (bytes_of d)) <= size)%nat) ->
  forall rs buf d more, length buf = size -> Forall (noise_ok wrap) rs -> datagram_ok d -> for_client d = true ->
  wait_reply read buf (rs ++ Got (wrap (bytes_of d)) :: more) = Some (Some (d_text d)).
Proof.
  intros Hread Hlen.
  assert (forall buf d rs, length buf = size -> datagram_ok d ->
    exists buf', length buf' = size /\
      wait_reply read buf (Got (wrap (bytes_of d)) :: rs) =
        if for_client d then Some (Some (d_text d)) else wait_reply read buf' rs) as Hstep.
  { intros buf d rs Hb Hd. pose proof (Hlen d Hd) as Hl. cbn [wait_reply].
    destruct (wrap (bytes_of d)) as [|x l] eqn:Ew; [simpl in Hl; lia|]. rewrite <- Ew in *.
    unfold fill. rewrite take_ge by lia. eexists. split; [|rewrite Hread by done; by destruct (for_client d)].
    rewrite length_app, length_drop. lia. }
  intros rs buf d more Hb HF Hd Hfor. revert buf Hb. induction HF as [|r rs Hr _ IH]; intros buf Hb; cbn [app].
  - destruct (Hstep buf d more Hb Hd) as (buf' & _ & ->). by rewrite Hfor.
  - destruct Hr as [-> | [-> | (d' & Hd' & Hf' & ->)]]; [by apply IH | by apply IH |].
    destruct (Hstep buf d' (rs ++ Got (wrap (bytes_of d)) :: more) Hb Hd') as (buf' & Hb' & ->).
    rewrite Hf'. by apply IH.
Qed.

Definition eth_wrap (dst src : list byte) (b : list byte) : list byte := ethhdr dst src ++ b.

Lemma read_eth_datagram dst src d rest :
  length dst = 6%nat -> length src = 6%nat -> datagram_ok d ->
  read_eth (eth_wrap dst src (bytes_of d) ++ rest) = Some (if for_client d then Some (d_text d) else None).
Proof.
  intros Hd Hs Hok. unfold read_eth, eth_wrap. rewrite <- app_assoc.
  assert (length (ethhdr dst src) = 14%nat) as Hl by (unfold ethhdr; rewrite !length_app; simpl; lia).
  assert (get_be16 (ethhdr dst src ++ bytes_of d ++ rest) 12 = Some ETH_P_IP) as ->.
  { unfold ethhdr. rewrite <- !app_assoc, app_assoc.
    replace 12 with (Z.of_nat (length (dst ++ src)) + 0) by (rewrite length_app; lia).
    by rewrite get_be16_app_r by lia. }
  cbn [mbind option_bind]. rewrite Z.eqb_refl. cbn [negb]. change ETH_HLEN with 14%nat. rewrite <- Hl, read_udp_shift.
  by apply read_datagram.
Qed.

(** ** Properties *)

(** C11 (equivalence).  [checksum] is the Internet checksum.  Over any 20 bytes it computes,
    without overflow of the 32-bit sum, the complement of the sum of the ten words
    with every carry added back as it arises (the two folds at the end are enough), and a header with the result stored in
    it, seen in network byte order, adds up to all ones, which is what a
    receiver tests. *)
Theorem checksum_is_rfc1071 b off a c :
  (off + 20 <= length b)%nat -> take 20 (drop off b) = a ++ [0; 0] ++ c ->
  length a = 10%nat -> Forall byte_ok a -> Forall byte_ok c ->
  exists check, checksum b (Z.of_nat off) = Some check /\
    check = 65535 - oc_sum (words le_word (a ++ [0; 0] ++ c)) /\
    oc_sum (words be_word (a ++ le16 check ++ c)) = 65535.
Proof.
  intros Hl Hh Ha Hba Hbc. destruct (checksum_value b off) as [Hc _]; [|done|].
  { rewrite Hh, !Forall_app. split_and!; [done | by list_forall | done]. }
  rewrite Hh in Hc. eexists. split_and!; [exact Hc | done |].
  apply header_verifies; [by exists 5%nat | done | done].
Qed.

(** The example header of RFC 1071's literature: 45 00 00 73 00 00 40 00 40 11 .. c0 a8 00 01
    c0 a8 00 c7, whose checksum is b861. *)
Definition demo_header : list byte :=
  [69; 0; 0; 115; 0; 0; 64; 0; 64; 17] ++ [0; 0] ++ [192; 168; 0; 1; 192; 168; 0; 199].

Lemma checksum_is_rfc1071_witness :
  exists check, checksum demo_header 0 = Some check /\
    check = 65535 - oc_sum (words le_word demo_header) /\
    oc_sum (words be_word (take 10 demo_header ++ le16 check ++ drop 12 demo_header)) = 65535.
Proof.
  refine (checksum_is_rfc1071 demo_header 0 (take 10 demo_header) (drop 12 demo_header) _ _ _ _ _).
  - vm_compute. lia.
  - reflexivity.
  - reflexivity.
  - simpl. by list_forall.
  - simpl. by list_forall.
Defined.

(** C24 (functional).  The clients send exactly the packets they mean to.  Whatever the
    uninitialised buffer holds, as long as the text fits, no store leaves it
    and the bytes handed to [sendto] are the text behind a UDP header, behind an IP and
    a UDP header, and behind an Ethernet header, an IP header whose checksum verifies
    and a UDP header: no byte of the buffer's old content is sent. *)
Theorem clients_send_packets src dst saddr daddr data junk :
  length src = 6%nat -> length dst = 6%nat -> length saddr = 4%nat -> length daddr = 4%nat ->
  Forall byte_ok saddr -> Forall byte_ok daddr -> (42 + length data < length junk)%nat ->
  (exists b n, udp_client data junk = Some (b, n) /\ take n b = udp_packet 12345 8080 data) /\
  (exists b n, udp_ip_client saddr daddr data junk = Some (b, n) /\
    take n b = iphdr [0; 0] saddr daddr data ++ udp_packet 12345 8080 data) /\
  (exists b n check, udp_ip_eth_client src dst saddr daddr data junk = Some (b, n) /\
    take n b = ethhdr dst src ++ iphdr check saddr daddr data ++ udp_packet 12345 8080 data /\
    oc_sum (words be_word (iphdr check saddr daddr data)) = 65535).
Proof.
  intros Hsm Hdm Hsa Hda Hsb Hdb Hl. split_and!.
  - destruct (udp_client_sends data junk) as (b & H1 & H2); [lia|]. eauto.
  - destruct (udp_ip_client_sends saddr daddr data junk) as (b & H1 & H2); [done | done | lia |]. eauto.
  - destruct (udp_ip_eth_client_sends src dst saddr daddr data junk) as (b & H1 & H2); try done.
    do 3 eexists. split_and!; [exact H1 | exact H2 | by apply ip_check_verifies].
Qed.

Definition demo_junk : list byte := replicate 1500 170.

Lemma clients_send_packets_witness :
  (exists b n, udp_client (lit "Hello") demo_junk = Some (b, n) /\
    take n b = udp_packet 12345 8080 (lit "Hello")) /\
  (exists b n, udp_ip_client [127; 0; 0; 1] [127; 0; 0; 1] (lit "Hello") demo_junk = Some (b, n) /\
    take n b = iphdr [0; 0] [127; 0; 0; 1] [127; 0; 0; 1] (lit "Hello") ++ udp_packet 12345 8080 (lit "Hello")) /\
  (exists b n check, udp_ip_eth_client [1; 2; 3; 4; 5; 6] [8; 0; 39; 46; 250; 8] [127; 0; 0; 1] [127; 0; 0; 1]
      (lit "Hello") demo_junk = Some (b, n) /\
    take n b = ethhdr [8; 0; 39; 46; 250; 8] [1; 2; 3; 4; 5; 6]
      ++ iphdr check [127; 0; 0; 1] [127; 0; 0; 1] (lit "Hello") ++ udp_packet 12345 8080 (lit "Hello") /\
    oc_sum (words be_word (iphdr check [127; 0; 0; 1] [127; 0; 0; 1] (lit "Hello"))) = 65535).
Proof.
  refine (clients_send_packets [1; 2; 3; 4; 5; 6] [8; 0; 39; 46; 250; 8] [127; 0; 0; 1] [127; 0; 0; 1]
    (lit "Hello") demo_junk eq_refl eq_refl eq_refl eq_refl _ _ _).
  - by list_forall.
  - by list_forall.
  - vm_compute. lia.
Defined.

(** The exchange with the server.  The datagram with the text of a client
    is answered with the same text in which one character, chosen by [rand()] and
    never the last, is a star (a single character is sent back as it is); and each of the three
    clients prints exactly the text of the first answer addressed to it, whatever
    errors, empty packets and packets for other ports come before, whatever its
    buffer holds and however long the IP header is. *)
Theorem answer_is_printed rand sbuf data buf buf_eth dst src answer noise noise_eth more :
  length sbuf = SERVER_BUF -> 0 <= rand -> data <> [] -> NUL ∉ data -> (length data <= 900)%nat ->
  length dst = 6%nat -> length src = 6%nat -> length buf = 1024%nat -> length buf_eth = 1500%nat ->
  datagram_ok answer -> for_client answer = true -> d_text answer = starred rand data ->
  Forall (noise_ok id) noise -> Forall (noise_ok (eth_wrap dst src)) noise_eth ->
  (exists sbuf', server_turn rand sbuf data = Some (sbuf', Some (starred rand data))) /\
  length (starred rand data) = length data /\
  (forall i, starred rand data !! i <> data !! i -> starred rand data !! i = Some STAR /\ (S i < length data)%nat) /\
  wait_reply (read_udp 0) buf (noise ++ Got (bytes_of answer) :: more) = Some (Some (starred rand data)) /\
  wait_reply read_eth buf_eth (noise_eth ++ Got (eth_wrap dst src (bytes_of answer)) :: more)
    = Some (Some (starred rand data)).
Proof.
  intros Hsb Hr Hd Hn Hl Hdst Hsrc Hb Hbe Hok Hfor Htext HF HFe. split_and!.
  - destruct (server_turn_ok rand sbuf data Hsb Hr Hd Hn) as (s' & Hs & _); [unfold SERVER_BUF; lia | by eauto].
  - unfold starred. case_match; [apply length_insert | done].
  - intros i. unfold starred. destruct (1 <? length data)%nat eqn:E; [|done]. apply Nat.ltb_lt in E.
    pose proof (Z.mod_pos_bound rand (Z.of_nat (length data) - 1) ltac:(lia)) as Hm.
    destruct (decide (i = Z.to_nat (rand mod (Z.of_nat (length data) - 1)))) as [->|Hne].
    + intros _. rewrite list_lookup_insert_eq by lia. split; [done | lia].
    + by rewrite list_lookup_insert_ne.
  - rewrite <- Htext. apply (wait_reply_ok (read_udp 0) id 1024); try done.
    + intros d rest Hdok. by apply read_datagram.
    + intros d Hdok. pose proof (length_bytes_of d Hdok). unfold id. lia.
  - rewrite <- Htext. apply (wait_reply_ok read_eth (eth_wrap dst src) 1500); try done.
    + intros d rest Hdok. by apply read_eth_datagram.
    + intros d Hdok. pose proof (length_bytes_of d Hdok). unfold eth_wrap, ethhdr.
      rewrite !length_app. change (length (htons _)) with 2%nat. lia.
Qed.

Definition demo_answer : datagram := mkDatagram 16777343 [] (fun _ => 0) 8080 12345 (lit "H*llo").

Lemma demo_answer_ok : datagram_ok demo_answer.
Proof.
  split; [split; [done | simpl; lia] | simpl; lia.. | |simpl; lia].
  apply (bool_decide_unpack _). vm_compute. exact I.
Qed.

Lemma answer_is_printed_witness :
  (exists sbuf', server_turn 41 (replicate 1024 7) (lit "Hello") = Some (sbuf', Some (lit "H*llo"))) /\
  length (starred 41 (lit "Hello")) = length (lit "Hello") /\
  (forall i, starred 41 (lit "Hello") !! i <> lit "Hello" !! i ->
     starred 41 (lit "Hello") !! i = Some STAR /\ (S i < length (lit "Hello"))%nat) /\
  wait_reply (read_udp 0) (replicate 1024 7) ([Failed; Got []] ++ Got (bytes_of demo_answer) :: [])
    = Some (Some (lit "H*llo")) /\
  wait_reply read_eth (replicate 1500 7)
    ([Failed] ++ Got (eth_wrap [1; 2; 3; 4; 5; 6] [6; 5; 4; 3; 2; 1] (bytes_of demo_answer)) :: [])
    = Some (Some (lit "H*llo")).
Proof.
  refine (answer_is_printed 41 (replicate 1024 7) (lit "Hello") (replicate 1024 7) (replicate 1500 7)
    [1; 2; 3; 4; 5; 6] [6; 5; 4; 3; 2; 1] demo_answer [Failed; Got []] [Failed] []
    eq_refl _ _ _ _ eq_refl eq_refl eq_refl eq_refl demo_answer_ok eq_refl eq_refl _ _).
  - lia.
  - discriminate.
  - apply (bool_decide_unpack _). vm_compute. exact I.
  - vm_compute. lia.
  - list_forall; [by left | right; by left].
  - list_forall. by left.
Defined.
