(* ===== verification/RawMain.v ===== *)
(** * Raw socket programs, from start to end

    [main] of the three clients of [sockets/raw_sockets/headers], of their server and of the sniffer, over the
    packets and loops of [RawNet].  A run gives the calls with an effect outside the program, in order; what the
    kernel answers ([socket], [ioctl], [if_nametoindex] and the packets received) are arguments.  A client that has read all the
    packets and found no answer still waits; the server and the sniffer never end. *)

From S2P Require Import Prelude CString.
From S2P Require Import Echo RawNet.

Definition AF_INET : Z := 2.
Definition AF_PACKET : Z := 17.
Definition SOCK_DGRAM : Z := 2.
Definition SOCK_RAW : Z := 3.
Definition ETH_P_ALL : Z := 3.

(** The four bytes of an IPv4 address and a port; or an interface and a hardware address. *)
Inductive address := Inet (host : list byte) (port : Z) | LinkLayer (ifindex : Z) (mac : list byte).

Inductive call :=
  | Socket (domain type protocol : Z)
  | Bind (fd : Z) (a : address)
  | HdrIncl (fd : Z)
  | GetHwAddr (fd : Z) (ifname : cstr)
  | SendTo (fd : Z) (data : list byte) (to : address)
  | Print (s : cstr)
  | Close (fd : Z).

Definition LOOPBACK : list byte := [127; 0; 0; 1].
Definition ANY : list byte := [0; 0; 0; 0].

(** The calls so far, and whether [main] has returned. *)
Definition run := (list call * bool)%type.

(** After the loop [while (1)]: [break], and what is left of [main]. *)
Definition finish (fd : Z) (before : list call) (r : option cstr) : run :=
  match r with
  | None => (before, false)
  | Some text => (before ++ [Print (lit "Server: " ++ text ++ [NL]); Close fd], true)
  end.

(** [headers/udp/client.c]; [packet] and [buf] are what the arrays hold, [fd] what [socket] returns. *)
Definition udp_main (fd : Z) (packet buf : list byte) (rs : list received) : option run :=
  '(packet, packet_size) ← udp_client (lit "Hello udp!") packet;
  r ← wait_reply (read_udp 0) buf rs;
  Some (finish fd [Socket AF_INET SOCK_RAW IPPROTO_UDP;
                   SendTo fd (take packet_size packet) (Inet LOOPBACK 8080)] r).

(** [headers/udp_ip/client.c] *)
Definition udp_ip_main (fd : Z) (packet buf : list byte) (rs : list received) : option run :=
  '(packet, packet_size) ← udp_ip_client LOOPBACK LOOPBACK (lit "Hello udp and ip!") packet;
  r ← wait_reply (read_udp 0) buf rs;
  Some (finish fd [Socket AF_INET SOCK_RAW IPPROTO_UDP; HdrIncl fd;
                   SendTo fd (take packet_size packet) (Inet LOOPBACK 8080)] r).

(** [headers/udp_ip_eth/client.c]; [hwaddr] is what [ioctl] stores, nothing when it fails: the structure was
    zeroed.  [ifindex] is the number of the interface, 0 when there is none. *)
Definition ENP0S3 : cstr := lit "enp0s3".
Definition DST_MAC : list byte := [8; 0; 39; 46; 250; 8].

Definition src_mac (hwaddr : option (list byte)) : list byte :=
  match hwaddr with Some m => take 6 (m ++ replicate 6 0) | None => replicate 6 0 end.

Definition udp_ip_eth_main (fd : Z) (hwaddr : option (list byte)) (ifindex : Z) (packet buf : list byte)
  (rs : list received) : option run :=
  '(packet, packet_size) ← udp_ip_eth_client (src_mac hwaddr) DST_MAC [192; 168; 0; 5] [192; 168; 0; 6]
     (lit "Hello udp, ip and ethernet!") packet;
  r ← wait_reply read_eth buf rs;
  Some (finish fd [Socket AF_PACKET SOCK_RAW (ETH_P_ALL * 256); GetHwAddr fd ENP0S3;
                   SendTo fd (take packet_size packet) (LinkLayer ifindex DST_MAC)] r).

(** ** The server *)

(** What [recvfrom] reports: where it came from, the datagram, and what [rand] returns afterwards. *)
Record request := mkRequest { from : address; datagram_of : received; rand : Z }.

Fixpoint server_loop (fd : Z) (buf : list byte) (rs : list request) : option (list call) :=
  match rs with
  | [] => Some []
  | r :: rs =>
      match datagram_of r with
      | Failed => server_loop fd buf rs
      | Got data =>
          '(buf, answer) ← server_turn (rand r) buf data;
          calls ← server_loop fd buf rs;
          Some match answer with
               | None => calls
               | Some a =>
                   [Print (lit "Original: " ++ c_str (take (SERVER_BUF - 1) data) ++ [NL]);
                    Print (lit "Modified: " ++ a ++ [NL]); SendTo fd a (from r)] ++ calls
               end
      end
  end.

Definition server_main (fd : Z) (buf : list byte) (rs : list request) : option run :=
  calls ← server_loop fd buf rs;
  Some ([Socket AF_INET SOCK_DGRAM 0; Bind fd (Inet ANY 8080)] ++ calls, false).

(** ** The sniffer *)

Fixpoint sniff_loop (dst_last : bool) (buf : list byte) (rs : list received) : option (list call) :=
  match rs with
  | [] => Some []
  | Failed :: rs => sniff_loop dst_last buf rs
  | Got data :: rs =>
      '(buf, line) ← sniff dst_last buf data;
      calls ← sniff_loop dst_last buf rs;
      Some (Print line :: calls)
  end.

Definition sniffer_main (dst_last : bool) (buf : list byte) (rs : list received) : option run :=
  calls ← sniff_loop dst_last buf rs;
  Some (Socket AF_INET SOCK_RAW IPPROTO_UDP :: calls, false).

(** ** Lemmas *)

(** The answer of the server to a text, as it comes to the clients: an IP header with any options. *)
Definition answer (saddr : Z) (opts : list byte) (hdr : Z -> byte) (rnd : Z) (text : cstr) : datagram :=
  mkDatagram saddr opts hdr 8080 12345 (starred rnd text).

Lemma length_starred rnd d : length (starred rnd d) = length d.
Proof. unfold starred. case_match; [apply length_insert | done]. Qed.

Lemma answer_ok saddr opts hdr rnd text :
  Z.of_nat (length opts) mod 4 = 0 -> Z.of_nat (length opts) <= 40 -> 0 <= saddr < 4294967296 ->
  NUL ∉ text -> (length text <= 900)%nat -> datagram_ok (answer saddr opts hdr rnd text).
Proof.
  intros Ho Hl Hs Hn Ht. split; cbn [answer d_opts d_saddr d_source d_dest d_text]; try done.
  - by apply starred_clean.
  - by rewrite length_starred.
Qed.

Lemma prints_udp noise a more buf :
  length buf = 1024%nat \/ length buf = 1500%nat -> Forall (noise_ok id) noise -> datagram_ok a ->
  for_client a = true ->
  wait_reply (read_udp 0) buf (noise ++ Got (bytes_of a) :: more) = Some (Some (d_text a)).
Proof.
  intros Hb HF Ha Hf. apply (wait_reply_ok (read_udp 0) id (length buf)); try done.
  - intros d rest Hd. by apply read_datagram.
  - intros d Hd. pose proof (length_bytes_of d Hd). unfold id. lia.
Qed.

Lemma prints_eth dst src noise a more buf :
  length dst = 6%nat -> length src = 6%nat -> length buf = 1500%nat ->
  Forall (noise_ok (eth_wrap dst src)) noise -> datagram_ok a -> for_client a = true ->
  wait_reply read_eth buf (noise ++ Got (eth_wrap dst src (bytes_of a)) :: more) = Some (Some (d_text a)).
Proof.
  intros Hd Hs Hb HF Ha Hf. apply (wait_reply_ok read_eth (eth_wrap dst src) 1500); try done.
  - intros d rest Hdok. by apply read_eth_datagram.
  - intros d Hdok. pose proof (length_bytes_of d Hdok). unfold eth_wrap, ethhdr.
    rewrite !length_app. change (length (htons _)) with 2%nat. lia.
Qed.

(** A text in a datagram, answered. *)
Lemma server_answers fd buf peer rnd text :
  length buf = SERVER_BUF -> 0 <= rnd -> text <> [] -> NUL ∉ text -> (length text <= 900)%nat ->
  server_main fd buf [mkRequest peer (Got text) rnd] =
    Some ([Socket AF_INET SOCK_DGRAM 0; Bind fd (Inet ANY 8080);
           Print (lit "Original: " ++ text ++ [NL]); Print (lit "Modified: " ++ starred rnd text ++ [NL]);
           SendTo fd (starred rnd text) peer], false).
Proof.
  intros Hb Hr Hne Hn Hl. unfold server_main. cbn [server_loop datagram_of rand from].
  destruct (server_turn_ok rnd buf text Hb Hr Hne Hn) as (b' & -> & _); [unfold SERVER_BUF; lia|].
  cbn [mbind option_bind]. rewrite take_ge by (unfold SERVER_BUF; lia). by rewrite c_str_id.
Qed.

Lemma length_src_mac hw : length (src_mac hw) = 6%nat.
Proof. unfold src_mac. case_match; [|done]. rewrite length_take, length_app, length_replicate. lia. Qed.

(** A client, once its packet and its answer are known. *)
Lemma udp_main_run fd packet buf rs text :
  length packet = 1024%nat -> wait_reply (read_udp 0) buf rs = Some text ->
  udp_main fd packet buf rs = Some (finish fd
    [Socket AF_INET SOCK_RAW IPPROTO_UDP;
     SendTo fd (udp_packet 12345 8080 (lit "Hello udp!")) (Inet LOOPBACK 8080)] text).
Proof.
  intros Hp Hw. unfold udp_main.
  destruct (udp_client_sends (lit "Hello udp!") packet) as (b & -> & Ht); [rewrite Hp; vm_compute; lia|].
  cbn [mbind option_bind]. by rewrite Hw, Ht.
Qed.

Lemma udp_ip_main_run fd packet buf rs text :
  length packet = 1500%nat -> wait_reply (read_udp 0) buf rs = Some text ->
  udp_ip_main fd packet buf rs = Some (finish fd
    [Socket AF_INET SOCK_RAW IPPROTO_UDP; HdrIncl fd;
     SendTo fd (iphdr [0; 0] LOOPBACK LOOPBACK (lit "Hello udp and ip!")
                ++ udp_packet 12345 8080 (lit "Hello udp and ip!")) (Inet LOOPBACK 8080)] text).
Proof.
  intros Hp Hw. unfold udp_ip_main.
  destruct (udp_ip_client_sends LOOPBACK LOOPBACK (lit "Hello udp and ip!") packet) as (b & -> & Ht);
    [done | done | rewrite Hp; vm_compute; lia|].
  cbn [mbind option_bind]. by rewrite Hw, Ht.
Qed.

Lemma udp_ip_eth_main_run fd hw ifindex packet buf rs text :
  length packet = 1500%nat -> wait_reply read_eth buf rs = Some text ->
  let D := lit "Hello udp, ip and ethernet!" in
  udp_ip_eth_main fd hw ifindex packet buf rs = Some (finish fd
    [Socket AF_PACKET SOCK_RAW (ETH_P_ALL * 256); GetHwAddr fd ENP0S3;
     SendTo fd (ethhdr DST_MAC (src_mac hw)
                ++ iphdr (le16 (ip_check [192; 168; 0; 5] [192; 168; 0; 6] D)) [192; 168; 0; 5] [192; 168; 0; 6] D
                ++ udp_packet 12345 8080 D) (LinkLayer ifindex DST_MAC)] text).
Proof.
  intros Hp Hw D. unfold udp_ip_eth_main. fold D.
  destruct (udp_ip_eth_client_sends (src_mac hw) DST_MAC [192; 168; 0; 5] [192; 168; 0; 6] D packet)
    as (b & -> & Ht); [apply length_src_mac | done | done | done | by list_forall | by list_forall
      | rewrite Hp; vm_compute; lia|].
  cbn [mbind option_bind]. by rewrite Hw, Ht.
Qed.

(** ** Properties *)

Section exchange.
Context (rnd : Z) (peer : address) (sfd : Z) (sbuf : list byte).
Context (saddr : Z) (opts : list byte) (hdr : Z -> byte).

(** What the server does with a text, and the answer a client gets. *)
Definition answered (text : cstr) : Prop :=
  server_main sfd sbuf [mkRequest peer (Got text) rnd] =
    Some ([Socket AF_INET SOCK_DGRAM 0; Bind sfd (Inet ANY 8080);
           Print (lit "Original: " ++ text ++ [NL]); Print (lit "Modified: " ++ starred rnd text ++ [NL]);
           SendTo sfd (starred rnd text) peer], false).
Definition reply (text : cstr) : list byte := bytes_of (answer saddr opts hdr rnd text).
Definition printed (fd : Z) (text : cstr) : list call :=
  [Print (lit "Server: " ++ starred rnd text ++ [NL]); Close fd].
End exchange.

(** C25 (roundtrip).  A whole exchange of each of the three clients with the server.  The client sends its text,
    behind exactly the headers meant, to the server's port; the server prints the text, stars one character (chosen
    by [rand()], never the last), prints the result and sends it back; and the client, whatever packets for other ports, empty packets
    and errors come before, prints exactly what the server sent, closes its socket and ends.  This holds whatever the
    uninitialised arrays held, however long the IP header of the answer is, and whether or not the hardware address
    could be read. *)
Theorem clients_print_the_answer rnd peer sfd sbuf saddr opts hdr fd packet buf buf_big packet_big hw ifindex
    noise noise_eth eth_src eth_dst more :
  0 <= rnd -> length sbuf = SERVER_BUF ->
  Z.of_nat (length opts) mod 4 = 0 -> Z.of_nat (length opts) <= 40 -> 0 <= saddr < 4294967296 ->
  length packet = 1024%nat -> length buf = 1024%nat -> length packet_big = 1500%nat -> length buf_big = 1500%nat ->
  length eth_dst = 6%nat -> length eth_src = 6%nat ->
  Forall (noise_ok id) noise -> Forall (noise_ok (eth_wrap eth_dst eth_src)) noise_eth ->
  let udp := lit "Hello udp!" in
  let ip := lit "Hello udp and ip!" in
  let eth := lit "Hello udp, ip and ethernet!" in
  let reply := reply rnd saddr opts hdr in
  (answered rnd peer sfd sbuf udp /\ answered rnd peer sfd sbuf ip /\ answered rnd peer sfd sbuf eth) /\
  udp_main fd packet buf (noise ++ Got (reply udp) :: more) =
    Some ([Socket AF_INET SOCK_RAW IPPROTO_UDP; SendTo fd (udp_packet 12345 8080 udp) (Inet LOOPBACK 8080)]
          ++ printed rnd fd udp, true) /\
  udp_ip_main fd packet_big buf_big (noise ++ Got (reply ip) :: more) =
    Some ([Socket AF_INET SOCK_RAW IPPROTO_UDP; HdrIncl fd;
           SendTo fd (iphdr [0; 0] LOOPBACK LOOPBACK ip ++ udp_packet 12345 8080 ip) (Inet LOOPBACK 8080)]
          ++ printed rnd fd ip, true) /\
  exists check,
    oc_sum (words be_word (iphdr check [192; 168; 0; 5] [192; 168; 0; 6] eth)) = 65535 /\
    udp_ip_eth_main fd hw ifindex packet_big buf_big
        (noise_eth ++ Got (eth_wrap eth_dst eth_src (reply eth)) :: more) =
      Some ([Socket AF_PACKET SOCK_RAW (ETH_P_ALL * 256); GetHwAddr fd ENP0S3;
             SendTo fd (ethhdr DST_MAC (src_mac hw) ++ iphdr check [192; 168; 0; 5] [192; 168; 0; 6] eth
                        ++ udp_packet 12345 8080 eth) (LinkLayer ifindex DST_MAC)]
            ++ printed rnd fd eth, true).
Proof.
  intros Hr Hsb Ho Hol Hs Hp Hb Hpb Hbb Hd Hsrc HF HFe udp ip eth reply.
  assert (forall t, t ∈ [udp; ip; eth] -> t <> [] /\ NUL ∉ t /\ (length t <= 900)%nat) as Ht.
  { intros t. rewrite !elem_of_cons. intros [->|[->|[->|[]%not_elem_of_nil]]];
      (split_and!; [done | apply (bool_decide_unpack _); vm_compute; exact I | vm_compute; lia]). }
  assert (forall t, t ∈ [udp; ip; eth] -> answered rnd peer sfd sbuf t /\ datagram_ok (answer saddr opts hdr rnd t)) as Ha.
  { intros t (H1 & H2 & H3)%Ht. split; [by apply server_answers | by apply answer_ok]. }
  destruct (Ha udp) as [Hu1 Hu2]; [set_solver|]. destruct (Ha ip) as [Hi1 Hi2]; [set_solver|].
  destruct (Ha eth) as [He1 He2]; [set_solver|]. clear Ht Ha.
  split_and!; [done..| | |exists (le16 (ip_check [192; 168; 0; 5] [192; 168; 0; 6] eth)); split].
  - erewrite udp_main_run; [|done|apply prints_udp; auto]. done.
  - erewrite udp_ip_main_run; [|done|apply prints_udp; auto]. done.
  - apply ip_check_verifies; by list_forall.
  - erewrite udp_ip_eth_main_run; [|done|by apply prints_eth]. done.
Qed.

Lemma clients_print_the_answer_witness :
  let udp := lit "Hello udp!" in
  let ip := lit "Hello udp and ip!" in
  let eth := lit "Hello udp, ip and ethernet!" in
  let peer := Inet LOOPBACK 12345 in
  let reply := reply 41 16777343 [] (fun _ => 0) in
  let sbuf := replicate SERVER_BUF 7 in
  let packet := replicate 1024 170 in
  let big := replicate 1500 170 in
  (answered 41 peer 4 sbuf udp /\ answered 41 peer 4 sbuf ip /\ answered 41 peer 4 sbuf eth) /\
  udp_main 3 packet packet ([Failed; Got []] ++ Got (reply udp) :: []) =
    Some ([Socket AF_INET SOCK_RAW IPPROTO_UDP; SendTo 3 (udp_packet 12345 8080 udp) (Inet LOOPBACK 8080)]
          ++ printed 41 3 udp, true) /\
  udp_ip_main 3 big big ([Failed; Got []] ++ Got (reply ip) :: []) =
    Some ([Socket AF_INET SOCK_RAW IPPROTO_UDP; HdrIncl 3;
           SendTo 3 (iphdr [0; 0] LOOPBACK LOOPBACK ip ++ udp_packet 12345 8080 ip) (Inet LOOPBACK 8080)]
          ++ printed 41 3 ip, true) /\
  exists check,
    oc_sum (words be_word (iphdr check [192; 168; 0; 5] [192; 168; 0; 6] eth)) = 65535 /\
    udp_ip_eth_main 3 None 0 big big
        ([] ++ Got (eth_wrap [1; 2; 3; 4; 5; 6] [6; 5; 4; 3; 2; 1] (reply eth)) :: []) =
      Some ([Socket AF_PACKET SOCK_RAW (ETH_P_ALL * 256); GetHwAddr 3 ENP0S3;
             SendTo 3 (ethhdr DST_MAC (replicate 6 0) ++ iphdr check [192; 168; 0; 5] [192; 168; 0; 6] eth
                        ++ udp_packet 12345 8080 eth) (LinkLayer 0 DST_MAC)]
            ++ printed 41 3 eth, true).
Proof.
  refine (clients_print_the_answer 41 (Inet LOOPBACK 12345) 4 (replicate SERVER_BUF 7) 16777343 [] (fun _ => 0) 3
    (replicate 1024 170) (replicate 1024 170) (replicate 1500 170) (replicate 1500 170) None 0
    [Failed; Got []] [] [6; 5; 4; 3; 2; 1] [1; 2; 3; 4; 5; 6] [] _ _ _ _ _ _ _ _ _ _ _ _ _); try done.
  - list_forall; [by left | right; by left].
Defined.

(** Without the right to open a raw socket every call fails, and the clients, which check none of them, read for
    ever: after any number of failing [recvfrom] they have printed nothing and not ended. *)
Theorem no_socket_no_end fd packet buf k :
  length packet = 1024%nat -> exists calls,
    udp_main fd packet buf (replicate k Failed) = Some (calls, false) /\
    forall s, Print s ∉ calls.
Proof.
  intros Hp. eexists. split.
  - rewrite (udp_main_run fd packet buf (replicate k Failed) None); [done|done|]. by induction k.
  - intros s. rewrite !elem_of_cons. by intros [|[|?%not_elem_of_nil]].
Qed.

Lemma no_socket_no_end_witness : exists calls,
  udp_main (-1) (replicate 1024 7) (replicate 1024 7) (replicate 5 Failed) = Some (calls, false) /\
  forall s, Print s ∉ calls.
Proof. by apply no_socket_no_end. Defined.
