(* ===== verification/MqChat.v ===== *)
(** * Chat over POSIX message queues

    [message_queues/chat_common_room/src/server.c] (history, list of clients, the
    handling of the three messages, the main loop) and [src/client_core.c] (the
    reading thread and the three sends).  A message queue is seen through what
    [mq_receive] returns and what [mq_send] and [mq_open] report, which are
    arguments; the calls the server makes are recorded in order.  [None] is an
    access outside an array. *)

From S2P Require Import Prelude CString.

Definition MAX_MSG_SIZE : nat := 1024.
Definition CLIENT_NAME_LEN : nat := 64.
Definition MAX_HISTORY : nat := 256.
Definition PID_LEN : nat := 32.
Definition SEND_BUF : nat := 1024 + 64 + 8.
Definition LINE_LEN : nat := 1024 + 64 + 16.
Definition MAX_DISPLAY_LINES : nat := 1000.
Definition MAX_CLIENTS : nat := 256.
Definition COLON : byte := 58.

(** ** The history *)

Record hist_entry := mkEntry { sender : cstr; text : cstr }.

Record hist := mkHist { history : list hist_entry; history_start : Z; history_count : Z }.

Definition MAXH : Z := 256.

Definition push_history (h : hist) (snd txt : cstr) : option hist :=
  let idx := Z.rem (history_start h + history_count h) MAXH in
  let '(start, count, idx) :=
    if history_count h =? MAXH then
      let start := Z.rem (history_start h + 1) MAXH in
      (start, history_count h, Z.rem (start + history_count h - 1) MAXH)
    else (history_start h, history_count h + 1, idx) in
  l ← aset (history h) idx (mkEntry (trunc CLIENT_NAME_LEN snd) (trunc MAX_MSG_SIZE txt));
  Some (mkHist l start count).

(** ** The clients *)

Record client := mkCl { qname : cstr; mqd : Z }.

(** The calls of the server on message queues. *)
Inductive call :=
  | MqSend (mqd : Z) (msg : cstr)
  | MqClose (mqd : Z)
  | MqUnlink.

Definition find_client_by_name (cs : list client) (name : cstr) : option client :=
  List.find (fun c => streq (qname c) name) cs.

(** The descriptor of the first client with the name is replaced. *)
Fixpoint set_mqd (cs : list client) (name : cstr) (d : Z) : list client :=
  match cs with
  | [] => []
  | c :: cs' => if streq (qname c) name then mkCl (qname c) d :: cs' else c :: set_mqd cs' name d
  end.

Definition add_or_update_client (cs : list client) (name : cstr) (d : Z) : list client :=
  match find_client_by_name cs name with
  | None => mkCl (trunc CLIENT_NAME_LEN name) d :: cs
  | Some _ => set_mqd cs name d
  end.

Fixpoint remove_client_by_name (cs : list client) (name : cstr) : list client * list call :=
  match cs with
  | [] => ([], [])
  | c :: cs' =>
      if streq (qname c) name then (cs', if mqd c =? -1 then [] else [MqClose (mqd c)])
      else let '(r, calls) := remove_client_by_name cs' name in (c :: r, calls)
  end.

(** ** Sending *)

(** ["%s:%s"] into a buffer of [SEND_BUF] bytes. *)
Definition labelled (label txt : cstr) : cstr := trunc SEND_BUF (label ++ [COLON] ++ txt).

(** A failed [mq_send] is only reported. *)
Definition broadcast_message (cs : list client) (label txt : cstr) : list call :=
  omap (fun c => if mqd c =? -1 then None else Some (MqSend (mqd c) (labelled label txt))) cs.

(** The loop stops at the first [mq_send] that fails. *)
Fixpoint send_history (send_ok : cstr -> bool) (h : hist) (d : Z) (i : Z) (n : nat) : option (list call) :=
  match n with
  | O => Some []
  | S n' =>
      e ← aget (history h) (Z.rem (history_start h + i) MAXH);
      let msg := labelled (sender e) (text e) in
      if send_ok msg then
        rest ← send_history send_ok h d (i + 1) n'; Some (MqSend d msg :: rest)
      else Some [MqSend d msg]
  end.

Definition send_history_to_client (send_ok : cstr -> bool) (h : hist) (d : Z) : option (list call) :=
  send_history send_ok h d 0 (Z.to_nat (history_count h)).

(** ** The server *)

Record server := mkServer { hst : hist; clients : list client }.

(** What the queues answer while a message is handled. *)
Record mq_env := mkMq { mq_open : cstr -> Z; send_ok : cstr -> bool }.

Definition client_qname (pid : cstr) : cstr := trunc CLIENT_NAME_LEN (lit "/client_" ++ pid).

Definition handle_join (e : mq_env) (s : server) (buf : cstr) : option (server * list call) :=
  let pid := trunc PID_LEN (drop 5 buf) in
  let d := mq_open e (client_qname pid) in
  if d =? -1 then Some (s, [])
  else
    let cs := add_or_update_client (clients s) (client_qname pid) d in
    let srv_msg := trunc MAX_MSG_SIZE (lit "User " ++ pid ++ lit " joined") in
    h ← push_history (hst s) (lit "SERVER") srv_msg;
    hs ← send_history_to_client (send_ok e) h d;
    Some (mkServer h cs, broadcast_message cs (lit "SERVER") srv_msg ++ hs).

Definition handle_msg (s : server) (buf : cstr) : option (server * list call) :=
  match strchr_split COLON (drop 4 buf) with
  | None => Some (s, [])
  | Some (p, txt) =>
      let pid := trunc PID_LEN p in
      let label := trunc CLIENT_NAME_LEN (lit "Client_" ++ pid) in
      h ← push_history (hst s) label txt;
      Some (mkServer h (clients s), broadcast_message (clients s) label txt)
  end.

Definition handle_leave (s : server) (buf : cstr) : option (server * list call) :=
  let pid := trunc PID_LEN (drop 6 buf) in
  let '(cs, closed) := remove_client_by_name (clients s) (client_qname pid) in
  let srv_msg := trunc MAX_MSG_SIZE (lit "User " ++ pid ++ lit " left") in
  h ← push_history (hst s) (lit "SERVER") srv_msg;
  Some (mkServer h cs, closed ++ broadcast_message cs (lit "SERVER") srv_msg).

(** A message of [r] bytes in [buf[MAX_MSG_SIZE]]: [buf[r] = '\0'] is outside the
    array when the message fills it. *)
Definition handle_message (e : mq_env) (s : server) (raw : list byte) : option (server * list call) :=
  if (length raw <? MAX_MSG_SIZE)%nat then
    let buf := c_str raw in
    if strneq 5 buf (lit "JOIN:") then handle_join e s buf
    else if strneq 4 buf (lit "MSG:") then handle_msg s buf
    else if strneq 6 buf (lit "LEAVE:") then handle_leave s buf
    else Some (s, [])
  else None.

Definition cleanup (server_mqd : Z) (cs : list client) : list call :=
  omap (fun c => if mqd c =? -1 then None else Some (MqClose (mqd c))) cs ++
  (if server_mqd =? -1 then [] else [MqClose server_mqd; MqUnlink]).

(** What [mq_receive] reports: a message, an error, or (after a signal) the end. *)
Inductive received := Received (raw : list byte) (e : mq_env) | ReceiveError | Stopped.

Fixpoint server_loop (server_mqd : Z) (s : server) (rs : list received) : option (list call) :=
  match rs with
  | [] | Stopped :: _ => Some (cleanup server_mqd (clients s))
  | ReceiveError :: rs => server_loop server_mqd s rs
  | Received raw e :: rs =>
      r ← handle_message e s raw;
      rest ← server_loop server_mqd r.1 rs;
      Some (r.2 ++ rest)
  end.

Definition empty_entry : hist_entry := mkEntry [] [].
Definition init_server : server := mkServer (mkHist (replicate MAX_HISTORY empty_entry) 0 0) [].

(** [main]: the status and the calls; [server_mqd] is what [mq_open] returned for the server's queue. *)
Definition server_main (server_mqd : Z) (rs : list received) : option (Z * list call) :=
  if server_mqd =? -1 then Some (1, [])
  else calls ← server_loop server_mqd init_server rs; Some (0, calls).

(** ** The client *)

Record client_state := mkState { pid : Z; lines : list cstr; names : list cstr }.

(** The bytes of a string with its NUL, as [mq_send(..., strlen(s) + 1, 0)] passes them. *)
Definition with_nul (s : cstr) : list byte := s ++ [NUL].

Definition join_message (p : Z) : list byte := with_nul (trunc 128 (lit "JOIN:" ++ dec p)).
Definition leave_message (p : Z) : list byte := with_nul (trunc 128 (lit "LEAVE:" ++ dec p)).

(** [mq_send] refuses a message longer than [mq_msgsize]; the status of
    [client_send_text]. *)
Definition client_send_text (p : Z) (txt : cstr) : Z * list byte :=
  let out := with_nul (trunc (MAX_MSG_SIZE + 64) (lit "MSG:" ++ dec p ++ [COLON] ++ txt)) in
  if (length out <=? MAX_MSG_SIZE)%nat then (0, out) else (-1, []).

Definition add_line (ls : list cstr) (buf : cstr) : list cstr :=
  if (length ls <? MAX_DISPLAY_LINES)%nat then ls ++ [trunc LINE_LEN buf]
  else tail ls ++ [trunc LINE_LEN buf].

Definition pid_word (p : cstr) : cstr := take (PID_LEN - 1) (take_while (fun c => negb (c =? SP)) p).

Fixpoint remove_name (ns : list cstr) (n : cstr) : list cstr :=
  match ns with
  | [] => []
  | m :: ns' => if streq m n then ns' else m :: remove_name ns' n
  end.

(** One turn of the reading thread. *)
Definition reader_message (st : client_state) (raw : list byte) : option client_state :=
  if (length raw <? LINE_LEN)%nat then
    let buf := c_str raw in
    let ls := add_line (lines st) buf in
    let ns :=
      if strneq 12 buf (lit "[SERVER]:User ") then
        let cname := trunc CLIENT_NAME_LEN (lit "/client_" ++ pid_word (drop 12 buf)) in
        if has_substr buf (lit "joined") then
          if negb (existsb (fun n => streq n cname) (names st)) && (length (names st) <? MAX_CLIENTS)%nat
          then names st ++ [cname] else names st
        else if has_substr buf (lit "left") then remove_name (names st) cname
        else names st
      else names st in
    Some (mkState (pid st) ls ns)
  else None.

(** What the thread's [mq_receive] reports: a message, an interruption, or another error, after which the thread
    sleeps for a second. *)
Inductive delivery := Delivered (raw : list byte) | Interrupted | DeliveryFailed.

(** The reading thread: before every turn it reads [stop_requested], which the other thread sets.  The state, how often it
    slept, and whether it has returned; otherwise it waits for the next message. *)
Fixpoint mq_reader_thread (st : client_state) (turns : list (bool * delivery))
  : option (client_state * nat * bool) :=
  match turns with
  | [] => Some (st, 0%nat, false)
  | (true, _) :: _ => Some (st, 0%nat, true)
  | (false, Delivered raw) :: turns => st ← reader_message st raw; mq_reader_thread st turns
  | (false, Interrupted) :: turns => mq_reader_thread st turns
  | (false, DeliveryFailed) :: turns =>
      '(st, sleeps, ended) ← mq_reader_thread st turns; Some (st, S sleeps, ended)
  end.

(** ** Invariants and views *)

Record hist_ok (h : hist) : Prop := {
  ho_len : length (history h) = MAX_HISTORY;
  ho_start : 0 <= history_start h < MAXH;
  ho_count : 0 <= history_count h <= MAXH
}.

(** The entries from the oldest to the newest. *)
Definition hist_view (h : hist) : list hist_entry :=
  omap (fun i => aget (history h) (Z.rem (history_start h + Z.of_nat i) MAXH))
    (seq 0 (Z.to_nat (history_count h))).

(** ** Lemmas: the ring *)

Lemma rem_mod a : 0 <= a -> Z.rem a MAXH = a mod MAXH.
Proof. intros H. apply Z.rem_mod_nonneg; unfold MAXH; lia. Qed.

Lemma mod_wrap a : 0 <= a < 2 * MAXH -> a mod MAXH = if a <? MAXH then a else a - MAXH.
Proof.
  intros H. unfold MAXH in *. destruct (a <? 256) eqn:E.
  - apply Z.mod_small. lia.
  - symmetry. apply (Z.mod_unique_pos _ _ 1); lia.
Qed.

(** The slot of entry [i] counted from the oldest. *)
Definition slot (h : hist) (i : Z) : Z :=
  if history_start h + i <? MAXH then history_start h + i else history_start h + i - MAXH.

Lemma slot_rem h i : hist_ok h -> 0 <= i < MAXH -> Z.rem (history_start h + i) MAXH = slot h i.
Proof.
  intros [_ Hs _] Hi. rewrite rem_mod by lia. unfold slot. apply mod_wrap. lia.
Qed.

Lemma hist_view_lookup h i :
  hist_ok h -> 0 <= i < history_count h ->
  hist_view h !! Z.to_nat i = aget (history h) (slot h i).
Proof.
  intros Hok Hi. pose proof Hok as [Hl Hs Hc]. unfold hist_view.
  assert (forall n m, Forall (fun i => is_Some (aget (history h)
    (Z.rem (history_start h + Z.of_nat i) MAXH))) (seq m n)) as Hall.
  { intros n m. apply Forall_forall. intros j _. apply aget_is_Some. rewrite Hl.
    rewrite rem_mod by lia. pose proof (Z.mod_pos_bound (history_start h + Z.of_nat j) MAXH).
    unfold MAXH, MAX_HISTORY in *. lia. }
  rewrite <- slot_rem by (done || lia).
  assert (forall g (l : list nat), Forall (fun i => is_Some (g i)) l ->
    forall k, omap (B := hist_entry) g l !! k = l !! k ≫= g) as Hom.
  { intros g l Hg. induction Hg as [|x l [y Hy] _ IH]; intros [|k]; csimpl; try done;
      rewrite Hy; simpl; [done | apply IH]. }
  rewrite Hom by apply Hall. rewrite lookup_seq_lt by lia. simpl. do 2 f_equal. lia.
Qed.

Lemma hist_view_length h : hist_ok h -> length (hist_view h) = Z.to_nat (history_count h).
Proof.
  intros Hok. pose proof Hok as [Hl Hs Hc]. unfold hist_view.
  assert (forall n m, length (omap (fun i => aget (history h)
    (Z.rem (history_start h + Z.of_nat i) MAXH)) (seq m n)) = n) as H; [|apply H].
  induction n as [|n IH]; intros m; csimpl; [done|].
  destruct (aget_is_Some (history h) (Z.rem (history_start h + Z.of_nat m) MAXH)) as [x Hx].
  { rewrite Hl, rem_mod by lia. pose proof (Z.mod_pos_bound (history_start h + Z.of_nat m) MAXH).
    unfold MAXH, MAX_HISTORY in *. lia. }
  rewrite Hx. simpl. by rewrite IH.
Qed.

Lemma aget_view h i :
  hist_ok h -> 0 <= i < history_count h -> aget (hist_view h) i = aget (history h) (slot h i).
Proof.
  intros Hok Hi. unfold aget at 1. rewrite (proj2 (Z.leb_le 0 i)) by lia. by apply hist_view_lookup.
Qed.

Lemma slot_range h i : hist_ok h -> 0 <= i < MAXH -> 0 <= slot h i < MAXH.
Proof. intros [_ Hs _] Hi. unfold slot. case_ifs. Qed.

Lemma tail_drop {A} (l : list A) : tail l = drop 1 l.
Proof. by destruct l. Qed.

(** A push into a ring with room goes after the newest entry. *)
Lemma push_room h e :
  hist_ok h -> history_count h < MAXH ->
  let h' := mkHist (<[Z.to_nat (slot h (history_count h)) := e]> (history h)) (history_start h)
              (history_count h + 1) in
  hist_ok h' /\ hist_view h' = hist_view h ++ [e].
Proof.
  intros Hok Hroom h'. pose proof Hok as [Hl Hs Hc]. pose proof (hist_view_length h Hok) as Hvl.
  pose proof (slot_range h (history_count h) Hok ltac:(lia)) as Hsr.
  assert (hist_ok h') as Hok' by (split; simpl; [by rewrite length_insert | done | lia]).
  split; [done|]. apply list_eq. intros i.
  destruct (decide (Z.of_nat i < history_count h + 1)) as [Hi|Hi].
  2: { rewrite !lookup_ge_None_2; [done | rewrite length_app; simpl; lia
         | rewrite hist_view_length by done; simpl; lia]. }
  pose proof (hist_view_lookup h' (Z.of_nat i) Hok') as Hv. rewrite Nat2Z.id in Hv.
  rewrite Hv by (simpl; lia). simpl history.
  change (slot h' (Z.of_nat i)) with (slot h (Z.of_nat i)).
  destruct (decide (Z.of_nat i = history_count h)) as [Heq|Hne].
  - rewrite Heq, aget_insert_eq by (rewrite Hl; unfold MAX_HISTORY, MAXH in *; lia).
    rewrite lookup_app_r by lia. by replace (i - length (hist_view h))%nat with 0%nat by lia.
  - assert (slot h (history_count h) <> slot h (Z.of_nat i)) as Hslots
      by (unfold slot, MAXH in *; case_ifs).
    rewrite aget_insert_ne by (done || lia). rewrite lookup_app_l by lia.
    pose proof (hist_view_lookup h (Z.of_nat i) Hok) as Hv2. rewrite Nat2Z.id in Hv2.
    by rewrite Hv2 by lia.
Qed.

(** A push into a full ring takes the place of the oldest entry. *)
Lemma push_full h e :
  hist_ok h -> history_count h = MAXH ->
  let h' := mkHist (<[Z.to_nat (history_start h) := e]> (history h)) (slot h 1) MAXH in
  hist_ok h' /\ hist_view h' = tail (hist_view h) ++ [e].
Proof.
  intros Hok Hfull h'. pose proof Hok as [Hl Hs Hc]. pose proof (hist_view_length h Hok) as Hvl.
  assert (hist_ok h') as Hok'.
  { split; simpl; [by rewrite length_insert | apply slot_range; [done | unfold MAXH; lia]
      | unfold MAXH; lia]. }
  split; [done|]. apply list_eq. intros i. rewrite tail_drop.
  assert (length (drop 1 (hist_view h)) = 255%nat) as Hld
    by (rewrite length_drop, Hvl, Hfull; reflexivity).
  destruct (decide (i < 256)%nat) as [Hi|Hi].
  2: { rewrite !lookup_ge_None_2; [done | rewrite length_app, Hld; simpl; lia
         | rewrite hist_view_length by done; unfold h', MAXH; simpl; lia]. }
  pose proof (hist_view_lookup h' (Z.of_nat i) Hok') as Hv. rewrite Nat2Z.id in Hv.
  rewrite Hv by (unfold h', MAXH; simpl; lia). simpl history.
  destruct (decide (i = 255%nat)) as [->|Hne].
  - assert (slot h' (Z.of_nat 255) = history_start h) as ->.
    { unfold slot, h', MAXH in *. simpl history_start. unfold slot, MAXH. case_ifs. }
    rewrite aget_insert_eq by (rewrite Hl; unfold MAX_HISTORY, MAXH in *; lia).
    rewrite lookup_app_r by lia. by rewrite Hld.
  - assert (slot h' (Z.of_nat i) = slot h (Z.of_nat i + 1) /\
      slot h (Z.of_nat i + 1) <> history_start h) as [-> Hne2].
    { unfold slot, h', MAXH in *. simpl history_start. unfold slot, MAXH. split; inner_ifs. }
    rewrite aget_insert_ne by (congruence || lia).
    rewrite lookup_app_l by lia. rewrite lookup_drop.
    rewrite <- (hist_view_lookup h (Z.of_nat i + 1) Hok) by (unfold MAXH in *; lia).
    f_equal. lia.
Qed.

Lemma push_history_ok h snd txt :
  hist_ok h ->
  exists h', push_history h snd txt = Some h' /\ hist_ok h' /\
    hist_view h' =
      lastn MAX_HISTORY (hist_view h ++ [mkEntry (trunc CLIENT_NAME_LEN snd) (trunc MAX_MSG_SIZE txt)]).
Proof.
  intros Hok. pose proof Hok as [Hl Hs Hc]. unfold push_history.
  set (e := mkEntry _ _). pose proof (hist_view_length h Hok) as Hvl.
  destruct (history_count h =? MAXH) eqn:Efull; bool_to_prop.
  - assert (Z.rem (history_start h + 1) MAXH = slot h 1) as ->
      by (apply slot_rem; [done | unfold MAXH; lia]).
    assert (Z.rem (slot h 1 + history_count h - 1) MAXH = history_start h) as ->.
    { pose proof (slot_range h 1 Hok ltac:(unfold MAXH; lia)). rewrite rem_mod by lia.
      rewrite mod_wrap by lia. rewrite Efull. unfold slot, MAXH in *. inner_ifs. }
    rewrite aset_is_Some by (rewrite Hl; unfold MAXH, MAX_HISTORY in *; lia).
    cbn [mbind option_bind]. destruct (push_full h e Hok Efull) as [Hok' Hv].
    rewrite Efull. eexists. split_and!; [done..|]. rewrite Hv.
    change MAX_HISTORY with (S 255). rewrite lastn_snoc. f_equal. unfold lastn.
    rewrite Hvl, Efull. by rewrite tail_drop.
  - rewrite slot_rem by (done || lia).
    pose proof (slot_range h (history_count h) Hok ltac:(lia)) as Hsr.
    rewrite aset_is_Some by (rewrite Hl; unfold MAXH, MAX_HISTORY in *; lia).
    cbn [mbind option_bind]. destruct (push_room h e Hok ltac:(lia)) as [Hok' Hv].
    eexists. split_and!; [done..|]. rewrite Hv.
    by rewrite lastn_all by (rewrite length_app, Hvl; unfold MAXH, MAX_HISTORY in *; simpl; lia).
Qed.

(** ** The chat room the server implements *)

(** Who is in the room, with the queue of each, and the last messages. *)
Record room := mkRoom { members : gmap cstr Z; log : list hist_entry }.

Definition log_add (l : list hist_entry) (snd txt : cstr) : list hist_entry :=
  lastn MAX_HISTORY (l ++ [mkEntry (trunc CLIENT_NAME_LEN snd) (trunc MAX_MSG_SIZE txt)]).

Inductive message :=
  | Join (pid : cstr) (d : Z)
  | Msg (pid : cstr) (txt : cstr)
  | Leave (pid : cstr)
  | Other.

(** The meaning of the bytes received; a client whose queue cannot be opened is
    ignored. *)
Definition decode (e : mq_env) (buf : cstr) : message :=
  if strneq 5 buf (lit "JOIN:") then
    let pid := trunc PID_LEN (drop 5 buf) in
    let d := mq_open e (client_qname pid) in if d =? -1 then Other else Join pid d
  else if strneq 4 buf (lit "MSG:") then
    match strchr_split COLON (drop 4 buf) with
    | None => Other
    | Some (p, txt) => Msg (trunc PID_LEN p) txt
    end
  else if strneq 6 buf (lit "LEAVE:") then Leave (trunc PID_LEN (drop 6 buf))
  else Other.

Definition room_step (m : message) (r : room) : room :=
  match m with
  | Join pid d =>
      mkRoom (<[client_qname pid := d]> (members r))
        (log_add (log r) (lit "SERVER") (trunc MAX_MSG_SIZE (lit "User " ++ pid ++ lit " joined")))
  | Msg pid txt => mkRoom (members r) (log_add (log r) (trunc CLIENT_NAME_LEN (lit "Client_" ++ pid)) txt)
  | Leave pid =>
      mkRoom (delete (client_qname pid) (members r))
        (log_add (log r) (lit "SERVER") (trunc MAX_MSG_SIZE (lit "User " ++ pid ++ lit " left")))
  | Other => r
  end.

Definition member_map (cs : list client) : gmap cstr Z :=
  list_to_map ((fun c => (qname c, mqd c)) <$> cs).

Definition room_of (s : server) : room := mkRoom (member_map (clients s)) (hist_view (hst s)).

Record server_ok (s : server) : Prop := {
  so_hist : hist_ok (hst s);
  so_names : NoDup (qname <$> clients s);
  so_len : Forall (fun c => (length (qname c) < CLIENT_NAME_LEN)%nat) (clients s)
}.

(** ** Lemmas: the list of clients *)

Lemma find_client_none cs n : find_client_by_name cs n = None -> n ∉ qname <$> cs.
Proof.
  unfold find_client_by_name. intros Hf (c & Hc & Hin)%list_elem_of_fmap.
  assert (streq (qname c) n = false) as H.
  { apply (find_none _ _ Hf). by apply list_elem_of_In. }
  apply bool_decide_eq_false in H. done.
Qed.

Lemma member_map_fst cs : ((fun c => (qname c, mqd c)) <$> cs).*1 = qname <$> cs.
Proof. rewrite <- list_fmap_compose. done. Qed.

Lemma set_mqd_names cs n d : qname <$> set_mqd cs n d = qname <$> cs.
Proof. induction cs as [|c cs IH]; csimpl; [done|]. case_if; csimpl; congruence. Qed.

Lemma set_mqd_map cs n d c :
  NoDup (qname <$> cs) -> find_client_by_name cs n = Some c ->
  member_map (set_mqd cs n d) = <[n := d]> (member_map cs).
Proof.
  induction cs as [|c0 cs IH]; [done|]. unfold member_map, find_client_by_name in *.
  rewrite fmap_cons. intros [Hc0 Hnd]%NoDup_cons Hf. cbn [List.find set_mqd] in *.
  destruct (streq (qname c0) n) eqn:E.
  - apply streq_true in E as <-. rewrite !fmap_cons. simpl. by rewrite insert_insert_eq.
  - rewrite !fmap_cons. simpl. rewrite IH by done. rewrite insert_insert_ne; [done|].
    intros <-. by rewrite (proj2 (streq_true _ _)) in E.
Qed.

Lemma add_or_update_ok cs n d :
  NoDup (qname <$> cs) -> (length n < CLIENT_NAME_LEN)%nat ->
  member_map (add_or_update_client cs n d) = <[n := d]> (member_map cs) /\
  NoDup (qname <$> add_or_update_client cs n d).
Proof.
  intros Hnd Hl. unfold add_or_update_client.
  destruct (find_client_by_name cs n) as [c|] eqn:E.
  - rewrite set_mqd_names. split; [by eapply set_mqd_map | done].
  - rewrite trunc_id by done. split; [done|]. rewrite fmap_cons. apply NoDup_cons.
    split; [by apply find_client_none | done].
Qed.

Lemma add_or_update_len cs n d :
  Forall (fun c => (length (qname c) < CLIENT_NAME_LEN)%nat) cs ->
  Forall (fun c => (length (qname c) < CLIENT_NAME_LEN)%nat) (add_or_update_client cs n d).
Proof.
  intros HF. unfold add_or_update_client. destruct (find_client_by_name cs n).
  - induction HF as [|c0 cs H0 HF IH]; simpl; [done|]. case_if; by constructor.
  - constructor; [|done]. apply trunc_length. unfold CLIENT_NAME_LEN. lia.
Qed.

Lemma remove_client_ok cs n :
  NoDup (qname <$> cs) ->
  let r := (remove_client_by_name cs n).1 in
  member_map r = delete n (member_map cs) /\ (r `sublist_of` cs).
Proof.
  induction cs as [|c cs IH]; intros Hnd; simpl.
  { split; [|done]. unfold member_map. simpl. by rewrite delete_empty. }
  rewrite fmap_cons in Hnd. apply NoDup_cons in Hnd as [Hc Hnd].
  destruct (streq (qname c) n) eqn:E.
  - apply streq_true in E as <-. simpl. split; [|by apply sublist_cons]. unfold member_map.
    rewrite fmap_cons. simpl. rewrite delete_insert_eq, delete_id; [done|].
    apply not_elem_of_list_to_map_1. by rewrite member_map_fst.
  - destruct (remove_client_by_name cs n) as [r calls] eqn:Er. simpl in *.
    destruct (IH Hnd) as [IH1 IH2]. split; [|by apply sublist_skip]. unfold member_map in *.
    rewrite !fmap_cons. simpl. rewrite IH1. rewrite delete_insert_ne; [done|].
    intros ->. by rewrite (proj2 (streq_true _ _)) in E.
Qed.

Lemma client_qname_len p : (length (client_qname p) < CLIENT_NAME_LEN)%nat.
Proof. apply trunc_length. unfold CLIENT_NAME_LEN. lia. Qed.

Lemma send_history_defined ok h d i n : hist_ok h -> 0 <= i -> is_Some (send_history ok h d i n).
Proof.
  intros Hok. revert i. induction n as [|n IH]; intros i Hi; simpl; [eauto|].
  destruct (aget_is_Some (history h) (Z.rem (history_start h + i) MAXH)) as [x ->].
  { destruct Hok as [Hl Hs _]. rewrite Hl, rem_mod by lia.
    pose proof (Z.mod_pos_bound (history_start h + i) MAXH). unfold MAXH, MAX_HISTORY in *. lia. }
  simpl. case_if; [|eauto]. destruct (IH (i + 1)) as [r ->]; [lia|]. simpl. eauto.
Qed.

Lemma handle_join_ok e s pid d :
  server_ok s -> mq_open e (client_qname pid) = d -> d <> -1 ->
  forall buf, trunc PID_LEN (drop 5 buf) = pid ->
  exists s' calls, handle_join e s buf = Some (s', calls) /\ server_ok s' /\
    room_of s' = room_step (Join pid d) (room_of s).
Proof.
  intros [Hh Hn Hl] Hd Hd1 buf Hp. unfold handle_join. rewrite Hp, Hd.
  rewrite (proj2 (Z.eqb_neq d (-1))) by done.
  destruct (push_history_ok (hst s) (lit "SERVER") (trunc MAX_MSG_SIZE (lit "User " ++ pid ++ lit " joined")) Hh)
    as (h' & -> & Hh' & Hv).
  cbn [mbind option_bind].
  destruct (send_history_defined (send_ok e) h' d 0 (Z.to_nat (history_count h')) Hh') as [hs Hs]; [lia|].
  unfold send_history_to_client. rewrite Hs. cbn [mbind option_bind].
  destruct (add_or_update_ok (clients s) (client_qname pid) d Hn (client_qname_len pid)) as [Hm Hnd].
  eexists _, _. split; [done|]. split.
  - split; [done | done | by apply add_or_update_len].
  - unfold room_of. cbn [clients hst room_step members log]. by rewrite Hm, Hv.
Qed.

Lemma handle_message_ok e s raw :
  server_ok s -> (length raw < MAX_MSG_SIZE)%nat ->
  exists s' calls, handle_message e s raw = Some (s', calls) /\ server_ok s' /\
    room_of s' = room_step (decode e (c_str raw)) (room_of s).
Proof.
  intros Hok Hlen. pose proof Hok as [Hh Hn Hl]. unfold handle_message, decode.
  rewrite (proj2 (Nat.ltb_lt _ _)) by done. set (buf := c_str raw).
  destruct (strneq 5 buf (lit "JOIN:")).
  { destruct (mq_open e (client_qname (trunc PID_LEN (drop 5 buf))) =? -1) eqn:E.
    - eexists _, _. split; [|done]. unfold handle_join. by rewrite E.
    - bool_to_prop. by eapply handle_join_ok. }
  destruct (strneq 4 buf (lit "MSG:")).
  { unfold handle_msg. destruct (strchr_split COLON (drop 4 buf)) as [[p txt]|]; [|by eexists _, _].
    destruct (push_history_ok (hst s) (trunc CLIENT_NAME_LEN (lit "Client_" ++ trunc PID_LEN p)) txt Hh)
      as (h' & -> & Hh' & Hv).
    eexists _, _. split; [done|]. split; [by split|]. unfold room_of.
    cbn [clients hst room_step members log]. by rewrite Hv. }
  destruct (strneq 6 buf (lit "LEAVE:")); [|by eexists _, _].
  unfold handle_leave. set (pid := trunc PID_LEN (drop 6 buf)).
  pose proof (remove_client_ok (clients s) (client_qname pid) Hn) as [Hm Hsub].
  destruct (remove_client_by_name (clients s) (client_qname pid)) as [cs closed]. simpl in Hm, Hsub.
  destruct (push_history_ok (hst s) (lit "SERVER") (trunc MAX_MSG_SIZE (lit "User " ++ pid ++ lit " left")) Hh)
    as (h' & -> & Hh' & Hv).
  cbn [mbind option_bind]. eexists _, _. split; [done|]. split.
  - split; [done| |]; simpl.
    + eapply sublist_NoDup; [done | by apply fmap_sublist].
    + apply Forall_forall. intros c Hc. rewrite Forall_forall in Hl. apply Hl.
      eapply elem_of_submseteq; [exact Hc | by apply sublist_submseteq].
  - unfold room_of. cbn [clients hst room_step members log]. by rewrite Hm, Hv.
Qed.

(** ** Lemmas: a message from a client to the screens *)

Lemma udec_clean z c : 0 <= z -> c ∈ udec z -> 48 <= c <= 57.
Proof.
  intros Hz Hc. pose proof (udec_digits z Hz) as HF. rewrite Forall_forall in HF.
  apply HF in Hc. unfold isdigit in Hc. lia.
Qed.

Lemma dec_clean p : (NUL ∉ dec p) /\ (COLON ∉ dec p).
Proof.
  unfold dec, NUL, COLON. destruct (p <? 0) eqn:E; bool_to_prop.
  - split; intros [H|H%udec_clean]%elem_of_cons; lia.
  - split; intros H%udec_clean; lia.
Qed.

Lemma streq_prefix (w s : cstr) : strneq (length w) (w ++ s) w = true.
Proof. apply bool_decide_eq_true. by rewrite take_app_length, firstn_all. Qed.

(** The text a client sends, as the server reads it. *)
Definition msg_line (p : Z) (txt : cstr) : cstr := lit "MSG:" ++ dec p ++ [COLON] ++ txt.

Lemma client_send_fits p txt :
  (length (msg_line p txt) < MAX_MSG_SIZE)%nat -> client_send_text p txt = (0, with_nul (msg_line p txt)).
Proof.
  intros H. unfold client_send_text. fold (msg_line p txt).
  rewrite trunc_id by lia. rewrite (proj2 (Nat.leb_le _ _)); [done|].
  unfold with_nul. rewrite length_app. change (length [NUL]) with 1%nat. lia.
Qed.

(** No line the server sends starts like the ones the reader looks for. *)
Definition plain_label (l : cstr) : Prop := head l = Some 83 \/ head l = Some 67.

Lemma plain_not_bracket l txt : plain_label l -> strneq 12 (labelled l txt) (lit "[SERVER]:User ") = false.
Proof.
  intros Hl. apply bool_decide_eq_false. intros H. apply (f_equal head) in H.
  destruct l as [|c l]; [by destruct Hl|]. unfold labelled, trunc, SEND_BUF in H.
  rewrite <- app_comm_cons in H. change (1024 + 64 + 8 - 1)%nat with (S 1094) in H.
  rewrite firstn_cons in H. change 12%nat with (S 11) in H. rewrite firstn_cons in H.
  assert (Some c = Some 91) as [= ->] by exact H. by destruct Hl.
Qed.

Definition labels_ok (s : server) : Prop := Forall (fun e => plain_label (sender e)) (hist_view (hst s)).

(** The message a call sends. *)
Definition sent_by (c : call) : option cstr := match c with MqSend _ m => Some m | _ => None end.

Definition plain_line (m : cstr) : Prop := exists l txt, plain_label l /\ m = labelled l txt.

Lemma broadcast_plain cs l txt m :
  plain_label l -> m ∈ omap sent_by (broadcast_message cs l txt) -> plain_line m.
Proof.
  intros Hl (c & Hc & Hm)%list_elem_of_omap. unfold broadcast_message in Hc.
  apply list_elem_of_omap in Hc as (cl & _ & E). case_match; simplify_eq/=. by exists l, txt.
Qed.

Lemma send_history_plain ok h d i n calls m :
  hist_ok h -> Forall (fun e => plain_label (sender e)) (hist_view h) ->
  0 <= i -> i + Z.of_nat n <= history_count h ->
  send_history ok h d i n = Some calls -> m ∈ omap sent_by calls -> plain_line m.
Proof.
  intros Hok HF. revert i calls. induction n as [|n IH]; intros i calls Hi Hn; cbn [send_history].
  { intros [= <-] Hm. by apply not_elem_of_nil in Hm. }
  destruct (aget _ _) as [x|] eqn:Ex; [|done]. cbn [mbind option_bind].
  assert (plain_label (sender x)) as Hx.
  { rewrite slot_rem in Ex by (done || (destruct Hok; lia)).
    rewrite <- (aget_view h i Hok) in Ex by lia. apply aget_Some in Ex as [_ Ex].
    by eapply Forall_lookup_1 in HF; [|exact Ex]. }
  destruct (ok _).
  - destruct (send_history ok h d (i + 1) n) as [rest|] eqn:Er; [|done]. simpl.
    intros [= <-]. csimpl. intros [->|Hm]%elem_of_cons; [by eexists _, _|].
    eapply IH; [| |exact Er|exact Hm]; lia.
  - intros [= <-] Hm. csimpl in Hm. apply list_elem_of_singleton in Hm as ->. by eexists _, _.
Qed.

Lemma labels_ok_push h snd txt h' :
  hist_ok h -> Forall (fun e => plain_label (sender e)) (hist_view h) ->
  plain_label snd -> push_history h snd txt = Some h' ->
  Forall (fun e => plain_label (sender e)) (hist_view h').
Proof.
  intros Hok HF Hs Hp. destruct (push_history_ok h snd txt Hok) as (h2 & Hp2 & _ & Hv).
  rewrite Hp in Hp2. injection Hp2 as <-. rewrite Hv. unfold lastn. apply Forall_drop, Forall_app.
  split; [done|]. constructor; [|done]. simpl. unfold trunc, CLIENT_NAME_LEN.
  destruct snd as [|c snd]; [by destruct Hs|]. done.
Qed.

Lemma client_label_plain p : plain_label (trunc CLIENT_NAME_LEN (lit "Client_" ++ p)).
Proof. by right. Qed.

Lemma init_room_ok : server_ok init_server.
Proof. split; [split; simpl; unfold MAXH; (reflexivity || lia) | constructor | constructor]. Qed.

Lemma handle_message_plain e s raw s' calls :
  server_ok s -> labels_ok s -> handle_message e s raw = Some (s', calls) ->
  labels_ok s' /\ forall m, m ∈ omap sent_by calls -> plain_line m.
Proof.
  intros [Hh Hn Hl] HF. unfold handle_message. destruct (_ <? _)%nat; [|done].
  set (buf := c_str raw).
  assert (forall m, m ∈ omap sent_by (@nil call) -> plain_line m) as Hnil
    by (intros m Hm; by apply not_elem_of_nil in Hm).
  destruct (strneq 5 buf _).
  { unfold handle_join. case_if; [intros [= <- <-]; done|].
    destruct (push_history _ _ _) as [h'|] eqn:Ep; [|done]. cbn [mbind option_bind].
    destruct (send_history_to_client _ _ _) as [hs|] eqn:Es; [|done]. intros [= <- <-].
    pose proof (labels_ok_push _ (lit "SERVER") _ _ Hh HF (or_introl eq_refl) Ep) as HF'. split; [done|].
    intros m. rewrite omap_app, elem_of_app. intros [Hm|Hm].
    - eapply broadcast_plain; [|exact Hm]. by left.
    - destruct (push_history_ok (hst s) (lit "SERVER")
        (trunc MAX_MSG_SIZE (lit "User " ++ trunc PID_LEN (drop 5 buf) ++ lit " joined")) Hh)
        as (h2 & Hp2 & Hh2 & _). rewrite Ep in Hp2. injection Hp2 as <-.
      pose proof (ho_count _ Hh2).
      eapply send_history_plain; [exact Hh2 | exact HF' | | | exact Es | exact Hm]; lia. }
  destruct (strneq 4 buf _).
  { unfold handle_msg. destruct (strchr_split _ _) as [[p txt]|]; [|intros [= <- <-]; done].
    destruct (push_history _ _ _) as [h'|] eqn:Ep; [|done]. intros [= <- <-].
    split; [eapply labels_ok_push; [done | done | apply client_label_plain | exact Ep]|].
    intros m Hm. eapply broadcast_plain; [apply client_label_plain | exact Hm]. }
  destruct (strneq 6 buf _); [|intros [= <- <-]; done].
  unfold handle_leave. destruct (remove_client_by_name _ _) as [cs closed] eqn:Er.
  destruct (push_history _ _ _) as [h'|] eqn:Ep; [|done]. intros [= <- <-].
  split; [exact (labels_ok_push _ (lit "SERVER") _ _ Hh HF (or_introl eq_refl) Ep)|].
  intros m. rewrite omap_app, elem_of_app. intros [Hm|Hm].
  - apply list_elem_of_omap in Hm as (c & Hc & Hsent). exfalso.
    assert (forall cs r cl, remove_client_by_name cs (client_qname (trunc PID_LEN (drop 6 buf))) = (r, cl) ->
      forall c, c ∈ cl -> sent_by c = None) as Hrem.
    { clear. induction cs as [|c0 cs IH]; intros r cl; simpl.
      - intros [= <- <-] c Hc. by apply not_elem_of_nil in Hc.
      - case_if.
        + intros [= <- <-] c Hc. case_if; [by apply not_elem_of_nil in Hc|].
          by apply list_elem_of_singleton in Hc as ->.
        + destruct (remove_client_by_name cs _) as [r' cl'] eqn:E. intros [= <- <-]. by eapply IH. }
    by rewrite (Hrem _ _ _ Er c Hc) in Hsent.
  - eapply broadcast_plain; [|exact Hm]. by left.
Qed.

(** The line a member gets for the text of client [p]. *)
Definition shown_line (p : Z) (txt : cstr) : cstr := lit "Client_" ++ dec p ++ [COLON] ++ txt.

Lemma lit_clean (s : string) : bool_decide (NUL ∈ lit s) = false -> NUL ∉ lit s.
Proof. by intros H%bool_decide_eq_false. Qed.

Lemma length_shown_line p txt :
  0 <= p <= INT_MAX -> (length (msg_line p txt) + 1 < MAX_MSG_SIZE)%nat ->
  (length (shown_line p txt) = length (msg_line p txt) + 3 /\ length (dec p) <= 31)%nat.
Proof.
  intros Hp _. split; [|by apply length_dec_int].
  unfold shown_line, msg_line. rewrite !length_app.
  change (length (lit "Client_")) with 7%nat. change (length (lit "MSG:")) with 4%nat. lia.
Qed.

Lemma shown_line_clean p txt : NUL ∉ txt -> NUL ∉ shown_line p txt.
Proof.
  intros Hn. destruct (dec_clean p) as [Hd _]. unfold shown_line. rewrite !not_elem_of_app.
  split_and!; [by apply lit_clean | done | | done]. by intros ?%list_elem_of_singleton.
Qed.

(** The server passes the text of a client on to the members. *)
Lemma server_passes_on e s p txt :
  server_ok s -> 0 <= p <= INT_MAX -> NUL ∉ txt -> (length (msg_line p txt) + 1 < MAX_MSG_SIZE)%nat ->
  client_send_text p txt = (0, with_nul (msg_line p txt)) /\
  exists s', handle_message e s (with_nul (msg_line p txt)) = Some (s',
      omap (fun c => if mqd c =? -1 then None else Some (MqSend (mqd c) (shown_line p txt))) (clients s)) /\
    clients s' = clients s.
Proof.
  intros Hok Hp Hn Hlen. split; [apply client_send_fits; unfold MAX_MSG_SIZE in *; lia|].
  destruct (dec_clean p) as [Hd1 Hd2].
  destruct (length_shown_line p txt Hp Hlen) as [Hll Hld]. unfold MAX_MSG_SIZE in *.
  assert (handle_msg s (msg_line p txt) = handle_message e s (with_nul (msg_line p txt))) as <-.
  { unfold handle_message, with_nul. rewrite c_str_prefix.
    - rewrite (proj2 (Nat.ltb_lt _ _)); [done|]. rewrite length_app. unfold MAX_MSG_SIZE.
      change (length [NUL]) with 1%nat. lia.
    - unfold msg_line. rewrite !not_elem_of_app. split_and!; [by apply lit_clean | done | | done].
      by intros ?%list_elem_of_singleton. }
  unfold handle_msg. change (drop 4 (msg_line p txt)) with (dec p ++ COLON :: txt).
  rewrite (proj2 (strchr_split_spec COLON _ (dec p) txt) (conj eq_refl Hd2)).
  rewrite (trunc_id PID_LEN) by (unfold PID_LEN; lia).
  rewrite (trunc_id CLIENT_NAME_LEN) by (rewrite length_app; unfold CLIENT_NAME_LEN; simpl length; lia).
  destruct (push_history_ok (hst s) (lit "Client_" ++ dec p) txt (so_hist _ Hok)) as (h' & -> & _ & _).
  cbn [mbind option_bind]. exists (mkServer h' (clients s)). split; [|done].
  f_equal. unfold broadcast_message, labelled. rewrite <- !app_assoc. fold (shown_line p txt).
  by rewrite (trunc_id SEND_BUF) by (unfold SEND_BUF; lia).
Qed.

(** The reading thread shows a line it gets as its newest. *)
Lemma reader_shows st line :
  NUL ∉ line -> (length line + 1 < LINE_LEN)%nat -> (length (lines st) <= MAX_DISPLAY_LINES)%nat ->
  exists st', reader_message st (with_nul line) = Some st' /\ pid st' = pid st /\
    lines st' = lastn MAX_DISPLAY_LINES (lines st ++ [line]).
Proof.
  intros Hn Hlen Hst. unfold reader_message. rewrite (proj2 (Nat.ltb_lt _ _)).
  2: { unfold with_nul. rewrite length_app. change (length [NUL]) with 1%nat. lia. }
  eexists. split_and!; [done | done |]. cbn [lines]. unfold with_nul.
  rewrite c_str_prefix by done. unfold add_line. rewrite trunc_id by lia.
  destruct (length (lines st) <? MAX_DISPLAY_LINES)%nat eqn:E.
  - apply Nat.ltb_lt in E. by rewrite lastn_all by (rewrite length_app; simpl; lia).
  - apply Nat.ltb_ge in E. change MAX_DISPLAY_LINES with (S 999). rewrite lastn_snoc. f_equal.
    rewrite tail_drop. unfold lastn. f_equal. unfold MAX_DISPLAY_LINES in *. lia.
Qed.

(** The lines among what the thread was delivered. *)
Definition delivered (turns : list (bool * delivery)) : list cstr :=
  omap (fun t => match t.2 with Delivered raw => Some (c_str raw) | _ => None end) turns.

(** A line of the server, which fits the thread's buffer, or an error. *)
Definition line_or_error (t : bool * delivery) : Prop :=
  t.1 = false /\
  match t.2 with
  | Delivered raw => exists line, raw = with_nul line /\ (NUL ∉ line) /\ (length line + 1 < LINE_LEN)%nat
  | _ => True
  end.

Lemma lastn_app_lastn {A} n (l k : list A) : lastn n (lastn n l ++ k) = lastn n (l ++ k).
Proof.
  destruct (decide (length l <= n)%nat); [by rewrite (lastn_all n l)|].
  unfold lastn. rewrite !length_app, length_drop, !drop_app, length_drop, drop_drop. f_equal; f_equal; lia.
Qed.

Lemma reader_thread_shows st turns :
  (length (lines st) <= MAX_DISPLAY_LINES)%nat -> Forall line_or_error turns ->
  exists st' sleeps, pid st' = pid st /\
    lines st' = lastn MAX_DISPLAY_LINES (lines st ++ delivered turns) /\
    forall rest, mq_reader_thread st (turns ++ rest) =
      ('(st2, more, ended) ← mq_reader_thread st' rest; Some (st2, (sleeps + more)%nat, ended)).
Proof.
  intros Hl HF. revert st Hl. induction HF as [|[stop d] turns [Hs Hd] _ IH]; intros st Hl.
  - exists st, 0%nat. split_and!; [done|cbn; by rewrite app_nil_r, lastn_all|]. intros rest. cbn [app].
    by destruct (mq_reader_thread st rest) as [[[] ]|].
  - cbn [fst snd] in *. subst stop. cbn [app mq_reader_thread]. destruct d as [raw| |].
    + destruct Hd as (line & -> & Hn & Hll). destruct (reader_shows st line Hn Hll Hl) as (st1 & -> & Hp & Hl1).
      cbn [mbind option_bind]. destruct (IH st1) as (st' & sl & Hp' & Hl' & H); [rewrite Hl1, length_lastn; lia|].
      exists st', sl. split_and!; [congruence| |intros rest; by rewrite H]. rewrite Hl', Hl1, lastn_app_lastn, <- app_assoc.
      change (delivered (_ :: turns)) with (c_str (line ++ [NUL]) :: delivered turns). by rewrite c_str_prefix.
    + destruct (IH st Hl) as (st' & sl & Hp' & Hl' & H). by exists st', sl.
    + destruct (IH st Hl) as (st' & sl & Hp' & Hl' & H). exists st', (S sl). split_and!; [done..|].
      intros rest. rewrite H. by destruct (mq_reader_thread st' rest) as [[[] ]|].
Qed.

Definition demo_env : mq_env := mkMq (fun _ => 5) (fun _ => true).

Definition demo_server : server :=
  mkServer (hst init_server) [mkCl (lit "/client_7") 3; mkCl (lit "/client_8") 4].

Lemma demo_server_ok : server_ok demo_server.
Proof.
  split; [apply init_room_ok | apply (bool_decide_unpack _); vm_compute; exact I |].
  repeat constructor.
Qed.

(** ** Properties *)

(** C7 (refinement).  The server implements the chat room.  Any message shorter than the
    buffer is handled without leaving an array, the server's invariant (a consistent
    ring of 256 entries, distinct client names) is kept, and the server's state, seen as
    the members of the room with their queues and the log of the last 256 messages,
    changes exactly as the room does for the decoded message: joining sets the member's
    queue and logs it, leaving removes it and logs it, a message is logged, anything
    else changes nothing. *)
Theorem server_refines_room e s raw :
  server_ok s -> (length raw < MAX_MSG_SIZE)%nat ->
  exists s' calls, handle_message e s raw = Some (s', calls) /\ server_ok s' /\
    room_of s' = room_step (decode e (c_str raw)) (room_of s).
Proof. apply handle_message_ok. Qed.

Lemma server_refines_room_witness :
  exists s' calls,
    handle_message demo_env init_server (with_nul (lit "JOIN:7")) = Some (s', calls) /\ server_ok s' /\
    room_of s' = room_step (decode demo_env (c_str (with_nul (lit "JOIN:7")))) (room_of init_server).
Proof.
  refine (server_refines_room demo_env init_server (with_nul (lit "JOIN:7")) _ _).
  - apply init_room_ok.
  - vm_compute. lia.
Defined.

(** A message reaches everybody.  What a client passes to
    [client_send_text], when it fits, is sent by the server once to the queue of every
    member, in the form [Client_<pid>:<text>], and the reading thread of a client that
    gets it shows that line as its newest, keeping the last 1000. *)
Theorem message_reaches_members e s p txt :
  server_ok s -> 0 <= p <= INT_MAX -> NUL ∉ txt -> (length (msg_line p txt) + 1 < MAX_MSG_SIZE)%nat ->
  let line := lit "Client_" ++ dec p ++ [COLON] ++ txt in
  exists out s', client_send_text p txt = (0, out) /\
    handle_message e s out =
      Some (s', omap (fun c => if mqd c =? -1 then None else Some (MqSend (mqd c) line)) (clients s)) /\
    clients s' = clients s /\
    forall st, (length (lines st) <= MAX_DISPLAY_LINES)%nat ->
      exists st', reader_message st (with_nul line) = Some st' /\
        lines st' = lastn MAX_DISPLAY_LINES (lines st ++ [line]).
Proof.
  intros Hok Hp Hn Hlen line.
  destruct (server_passes_on e s p txt Hok Hp Hn Hlen) as (Hsend & s' & Hh & Hcl).
  exists (with_nul (msg_line p txt)), s'. split_and!; [done | done | done |]. intros st Hst.
  destruct (length_shown_line p txt Hp Hlen) as [Hll _].
  destruct (reader_shows st line) as (st' & Hr & _ & Hl); [by apply shown_line_clean | | done | by eauto].
  fold line in Hll. unfold line. fold (shown_line p txt). unfold LINE_LEN, MAX_MSG_SIZE in *. lia.
Qed.

Lemma message_reaches_members_witness :
  exists out s', client_send_text 42 (lit "hello") = (0, out) /\
    handle_message demo_env demo_server out =
      Some (s', [MqSend 3 (lit "Client_42:hello"); MqSend 4 (lit "Client_42:hello")]) /\
    clients s' = clients demo_server /\
    forall st, (length (lines st) <= MAX_DISPLAY_LINES)%nat ->
      exists st', reader_message st (with_nul (lit "Client_42:hello")) = Some st' /\
        lines st' = lastn MAX_DISPLAY_LINES (lines st ++ [lit "Client_42:hello"]).
Proof.
  refine (message_reaches_members demo_env demo_server 42 (lit "hello") _ _ _ _).
  - apply demo_server_ok.
  - unfold INT_MAX. lia.
  - apply (bool_decide_unpack _). vm_compute. exact I.
  - vm_compute. lia.
Defined.

(** Counterexample.  A message that fills the queue's message size overruns
    the server's buffer: [client_send_text] accepts a text that makes it exactly 1024
    bytes with its NUL, the queue delivers it, and the server's [buf[r] = '\0'] writes
    one byte past [buf], whatever its state. *)
Theorem full_message_overruns e s p txt :
  length (msg_line p txt) = (MAX_MSG_SIZE - 1)%nat ->
  exists out, client_send_text p txt = (0, out) /\ handle_message e s out = None.
Proof.
  intros Hl. exists (with_nul (msg_line p txt)). unfold MAX_MSG_SIZE in *. split.
  - apply client_send_fits. unfold MAX_MSG_SIZE. lia.
  - unfold handle_message. rewrite (proj2 (Nat.ltb_ge _ _)); [done|].
    unfold with_nul. rewrite length_app, Hl. unfold MAX_MSG_SIZE. change (length [NUL]) with 1%nat. lia.
Qed.

Lemma full_message_overruns_witness :
  exists out, client_send_text 42 (replicate 1016 65) = (0, out) /\
    handle_message demo_env demo_server out = None.
Proof.
  refine (full_message_overruns demo_env demo_server 42 (replicate 1016 65) _).
  vm_compute. reflexivity.
Defined.

(** The client's list of users is never updated: the server labels its notices
    [SERVER], the reader looks for [[SERVER]].  From a state whose history holds
    labelled entries, every line the server sends leaves the list of every reader as
    it is, and the property holds again of the next state. *)
Theorem user_list_never_updated e s raw s' calls :
  server_ok s -> labels_ok s -> handle_message e s raw = Some (s', calls) ->
  labels_ok s' /\
  forall m st st', m ∈ omap sent_by calls -> NUL ∉ m -> reader_message st (with_nul m) = Some st' ->
    names st' = names st.
Proof.
  intros Hok HF Hh. destruct (handle_message_plain e s raw s' calls Hok HF Hh) as [HF' Hm].
  split; [done|]. intros m st st' Hin Hn Hr. destruct (Hm m Hin) as (l & txt & Hl & ->).
  unfold reader_message in Hr. case_match; [|done]. injection Hr as <-. cbn [names].
  unfold with_nul. rewrite c_str_prefix by done. by rewrite plain_not_bracket.
Qed.

(** The reading thread, as a whole: whatever interruptions and errors come in between, it shows the last 1000 of the
    lines it was delivered, in their order, after those it had; and it returns the first time it finds that it is to
    stop. *)
Theorem reader_thread_shows_the_lines st turns d more :
  (length (lines st) <= MAX_DISPLAY_LINES)%nat -> Forall line_or_error turns ->
  exists st' sleeps, pid st' = pid st /\
    lines st' = lastn MAX_DISPLAY_LINES (lines st ++ delivered turns) /\
    mq_reader_thread st turns = Some (st', sleeps, false) /\
    mq_reader_thread st (turns ++ (true, d) :: more) = Some (st', sleeps, true).
Proof.
  intros Hl HF. destruct (reader_thread_shows st turns Hl HF) as (st' & sl & Hp & Hls & H).
  pose proof (H []) as H1. rewrite app_nil_r in H1. exists st', (sl + 0)%nat. by rewrite H, H1.
Qed.

Lemma reader_thread_shows_the_lines_witness :
  exists st' sleeps, pid st' = 7 /\ lines st' = [lit "SERVER:User 8 joined"; lit "Client_8:hi"] /\
    mq_reader_thread (mkState 7 [] []) [(false, Delivered (with_nul (lit "SERVER:User 8 joined"))); (false, Interrupted);
      (false, DeliveryFailed); (false, Delivered (with_nul (lit "Client_8:hi")))] = Some (st', sleeps, false) /\
    mq_reader_thread (mkState 7 [] []) ([(false, Delivered (with_nul (lit "SERVER:User 8 joined"))); (false, Interrupted);
      (false, DeliveryFailed); (false, Delivered (with_nul (lit "Client_8:hi")))] ++ [(true, Interrupted)])
      = Some (st', sleeps, true).
Proof.
  refine (reader_thread_shows_the_lines (mkState 7 [] []) [(false, Delivered (with_nul (lit "SERVER:User 8 joined")));
    (false, Interrupted); (false, DeliveryFailed); (false, Delivered (with_nul (lit "Client_8:hi")))] Interrupted [] _ _).
  - vm_compute. lia.
  - list_forall; (split; [reflexivity|]); cbn [snd]; try done;
      (eexists; split_and!; [reflexivity | apply (bool_decide_unpack _); vm_compute; exact I | vm_compute; lia]).
Defined.
