(* ===== verification/MqServer.v ===== *)
(** * The queues of the chat server

    [main] of [message_queues/chat_common_room/src/server.c] from the start to the end: which descriptors it opens, and
    what becomes of them. *)

From S2P Require Import Prelude CString MqChat.

(** The descriptor a message makes the server open: that of a client that joins. *)
Definition opens (e : mq_env) (raw : list byte) : list Z :=
  let buf := c_str raw in
  if strneq 5 buf (lit "JOIN:") then
    let d := mq_open e (client_qname (trunc PID_LEN (drop 5 buf))) in if d =? -1 then [] else [d]
  else [].

(** The descriptor that is overwritten by it: that of an entry with the same name. *)
Definition overwrites (e : mq_env) (s : server) (raw : list byte) : list Z :=
  match opens e raw with
  | [] => []
  | _ => option_list (mqd <$> find_client_by_name (clients s) (client_qname (trunc PID_LEN (drop 5 (c_str raw)))))
  end.

(** The same for a run. *)
Fixpoint opened (rs : list received) : list Z :=
  match rs with
  | [] | Stopped :: _ => []
  | ReceiveError :: rs => opened rs
  | Received raw e :: rs => opens e raw ++ opened rs
  end.
Fixpoint overwritten (s : server) (rs : list received) : list Z :=
  match rs with
  | [] | Stopped :: _ => []
  | ReceiveError :: rs => overwritten s rs
  | Received raw e :: rs =>
      overwrites e s raw ++ match handle_message e s raw with Some r => overwritten r.1 rs | None => [] end
  end.

Definition closes : list call -> list Z := omap (fun c => match c with MqClose d => Some d | _ => None end).
Definition mqds (s : server) : list Z := mqd <$> clients s.
Definition all_open (ds : list Z) : Prop := Forall (fun d => d <> -1) ds.

(** ** Lemmas *)

Lemma closes_app a b : closes (a ++ b) = closes a ++ closes b.
Proof. apply omap_app. Qed.

Lemma closes_broadcast cs l x : closes (broadcast_message cs l x) = [].
Proof. unfold broadcast_message. induction cs as [|c cs IH]; [done|]. cbn. by case_if. Qed.

Lemma closes_history ok h d n : forall i cs, send_history ok h d i n = Some cs -> closes cs = [].
Proof.
  induction n as [|n IH]; intros i cs; cbn [send_history]; [by intros [= <-]|].
  destruct (aget _ _) as [x|]; [|done]. cbn [mbind option_bind]. case_if; [|by intros [= <-]].
  destruct (send_history _ _ _ _ n) as [rest|] eqn:E; [|done]. intros [= <-]. by apply (IH _ _ E).
Qed.

(** A descriptor is added, and the one of an entry with the name goes. *)
Lemma add_mqds cs n d :
  (mqd <$> add_or_update_client cs n d) ++ option_list (mqd <$> find_client_by_name cs n) ≡ₚ (mqd <$> cs) ++ [d].
Proof.
  unfold add_or_update_client. destruct (find_client_by_name cs n) as [x|] eqn:E; cbn [fmap option_fmap option_map option_list].
  - unfold find_client_by_name in E. induction cs as [|c0 cs IH]; [done|]. cbn [List.find set_mqd] in *.
    destruct (streq (qname c0) n); [|csimpl; by rewrite IH].
    injection E as ->. csimpl. rewrite <- !Permutation_cons_append. apply perm_swap.
  - csimpl. by rewrite app_nil_r, Permutation_cons_append.
Qed.

Lemma add_open cs n d : all_open (mqd <$> cs) -> d <> -1 -> all_open (mqd <$> add_or_update_client cs n d).
Proof.
  intros Ho Hd. unfold add_or_update_client. destruct (find_client_by_name cs n) as [x|]; [|by constructor].
  induction cs as [|c cs IH]; [done|]. cbn [set_mqd]. inversion_clear Ho as [|? ? Hc Ho'].
  case_if; csimpl; constructor; auto. by apply IH.
Qed.

(** The descriptor of the entry that is removed is closed. *)
Lemma remove_mqds cs n :
  all_open (mqd <$> cs) ->
  closes (remove_client_by_name cs n).2 ++ (mqd <$> (remove_client_by_name cs n).1) ≡ₚ mqd <$> cs /\
  all_open (mqd <$> (remove_client_by_name cs n).1).
Proof.
  intros Ho. induction cs as [|c cs IH]; [done|]. cbn [remove_client_by_name]. csimpl in Ho. inversion_clear Ho as [|? ? Hc Ho'].
  specialize (IH Ho'). destruct (streq (qname c) n).
  - rewrite (proj2 (Z.eqb_neq _ _)) by done. done.
  - destruct (remove_client_by_name cs n) as [r calls]. csimpl. destruct IH as [IH1 IH2]. split; [|by constructor].
    rewrite <- IH1. by rewrite Permutation_middle.
Qed.

(** What one message does to the descriptors. *)
Lemma message_mqds e s raw s' calls :
  all_open (mqds s) -> handle_message e s raw = Some (s', calls) ->
  closes calls ++ mqds s' ++ overwrites e s raw ≡ₚ mqds s ++ opens e raw /\ all_open (mqds s').
Proof.
  intros Ho. unfold handle_message, overwrites, opens, mqds. case_if; [|done]. set (buf := c_str raw).
  assert (forall h, Some (mkServer h (clients s), []) = Some (s', calls) ->
    closes calls ++ (mqd <$> clients s') ++ [] ≡ₚ (mqd <$> clients s) ++ [] /\ all_open (mqd <$> clients s')) as Hsame
    by (by intros h [= <- <-]).
  destruct (strneq 5 buf (lit "JOIN:")).
  { unfold handle_join. case_if; [by destruct s; apply Hsame|]. bool_to_prop.
    destruct (push_history _ _ _) as [h|]; [|done]. cbn [mbind option_bind].
    destruct (send_history_to_client _ _ _) as [hs|] eqn:Eh; [|done]. intros [= <- <-]. cbn [clients].
    rewrite closes_app, closes_broadcast, (closes_history _ _ _ _ _ _ Eh).
    split; [apply add_mqds|by apply add_open]. }
  destruct (strneq 4 buf (lit "MSG:")).
  { unfold handle_msg. destruct (strchr_split _ _) as [[p x]|]; [|by destruct s; apply Hsame].
    destruct (push_history _ _ _) as [h|]; [|done]. intros [= <- <-]. cbn [clients]. by rewrite closes_broadcast. }
  destruct (strneq 6 buf (lit "LEAVE:")); [|by destruct s; apply Hsame].
  unfold handle_leave. set (n := client_qname _). pose proof (remove_mqds (clients s) n Ho) as [Hp Hop].
  destruct (remove_client_by_name (clients s) n) as [cs closed].
  destruct (push_history _ _ _) as [h|]; [|done]. intros [= <- <-]. cbn [clients fst snd] in *.
  by rewrite closes_app, closes_broadcast, !app_nil_r.
Qed.

Lemma cleanup_closes d cs :
  d <> -1 -> all_open (mqd <$> cs) -> cleanup d cs = (MqClose <$> (mqd <$> cs)) ++ [MqClose d; MqUnlink].
Proof.
  intros Hd Ho. unfold cleanup. rewrite (proj2 (Z.eqb_neq _ _)) by done. f_equal.
  induction cs as [|c cs IH]; [done|]. inversion_clear Ho. cbn. rewrite (proj2 (Z.eqb_neq _ _)) by done. by rewrite IH.
Qed.

Lemma closes_all ds : closes (MqClose <$> ds) = ds.
Proof. induction ds as [|d ds IH]; [done|]. cbn. by f_equal. Qed.

(** Every message fits the buffer. *)
Definition fits (r : received) : Prop :=
  match r with Received raw _ => (length raw < MAX_MSG_SIZE)%nat | _ => True end.

Lemma loop_mqds d s rs :
  d <> -1 -> server_ok s -> all_open (mqds s) -> Forall fits rs ->
  exists body, server_loop d s rs = Some (body ++ [MqClose d; MqUnlink]) /\
    closes body ++ overwritten s rs ≡ₚ mqds s ++ opened rs.
Proof.
  intros Hd. revert s. induction rs as [|r rs IH]; intros s Hok Ho Hf.
  { cbn. rewrite cleanup_closes by done. eexists. split; [done|]. by rewrite closes_all, !app_nil_r. }
  inversion_clear Hf as [|? ? Hr Hf']. destruct r as [raw e| |]; cbn [server_loop opened overwritten].
  - destruct (handle_message_ok e s raw Hok Hr) as (s' & calls & E & Hok' & _). rewrite E. cbn [mbind option_bind fst snd].
    destruct (message_mqds e s raw s' calls Ho E) as [Hp Ho'].
    destruct (IH s' Hok' Ho' Hf') as (body & -> & Hb). cbn [mbind option_bind].
    exists (calls ++ body). split; [by rewrite app_assoc|]. rewrite closes_app.
    transitivity ((closes calls ++ overwrites e s raw) ++ closes body ++ overwritten s' rs); [solve_Permutation|].
    rewrite Hb. rewrite (app_assoc (mqds s)), <- Hp. solve_Permutation.
  - by apply IH.
  - rewrite cleanup_closes by done. eexists. split; [done|]. by rewrite closes_all, !app_nil_r.
Qed.

(** ** Properties *)

(** C23 (safety).  The chat server from its start to its end.  When its queue cannot be opened it ends with status 1.
    Otherwise, for messages that fit the buffer, receive errors and signals in any order, nothing it does is
    undefined, it ends with status 0 by closing and removing its own queue, and it has closed every descriptor it had
    opened for a client exactly once, except those that were overwritten when a client joined under a name
    that was still in the list, which stay open. *)
Theorem server_closes_queues d rs :
  Forall fits rs ->
  (d = -1 -> server_main d rs = Some (1, [])) /\
  (d <> -1 -> exists body, server_main d rs = Some (0, body ++ [MqClose d; MqUnlink]) /\
     closes body ++ overwritten init_server rs ≡ₚ opened rs).
Proof.
  intros Hf. unfold server_main. split; [by intros ->|]. intros Hd. rewrite (proj2 (Z.eqb_neq _ _)) by done.
  destruct (loop_mqds d init_server rs Hd) as (body & -> & Hp); [apply init_room_ok|by constructor|done|]. by exists body.
Qed.

Definition demo_queues (d : Z) : mq_env := mkMq (fun _ => d) (fun _ => true).
Definition message (s : string) : list byte := with_nul (lit s).

(** Client 7 crashes and joins again; descriptor 5 stays open. *)
Definition demo_session : list received :=
  [Received (message "JOIN:7") (demo_queues 5); ReceiveError; Received (message "JOIN:8") (demo_queues 6);
   Received (message "MSG:7:hello") (demo_queues (-1)); Received (message "JOIN:7") (demo_queues 9);
   Received (message "LEAVE:8") (demo_queues (-1)); Stopped].

Lemma server_closes_queues_witness :
  exists body, server_main 3 demo_session = Some (0, body ++ [MqClose 3; MqUnlink]) /\
    closes body ++ [5] ≡ₚ [5; 6; 9] /\ closes body = [6; 9].
Proof.
  destruct (server_closes_queues 3 demo_session) as [_ H].
  - unfold demo_session. repeat constructor; vm_compute; lia.
  - destruct H as (body & E & Hp); [done|]. exists body. split; [exact E|]. split; [exact Hp|].
    assert (closes (body ++ [MqClose 3; MqUnlink]) = closes ((default (0, []) (server_main 3 demo_session)).2)) as Hc
      by (rewrite E; reflexivity).
    rewrite closes_app in Hc. change (closes [_; _]) with [3] in Hc. eapply (app_inv_tail [3]). rewrite Hc. vm_compute. reflexivity.
Defined.
