(* ===== verification/MqClient.v ===== *)
(** * Chat over POSIX message queues: the life of a client

    [client_state_init], [client_core_start] and [client_core_stop] of
    [message_queues/chat_common_room/src/client_core.c], as the calls they make.
    What the calls report is an argument; what they do to the descriptors, the
    names and the threads of the system is [apply_call]. *)

From S2P Require Import Prelude CString MqChat.

(** ** The calls *)

Inductive syscall :=
  | Open (name : cstr) (creat : bool) (res : Z)
  | Close (d : Z)
  | Unlink (name : cstr)
  | Send (d : Z) (msg : list byte) (ok : bool)
  | Create (ok : bool)
  | Join.

(** What the process holds: open queue descriptors, queues that exist under a name,
    running threads. *)
Record resources := mkRes { descs : gset Z; queues : gset cstr; threads : nat }.

Definition apply_call (c : syscall) (r : resources) : resources :=
  match c with
  | Open name creat d =>
      if d =? -1 then r
      else mkRes ({[d]} ∪ descs r) (if creat then {[name]} ∪ queues r else queues r) (threads r)
  | Close d => mkRes (descs r ∖ {[d]}) (queues r) (threads r)
  | Unlink name => mkRes (descs r) (queues r ∖ {[name]}) (threads r)
  | Send _ _ _ => r
  | Create ok => if ok then mkRes (descs r) (queues r) (S (threads r)) else r
  | Join => mkRes (descs r) (queues r) (pred (threads r))
  end.

Definition apply_calls (cs : list syscall) (r : resources) : resources :=
  foldl (fun r c => apply_call c r) r cs.

(** ** The client *)

Definition SERVER_QUEUE_NAME : cstr := lit "/server_queue".

Record core := mkCore {
  c_pid : Z; c_qname : cstr; client_mqd : Z; server_mqd : Z; stop_requested : bool
}.

Definition client_state_init (getpid : Z) : core :=
  mkCore getpid (client_qname (dec getpid)) 0 0 false.

(** What the system answers while a client starts. *)
Record start_env := mkEnv {
  open_client : Z; open_server : Z; create_ok : bool; join_ok : bool
}.

Definition client_core_start (e : start_env) (st : core) : Z * core * list syscall :=
  let st1 := mkCore (c_pid st) (c_qname st) (open_client e) (server_mqd st) (stop_requested st) in
  let calls := [Open (c_qname st) true (open_client e)] in
  if client_mqd st1 =? -1 then (-1, st1, calls)
  else
    let st2 := mkCore (c_pid st1) (c_qname st1) (client_mqd st1) (open_server e) (stop_requested st1) in
    let calls := calls ++ [Open SERVER_QUEUE_NAME false (open_server e)] in
    if server_mqd st2 =? -1 then
      (-1, st2, calls ++ [Close (client_mqd st2); Unlink (c_qname st2)])
    else
      let calls := calls ++ [Create (create_ok e)] in
      if negb (create_ok e) then
        (-1, st2, calls ++ [Close (client_mqd st2); Unlink (c_qname st2); Close (server_mqd st2)])
      else (0, st2, calls ++ [Send (server_mqd st2) (join_message (c_pid st2)) (join_ok e)]).

Definition client_core_stop (leave_ok : bool) (st : core) : core * list syscall :=
  let st := mkCore (c_pid st) (c_qname st) (client_mqd st) (server_mqd st) true in
  (st, [Send (server_mqd st) (leave_message (c_pid st)) leave_ok]
       ++ (if client_mqd st =? -1 then [] else [Close (client_mqd st)])
       ++ [Join]
       ++ (if server_mqd st =? -1 then [] else [Close (server_mqd st)])
       ++ [Unlink (c_qname st)]).

(** ** Lemmas *)

(** The descriptors the system hands out are not in use, and the queue of the client
    does not exist yet. *)
Record fresh_env (e : start_env) (r : resources) (name : cstr) : Prop := {
  fe_client : open_client e ∉ descs r;
  fe_server : open_server e ∉ descs r;
  fe_distinct : open_client e <> open_server e \/ open_client e = -1;
  fe_name : name ∉ queues r
}.

Lemma resources_eq r d q t :
  descs r = d -> queues r = q -> threads r = t -> r = mkRes d q t.
Proof. destruct r. simpl. by intros -> -> ->. Qed.

Ltac res_solver :=
  simpl; symmetry; apply resources_eq; simpl; [set_solver | set_solver | lia].

Lemma start_fails e st r :
  fresh_env e r (c_qname st) ->
  open_client e = -1 \/ open_server e = -1 \/ create_ok e = false ->
  exists st' calls, client_core_start e st = (-1, st', calls) /\ apply_calls calls r = r.
Proof.
  intros [Hc Hs Hd Hn] Hfail. unfold client_core_start. cbn [client_mqd server_mqd c_qname].
  destruct (open_client e =? -1) eqn:E1.
  { eexists _, _. split; [done|]. simpl. by rewrite E1. }
  destruct (open_server e =? -1) eqn:E2.
  { eexists _, _. split; [done|]. simpl. rewrite E1, E2. destruct r. res_solver. }
  bool_to_prop. destruct Hfail as [?|[?|Hcr]]; [done | done |]. rewrite Hcr. cbn [negb].
  eexists _, _. split; [done|]. apply Z.eqb_neq in E1, E2. simpl. rewrite E1, E2. destruct r. res_solver.
Qed.

Lemma start_succeeds e st :
  open_client e <> -1 -> open_server e <> -1 -> create_ok e = true ->
  client_core_start e st =
    (0, mkCore (c_pid st) (c_qname st) (open_client e) (open_server e) (stop_requested st),
     [Open (c_qname st) true (open_client e); Open SERVER_QUEUE_NAME false (open_server e);
      Create true; Send (open_server e) (join_message (c_pid st)) (join_ok e)]).
Proof.
  intros H1%Z.eqb_neq H2%Z.eqb_neq H3. unfold client_core_start. simpl. by rewrite H1, H2, H3.
Qed.

Lemma held_after_start e st r :
  open_client e <> -1 -> open_server e <> -1 ->
  apply_calls [Open (c_qname st) true (open_client e); Open SERVER_QUEUE_NAME false (open_server e);
               Create true; Send (open_server e) (join_message (c_pid st)) (join_ok e)] r
  = mkRes ({[open_client e; open_server e]} ∪ descs r) ({[c_qname st]} ∪ queues r) (S (threads r)).
Proof.
  intros H1%Z.eqb_neq H2%Z.eqb_neq. simpl. rewrite H1, H2. destruct r. symmetry. simpl.
  f_equal. set_solver.
Qed.

(** ** Properties *)


Definition demo_start : start_env := mkEnv 3 4 true true.

