(* ===== verification/ShmChat.v ===== *)
(** * Chat over shared memory

    [shared_memory/chat_common_room]: the memory the server creates
    ([include/common.h], [src/server.c]) and the clients ([src/client_core.c]),
    which append messages to it and drain it in a reading thread.  Every access
    happens under the lock in the shared memory, so an execution is a sequence of
    whole operations of the clients in any order; [None] is an access outside an
    array. *)

From S2P Require Import Prelude CString.

Definition MAX_MSG_SIZE : nat := 1024.
Definition CLIENT_NAME_LEN : nat := 64.
Definition MAX_MESSAGES_TOTAL : nat := 2048.
Definition MAX_CLIENTS : nat := 256.
Definition MAX_DISPLAY_LINES : nat := 1000.
Definition PID_LEN : nat := 32.
Definition LINE_LEN : nat := 1024 + 64 + 16.

Record message := mkMsg { sender : cstr; text : cstr }.

(** [messages] and [clients] are the used parts of the arrays: [msg_count] and
    [client_count] are their lengths. *)
Record shm_chat := mkShm { messages : list message; clients : list Z }.

(** The memory after [memset] with 0. *)
Definition init_shm : shm_chat := mkShm [] [].

(** [message_t *m = &shm->messages[shm->msg_count++]] and the stores through [m]. *)
Definition append (m : message) (s : shm_chat) : option shm_chat :=
  if (length (messages s) <? MAX_MESSAGES_TOTAL)%nat
  then Some (mkShm (messages s ++ [m]) (clients s)) else None.

Definition notice (pid : Z) (what : string) : message :=
  mkMsg (trunc CLIENT_NAME_LEN (lit "SERVER"))
        (trunc MAX_MSG_SIZE (lit "User " ++ dec pid ++ lit what)).

(** ** The clients *)

Record client := mkClient {
  last_msg : nat;
  lines : list cstr;
  names : list cstr
}.

(** [client_state_init] *)
Definition new_client : client := mkClient 0 [] [].

(** [client_core_start], up to the start of the thread; nothing is posted when the
    table of clients is full. *)
Definition client_core_start (pid : Z) (s : shm_chat) : option shm_chat :=
  if (length (clients s) <? MAX_CLIENTS)%nat
  then append (notice pid " joined") (mkShm (messages s) (clients s ++ [pid]))
  else Some s.

(** The array is zeroed and written once, so [strncpy] leaves a terminated string. *)
Definition client_send_text (pid : Z) (txt : cstr) (s : shm_chat) : option shm_chat :=
  append (mkMsg (trunc CLIENT_NAME_LEN (lit "Client_" ++ dec pid)) (trunc MAX_MSG_SIZE txt)) s.

Definition client_core_stop (pid : Z) (s : shm_chat) : option shm_chat :=
  append (notice pid " left") s.

(** *** The reading thread *)

Definition line_of (m : message) : cstr := trunc LINE_LEN (sender m ++ lit ":" ++ text m).

(** [sscanf(buf, "SERVER:User %s", pidstr)]: a word, which must fit into [pidstr]. *)
Definition pid_word (buf : cstr) : cstr :=
  take_while (fun c => negb (isspace c)) (drop_while isspace (drop 12 buf)).

Definition cname_of (w : cstr) : cstr := trunc CLIENT_NAME_LEN (lit "/client_" ++ w).

Fixpoint remove_name (ns : list cstr) (n : cstr) : list cstr :=
  match ns with
  | [] => []
  | m :: ns' => if streq m n then ns' else m :: remove_name ns' n
  end.

Definition update_names (buf : cstr) (ns : list cstr) : option (list cstr) :=
  if strneq 12 buf (lit "SERVER:User ") then
    let w := pid_word buf in
    if (length w <? PID_LEN)%nat then
      let cname := cname_of w in
      Some (if has_substr buf (lit "joined") then
              if negb (existsb (fun n => streq n cname) ns) && (length ns <? MAX_CLIENTS)%nat
              then ns ++ [cname] else ns
            else if has_substr buf (lit "left") then remove_name ns cname
            else ns)
    else None
  else Some ns.

Definition add_line (ls : list cstr) (buf : cstr) : list cstr :=
  if (length ls <? MAX_DISPLAY_LINES)%nat then ls ++ [buf] else tail ls ++ [buf].

(** One message of the inner loop. *)
Definition read_message (m : message) (c : client) : option client :=
  let buf := line_of m in
  ns ← update_names buf (names c);
  Some (mkClient (S (last_msg c)) (add_line (lines c) buf) ns).

(** [while (st->last_msg < st->shm->msg_count) ...] *)
Fixpoint drain_list (ms : list message) (c : client) : option client :=
  match ms with
  | [] => Some c
  | m :: ms' => c' ← read_message m c; drain_list ms' c'
  end.

Definition drain (s : shm_chat) (c : client) : option client :=
  drain_list (drop (last_msg c) (messages s)) c.

(** ** Executions *)

(** The operations of the processes, each under the lock. *)
Inductive op :=
  | Start (pid : Z)
  | Send (pid : Z) (txt : cstr)
  | Stop (pid : Z)
  | Wake (pid : Z).        (** a turn of the reading thread of [pid] *)

Record sys := mkSys { shm : shm_chat; readers : gmap Z client }.

Definition exec_op (o : op) (σ : sys) : option sys :=
  match o with
  | Start p => s ← client_core_start p (shm σ); Some (mkSys s (<[p := new_client]> (readers σ)))
  | Send p t => s ← client_send_text p t (shm σ); Some (mkSys s (readers σ))
  | Stop p => s ← client_core_stop p (shm σ); Some (mkSys s (readers σ))
  | Wake p =>
      match readers σ !! p with
      | None => Some σ
      | Some c => c' ← drain (shm σ) c; Some (mkSys (shm σ) (<[p := c']> (readers σ)))
      end
  end.

Fixpoint exec (os : list op) (σ : sys) : option sys :=
  match os with [] => Some σ | o :: os' => σ' ← exec_op o σ; exec os' σ' end.

Definition init_sys : sys := mkSys init_shm ∅.

(** ** What a reader should show *)

(** The list of users after a sequence of lines. *)
Fixpoint names_after (ls : list cstr) (ns : list cstr) : option (list cstr) :=
  match ls with [] => Some ns | l :: ls' => ns' ← update_names l ns; names_after ls' ns' end.

(** A reader shows the last 1000 lines of what it has read, and the users that the
    notices among them name. *)
Record reader_ok (s : shm_chat) (c : client) : Prop := {
  ro_read : (last_msg c <= length (messages s))%nat;
  ro_lines : lines c = lastn MAX_DISPLAY_LINES (line_of <$> take (last_msg c) (messages s));
  ro_names : names_after (line_of <$> take (last_msg c) (messages s)) [] = Some (names c)
}.

(** Senders are the server or a client, and a notice names a number. *)
Definition message_ok (m : message) : Prop :=
  (exists p what, 0 <= p <= INT_MAX /\ (what = " joined" \/ what = " left")%string /\ m = notice p what) \/
  head (sender m) = Some 67.

Record sys_ok (σ : sys) : Prop := {
  sy_messages : Forall message_ok (messages (shm σ));
  sy_readers : map_Forall (fun _ c => reader_ok (shm σ) c) (readers σ)
}.

Definition op_pid (o : op) : Z := match o with Start p | Send p _ | Stop p | Wake p => p end.

(** The operations that append a message. *)
Definition posts (o : op) : bool := match o with Wake _ => false | _ => true end.

(** ** Lemmas *)

Lemma add_line_lastn ls buf :
  add_line (lastn MAX_DISPLAY_LINES ls) buf = lastn MAX_DISPLAY_LINES (ls ++ [buf]).
Proof.
  unfold add_line. rewrite length_lastn.
  destruct (MAX_DISPLAY_LINES `min` length ls <? MAX_DISPLAY_LINES)%nat eqn:E.
  - apply Nat.ltb_lt in E. rewrite !lastn_all; [done | rewrite length_app; simpl; lia | lia].
  - apply Nat.ltb_ge in E. change MAX_DISPLAY_LINES with (S 999) in *. rewrite lastn_snoc. f_equal.
    unfold lastn. destruct (drop (length ls - S 999) ls) as [|x r] eqn:Ed.
    + apply (f_equal length) in Ed. rewrite length_drop in Ed. simpl length in Ed. lia.
    + simpl. replace (length ls - 999)%nat with (S (length ls - S 999)) by lia.
      rewrite <- Nat.add_1_r, <- drop_drop, Ed. done.
Qed.

Lemma names_after_snoc ls l ns :
  names_after (ls ++ [l]) ns = names_after ls ns ≫= update_names l.
Proof.
  revert ns. induction ls as [|x ls IH]; intros ns; simpl.
  - by destruct (update_names l ns).
  - destruct (update_names x ns); simpl; [apply IH | done].
Qed.

Lemma notice_line p what :
  0 <= p <= INT_MAX -> (what = " joined" \/ what = " left")%string ->
  line_of (notice p what) = lit "SERVER:User " ++ dec p ++ lit what.
Proof.
  intros Hp Hw. pose proof (length_dec_int p Hp) as Hl. unfold line_of, notice. cbn [sender text].
  assert (length (lit what) <= 7)%nat as Hlw by (destruct Hw as [-> | ->]; vm_compute; lia).
  rewrite (trunc_id MAX_MSG_SIZE)
    by (rewrite !length_app; unfold MAX_MSG_SIZE; change (length (lit "User ")) with 5%nat; lia).
  change (trunc CLIENT_NAME_LEN (lit "SERVER")) with (lit "SERVER").
  rewrite trunc_id; [done|]. rewrite !length_app. unfold LINE_LEN.
  change (length (lit "User ")) with 5%nat. change (length (lit "SERVER")) with 6%nat.
  change (length (lit ":")) with 1%nat. lia.
Qed.

Lemma notice_word p what :
  0 <= p <= INT_MAX -> (what = " joined" \/ what = " left")%string ->
  pid_word (lit "SERVER:User " ++ dec p ++ lit what) = dec p.
Proof.
  intros Hp Hw. unfold pid_word.
  change (drop 12 (lit "SERVER:User " ++ dec p ++ lit what)) with (dec p ++ lit what).
  pose proof (dec_not_space p) as HF. pose proof (dec_nonempty p) as Hne.
  assert (drop_while isspace (dec p ++ lit what) = dec p ++ lit what) as ->.
  { destruct (dec p) as [|c d]; [done|]. apply Forall_cons in HF as [[Hc _] _].
    simpl. by rewrite Hc. }
  rewrite take_while_app_all.
  - destruct Hw as [-> | ->]; simpl; by rewrite app_nil_r.
  - eapply Forall_impl; [exact HF|]. intros c [-> _]. done.
Qed.

Lemma update_names_defined m ns : message_ok m -> is_Some (update_names (line_of m) ns).
Proof.
  intros [(p & what & Hp & Hw & ->)|Hs]; unfold update_names.
  - rewrite notice_line, notice_word by done. pose proof (length_dec_int p Hp) as Hl.
    rewrite (proj2 (Nat.ltb_lt _ _)) by (unfold PID_LEN; lia). case_match; eauto.
  - assert (strneq 12 (line_of m) (lit "SERVER:User ") = false) as ->; [|eauto].
    apply bool_decide_eq_false. intros H. apply (f_equal head) in H.
    unfold line_of, trunc, LINE_LEN in H. destruct (sender m) as [|c r]; [done|].
    simpl in Hs. rewrite <- app_comm_cons in H.
    change (1024 + 64 + 16 - 1)%nat with (S 1102) in H. rewrite firstn_cons in H.
    change 12%nat with (S 11) in H. rewrite firstn_cons in H.
    assert (Some c = Some 83) by exact H. congruence.
Qed.

Lemma read_message_ok s c m :
  reader_ok s c -> messages s !! last_msg c = Some m -> message_ok m ->
  exists c', read_message m c = Some c' /\ reader_ok s c' /\ last_msg c' = S (last_msg c).
Proof.
  intros [Hr Hl Hn] Hm Hok. unfold read_message.
  destruct (update_names_defined m (names c) Hok) as [ns Hns]. rewrite Hns. simpl.
  eexists. split_and!; [done| |done].
  assert (take (S (last_msg c)) (messages s) = take (last_msg c) (messages s) ++ [m]) as Ht
    by by apply take_S_r.
  pose proof (lookup_lt_Some _ _ _ Hm). split; cbn [last_msg lines names].
  - lia.
  - rewrite Hl, add_line_lastn, Ht, fmap_app. done.
  - rewrite Ht, fmap_app. csimpl. by rewrite names_after_snoc, Hn.
Qed.

Lemma drain_ok s c :
  reader_ok s c -> Forall message_ok (messages s) ->
  exists c', drain s c = Some c' /\ reader_ok s c' /\ last_msg c' = length (messages s).
Proof.
  intros Hc HF. unfold drain. remember (drop (last_msg c) (messages s)) as ms eqn:Hms.
  revert c Hc Hms. induction ms as [|m ms IH]; intros c Hc Hms; simpl.
  - exists c. split_and!; try done. apply (f_equal length) in Hms.
    rewrite length_drop in Hms. simpl in Hms. destruct Hc. lia.
  - assert (messages s !! last_msg c = Some m) as Hm.
    { rewrite <- (Nat.add_0_r (last_msg c)), <- lookup_drop, <- Hms. done. }
    destruct (read_message_ok s c m Hc Hm) as (c' & -> & Hc' & Hl).
    { by eapply Forall_lookup_1 in HF. }
    simpl. apply IH; [done|]. rewrite Hl, <- Nat.add_1_r, <- drop_drop, <- Hms. done.
Qed.

Lemma reader_ok_append s c m :
  reader_ok s c -> reader_ok (mkShm (messages s ++ [m]) (clients s)) c.
Proof.
  intros [Hr Hl Hn]. split; cbn [messages]; rewrite ?take_app_le by done; try done.
  rewrite length_app. lia.
Qed.

Lemma reader_ok_clients s c l : reader_ok s c -> reader_ok (mkShm (messages s) l) c.
Proof. intros [Hr Hl Hn]. by split. Qed.

Lemma append_ok σ m s :
  sys_ok (mkSys s (readers σ)) -> message_ok m -> (length (messages s) < MAX_MESSAGES_TOTAL)%nat ->
  exists s', append m s = Some s' /\ sys_ok (mkSys s' (readers σ)) /\
    length (messages s') = S (length (messages s)).
Proof.
  intros [HF Hr] Hm Hl. unfold append. rewrite (proj2 (Nat.ltb_lt _ _)) by done.
  eexists. split_and!; [done| |cbn [messages]; rewrite length_app; simpl; lia]. split.
  - simpl. apply Forall_app. split; [done|]. by constructor.
  - intros p c Hc. apply reader_ok_append. by apply (Hr p).
Qed.

Lemma new_client_ok s : reader_ok s new_client.
Proof. split; [simpl; lia | done | done]. Qed.

Lemma exec_op_ok o σ :
  sys_ok σ -> 0 <= op_pid o <= INT_MAX ->
  (length (messages (shm σ)) + (if posts o then 1 else 0) <= MAX_MESSAGES_TOTAL)%nat ->
  exists σ', exec_op o σ = Some σ' /\ sys_ok σ' /\
    (length (messages (shm σ')) <= length (messages (shm σ)) + (if posts o then 1 else 0))%nat.
Proof.
  intros Hok Hp Hl. destruct o as [p|p t|p|p]; cbn [exec_op op_pid posts] in *.
  - assert (sys_ok (mkSys (shm σ) (<[p := new_client]> (readers σ)))) as Hok1.
    { destruct Hok as [HF Hr]. split; [done|]. apply map_Forall_insert_2; [apply new_client_ok | done]. }
    unfold client_core_start. destruct (_ <? _)%nat.
    + destruct (append_ok (mkSys (shm σ) (<[p := new_client]> (readers σ))) (notice p " joined")
        (mkShm (messages (shm σ)) (clients (shm σ) ++ [p]))) as (s' & -> & Hs & Hls).
      * destruct Hok1 as [HF Hr]. split; [done|]. intros q c Hc. by apply reader_ok_clients, (Hr q).
      * left. exists p, " joined"%string. auto.
      * simpl. lia.
      * simpl. eexists. split_and!; [done | done |]. simpl in *. lia.
    + simpl. eexists. split_and!; [done | done |]. simpl. lia.
  - destruct (append_ok σ (mkMsg (trunc CLIENT_NAME_LEN (lit "Client_" ++ dec p)) (trunc MAX_MSG_SIZE t))
      (shm σ)) as (s' & Hs' & Hs & Hls); [by destruct σ | by right | lia |].
    unfold client_send_text. rewrite Hs'. simpl. eexists. split_and!; [done | done |]. simpl. lia.
  - destruct (append_ok σ (notice p " left") (shm σ)) as (s' & Hs' & Hs & Hls);
      [by destruct σ | left; exists p, " left"%string; auto | lia |].
    unfold client_core_stop. rewrite Hs'. simpl. eexists. split_and!; [done | done |]. simpl. lia.
  - destruct (readers σ !! p) as [c|] eqn:Ec; [|exists σ; split_and!; [done | done | lia]].
    pose proof Hok as [HF Hr]. destruct (drain_ok (shm σ) c) as (c' & -> & Hc' & _); [by apply (Hr p) | done|].
    simpl. eexists. split_and!; [done| |simpl; lia]. split; [done|]. by apply map_Forall_insert_2.
Qed.

Definition post_count (os : list op) : nat := length (filter posts os).

Lemma exec_ok os σ :
  sys_ok σ -> Forall (fun o => 0 <= op_pid o <= INT_MAX) os ->
  (length (messages (shm σ)) + post_count os <= MAX_MESSAGES_TOTAL)%nat ->
  exists σ', exec os σ = Some σ' /\ sys_ok σ'.
Proof.
  intros Hok HF. revert σ Hok. induction HF as [|o os Ho _ IH]; intros σ Hok Hl; simpl; [eauto|].
  assert (post_count (o :: os) = (if posts o then 1 else 0) + post_count os)%nat as Hpc.
  { unfold post_count. rewrite filter_cons. destruct (decide (posts o)) as [H|H];
      destruct (posts o); simpl in *; done || lia. }
  destruct (exec_op_ok o σ Hok Ho) as (σ' & -> & Hok' & Hl'); [lia|]. simpl. apply IH; [done | lia].
Qed.

Lemma exec_app os1 os2 σ : exec (os1 ++ os2) σ = exec os1 σ ≫= exec os2.
Proof.
  revert σ. induction os1 as [|o os IH]; intros σ; simpl; [done|].
  destruct (exec_op o σ); simpl; [apply IH | done].
Qed.

Lemma init_sys_ok : sys_ok init_sys.
Proof. split; [constructor | apply map_Forall_empty]. Qed.

(** ** Properties *)



(** There is no test of [msg_count]: with 2048 messages posted, the next one, whoever
    posts it, is written past the array. *)
Theorem full_log_overruns σ p t :
  length (messages (shm σ)) = MAX_MESSAGES_TOTAL ->
  exec_op (Send p t) σ = None /\ exec_op (Stop p) σ = None.
Proof.
  intros Hl. unfold exec_op, client_send_text, client_core_stop, append. rewrite Hl.
  by rewrite Nat.ltb_irrefl.
Qed.
