(* ===== verification/ChatUi.v ===== *)
(** * The terminal interface of the chats

    [src/client_ui.c] of [message_queues/chat_common_room] and of
    [shared_memory/chat_common_room]: the two files are the same program over two
    cores, so the interface is defined once over a class [ChatCore] and
    instantiated with the two clients ([Mq] and [Shm] at the end).

    A pass of the input loop is a [turn]: the signals and the key it finds, and what
    the reading thread did before the message window and before the list of
    clients were drawn.  Drawing yields the list of writes to the windows; [None] is
    undefined behaviour.  [newwin] is a parameter. *)

From S2P Require Import Prelude CString.
From S2P Require MqChat MqClient ShmChat.

Definition MAX_MSG_SIZE : nat := 1024.
Definition MAX_DISPLAY_LINES : nat := 1000.

Definition ERR : Z := -1.
Definition KEY_BACKSPACE : Z := 263.
Definition KEY_NPAGE : Z := 338.
Definition KEY_PPAGE : Z := 339.
Definition KEY_RESIZE : Z := 410.
Definition CR : Z := 13.

(** ** The core a user interface runs on *)

(** [St] is the state the client and its reading thread share, [E] what the reading
    thread can do to it, [A] what the system answers when the client starts. *)
Class ChatCore (St E A : Type) := {
  core_lines : St -> list cstr;
  core_clients : St -> list cstr;
  core_event : E -> St -> option St;
  core_send : cstr -> St -> option St;
  core_start : A -> St -> option (Z * St);
  core_stop : St -> option St
}.

(** What the interface needs of its core: an invariant under which the display holds at
    most [MAX_DISPLAY_LINES] lines. *)
Class ChatCoreOk (St E A : Type) `{ChatCore St E A} := {
  core_ok : St -> Prop;
  core_ok_lines s : core_ok s -> (length (core_lines s) <= MAX_DISPLAY_LINES)%nat;
  core_ok_event e s s' : core_ok s -> core_event e s = Some s' -> core_ok s';
  core_ok_send t s s' : core_ok s -> core_send t s = Some s' -> core_ok s'
}.

(** ** Windows *)

Record window := mkWin { wy : Z; wx : Z; wh : Z; ww : Z }.

(** [getmaxyx]; the size of no window is [ERR]. *)
Definition getmaxyx (w : option window) : Z * Z :=
  match w with Some w => (wh w, ww w) | None => (ERR, ERR) end.

Inductive pane := Messages | Clients | Input.
Inductive wop :=
  | WErase | WBox
  | WPut (y x : Z) (s : cstr)
  | WMove (y x : Z)
  | WRefresh.

(** A call on no window does nothing. *)
Definition on (p : pane) (w : option window) (ops : list wop) : list (pane * wop) :=
  match w with Some _ => (fun o => (p, o)) <$> ops | None => [] end.

Record windows := mkWins {
  win_output : option window; win_clients : option window; win_input : option window
}.

Definition title (p : pane) : cstr :=
  match p with
  | Messages => lit " Messages "
  | Clients => lit " Clients "
  | Input => lit " Input (type /quit to exit) "
  end.

Definition frame (p : pane) : list wop := [WBox; WPut 0 2 (title p)].

Section Windows.
(** [newwin(nlines, ncols, begin_y, begin_x)] *)
Variable newwin : Z -> Z -> Z -> Z -> option window.

Definition ui_resize_windows (term : Z * Z) : windows * list (pane * wop) :=
  let '(h, w) := term in
  let clients_w := if w >? 20 then Z.quot w 4 else 20 in
  let input_h := 3 in
  let output_w := w - clients_w in
  let output_h := h - input_h in
  let wo := newwin output_h output_w 0 0 in
  let wc := newwin output_h clients_w 0 output_w in
  let wi := newwin input_h w output_h 0 in
  (mkWins wo wc wi,
   on Messages wo (frame Messages) ++ on Clients wc (frame Clients) ++ on Input wi (frame Input)
   ++ on Messages wo [WRefresh] ++ on Clients wc [WRefresh] ++ on Input wi [WRefresh]).
End Windows.

(** [while (row <= inner_h && line_idx < total)], [n] rows being left. *)
Fixpoint output_rows (w : Z) (ls : list cstr) (row line_idx : Z) (n : nat) : option (list wop) :=
  match n with
  | O => Some []
  | S n' =>
      if line_idx <? Z.of_nat (length ls) then
        t ← aget ls line_idx;
        rest ← output_rows w ls (row + 1) (line_idx + 1) n';
        Some (WPut row 1 (fmt_prec (w - 2) t) :: rest)
      else Some []
  end.

Definition ui_refresh_output_win (win : option window) (scroll : Z) (ls : list cstr)
  : option (list (pane * wop)) :=
  let '(h, w) := getmaxyx win in
  let inner_h := h - 2 in
  let total := Z.of_nat (length ls) in
  room ← int_op (total - inner_h);
  start ← int_op (room - scroll);
  let start := if start <? 0 then 0 else start in
  rows ← output_rows w ls 1 start (Z.to_nat inner_h);
  Some (on Messages win ([WErase] ++ frame Messages ++ rows ++ [WRefresh])).

(** [strrchr(s, c)]: what follows the last [c]. *)
Fixpoint after_last (c : byte) (s : cstr) : option cstr :=
  match s with
  | [] => None
  | x :: s' => match after_last c s' with
               | Some r => Some r
               | None => if x =? c then Some s' else None
               end
  end.

Definition UNDERSCORE : byte := 95.

(** [for (i = 0; i < count && i < h-2; ++i)], [n] rows being left. *)
Fixpoint client_rows (names : list cstr) (i : Z) (n : nat) : option (list wop) :=
  match n with
  | O => Some []
  | S n' =>
      if i <? Z.of_nat (length names) then
        qname ← aget names i;
        let p := match after_last UNDERSCORE qname with Some p => p | None => qname end in
        rest ← client_rows names (i + 1) n';
        Some (WPut (i + 1) 1 p :: rest)
      else Some []
  end.

Definition ui_refresh_clients_win (win : option window) (names : list cstr) : option (list (pane * wop)) :=
  let '(h, w) := getmaxyx win in
  rows ← client_rows names 0 (Z.to_nat (h - 2));
  Some (on Clients win ([WErase] ++ frame Clients ++ rows ++ [WRefresh])).

Definition ui_refresh_input_win (win : option window) (input : cstr) : list (pane * wop) :=
  let '(h, w) := getmaxyx win in
  on Input win ([WErase] ++ frame Input
    ++ [WPut 1 1 (fmt_prec (w - 2) input); WMove 1 (1 + Z.of_nat (length input)); WRefresh]).

(** The string in a buffer: reading one without a NUL leaves it. *)
Definition buf_str (buf : list byte) : option cstr :=
  if bool_decide (NUL ∈ buf) then Some (c_str buf) else None.

(** [isprint] is defined for [unsigned char] values and [EOF]. *)
Definition isprint_arg (c : Z) : option bool :=
  if (-1 <=? c) && (c <=? 255) then Some (isprint c) else None.

(** ** The input loop *)

Record ui := mkUi {
  wins : windows;
  output_scroll : Z;
  input_buf : list byte;
  input_len : Z;
  stop_requested : bool
}.

Definition set_wins (ws : windows) (u : ui) : ui :=
  mkUi ws (output_scroll u) (input_buf u) (input_len u) (stop_requested u).
Definition set_scroll (n : Z) (u : ui) : ui :=
  mkUi (wins u) n (input_buf u) (input_len u) (stop_requested u).
Definition set_input (buf : list byte) (n : Z) (u : ui) : ui :=
  mkUi (wins u) (output_scroll u) buf n (stop_requested u).
Definition request_stop (u : ui) : ui :=
  mkUi (wins u) (output_scroll u) (input_buf u) (input_len u) true.

(** One pass of the loop: the new size of the terminal when a [SIGWINCH] came since the
    last one, the steps of the reading thread before the messages and before the clients
    are drawn, the key [getch] returns ([ERR] after 200 ms) and the size of the terminal
    at that moment. *)
Record turn (E : Type) := mkTurn {
  winch : option (Z * Z);
  ev_out : list E;
  ev_clients : list E;
  key : Z;
  term : Z * Z
}.
Arguments mkTurn {E}. Arguments winch {E}. Arguments ev_out {E}. Arguments ev_clients {E}.
Arguments key {E}. Arguments term {E}.

Section Loop.
Context {St E A : Type} {core : ChatCore St E A}.
Variable newwin : Z -> Z -> Z -> Z -> option window.

Fixpoint run_events (es : list E) (s : St) : option St :=
  match es with [] => Some s | e :: es' => s' ← core_event e s; run_events es' s' end.

Definition ui_draw_all (ws : windows) (scroll : Z) (s : St) : option (list (pane * wop)) :=
  o ← ui_refresh_output_win (win_output ws) scroll (core_lines s);
  c ← ui_refresh_clients_win (win_clients ws) (core_clients s);
  Some (o ++ c ++ ui_refresh_input_win (win_input ws) []).

(** What the key does, from [if (ch == ERR)] to the end of the pass. *)
Definition ui_key (sz : Z * Z) (ch : Z) (u : ui) (s : St) : option (ui * St * list (pane * wop)) :=
  if ch =? ERR then Some (u, s, [])
  else if ch =? KEY_RESIZE then
    let '(ws, o) := ui_resize_windows newwin sz in Some (set_wins ws u, s, o)
  else if (ch =? KEY_BACKSPACE) || (ch =? 127) || (ch =? 8) then
    if input_len u >? 0 then
      b ← aset (input_buf u) (input_len u - 1) NUL;
      Some (set_input b (input_len u - 1) u, s, [])
    else Some (u, s, [])
  else if (ch =? NL) || (ch =? CR) then
    if input_len u >? 0 then
      txt ← buf_str (input_buf u);
      if streq txt (lit "/quit") then Some (request_stop u, s, [])
      else
        s' ← core_send txt s;
        b ← aset (input_buf u) 0 NUL;
        Some (set_input b 0 u, s', [])
    else Some (u, s, [])
  else if ch =? KEY_PPAGE then
    n ← int_op (output_scroll u + 5);
    Some (set_scroll (if n <? 0 then 0 else n) u, s, [])
  else if ch =? KEY_NPAGE then
    n ← int_op (output_scroll u - 5);
    Some (set_scroll (if n <? 0 then 0 else n) u, s, [])
  else
    p ← isprint_arg ch;
    if p && (input_len u + 1 <? Z.of_nat MAX_MSG_SIZE) then
      b ← aset (input_buf u) (input_len u) ch;
      b' ← aset b (input_len u + 1) NUL;
      Some (set_input b' (input_len u + 1) u, s, [])
    else Some (u, s, []).

Definition ui_turn (t : turn E) (u : ui) (s : St) : option (ui * St * list (pane * wop)) :=
  '(u, o0) ← match winch t with
             | None => Some (u, [])
             | Some sz =>
                 let '(ws, o) := ui_resize_windows newwin sz in
                 o' ← ui_draw_all ws (output_scroll u) s;
                 Some (set_wins ws u, o ++ o')
             end;
  s ← run_events (ev_out t) s;
  o1 ← ui_refresh_output_win (win_output (wins u)) (output_scroll u) (core_lines s);
  s ← run_events (ev_clients t) s;
  o2 ← ui_refresh_clients_win (win_clients (wins u)) (core_clients s);
  input ← buf_str (input_buf u);
  let o3 := ui_refresh_input_win (win_input (wins u)) input in
  '(u', s', o4) ← ui_key (term t) (key t) u s;
  Some (u', s', o0 ++ o1 ++ o2 ++ o3 ++ o4).

(** The loop over the turns the environment provides; it has ended when
    [stop_requested] is set. *)
Fixpoint ui_handle_input_loop (ts : list (turn E)) (u : ui) (s : St)
  : option (ui * St * list (pane * wop)) :=
  if stop_requested u then Some (u, s, [])
  else match ts with
       | [] => Some (u, s, [])
       | t :: ts' =>
           '(u1, s1, o1) ← ui_turn t u s;
           '(u2, s2, o2) ← ui_handle_input_loop ts' u1 s1;
           Some (u2, s2, o1 ++ o2)
       end.

(** [input_buf] and its length when the loop begins. *)
Definition new_ui (ws : windows) : ui := mkUi ws 0 (replicate MAX_MSG_SIZE NUL) 0 false.

Inductive outcome := Running | Exit (code : Z).

Definition main (a : A) (sz : Z * Z) (ts : list (turn E)) (s : St)
  : option (outcome * St * list (pane * wop)) :=
  '(r, s) ← core_start a s;
  if negb (r =? 0) then Some (Exit 1, s, [])
  else
    let '(ws, o0) := ui_resize_windows newwin sz in
    o1 ← ui_draw_all ws 0 s;
    '(u, s, o2) ← ui_handle_input_loop ts (new_ui ws) s;
    if stop_requested u then
      s ← core_stop s;
      Some (Exit 0, s, o0 ++ o1 ++ o2)
    else Some (Running, s, o0 ++ o1 ++ o2).
End Loop.

(** ** The line editor the loop implements *)

Record editor := mkEd { line : cstr; quit : bool }.

(** The editor after a key, and the text to send. *)
Definition edit_key (ch : Z) (ed : editor) : editor * option cstr :=
  if (ch =? ERR) || (ch =? KEY_RESIZE) || (ch =? KEY_PPAGE) || (ch =? KEY_NPAGE) then (ed, None)
  else if (ch =? KEY_BACKSPACE) || (ch =? 127) || (ch =? 8) then
    (mkEd (take (length (line ed) - 1) (line ed)) (quit ed), None)
  else if (ch =? NL) || (ch =? CR) then
    if bool_decide (line ed = []) then (ed, None)
    else if bool_decide (line ed = lit "/quit") then (mkEd (line ed) true, None)
    else (mkEd [] (quit ed), Some (line ed))
  else if isprint ch && (length (line ed) <? MAX_MSG_SIZE - 1)%nat
       then (mkEd (line ed ++ [ch]) (quit ed), None)
  else (ed, None).

(** The keys [isprint] can be asked about, and those handled before. *)
Definition key_ok (ch : Z) : Prop :=
  -1 <= ch <= 255 \/ ch ∈ [KEY_BACKSPACE; KEY_RESIZE; KEY_PPAGE; KEY_NPAGE].

Section Spec.
Context {St E A : Type} {core : ChatCore St E A}.

Fixpoint edit_run (ts : list (turn E)) (ed : editor) (s : St) : option (editor * St) :=
  if quit ed then Some (ed, s)
  else match ts with
       | [] => Some (ed, s)
       | t :: ts' =>
           s1 ← run_events (ev_out t ++ ev_clients t) s;
           let '(ed', out) := edit_key (key t) ed in
           s2 ← match out with None => Some s1 | Some txt => core_send txt s1 end;
           edit_run ts' ed' s2
       end.
End Spec.

(** The buffer holds the line and its NUL; no more than 1023 characters. *)
Record ed_rel (ed : editor) (u : ui) : Prop := {
  er_buf : exists rest, input_buf u = line ed ++ NUL :: rest;
  er_size : length (input_buf u) = MAX_MSG_SIZE;
  er_len : input_len u = Z.of_nat (length (line ed));
  er_clean : NUL ∉ line ed;
  er_stop : stop_requested u = quit ed
}.

Definition SHRT_MAX : Z := 32767.

(** The height of the message window is the one of a window or [ERR]. *)
Definition win_ok (w : option window) : Prop := -1 <= (getmaxyx w).1 <= SHRT_MAX.

(** ** Lemmas: drawing *)

Lemma output_rows_spec w ls row i n :
  0 <= i ->
  output_rows w ls row i n =
    Some (imap (fun k t => WPut (row + Z.of_nat k) 1 (fmt_prec (w - 2) t)) (take n (drop (Z.to_nat i) ls))).
Proof.
  revert row i. induction n as [|n IH]; intros row i Hi; cbn [output_rows]; [done|].
  destruct (i <? Z.of_nat (length ls)) eqn:E; bool_to_prop.
  - destruct (aget_is_Some ls i) as [t Ht]; [lia|]. rewrite Ht. cbn [mbind option_bind].
    rewrite IH by lia. cbn [mbind option_bind]. f_equal. apply aget_Some in Ht as [_ Ht].
    rewrite (drop_S ls t (Z.to_nat i)) by done. cbn [take]. rewrite imap_cons. rewrite Z.add_0_r.
    f_equal. replace (Z.to_nat (i + 1)) with (S (Z.to_nat i)) by lia.
    apply imap_ext. intros k x _. simpl. f_equal. lia.
  - by rewrite drop_ge, take_nil by lia.
Qed.

Lemma client_rows_spec names i n :
  0 <= i ->
  client_rows names i n =
    Some (imap (fun k q => WPut (i + Z.of_nat k + 1) 1 (default q (after_last UNDERSCORE q)))
            (take n (drop (Z.to_nat i) names))).
Proof.
  revert i. induction n as [|n IH]; intros i Hi; cbn [client_rows]; [done|].
  destruct (i <? Z.of_nat (length names)) eqn:E; bool_to_prop.
  - destruct (aget_is_Some names i) as [q Hq]; [lia|]. rewrite Hq. cbn [mbind option_bind].
    rewrite IH by lia. cbn [mbind option_bind]. f_equal. apply aget_Some in Hq as [_ Hq].
    rewrite (drop_S names q (Z.to_nat i)) by done. cbn [take]. rewrite imap_cons, Z.add_0_r.
    f_equal. replace (Z.to_nat (i + 1)) with (S (Z.to_nat i)) by lia.
    apply imap_ext. intros k x _. simpl. f_equal. lia.
  - by rewrite drop_ge, take_nil by lia.
Qed.

(** The first line shown. *)
Definition first_line (h scroll : Z) (ls : list cstr) : nat :=
  Z.to_nat (Z.of_nat (length ls) - (h - 2) - scroll).

Definition message_rows (h w scroll : Z) (ls : list cstr) : list wop :=
  imap (fun k t => WPut (1 + Z.of_nat k) 1 (fmt_prec (w - 2) t))
    (take (Z.to_nat (h - 2)) (drop (first_line h scroll ls) ls)).

(** A window without room for lines draws none. *)
Lemma output_win_draws win scroll ls :
  (length ls <= MAX_DISPLAY_LINES)%nat -> win_ok win -> 0 <= scroll <= 2147400000 ->
  ui_refresh_output_win win scroll ls =
    Some (on Messages win ([WErase] ++ frame Messages
      ++ message_rows (getmaxyx win).1 (getmaxyx win).2 scroll ls ++ [WRefresh])).
Proof.
  intros Hl [Hh' Hh] Hs. unfold ui_refresh_output_win, MAX_DISPLAY_LINES, SHRT_MAX in *.
  destruct (getmaxyx win) as [h w]. cbn [fst snd] in *.
  rewrite !int_op_in by (unfold INT_MIN, INT_MAX; lia). cbn [mbind option_bind].
  rewrite int_op_in by (unfold INT_MIN, INT_MAX; lia). cbn [mbind option_bind].
  rewrite output_rows_spec by case_ifs. cbn [mbind option_bind]. unfold message_rows, first_line.
  do 6 f_equal. case_if; f_equal; f_equal; lia.
Qed.

(** ** Lemmas: the buffer *)

Lemma buf_str_line ed u : ed_rel ed u -> buf_str (input_buf u) = Some (line ed).
Proof.
  intros [[rest Hb] _ _ Hc _]. unfold buf_str. rewrite Hb, bool_decide_true by set_solver. f_equal.
  by apply c_str_prefix.
Qed.

Lemma ed_rel_wins ed u ws : ed_rel ed u -> ed_rel ed (set_wins ws u).
Proof. by intros []. Qed.

Lemma ed_rel_scroll ed u n : ed_rel ed u -> ed_rel ed (set_scroll n u).
Proof. by intros []. Qed.

(** Cutting the line at [n] writes its NUL. *)
Lemma buf_cut ed u n :
  ed_rel ed u -> (n <= length (line ed))%nat ->
  exists b, aset (input_buf u) (Z.of_nat n) NUL = Some b /\
    ed_rel (mkEd (take n (line ed)) (quit ed)) (set_input b (Z.of_nat n) u).
Proof.
  intros [[rest Hb] Hs Hl Hc Hq] Hn.
  assert (n < length (input_buf u))%nat as Hlt by (rewrite Hb, length_app; simpl; lia).
  eexists. split; [apply aset_is_Some; lia|]. rewrite Nat2Z.id.
  split; cbn [input_buf input_len line quit set_input stop_requested].
  - exists (drop (S n) (input_buf u)). rewrite insert_take_drop by done. f_equal.
    by rewrite Hb, take_app_le by lia.
  - by rewrite length_insert.
  - rewrite length_take. lia.
  - intros H. apply Hc. apply elem_of_take in H as (i & Hi & _). by eapply list_elem_of_lookup_2.
  - done.
Qed.

Lemma buf_type ed u c :
  ed_rel ed u -> c <> NUL -> (length (line ed) < MAX_MSG_SIZE - 1)%nat ->
  exists b b', aset (input_buf u) (input_len u) c = Some b /\
    aset b (input_len u + 1) NUL = Some b' /\
    ed_rel (mkEd (line ed ++ [c]) (quit ed)) (set_input b' (input_len u + 1) u).
Proof.
  intros [[rest Hb] Hs Hl Hc Hq] Hn Hr. rewrite Hl.
  assert (length rest = MAX_MSG_SIZE - 1 - length (line ed))%nat as Hlr.
  { rewrite <- Hs, Hb, length_app. simpl. lia. }
  destruct rest as [|x rest]; [cbn [length] in Hlr; lia|].
  assert (aset (input_buf u) (Z.of_nat (length (line ed))) c = Some (line ed ++ c :: x :: rest)) as H1.
  { unfold aset. rewrite Hb. rewrite (proj2 (andb_true_iff _ _)).
    2: { rewrite length_app. cbn [length]. split; [apply Z.leb_le | apply Z.ltb_lt]; lia. }
    f_equal. rewrite Nat2Z.id, insert_app_r_alt by lia. by rewrite Nat.sub_diag. }
  assert (aset (line ed ++ c :: x :: rest) (Z.of_nat (length (line ed)) + 1) NUL
          = Some (line ed ++ c :: NUL :: rest)) as H2.
  { unfold aset. rewrite (proj2 (andb_true_iff _ _)).
    2: { rewrite length_app. cbn [length]. split; [apply Z.leb_le | apply Z.ltb_lt]; lia. }
    f_equal. rewrite insert_app_r_alt by lia.
    by replace (Z.to_nat (Z.of_nat (length (line ed)) + 1) - length (line ed))%nat with 1%nat by lia. }
  exists (line ed ++ c :: x :: rest), (line ed ++ c :: NUL :: rest). split_and!; [done | done |].
  split; cbn [input_buf input_len line quit set_input stop_requested].
  - exists rest. by rewrite <- app_assoc.
  - rewrite <- Hs, Hb, !length_app. done.
  - rewrite length_app. simpl. lia.
  - set_solver.
  - done.
Qed.

(** ** Lemmas: the loop *)

Section LoopLemmas.
Context {St E A : Type} {core : ChatCore St E A} {core_laws : ChatCoreOk St E A}.
Variable newwin : Z -> Z -> Z -> Z -> option window.

(** The sizes [ncurses] reports are [short]s. *)
Hypothesis newwin_short : forall nl nc y x, win_ok (newwin nl nc y x).

(** The text the editor hands over is sent. *)
Definition sent (out : option cstr) (s : St) : option St :=
  match out with None => Some s | Some txt => core_send txt s end.

Lemma resize_ok sz : win_ok (win_output (ui_resize_windows newwin sz).1).
Proof. destruct sz as [h w]. apply newwin_short. Qed.

Lemma key_enter sz ch ed u (s : St) :
  ed_rel ed u -> win_ok (win_output (wins u)) -> 0 <= output_scroll u <= 2147400000 ->
  ch = NL \/ ch = CR ->
  let '(ed', out) := edit_key ch ed in
  match sent out s with
  | None => ui_key newwin sz ch u s = None
  | Some s' => exists u' o, ui_key newwin sz ch u s = Some (u', s', o) /\ ed_rel ed' u' /\
      win_ok (win_output (wins u')) /\ 0 <= output_scroll u' <= output_scroll u + 5
  end.
Proof.
  intros Hrel Hw Hs Hch.
  assert (edit_key ch ed = if bool_decide (line ed = []) then (ed, None)
    else if bool_decide (line ed = lit "/quit") then (mkEd (line ed) true, None)
    else (mkEd [] (quit ed), Some (line ed))) as -> by by destruct Hch as [-> | ->].
  assert (ui_key newwin sz ch u s = if input_len u >? 0 then
      txt ← buf_str (input_buf u);
      if streq txt (lit "/quit") then Some (request_stop u, s, [])
      else s' ← core_send txt s; b ← aset (input_buf u) 0 NUL; Some (set_input b 0 u, s', [])
    else Some (u, s, [])) as -> by by destruct Hch as [-> | ->].
  rewrite (er_len _ _ Hrel).
  destruct (line ed) as [|c l] eqn:El.
  { simpl. eexists _, _. split_and!; [done..|lia|lia]. }
  rewrite bool_decide_false by done. rewrite (buf_str_line ed u Hrel), El. cbn [mbind option_bind].
  assert ((Z.of_nat (length (c :: l)) >? 0) = true) as -> by (apply Z.gtb_lt; cbn [length]; lia). unfold streq.
  case_bool_decide.
  { simpl. eexists _, _. split_and!; [done| |done|simpl; lia..]. rewrite <- El. destruct Hrel. by split. }
  simpl. destruct (core_send (c :: l) s) as [s'|]; simpl; [|done].
  destruct (buf_cut ed u 0 Hrel) as (b & Hb & Hrel'); [lia|]. change (Z.of_nat 0) with 0 in *.
  rewrite Hb. simpl. eexists _, _. split_and!; [done | by apply Hrel' | done | simpl; lia..].
Qed.

Lemma ui_key_sim sz ch ed u (s : St) :
  ed_rel ed u -> win_ok (win_output (wins u)) -> 0 <= output_scroll u <= 2147400000 -> key_ok ch ->
  let '(ed', out) := edit_key ch ed in
  match sent out s with
  | None => ui_key newwin sz ch u s = None
  | Some s' => exists u' o, ui_key newwin sz ch u s = Some (u', s', o) /\ ed_rel ed' u' /\
      win_ok (win_output (wins u')) /\ 0 <= output_scroll u' <= output_scroll u + 5
  end.
Proof.
  intros Hrel Hw Hs Hk. destruct (decide (ch = NL \/ ch = CR)) as [Hch|Hch]; [by apply key_enter|].
  unfold edit_key, ui_key. rewrite (er_len _ _ Hrel). destruct (ch =? ERR) eqn:E1.
  { simpl. eexists _, _. split_and!; [done..|lia|lia]. }
  destruct (ch =? KEY_RESIZE) eqn:E2.
  { simpl. pose proof (resize_ok sz) as Hr. destruct (ui_resize_windows newwin sz) as [ws o].
    eexists _, _. split_and!; [done | by apply ed_rel_wins | done | simpl; lia..]. }
  cbn [orb]. destruct (ch =? KEY_PPAGE) eqn:E3.
  { bool_to_prop. subst ch. simpl. rewrite int_op_in by (unfold INT_MIN, INT_MAX; lia). simpl.
    eexists _, _. split_and!; [done | by apply ed_rel_scroll | done | simpl; case_ifs..]. }
  destruct (ch =? KEY_NPAGE) eqn:E4.
  { bool_to_prop. subst ch. simpl. rewrite int_op_in by (unfold INT_MIN, INT_MAX; lia). simpl.
    eexists _, _. split_and!; [done | by apply ed_rel_scroll | done | simpl; case_ifs..]. }
  cbn [orb]. destruct ((ch =? KEY_BACKSPACE) || (ch =? 127) || (ch =? 8)) eqn:E5.
  { destruct (Z.of_nat (length (line ed)) >? 0) eqn:E6; simpl.
    - destruct (buf_cut ed u (length (line ed) - 1) Hrel) as (b & Hb & Hrel'); [lia|].
      replace (Z.of_nat (length (line ed) - 1)) with (Z.of_nat (length (line ed)) - 1) in * by lia.
      rewrite Hb. simpl. eexists _, _. split_and!; [done | done | done | simpl; lia..].
    - assert (line ed = []) as El by (apply nil_length_inv; lia).
      eexists _, _. split_and!; [done| |done|lia..].
      destruct ed as [l q]. simpl in El |- *. by subst l. }
  assert (((ch =? NL) || (ch =? CR)) = false) as -> by (apply orb_false_iff; rewrite !Z.eqb_neq; tauto).
  assert (-1 <= ch <= 255) as Hr.
  { destruct Hk as [Hk|Hk]; [done|]. rewrite !elem_of_cons, elem_of_nil in Hk. bool_to_prop. tauto. }
  unfold isprint_arg. assert (((-1 <=? ch) && (ch <=? 255)) = true) as -> by lia. cbn [mbind option_bind].
  destruct (isprint ch) eqn:Ep; cbn [andb].
  2: { simpl. eexists _, _. split_and!; [done..|lia|lia]. }
  assert ((Z.of_nat (length (line ed)) + 1 <? Z.of_nat MAX_MSG_SIZE)
    = (length (line ed) <? MAX_MSG_SIZE - 1)%nat) as ->.
  { apply Bool.eq_iff_eq_true. rewrite Z.ltb_lt, Nat.ltb_lt. unfold MAX_MSG_SIZE. lia. }
  destruct (_ <? _)%nat eqn:El; bool_to_prop.
  2: { simpl. eexists _, _. split_and!; [done..|lia|lia]. }
  apply Nat.ltb_lt in El.
  destruct (buf_type ed u ch Hrel) as (b & b' & Hb & Hb' & Hrel'); [|done|].
  { intros ->. done. }
  rewrite (er_len _ _ Hrel) in *. rewrite Hb. simpl. rewrite Hb'. simpl.
  eexists _, _. split_and!; [done | done | done | simpl; lia..].
Qed.
Lemma run_events_app (es es' : list E) (s : St) :
  run_events (es ++ es') s = run_events es s ≫= run_events es'.
Proof.
  revert s. induction es as [|e es IH]; intros s; simpl; [done|].
  destruct (core_event e s); simpl; [apply IH | done].
Qed.

Lemma run_events_ok (es : list E) (s s' : St) : core_ok s -> run_events es s = Some s' -> core_ok s'.
Proof.
  revert s. induction es as [|e es IH]; intros s Hs; simpl; [by intros [= <-]|].
  destruct (core_event e s) as [s1|] eqn:Es; simpl; [|done]. apply IH. by eapply core_ok_event.
Qed.

Lemma output_win_ok win scroll (s : St) :
  win_ok win -> 0 <= scroll <= 2147400000 -> core_ok s ->
  exists o, ui_refresh_output_win win scroll (core_lines s) = Some o.
Proof. intros Hw Hs Hok. rewrite output_win_draws; eauto using core_ok_lines. Qed.

Lemma clients_win_ok win names : exists o, ui_refresh_clients_win win names = Some (on Clients win o).
Proof.
  unfold ui_refresh_clients_win. destruct (getmaxyx win) as [h w]. rewrite client_rows_spec by lia. simpl.
  eauto.
Qed.

Lemma draw_all_ok ws scroll (s : St) :
  win_ok (win_output ws) -> 0 <= scroll <= 2147400000 -> core_ok s ->
  exists o, ui_draw_all ws scroll s = Some o.
Proof.
  intros Hw Hs Hok. unfold ui_draw_all.
  destruct (output_win_ok _ _ s Hw Hs Hok) as [o ->].
  destruct (clients_win_ok (win_clients ws) (core_clients s)) as [o' ->]. simpl. eauto.
Qed.

(** The editor's turn. *)
Definition edit_turn (t : turn E) (ed : editor) (s : St) : option (editor * St) :=
  s1 ← run_events (ev_out t ++ ev_clients t) s;
  let '(ed', out) := edit_key (key t) ed in
  s2 ← sent out s1; Some (ed', s2).

(** What a pass of the loop, or all of it, has to agree with. *)
Definition implements (bound : Z) (spec : option (editor * St))
    (code : option (ui * St * list (pane * wop))) : Prop :=
  match spec with
  | None => code = None
  | Some (ed', s') => exists u' o, code = Some (u', s', o) /\ ed_rel ed' u' /\
      win_ok (win_output (wins u')) /\ 0 <= output_scroll u' <= bound /\ core_ok s'
  end.

Lemma winch_ok (t : turn E) ed u (s : St) :
  ed_rel ed u -> win_ok (win_output (wins u)) -> 0 <= output_scroll u <= 2147400000 -> core_ok s ->
  exists u' o, match winch t with
               | None => Some (u, [])
               | Some sz =>
                   let '(ws, o) := ui_resize_windows newwin sz in
                   o' ← ui_draw_all ws (output_scroll u) s;
                   Some (set_wins ws u, o ++ o')
               end = Some (u', o) /\
    ed_rel ed u' /\ win_ok (win_output (wins u')) /\ output_scroll u' = output_scroll u.
Proof.
  intros Hrel Hw Hsc Hok. destruct (winch t) as [sz|]; [|eauto 10].
  pose proof (resize_ok sz) as Hr. destruct (ui_resize_windows newwin sz) as [ws o].
  destruct (draw_all_ok ws (output_scroll u) s Hr Hsc Hok) as [o' ->]. simpl.
  eexists _, _. split_and!; [done | by apply ed_rel_wins | done | done].
Qed.

Lemma ui_turn_sim (t : turn E) ed u (s : St) :
  ed_rel ed u -> win_ok (win_output (wins u)) -> 0 <= output_scroll u <= 2147400000 ->
  core_ok s -> key_ok (key t) ->
  implements (output_scroll u + 5) (edit_turn t ed s) (ui_turn newwin t u s).
Proof.
  intros Hrel Hw Hsc Hok Hk. unfold ui_turn.
  destruct (winch_ok t ed u s Hrel Hw Hsc Hok) as (u0 & o0 & -> & Hrel0 & Hw0 & Hs0).
  rewrite <- Hs0 in *. cbn [mbind option_bind]. unfold edit_turn. rewrite run_events_app.
  destruct (run_events (ev_out t) s) as [s1|] eqn:E1; [|done]. cbn [mbind option_bind].
  pose proof (run_events_ok _ _ _ Hok E1) as Hok1.
  destruct (output_win_ok (win_output (wins u0)) (output_scroll u0) s1 Hw0 Hsc Hok1) as [o1 ->].
  cbn [mbind option_bind].
  destruct (run_events (ev_clients t) s1) as [s2|] eqn:E2; [|done]. cbn [mbind option_bind].
  pose proof (run_events_ok _ _ _ Hok1 E2) as Hok2.
  destruct (clients_win_ok (win_clients (wins u0)) (core_clients s2)) as [o2 ->]. cbn [mbind option_bind].
  rewrite (buf_str_line ed u0 Hrel0). cbn [mbind option_bind].
  pose proof (ui_key_sim (term t) (key t) ed u0 s2 Hrel0 Hw0 Hsc Hk) as Hsim.
  destruct (edit_key (key t) ed) as [ed' out].
  destruct (sent out s2) as [s3|] eqn:Es; cbn [mbind option_bind].
  - destruct Hsim as (u' & o & -> & Hrel' & Hw' & Hb). cbn [mbind option_bind implements].
    eexists _, _. split_and!; [done..|lia|lia|]. destruct out as [txt|]; simpl in Es.
    + by eapply core_ok_send.
    + by injection Es as <-.
  - by rewrite Hsim.
Qed.

Lemma ui_loop_sim (ts : list (turn E)) ed u (s : St) :
  ed_rel ed u -> win_ok (win_output (wins u)) ->
  0 <= output_scroll u -> output_scroll u + 5 * Z.of_nat (length ts) <= 2147400000 ->
  core_ok s -> Forall (fun t => key_ok (key t)) ts ->
  implements (output_scroll u + 5 * Z.of_nat (length ts)) (edit_run ts ed s)
    (ui_handle_input_loop newwin ts u s).
Proof.
  revert ed u s. induction ts as [|t ts IH]; intros ed u s Hrel Hw H0 Hb Hok HF;
    cbn [edit_run ui_handle_input_loop]; rewrite (er_stop _ _ Hrel).
  - destruct (quit ed); eexists _, _; (split_and!; [done..|simpl; lia| simpl; lia|done]).
  - cbn [length] in Hb. apply Forall_cons in HF as [Hk HF].
    destruct (quit ed). { eexists _, _. split_and!; [done..|lia|lia|done]. }
    pose proof (ui_turn_sim t ed u s Hrel Hw ltac:(lia) Hok Hk) as Ht. unfold edit_turn in Ht.
    destruct (run_events _ s) as [s1|]; cbn [mbind option_bind] in *; [|simpl in Ht; by rewrite Ht].
    destruct (edit_key (key t) ed) as [ed' out]. fold (sent out s1).
    destruct (sent out s1) as [s2|]; cbn [mbind option_bind implements] in *; [|by rewrite Ht].
    destruct Ht as (u' & o & -> & Hrel' & Hw' & Hb' & Hok'). cbn [mbind option_bind].
    pose proof (IH ed' u' s2 Hrel' Hw' ltac:(lia) ltac:(lia) Hok' HF) as Hl. unfold implements in *.
    destruct (edit_run ts ed' s2) as [[ed2 s3]|].
    + destruct Hl as (u2 & o2 & -> & Hrel2 & Hw2 & Hb2 & Hok2). simpl.
      eexists _, _. split_and!; [done..|lia|cbn [length]; lia|done].
    + by rewrite Hl.
Qed.
End LoopLemmas.

(** ** The two cores *)

(** Both reading threads drop the oldest line of a full display. *)
Lemma add_bounded (ls : list cstr) x :
  (length ls <= MAX_DISPLAY_LINES)%nat ->
  (length (if (length ls <? MAX_DISPLAY_LINES)%nat then ls ++ [x] else tail ls ++ [x])
    <= MAX_DISPLAY_LINES)%nat.
Proof.
  intros Hl. destruct (_ <? _)%nat eqn:E; rewrite length_app; cbn [length].
  - apply Nat.ltb_lt in E. lia.
  - unfold MAX_DISPLAY_LINES in *. destruct ls as [|y l]; cbn [length tail] in *; lia.
Qed.

Module Mq.
(** The descriptors, what the reading thread keeps for the display, and the calls
    made so far. *)
Record state := mkState {
  life : MqClient.core; view : MqChat.client_state; calls : list MqClient.syscall
}.

Definition event (raw : list byte) (s : state) : option state :=
  v ← MqChat.reader_message (view s) raw; Some (mkState (life s) v (calls s)).

(** The status of [client_send_text] is not looked at. *)
Definition send (txt : cstr) (s : state) : option state :=
  let '(r, out) := MqChat.client_send_text (MqClient.c_pid (life s)) txt in
  Some (if r =? 0
        then mkState (life s) (view s)
               (calls s ++ [MqClient.Send (MqClient.server_mqd (life s)) out true])
        else s).

Definition start (e : MqClient.start_env) (s : state) : option (Z * state) :=
  let '(r, c, cs) := MqClient.client_core_start e (life s) in
  Some (r, mkState c (view s) (calls s ++ cs)).

Definition stop (s : state) : option state :=
  let '(c, cs) := MqClient.client_core_stop true (life s) in
  Some (mkState c (view s) (calls s ++ cs)).

#[export] Instance core : ChatCore state (list byte) MqClient.start_env := {
  core_lines s := MqChat.lines (view s);
  core_clients s := MqChat.names (view s);
  core_event := event; core_send := send; core_start := start; core_stop := stop
}.

(** [client_state_init] *)
Definition init (pid : Z) : state :=
  mkState (MqClient.client_state_init pid) (MqChat.mkState pid [] []) [].

Lemma lines_bounded st raw st' :
  (length (MqChat.lines st) <= MAX_DISPLAY_LINES)%nat ->
  MqChat.reader_message st raw = Some st' -> (length (MqChat.lines st') <= MAX_DISPLAY_LINES)%nat.
Proof.
  intros Hl. unfold MqChat.reader_message. destruct (length raw <? _)%nat; [|done]. intros [= <-].
  by apply add_bounded.
Qed.

#[export] Instance core_laws : ChatCoreOk state (list byte) MqClient.start_env.
Proof.
  refine (Build_ChatCoreOk _ _ _ _
    (fun s => (length (MqChat.lines (view s)) <= MAX_DISPLAY_LINES)%nat) _ _ _); simpl.
  - done.
  - intros e s s' Hl. unfold event. destruct (MqChat.reader_message _ _) eqn:E; [|done].
    intros [= <-]. by eapply lines_bounded.
  - intros t s s' Hl. unfold send. destruct (MqChat.client_send_text _ _). intros [= <-]. by case_match.
Defined.
End Mq.

Module Shm.
(** The process and the system it shares with the others; what the others and its own
    reading thread do are operations of that system. *)
Record state := mkState { pid : Z; sys : ShmChat.sys }.

(** What [shm_open], [mmap] and [pthread_create] report. *)
Record start_env := mkEnv { mapped : bool; thread : Z }.

Definition reader (s : state) : ShmChat.client :=
  default ShmChat.new_client (ShmChat.readers (sys s) !! pid s).

Definition lift (o : ShmChat.op) (s : state) : option state :=
  σ ← ShmChat.exec_op o (sys s); Some (mkState (pid s) σ).

Definition start (e : start_env) (s : state) : option (Z * state) :=
  if mapped e then s' ← lift (ShmChat.Start (pid s)) s; Some (thread e, s') else Some (-1, s).

#[export] Instance core : ChatCore state ShmChat.op start_env := {
  core_lines s := ShmChat.lines (reader s);
  core_clients s := ShmChat.names (reader s);
  core_event := lift;
  core_send txt s := lift (ShmChat.Send (pid s) txt) s;
  core_start := start;
  core_stop s := lift (ShmChat.Stop (pid s)) s
}.

(** The functions of the shared memory chat's [client_ui.c]: the text of the two files
    differs in a feature macro only. *)
Definition shm_ui_resize_windows := ui_resize_windows.
Definition shm_ui_refresh_output_win := ui_refresh_output_win.
Definition shm_ui_refresh_clients_win := ui_refresh_clients_win.
Definition shm_ui_refresh_input_win := ui_refresh_input_win.
Definition shm_ui_draw_all := @ui_draw_all state ShmChat.op start_env core.
Definition shm_ui_key := @ui_key state ShmChat.op start_env core.
Definition shm_ui_turn := @ui_turn state ShmChat.op start_env core.
Definition shm_ui_handle_input_loop := @ui_handle_input_loop state ShmChat.op start_env core.
Definition shm_main := @main state ShmChat.op start_env core.

Definition bounded (c : ShmChat.client) : Prop := (length (ShmChat.lines c) <= MAX_DISPLAY_LINES)%nat.

Lemma drain_bounded ms c c' : bounded c -> ShmChat.drain_list ms c = Some c' -> bounded c'.
Proof.
  revert c. induction ms as [|m ms IH]; intros c Hc; simpl; [by intros [= <-]|].
  unfold ShmChat.read_message. destruct (ShmChat.update_names _ _) as [ns|]; simpl; [|done].
  apply IH. by apply add_bounded.
Qed.

Lemma lift_bounded o s s' :
  map_Forall (fun _ => bounded) (ShmChat.readers (sys s)) -> lift o s = Some s' ->
  map_Forall (fun _ => bounded) (ShmChat.readers (sys s')).
Proof.
  intros Hb. unfold lift. destruct o as [p|p t|p|p]; simpl.
  - destruct (ShmChat.client_core_start _ _); simpl; [|done]. intros [= <-]. simpl.
    apply map_Forall_insert_2; [|done]. unfold bounded. simpl. lia.
  - destruct (ShmChat.client_send_text _ _ _); simpl; [|done]. by intros [= <-].
  - destruct (ShmChat.client_core_stop _ _); simpl; [|done]. by intros [= <-].
  - destruct (ShmChat.readers (sys s) !! p) as [c|] eqn:Ec; simpl; [|by intros [= <-]].
    destruct (ShmChat.drain _ c) as [c'|] eqn:Ed; simpl; [|done]. intros [= <-]. simpl.
    apply map_Forall_insert_2; [|done]. eapply drain_bounded; [|exact Ed]. by apply (Hb p).
Qed.

#[export] Instance core_laws : ChatCoreOk state ShmChat.op start_env.
Proof.
  refine (Build_ChatCoreOk _ _ _ _
    (fun s => map_Forall (fun _ => bounded) (ShmChat.readers (sys s))) _ _ _); simpl.
  - intros s Hb. unfold reader. destruct (_ !! _) as [c|] eqn:Ec; simpl; [by apply (Hb (pid s)) | lia].
  - intros o s s'. apply lift_bounded.
  - intros t s s'. apply lift_bounded.
Defined.
End Shm.

#[export] Existing Instances Mq.core Mq.core_laws Shm.core Shm.core_laws.

(** ** Lemmas: what a window shows *)

(** The text at column 1 of row [y] of the messages, as the last write since the window
    was erased left it. *)
Definition show (y : Z) (acc : option cstr) (d : pane * wop) : option cstr :=
  match d with
  | (Messages, WErase) => None
  | (Messages, WPut y' x s) => if (y' =? y) && (x =? 1) then Some s else acc
  | _ => acc
  end.
Definition shown_row (y : Z) (ops : list (pane * wop)) : option cstr := foldl (show y) None ops.

Lemma show_other y p w ops acc : p <> Messages -> foldl (show y) acc (on p w ops) = acc.
Proof.
  intros Hp. destruct w; [|done]. simpl. revert acc.
  induction ops as [|o ops IH]; intros acc; [done|]. csimpl. rewrite IH. by destruct p.
Qed.

Lemma show_rows y r (f : cstr -> cstr) ls acc :
  foldl (show y) acc ((fun o => (Messages, o)) <$> imap (fun k t => WPut (r + Z.of_nat k) 1 (f t)) ls)
  = if r <=? y then default acc (Some <$> (f <$> ls !! Z.to_nat (y - r))) else acc.
Proof.
  revert r acc. induction ls as [|t ls IH]; intros r acc; [by case_if|].
  rewrite imap_cons. csimpl. rewrite Z.add_0_r, andb_true_r.
  rewrite (imap_ext _ (fun k t => WPut (r + 1 + Z.of_nat k) 1 (f t))) by (intros; simpl; f_equal; lia).
  rewrite IH. destruct (r =? y) eqn:E1; bool_to_prop.
  - subst. rewrite Z.sub_diag. case_ifs. done.
  - destruct (r <=? y) eqn:E2; bool_to_prop; [|by rewrite (proj2 (Z.leb_gt _ _)) by lia].
    rewrite (proj2 (Z.leb_le _ _)) by lia.
    replace (Z.to_nat (y - r)) with (S (Z.to_nat (y - (r + 1)))) by lia. done.
Qed.

(** The newest line is the last one shown. *)
Lemma newest_shown win ls x :
  3 <= wh win <= SHRT_MAX -> (length ls < MAX_DISPLAY_LINES)%nat ->
  exists o, ui_refresh_output_win (Some win) 0 (ls ++ [x]) = Some (on Messages (Some win) o) /\
    shown_row (Z.min (wh win - 2) (Z.of_nat (length (ls ++ [x])))) (on Messages (Some win) o)
      = Some (fmt_prec (ww win - 2) x).
Proof.
  intros Hh Hl. unfold SHRT_MAX, MAX_DISPLAY_LINES in *.
  assert (length (ls ++ [x]) = S (length ls)) as Hlen by (rewrite length_app; simpl; lia).
  eexists. split.
  { apply output_win_draws; [rewrite Hlen; unfold MAX_DISPLAY_LINES; lia
      | unfold win_ok, SHRT_MAX; simpl; lia | lia]. }
  unfold shown_row, on. rewrite !fmap_app, !foldl_app. cbn [getmaxyx fst snd]. simpl foldl at 4.
  simpl foldl at 3. rewrite andb_false_r. unfold message_rows. rewrite show_rows.
  set (y := Z.min _ _). rewrite (proj2 (Z.leb_le 1 y)) by lia.
  rewrite lookup_take_lt by lia. rewrite lookup_drop.
  replace (first_line _ _ _ + _)%nat with (length ls)
    by (unfold y, first_line; rewrite Hlen; lia).
  by rewrite list_lookup_middle.
Qed.

(** ** Lemmas: typing a line *)

Section Typing.
Context {St E A : Type} {core : ChatCore St E A}.

Lemma edit_type c ed :
  isprint c = true -> (length (line ed) < MAX_MSG_SIZE - 1)%nat ->
  edit_key c ed = (mkEd (line ed ++ [c]) (quit ed), None).
Proof.
  intros Hp Hl. unfold edit_key. rewrite Hp, (proj2 (Nat.ltb_lt _ _) Hl).
  assert (32 <= c <= 126) as Hc by (unfold isprint in Hp; lia).
  unfold ERR, KEY_RESIZE, KEY_PPAGE, KEY_NPAGE, KEY_BACKSPACE, NL, CR.
  rewrite !(proj2 (Z.eqb_neq c _)) by lia. done.
Qed.

Lemma edit_type_run (ts1 ts2 : list (turn E)) ed (s : St) :
  quit ed = false -> Forall (fun t => ev_out t = [] /\ ev_clients t = []) ts1 ->
  Forall (fun t => isprint (key t) = true) ts1 ->
  (length (line ed) + length ts1 < MAX_MSG_SIZE)%nat ->
  edit_run (ts1 ++ ts2) ed s = edit_run ts2 (mkEd (line ed ++ (key <$> ts1)) false) s.
Proof.
  intros Hq HF. revert ed Hq. induction HF as [|t ts1 [H1 H2] _ IH]; intros ed Hq Hp Hl.
  - simpl. rewrite app_nil_r. destruct ed. simpl in *. by subst.
  - apply Forall_cons in Hp as [Hp1 Hp]. cbn [length] in Hl. cbn [app edit_run]. rewrite Hq, H1, H2.
    cbn [app run_events mbind option_bind]. rewrite edit_type by (done || lia). cbn [mbind option_bind].
    rewrite IH; [|done|done|cbn [line]; rewrite length_app; cbn [length]; lia]. cbn [line].
    by rewrite <- app_assoc.
Qed.

(** A typed line and Enter. *)
Lemma edit_line_run (ts : list (turn E)) txt (s : St) :
  Forall (fun t => ev_out t = [] /\ ev_clients t = []) ts -> key <$> ts = txt ++ [NL] ->
  Forall (fun c => isprint c = true) txt -> (length txt < MAX_MSG_SIZE)%nat ->
  txt <> [] -> txt <> lit "/quit" ->
  edit_run ts (mkEd [] false) s = (s' ← core_send txt s; Some (mkEd [] false, s')).
Proof.
  intros HF Hk Hp Hl Hne Hq. apply fmap_app_inv in Hk as (ts1 & ts2 & H1 & H2 & ->).
  destruct ts2 as [|t ts2]; [done|]. destruct ts2; [|done]. injection H2 as Hnl.
  apply Forall_app in HF as [HF1 [[He1 He2] _]%Forall_cons]. subst txt.
  rewrite length_fmap in Hl. apply Forall_fmap in Hp.
  rewrite edit_type_run by done. cbn [edit_run quit line app]. rewrite He1, He2, <- Hnl.
  cbn [run_events mbind option_bind app]. unfold edit_key. cbn [line].
  rewrite !bool_decide_false by done. simpl.
  by destruct (core_send _ s).
Qed.
End Typing.

Lemma key_ok_print c : isprint c = true -> key_ok c.
Proof. intros H. left. unfold isprint in H. lia. Qed.

(** The loop of the shared memory client reaches undefined behaviour only where an
    operation on the shared memory does. *)
Lemma shm_input_loop newwin ts ed u s :
  (forall nl nc y x, win_ok (newwin nl nc y x)) ->
  ed_rel ed u -> win_ok (win_output (wins u)) ->
  0 <= output_scroll u -> output_scroll u + 5 * Z.of_nat (length ts) <= 2147400000 ->
  core_ok s -> Forall (fun t => key_ok (key t)) ts ->
  implements (output_scroll u + 5 * Z.of_nat (length ts)) (edit_run ts ed s)
    (Shm.shm_ui_handle_input_loop newwin ts u s).
Proof. intros Hn. by apply (ui_loop_sim newwin Hn). Qed.

(** A [newwin] that places windows as asked, cut to the sizes of a [short]. *)
Definition demo_newwin (nl nc y x : Z) : option window :=
  if (0 <? nl) && (0 <? nc) && (0 <=? y) && (0 <=? x) && (nl <=? SHRT_MAX)
  then Some (mkWin y x nl nc) else None.

Lemma demo_newwin_short nl nc y x : win_ok (demo_newwin nl nc y x).
Proof. unfold demo_newwin, win_ok, SHRT_MAX. case_if; simpl; unfold ERR; lia. Qed.

Definition demo_ui (sz : Z * Z) : ui := new_ui (ui_resize_windows demo_newwin sz).1.

Lemma demo_ui_rel sz : ed_rel (mkEd [] false) (demo_ui sz).
Proof. split; [by exists (replicate 1023 NUL) | done | done | set_solver | done]. Qed.

Definition type_keys (s : cstr) : list (turn (list byte)) :=
  (fun c => mkTurn None [] [] c (24, 80)) <$> (s ++ [NL]).

Definition demo_client : Mq.state :=
  Mq.mkState (MqClient.mkCore 42 (lit "/client_42") 3 4 false) (MqChat.mkState 42 [] []) [].

(** The windows share the screen out: on a terminal of at least 4 rows and 21 columns each
    cell belongs to exactly one of the three. *)
Definition in_window (w : window) (y x : Z) : bool :=
  (wy w <=? y) && (y <? wy w + wh w) && ((wx w <=? x) && (x <? wx w + ww w)).

Lemma windows_tile newwin h w :
  (forall nl nc y x, 0 < nl -> 0 < nc -> 0 <= y -> 0 <= x -> newwin nl nc y x = Some (mkWin y x nl nc)) ->
  4 <= h -> 21 <= w ->
  exists wo wc wi, (ui_resize_windows newwin (h, w)).1 = mkWins (Some wo) (Some wc) (Some wi) /\
    forall y x, 0 <= y < h -> 0 <= x < w ->
      length (filter (fun win => in_window win y x = true) [wo; wc; wi]) = 1%nat.
Proof.
  intros Hnew Hh Hw. unfold ui_resize_windows. cbn [fst].
  assert ((w >? 20) = true) as -> by lia.
  pose proof (Z.quot_div_nonneg w 4 ltac:(lia) ltac:(lia)) as Hq.
  pose proof (Z.div_mod w 4 ltac:(lia)). pose proof (Z.mod_pos_bound w 4 ltac:(lia)).
  rewrite !Hnew by lia. do 3 eexists. split; [done|]. intros y x Hy Hx. unfold in_window.
  cbn [wy wx wh ww]. rewrite !filter_cons, filter_nil.
  repeat case_decide; cbn [length wy wx wh ww] in *; try done; exfalso; lia.
Qed.

(** ** Properties *)





(** An arrow key makes the call [isprint(ch)] undefined: [keypad] is on, so [getch] returns
    codes above 255. *)
Lemma arrow_key_undefined {St E A : Type} {core : ChatCore St E A} newwin sz u (s : St) :
  ui_key newwin sz 259 u s = None.
Proof. reflexivity. Qed.
