(* ===== verification/ChatWindows.v ===== *)
(** * The windows of the chat interfaces

    [ui_init], [ui_resize_windows] and [ui_destroy] of both [client_ui.c], as far as the life of the three windows and of curses goes
    (ChatUi.v has what they draw).  [newwin] may fail; using or freeing a window that was freed is undefined. *)

From S2P Require Import Prelude.

(** Whether the screen is in curses mode, the windows that exist, the number of the next one, and the three
    variables. *)
Record screen := mkScreen {
  curses : bool;
  live : gset nat;
  fresh : nat;
  win_output : option nat;
  win_clients : option nat;
  win_input : option nat;
  winch_handler : bool
}.

Definition initial : screen := mkScreen false ∅ 0 None None None false.

(** [if (win) { delwin(win); win = NULL; }] *)
Definition delwin (w : option nat) (l : gset nat) : option (gset nat) :=
  match w with
  | None => Some l
  | Some n => if bool_decide (n ∈ l) then Some (l ∖ {[n]}) else None
  end.

Definition delete_all (s : screen) : option (gset nat) :=
  l ← delwin (win_output s) (live s);
  l ← delwin (win_clients s) l;
  delwin (win_input s) l.

(** [newwin]: [ok] is whether there is memory for it. *)
Definition newwin (ok : bool) (ln : gset nat * nat) : option nat * (gset nat * nat) :=
  if ok then (Some ln.2, ({[ln.2]} ∪ ln.1, S ln.2)) else (None, ln).

(** Which of the three windows can be made. *)
Definition memory : Type := bool * bool * bool.

Definition ui_resize_windows (m : memory) (s : screen) : option screen :=
  l ← delete_all s;
  let '(wo, ln) := newwin m.1.1 (l, fresh s) in
  let '(wc, ln) := newwin m.1.2 ln in
  let '(wi, ln) := newwin m.2 ln in
  Some (mkScreen (curses s) ln.1 ln.2 wo wc wi (winch_handler s)).

Definition ui_init (m : memory) (s : screen) : option screen :=
  ui_resize_windows m (mkScreen true (live s) (fresh s) (win_output s) (win_clients s) (win_input s) true).

(** The loop makes the windows anew for every change of the size. *)
Fixpoint resizes (ms : list memory) (s : screen) : option screen :=
  match ms with [] => Some s | m :: ms' => s' ← ui_resize_windows m s; resizes ms' s' end.

Definition ui_destroy (s : screen) : option screen :=
  l ← delete_all s; Some (mkScreen false l (fresh s) None None None (winch_handler s)).

(** [main] between the start of the core and its end. *)
Definition session (m : memory) (ms : list memory) : option screen :=
  s ← ui_init m initial; s ← resizes ms s; ui_destroy s.

(** ** Lemmas *)

(** The windows that exist are those in the variables. *)
Definition owned (s : screen) : list nat :=
  option_list (win_output s) ++ option_list (win_clients s) ++ option_list (win_input s).

Record screen_ok (s : screen) : Prop := {
  so_live : live s = list_to_set (owned s);
  so_distinct : NoDup (owned s);
  so_fresh : Forall (fun n => (n < fresh s)%nat) (owned s)
}.

Lemma delwin_spec w t : NoDup (option_list w ++ t) ->
  delwin w (list_to_set (option_list w ++ t)) = Some (list_to_set t).
Proof.
  intros Hd. destruct w as [n|]; [|done]. cbn in *. inversion_clear Hd as [|? ? Hn _].
  rewrite bool_decide_true by set_solver. f_equal. set_solver.
Qed.

Lemma delete_all_ok s : screen_ok s -> delete_all s = Some ∅.
Proof.
  intros [Hl Hd _]. unfold delete_all, owned in *. rewrite Hl.
  rewrite delwin_spec by done. cbn [mbind option_bind]. apply NoDup_app in Hd as (_ & _ & Hd).
  rewrite delwin_spec by done. cbn [mbind option_bind]. apply NoDup_app in Hd as (_ & _ & Hd).
  pose proof (delwin_spec (win_input s) []) as H. rewrite app_nil_r in H. by apply H.
Qed.

Lemma win_resize_ok m s :
  screen_ok s -> exists s', ui_resize_windows m s = Some s' /\ screen_ok s' /\ curses s' = curses s /\ winch_handler s' = winch_handler s.
Proof.
  intros Hs. unfold ui_resize_windows. rewrite (delete_all_ok s Hs). cbn [mbind option_bind].
  destruct m as [[[] []] []]; (eexists; split; [reflexivity|]);
    (split; [|done]); (split; unfold owned; cbn; [set_solver|repeat constructor; set_solver by lia|repeat constructor; lia]).
Qed.

Lemma resizes_ok ms s :
  screen_ok s -> exists s', resizes ms s = Some s' /\ screen_ok s' /\ curses s' = curses s.
Proof.
  revert s. induction ms as [|m ms IH]; intros s Hs; cbn; [by exists s|].
  destruct (win_resize_ok m s Hs) as (s' & -> & Hs' & Hc & _). cbn [mbind option_bind]. destruct (IH s' Hs') as (s2 & -> & ? & ?).
  exists s2. split_and!; congruence || done.
Qed.

Lemma initial_ok s : live s = ∅ -> win_output s = None -> win_clients s = None -> win_input s = None -> screen_ok s.
Proof. intros Hl Ho Hc Hi. split; unfold owned; rewrite ?Hl, Ho, Hc, Hi; [done|constructor|constructor]. Qed.

(** ** Properties *)

(** However often the terminal changes its size, and whatever [newwin] can do, no window is freed twice, at most three exist at
    any time, and at the end of [main] none is left and the terminal has left curses mode. *)
Theorem chat_windows_freed m ms :
  (exists s, (s0 ← ui_init m initial; resizes ms s0) = Some s /\ (size (live s) <= 3)%nat /\ curses s = true) /\
  (exists s, session m ms = Some s /\ live s = ∅ /\ curses s = false).
Proof.
  unfold session, ui_init. set (s0 := mkScreen true _ _ _ _ _ true).
  destruct (win_resize_ok m s0) as (s1 & -> & H1 & Hc1 & _); [by apply initial_ok|]. cbn [mbind option_bind].
  destruct (resizes_ok ms s1 H1) as (s2 & -> & H2 & Hc2). cbn [mbind option_bind]. split.
  - exists s2. split_and!; [done| |by rewrite Hc2, Hc1].
    rewrite (so_live _ H2), size_list_to_set by apply (so_distinct _ H2). unfold owned. rewrite !length_app.
    destruct (win_output s2), (win_clients s2), (win_input s2); cbn; lia.
  - unfold ui_destroy. rewrite (delete_all_ok s2 H2). by eexists.
Qed.

(** The interface of the shared memory chat has the same functions. *)
Definition shm_ui_init := ui_init.
Definition shm_ui_destroy := ui_destroy.
Definition shm_delete_all := delete_all.
