(* ===== verification/Calc.v ===== *)
(** * The calculator libraries

    [basic_c/static_library_calc] (the library of [basic_c/dynamic_library_calc] is
    identical): the checked operations of [lib/], [ReadInt] and the menu loop of
    [src/main.c].  An operation returns [Some (Some r)] for the value 1 with result
    [r], [Some None] for the value 0, and [None] when an [int] computation in it
    overflows, which is undefined in C. *)

From S2P Require Import Prelude CString.

(** [a || b] on conditions that may be undefined: [b] only counts when [a] fails. *)
Definition or_else (a b : option bool) : option bool :=
  match a with Some true => Some true | Some false => b | None => None end.

Definition calc := option (option Z).

(** Return 0 when the guard holds, and store [r] otherwise. *)
Definition guarded (g : option bool) (r : Z) : calc :=
  match g with
  | None => None
  | Some true => Some None
  | Some false => Some <$> int_op r
  end.

Definition add (a b : Z) : calc :=
  guarded
    (or_else (if b >? 0 then m ← int_op (INT_MAX - b); Some (a >? m) else Some false)
             (if b <? 0 then m ← int_op (INT_MIN - b); Some (a <? m) else Some false))
    (a + b).

Definition sub (a b : Z) : calc :=
  guarded
    (or_else (if b <? 0 then m ← int_op (INT_MAX + b); Some (a >? m) else Some false)
             (if b >? 0 then m ← int_op (INT_MIN + b); Some (a <? m) else Some false))
    (a - b).

Definition mul (a b : Z) : calc :=
  guarded
    (if negb (a =? 0) && negb (b =? 0) then
       or_else (m ← int_op (Z.quot INT_MAX b); Some (a >? m))
               (m ← int_op (Z.quot INT_MIN b); Some (a <? m))
     else Some false)
    (a * b).

(** The quotient is a [double]: [true] stands for the value 1. *)
Definition superdiv (a b : Z) : bool :=
  if b =? 0 then false else if (a =? INT_MIN) && (b =? -1) then false else true.

(** ** The menu *)

(** The number on the next line; [None] for the return value 0, with the input that is
    left. *)
Definition ReadInt (input : list byte) : option Z * list byte :=
  match fgets 64 input with
  | None => (None, input)
  | Some (raw, rest) =>
      let r := strtol (c_str raw) in
      if st_erange r || (st_val r <? INT_MIN) || (st_val r >? INT_MAX) then (None, rest)
      else if (st_used r =? 0)%nat then (None, rest)
      else (Some (st_val r), rest)
  end.

Inductive answer := Sum (a b r : Z) | Difference (a b r : Z) | Product (a b r : Z)
  | Overflow | Quotient (a b : Z) | DivisionError.

Definition run_choice (choice a b : Z) : option (list answer) :=
  let say := fun (r : calc) (f : Z -> answer) =>
    match r with
    | None => None
    | Some (Some v) => Some [f v]
    | Some None => Some [Overflow]
    end in
  if choice =? 1 then say (add a b) (Sum a b)
  else if choice =? 2 then say (sub a b) (Difference a b)
  else if choice =? 3 then say (mul a b) (Product a b)
  else if choice =? 4 then Some [if superdiv a b then Quotient a b else DivisionError]
  else Some [].

(** How a run of the loop ends: by the menu, by undefined behaviour, or not within the
    fuel (one unit per turn). *)
Inductive outcome := Exit (out : list answer) | Undefined | Running.

Fixpoint main_loop (fuel : nat) (input : list byte) : outcome :=
  match fuel with
  | O => Running
  | S n =>
      let '(c, input) := ReadInt input in
      match c with
      | None => main_loop n input
      | Some choice =>
          if choice =? 5 then Exit []
          else
            let '(oa, input) := ReadInt input in
            match oa with
            | None => main_loop n input
            | Some a =>
                let '(ob, input) := ReadInt input in
                match ob with
                | None => main_loop n input
                | Some b =>
                    match run_choice choice a b with
                    | None => Undefined
                    | Some out =>
                        match main_loop n input with
                        | Exit rest => Exit (out ++ rest)
                        | r => r
                        end
                    end
                end
            end
      end
  end.

(** ** The dynamic library

    The files of [basic_c/dynamic_library_calc] are the ones modelled above: those of [lib/] byte for
    byte, [main.c] but for an [#include] and a comment. *)

Definition dyn_add := add.
Definition dyn_sub := sub.
Definition dyn_mul := mul.
Definition dyn_superdiv := superdiv.
Definition dyn_ReadInt := ReadInt.
Definition dyn_run_choice := run_choice.
Definition dyn_main_loop := main_loop.

(** ** What is promised *)

(** What a checked operation should do: the exact result when it is an [int], and 0
    otherwise. *)
Definition checked (z : Z) : calc := Some (if in_int z then Some z else None).

Lemma in_int_false z : in_int z = false <-> z < INT_MIN \/ INT_MAX < z.
Proof. unfold in_int. lia. Qed.

Lemma guarded_refuse z : (z < INT_MIN \/ INT_MAX < z) -> guarded (Some true) z = checked z.
Proof. intros H. unfold checked. by rewrite (proj2 (in_int_false z) H). Qed.

Lemma guarded_store z : INT_MIN <= z <= INT_MAX -> guarded (Some false) z = checked z.
Proof. intros H. unfold checked, guarded. by rewrite int_op_in, (proj2 (in_int_true z) H). Qed.

Lemma div_range n c : 0 <= n -> 0 < c -> 0 <= n / c <= n.
Proof. intros. split; [apply Z.div_pos; lia | apply Z.div_le_upper_bound; nia]. Qed.

Lemma mul_nonneg a b : int_range a -> 0 <= b -> int_range b -> mul a b = checked (a * b).
Proof.
  unfold int_range. intros Ha Hb0 Hb. unfold mul. destruct (Z.eq_dec a 0) as [->|Ha0]; [done|].
  destruct (Z.eq_dec b 0) as [->|Hb1]; [by rewrite Z.mul_0_r, andb_false_r|].
  rewrite !(proj2 (Z.eqb_neq _ _)) by done. cbn [negb andb].
  assert (Z.quot INT_MAX b = 2147483647 / b) as -> by (apply Z.quot_div_nonneg; unfold INT_MAX; lia).
  assert (Z.quot INT_MIN b = - (2147483648 / b)) as ->.
  { replace INT_MIN with (Z.opp 2147483648) by reflexivity. rewrite Z.quot_opp_l by lia. f_equal.
    apply Z.quot_div_nonneg; lia. }
  pose proof (div_range 2147483647 b ltac:(lia) ltac:(lia)).
  pose proof (div_range 2147483648 b ltac:(lia) ltac:(lia)).
  pose proof (Z.div_mod 2147483647 b ltac:(lia)). pose proof (Z.mod_pos_bound 2147483647 b ltac:(lia)).
  pose proof (Z.div_mod 2147483648 b ltac:(lia)). pose proof (Z.mod_pos_bound 2147483648 b ltac:(lia)).
  set (q := 2147483647 / b) in *. set (p := 2147483648 / b) in *.
  rewrite !int_op_in by (unfold INT_MAX, INT_MIN; lia). cbn [mbind option_bind].
  destruct (a >? q) eqn:E1; [|destruct (a <? - p) eqn:E2]; cbn [or_else].
  - apply guarded_refuse. right. unfold INT_MAX. nia.
  - apply guarded_refuse. left. unfold INT_MIN. nia.
  - apply guarded_store. unfold INT_MIN, INT_MAX. nia.
Qed.

(** The guards of [add] and [sub]: at most one side applies. *)
Lemma add_sub_guard (a lo hi z : Z) (c1 c2 : bool) :
  (c1 = true -> INT_MIN <= hi <= INT_MAX) -> (c2 = true -> INT_MIN <= lo <= INT_MAX) ->
  (c1 = true /\ hi < a \/ c2 = true /\ a < lo -> z < INT_MIN \/ INT_MAX < z) ->
  ((c1 = true -> a <= hi) -> (c2 = true -> lo <= a) -> INT_MIN <= z <= INT_MAX) ->
  guarded (or_else (if c1 then m ← int_op hi; Some (a >? m) else Some false)
                   (if c2 then m ← int_op lo; Some (a <? m) else Some false)) z = checked z.
Proof.
  intros H1 H2 Hout Hin. destruct c1, c2; rewrite ?int_op_in by auto; cbn [mbind option_bind];
    repeat match goal with |- context [?x >? ?y] => destruct (x >? y) eqn:?
           | |- context [?x <? ?y] => destruct (x <? y) eqn:? end; cbn [or_else];
    first [ apply guarded_refuse, Hout; lia | apply guarded_store, Hin; intros; lia ].
Qed.

(** ** Properties *)

(** The checked operations are exact: for all [int] operands, [add] and
    [sub], and [mul] with a second operand that is not negative, compute nothing that
    overflows, return the exact result when it is an [int], and refuse otherwise. *)
Theorem calc_exact a b :
  int_range a -> int_range b ->
  add a b = checked (a + b) /\ sub a b = checked (a - b) /\ (0 <= b -> mul a b = checked (a * b)).
Proof.
  intros Ha Hb. split_and!; [| |intros; by apply mul_nonneg].
  - apply add_sub_guard; unfold int_range, INT_MAX, INT_MIN in *; lia.
  - apply add_sub_guard; unfold int_range, INT_MAX, INT_MIN in *; lia.
Qed.

Lemma calc_exact_witness :
  add 2147483647 1 = checked 2147483648 /\ sub 2147483647 1 = checked 2147483646 /\
  (0 <= 1 -> mul 2147483647 1 = checked 2147483647).
Proof. refine (calc_exact 2147483647 1 _ _); unfold int_range, INT_MIN, INT_MAX; lia. Defined.

(** With a negative second operand the guards of [mul] are the wrong way round: every
    product by a number below -1 is refused, also [2 * -3]; products by -1 are refused
    too, except for the two smallest operands, for which the guard itself overflows. *)
Theorem mul_negative a b :
  int_range a -> int_range b -> a <> 0 -> b < 0 ->
  mul a b = if (b =? -1) && (a <=? - INT_MAX) then None else Some None.
Proof.
  unfold int_range. intros Ha Hb Ha0 Hb0. unfold mul. rewrite !(proj2 (Z.eqb_neq _ _)) by lia.
  cbn [negb andb]. destruct (Z.eqb_spec b (-1)) as [->|Hne].
  - change (Z.quot INT_MAX (-1)) with (-2147483647). rewrite int_op_in by (unfold INT_MAX, INT_MIN; lia).
    cbn [mbind option_bind andb]. replace (a >? -2147483647) with (negb (a <=? - INT_MAX))
      by (unfold INT_MAX; lia). by destruct (a <=? - INT_MAX).
  - assert (exists c, b = - c /\ 2 <= c) as (c & -> & Hc) by (exists (- b); lia).
    rewrite Z.quot_opp_r, (Z.quot_div_nonneg INT_MAX) by (unfold INT_MAX; lia).
    assert (Z.quot INT_MIN (- c) = 2147483648 / c) as ->.
    { replace INT_MIN with (Z.opp 2147483648) by reflexivity. rewrite Z.quot_opp_opp by lia.
      apply Z.quot_div_nonneg; lia. }
    change INT_MAX with 2147483647.
    assert (0 <= 2147483647 / c <= 1073741824)
      by (split; [apply Z.div_pos; lia | apply Z.div_le_upper_bound; nia]).
    assert (0 <= 2147483648 / c <= 1073741824)
      by (split; [apply Z.div_pos; lia | apply Z.div_le_upper_bound; nia]).
    set (q := 2147483647 / c) in *. set (p := 2147483648 / c) in *.
    rewrite !int_op_in by (unfold INT_MAX, INT_MIN; lia). cbn [mbind option_bind andb].
    destruct (a >? - q) eqn:E1; [done|]. by replace (a <? p) with true by lia.
Qed.
