(* ===== verification/Phonebook.v ===== *)
(** * The phone book on a doubly linked list

    [basic_c/dynamic_memory_task/Task6.c].  The nodes live in a heap, a finite map from
    addresses to structures; 0 is [NULL], and reading, writing or freeing an address that
    is not allocated gives [None].  Standard input is the list of bytes still to be
    read.  Prompts are left out of the output; every other message is a [msg]. *)

From S2P Require Import Prelude CString.

(** ** Data *)

Record person := mkPerson { name : cstr; secondName : cstr; tel : cstr }.
Record customer := mkCustomer { data : person; prev : Z; next : Z }.

Definition NULL : Z := 0.

Abbreviation heap := (gmap Z customer) (only parsing).

(** [struct customer *head] in [main] and the nodes. *)
Record book := mkBook { head : Z; cells : heap }.

Inductive msg :=
  | Entry (index : Z) (p : person)
  | NotFound
  | Deleted (n : Z)
  | BadInput
  | BadPosition
  | BadChoice
  | DigitsOnly
  | MallocFailed.

(** ** Reading *)

Definition ReadString (size : nat) (input : list byte) : cstr * list byte :=
  match fgets size input with
  | None => ([], input)
  | Some (raw, rest) => (chop_newline (c_str raw), rest)
  end.

Definition IsDigitsOnly (s : cstr) : bool :=
  match s with [] => false | _ => forallb isdigit s end.

(** [sscanf(line, "%d", &n)]: the converted number is stored as an [int]. *)
Definition scan_int (line : cstr) : option Z :=
  let r := strtol line in if (st_used r =? 0)%nat then None else Some (i32 (st_val r)).

(** The [do ... while] loop that reads the phone number; [None] when it has not ended
    after [fuel] turns. *)
Fixpoint read_tel (fuel : nat) (input : list byte) : option (cstr * list byte * list msg) :=
  match fuel with
  | O => None
  | S n =>
      let '(t, input) := ReadString 11 input in
      if IsDigitsOnly t then Some (t, input, [])
      else match read_tel n input with
           | Some (t', rest, ms) => Some (t', rest, DigitsOnly :: ms)
           | None => None
           end
  end.

(** What [AddCustomer] reads into the new node. *)
Definition read_person (fuel : nat) (input : list byte) : option (person * list byte * list msg) :=
  let '(n, input) := ReadString 20 input in
  let '(s, input) := ReadString 20 input in
  match read_tel fuel input with
  | Some (t, input, ms) => Some (mkPerson n s t, input, ms)
  | None => None
  end.

(** ** Operations on the nodes *)

Definition set_next (h : heap) (p q : Z) : option heap :=
  c ← h !! p; Some (<[p := mkCustomer (data c) (prev c) q]> h).
Definition set_prev (h : heap) (p q : Z) : option heap :=
  c ← h !! p; Some (<[p := mkCustomer (data c) q (next c)]> h).
Definition free (h : heap) (p : Z) : option heap :=
  if bool_decide (is_Some (h !! p)) then Some (delete p h) else None.

(** [while (currentNode->next) currentNode = currentNode->next;] *)
Fixpoint last_node (fuel : nat) (h : heap) (p : Z) : option Z :=
  match fuel with
  | O => None
  | S k => c ← h !! p; if next c =? NULL then Some p else last_node k h (next c)
  end.

(** [for (int i = 1; current && i < n; i++) current = current->next;] *)
Fixpoint nth_node (fuel : nat) (h : heap) (current i n : Z) : option Z :=
  match fuel with
  | O => None
  | S k =>
      if negb (current =? NULL) && (i <? n)
      then c ← h !! current; nth_node k h (next c) (i + 1) n
      else Some current
  end.

(** A walk visits every node at most once. *)
Definition walk_fuel (h : heap) : nat := S (size h).

(** The part of [AddCustomer] after the reading: the new node is appended. *)
Definition append_node (b : book) (p : Z) (x : person) : option book :=
  let h := <[p := mkCustomer x NULL NULL]> (cells b) in
  if head b =? NULL then Some (mkBook p h)
  else
    currentNode ← last_node (walk_fuel h) h (head b);
    h ← set_next h currentNode p;
    h ← set_prev h p currentNode;
    Some (mkBook (head b) h).

(** The part of [DeleteCustomer] after the reading. *)
Definition delete_node (b : book) (n : Z) : option (book * list msg) :=
  current ← nth_node (walk_fuel (cells b)) (cells b) (head b) 1 n;
  if current =? NULL then Some (b, [BadPosition])
  else
    c ← cells b !! current;
    '(hd, h) ← (if negb (prev c =? NULL)
                then h ← set_next (cells b) (prev c) (next c); Some (head b, h)
                else Some (next c, cells b));
    h ← (if negb (next c =? NULL) then set_prev h (next c) (prev c) else Some h);
    h ← free h current;
    Some (mkBook hd h, [Deleted n]).

(** [SearchCustomers] and [OutputAllCustomers]: the walk, from [head] on. *)
Definition matches (query : cstr) (p : person) : bool :=
  has_substr (name p) query || has_substr (secondName p) query || has_substr (tel p) query.

Fixpoint list_nodes (fuel : nat) (h : heap) (p index : Z) (show : person -> bool) : option (list msg) :=
  match fuel with
  | O => None
  | S k =>
      if p =? NULL then Some []
      else
        c ← h !! p;
        ms ← list_nodes k h (next c) (index + 1) show;
        Some (if show (data c) then Entry index (data c) :: ms else ms)
  end.

Definition SearchCustomers (b : book) (query : cstr) : option (list msg) :=
  ms ← list_nodes (walk_fuel (cells b)) (cells b) (head b) 1 (matches query);
  Some (match ms with [] => [NotFound] | _ => ms end).

Definition OutputAllCustomers (b : book) : option (list msg) :=
  list_nodes (walk_fuel (cells b)) (cells b) (head b) 1 (fun _ => true).

(** The loop of the choice 0. *)
Fixpoint free_all (fuel : nat) (h : heap) (p : Z) : option heap :=
  match fuel with
  | O => None
  | S k => if p =? NULL then Some h else c ← h !! p; h ← free h p; free_all k h (next c)
  end.

(** ** [main] *)

(** How a run ends: by the menu, with the heap that is left; by undefined behaviour; or not
    within the fuel. *)
Inductive outcome := Exit (left : heap) (out : list msg) | Undefined | Running.

Definition say (ms : list msg) (o : outcome) : outcome :=
  match o with Exit h out => Exit h (ms ++ out) | o => o end.

Section main.
(** The address [malloc] returns for a new node, 0 when it fails. *)
Context (malloc : heap -> Z).

(** [None]: the phone number is still asked for. *)
Definition AddCustomer (b : book) (input : list byte) : option (option (book * list msg) * list byte) :=
  if malloc (cells b) =? NULL then Some (Some (b, [MallocFailed]), input)
  else
    r ← read_person (S (length input)) input;
    let '(x, input, ms) := r in
    Some (b' ← append_node b (malloc (cells b)) x; Some (b', ms), input).

Definition DeleteCustomer (b : book) (input : list byte) : option (book * list msg) * list byte :=
  let '(line, input) := ReadString 16 input in
  match scan_int line with
  | None => (Some (b, [BadInput]), input)
  | Some n => (if n <? 1 then Some (b, [BadInput]) else delete_node b n, input)
  end.

(** The menu. *)
Fixpoint main_loop (fuel : nat) (b : book) (input : list byte) : outcome :=
  match fuel with
  | O => Running
  | S k =>
      let '(line, input) := ReadString 16 input in
      let go := fun (r : option (book * list msg)) input =>
        match r with
        | Some (b, ms) => say ms (main_loop k b input)
        | None => Undefined
        end in
      match scan_int line with
      | None => go (Some (b, [BadInput])) input
      | Some choice =>
          if choice =? 1 then
            match AddCustomer b input with Some (r, input) => go r input | None => Running end
          else if choice =? 2 then
            let '(r, input) := DeleteCustomer b input in go r input
          else if choice =? 3 then
            let '(query, input) := ReadString 20 input in
            go (ms ← SearchCustomers b query; Some (b, ms)) input
          else if choice =? 4 then go (ms ← OutputAllCustomers b; Some (b, ms)) input
          else if choice =? 0 then
            match free_all (walk_fuel (cells b)) (cells b) (head b) with
            | Some h => Exit h []
            | None => Undefined
            end
          else go (Some (b, [BadChoice])) input
      end
  end.
End main.

Definition empty_book : book := mkBook NULL ∅.

(** ** The specification: a phone book is a list of persons *)

Fixpoint numbered (i : Z) (l : list person) (show : person -> bool) : list msg :=
  match l with
  | [] => []
  | x :: l' => (if show x then [Entry i x] else []) ++ numbered (i + 1) l' show
  end.

Definition spec_delete (l : list person) (n : Z) : list person * list msg :=
  if n <=? Z.of_nat (length l) then (delete (Z.to_nat (n - 1)) l, [Deleted n]) else (l, [BadPosition]).

Definition spec_search (l : list person) (query : cstr) : list msg :=
  match numbered 1 l (matches query) with [] => [NotFound] | ms => ms end.

(** [exhausted n] says that there is no memory for another node besides [n] nodes. *)
Fixpoint spec_loop (exhausted : nat -> bool) (fuel : nat) (l : list person) (input : list byte)
  : option (list msg) :=
  match fuel with
  | O => None
  | S k =>
      let '(line, input) := ReadString 16 input in
      let go := fun (r : list person * list msg) input =>
        out ← spec_loop exhausted k r.1 input; Some (r.2 ++ out) in
      match scan_int line with
      | None => go (l, [BadInput]) input
      | Some choice =>
          if choice =? 1 then
            if exhausted (length l) then go (l, [MallocFailed]) input
            else '(x, input, ms) ← read_person (S (length input)) input; go (l ++ [x], ms) input
          else if choice =? 2 then
            let '(line, input) := ReadString 16 input in
            match scan_int line with
            | None => go (l, [BadInput]) input
            | Some n => if n <? 1 then go (l, [BadInput]) input else go (spec_delete l n) input
            end
          else if choice =? 3 then
            let '(query, input) := ReadString 20 input in go (l, spec_search l query) input
          else if choice =? 4 then go (l, numbered 1 l (fun _ => true)) input
          else if choice =? 0 then Some []
          else go (l, [BadChoice]) input
      end
  end.

(** ** The representation

    The nodes at the addresses [ps], in this order, hold the persons [l]; there are no
    other nodes in the heap. *)

Definition link (ps : list Z) (i : nat) : Z := default NULL (ps !! i).
Definition before (ps : list Z) (i : nat) : Z := match i with O => NULL | S j => link ps j end.

Definition linked (h : heap) (ps : list Z) (l : list person) : Prop :=
  forall i p x, ps !! i = Some p -> l !! i = Some x ->
    h !! p = Some (mkCustomer x (before ps i) (link ps (S i))).

Record rep (b : book) (ps : list Z) (l : list person) : Prop := {
  rep_length : length ps = length l;
  rep_nodup : NoDup ps;
  rep_null : NULL ∉ ps;
  rep_head : head b = link ps 0;
  rep_linked : linked (cells b) ps l;
  rep_dom : dom (cells b) = list_to_set ps
}.

Lemma rep_empty : rep empty_book [] [].
Proof. split; try done; [constructor | set_solver]. Qed.

Lemma link_Some ps i p : ps !! i = Some p -> link ps i = p.
Proof. unfold link. by intros ->. Qed.

Lemma link_end ps i : (length ps <= i)%nat -> link ps i = NULL.
Proof. intros H. unfold link. by rewrite lookup_ge_None_2. Qed.

Lemma link_lt ps i : (i < length ps)%nat -> ps !! i = Some (link ps i).
Proof. intros H. destruct (lookup_lt_is_Some_2 ps i H) as [p Hp]. unfold link. by rewrite Hp. Qed.

Lemma link_null ps i : NULL ∉ ps -> (link ps i = NULL <-> (length ps <= i)%nat).
Proof.
  intros Hn. split; [|apply link_end]. intros He. destruct (decide (length ps <= i)%nat); [done|].
  contradict Hn. rewrite <- He. eapply list_elem_of_lookup_2, link_lt. lia.
Qed.

Lemma link_inj ps i j : NoDup ps -> (i < length ps)%nat -> link ps i = link ps j ->
  (j < length ps)%nat -> i = j.
Proof.
  intros Hd Hi He Hj. apply (NoDup_lookup ps i j (link ps i)); [done| |]; [by apply link_lt|].
  rewrite He. by apply link_lt.
Qed.

Lemma linked_at h ps l i :
  length ps = length l -> linked h ps l -> (i < length ps)%nat ->
  exists x, l !! i = Some x /\ h !! link ps i = Some (mkCustomer x (before ps i) (link ps (S i))).
Proof.
  intros Hlen Hl Hi. destruct (lookup_lt_is_Some_2 l i) as [x Hx]; [lia|].
  exists x. split; [done|]. apply Hl; [by apply link_lt | done].
Qed.

Lemma rep_size b ps l : rep b ps l -> size (cells b) = length l.
Proof.
  intros [Hlen Hd _ _ _ Hdom]. rewrite <- size_dom, Hdom, size_list_to_set by done. done.
Qed.

(** ** Walks *)

Section walks.
Context (h : gmap Z customer) (ps : list Z) (l : list person).
Hypothesis (Hlen : length ps = length l) (Hnull : NULL ∉ ps) (Hl : linked h ps l).

Lemma last_node_linked k i :
  (i < length ps)%nat -> (length ps <= i + k)%nat ->
  last_node k h (link ps i) = Some (link ps (length ps - 1)).
Proof.
  revert i. induction k as [|k IH]; intros i Hi Hk; [lia|]. simpl.
  destruct (linked_at h ps l i Hlen Hl Hi) as (x & _ & ->). simpl.
  destruct (Z.eqb_spec (link ps (S i)) NULL) as [He|He].
  - apply link_null in He; [|done]. do 2 f_equal. lia.
  - rewrite link_null in He by done. apply IH; lia.
Qed.

Lemma nth_node_linked k i n :
  (i <= length ps)%nat -> Z.of_nat i + 1 <= n -> (length ps < i + k)%nat ->
  nth_node k h (link ps i) (Z.of_nat i + 1) n =
    Some (link ps (Nat.min (length ps) (Z.to_nat (n - 1)))).
Proof.
  revert i. induction k as [|k IH]; intros i Hi Hn Hk; [lia|]. simpl.
  destruct (Z.eqb_spec (link ps i) NULL) as [He|He]; simpl.
  - assert (i = length ps) as -> by (apply link_null in He; [lia | done]).
    do 2 f_equal. lia.
  - rewrite link_null in He by done.
    destruct (Z.ltb_spec (Z.of_nat i + 1) n).
    + destruct (linked_at h ps l i Hlen Hl) as (x & _ & ->); [lia|]. simpl.
      replace (Z.of_nat i + 1 + 1) with (Z.of_nat (S i) + 1) by lia. apply IH; lia.
    + do 2 f_equal. lia.
Qed.

Lemma list_nodes_linked k i idx show :
  (i <= length ps)%nat -> (length ps < i + k)%nat ->
  list_nodes k h (link ps i) idx show = Some (numbered idx (drop i l) show).
Proof.
  revert i idx. induction k as [|k IH]; intros i idx Hi Hk; [lia|]. simpl.
  destruct (Z.eqb_spec (link ps i) NULL) as [He|He].
  - apply link_null in He; [|done]. by rewrite drop_ge by lia.
  - rewrite link_null in He by done.
    destruct (linked_at h ps l i Hlen Hl) as (x & Hx & ->); [lia|]. simpl.
    rewrite IH by lia. simpl. rewrite (drop_S _ _ _ Hx). simpl. by destruct (show x).
Qed.
End walks.

(** The nodes that were passed are gone, the others are still there. *)
Lemma free_all_linked k h h0 ps l i :
  length ps = length l -> NULL ∉ ps -> NoDup ps -> linked h0 ps l ->
  (forall j, (i <= j)%nat -> (j < length ps)%nat -> h !! link ps j = h0 !! link ps j) ->
  dom h = list_to_set (drop i ps) ->
  (i <= length ps)%nat -> (length ps < i + k)%nat ->
  free_all k h (link ps i) = Some ∅.
Proof.
  intros Hlen Hnull Hd Hl. revert h i.
  induction k as [|k IH]; intros h i Hsame Hdom Hi Hk; [lia|]. simpl.
  destruct (Z.eqb_spec (link ps i) NULL) as [He|He].
  - apply link_null in He; [|done]. f_equal. apply dom_empty_iff_L.
    by rewrite Hdom, drop_ge by lia.
  - rewrite link_null in He by done.
    destruct (linked_at h0 ps l i Hlen Hl) as (x & _ & Hx); [lia|].
    rewrite Hsame, Hx by lia. simpl. unfold free. rewrite Hsame, Hx by lia.
    rewrite bool_decide_true by done. simpl. apply IH; [| |lia..].
    + intros j ? ?. rewrite lookup_delete_ne; [apply Hsame; lia|].
      intros Hc. apply link_inj in Hc; [lia | done | lia | lia].
    + rewrite dom_delete_L, Hdom. rewrite (drop_S ps _ i) by by apply link_lt; lia.
      simpl. assert (link ps i ∉ drop (S i) ps); [|set_solver].
      intros (j & Hj)%list_elem_of_lookup. rewrite lookup_drop in Hj.
      pose proof (NoDup_lookup ps i (S i + j) (link ps i) Hd) as Hn.
      rewrite link_lt in Hn by lia. specialize (Hn eq_refl Hj). lia.
Qed.

(** ** Updates *)

Lemma link_snoc ps p i :
  link (ps ++ [p]) i = if decide (i = length ps) then p else link ps i.
Proof.
  unfold link. case_decide as Hi; [subst; by rewrite list_lookup_middle|].
  destruct (decide (i < length ps)%nat); [by rewrite lookup_app_l|].
  rewrite !lookup_ge_None_2; [done | lia | rewrite length_app; simpl; lia].
Qed.

Lemma before_snoc ps p i : (i <= length ps)%nat -> before (ps ++ [p]) i = before ps i.
Proof.
  destruct i as [|i]; [done|]. intros H. simpl. rewrite link_snoc, decide_False; [done|lia].
Qed.

Lemma linked_fresh h ps l p c :
  linked h ps l -> p ∉ ps -> linked (<[p := c]> h) ps l.
Proof.
  intros Hl Hp i q x Hq Hx. rewrite lookup_insert_ne; [by apply Hl|].
  intros ->. by apply list_elem_of_lookup_2 in Hq.
Qed.

Lemma linked_snoc h ps l p x y q :
  length ps = length l -> NoDup ps -> p ∉ ps -> linked h ps l ->
  ps !! (length ps - 1)%nat = Some q -> l !! (length ps - 1)%nat = Some y ->
  linked (<[p := mkCustomer x q NULL]>
           (<[q := mkCustomer y (before ps (length ps - 1)) p]> h)) (ps ++ [p]) (l ++ [x]).
Proof.
  intros Hlen Hd Hp Hl Hq Hy i r z Hr Hz. pose proof (lookup_lt_Some _ _ _ Hq).
  destruct (decide (i = length ps)) as [->|Hne].
  - rewrite list_lookup_middle in Hr by done. rewrite list_lookup_middle in Hz by lia. simplify_eq.
    rewrite lookup_insert_eq, before_snoc, (link_end (ps ++ _)) by (rewrite ?length_app; simpl; lia).
    destruct (length ps) as [|n] eqn:E; [lia|]. simpl. rewrite (link_Some _ _ q); [done|].
    by rewrite <- Hq; f_equal; lia.
  - apply lookup_lt_Some in Hr as Hi. rewrite length_app in Hi. simpl in Hi.
    rewrite lookup_app_l in Hr by lia. rewrite lookup_app_l in Hz by lia.
    rewrite before_snoc by lia.
    rewrite lookup_insert_ne by (intros ->; by apply list_elem_of_lookup_2 in Hr).
    rewrite link_snoc. case_decide as Hi'.
    + assert (i = (length ps - 1)%nat) as -> by lia. simplify_eq. by rewrite lookup_insert_eq.
    + rewrite lookup_insert_ne; [by apply Hl|]. intros <-.
      pose proof (NoDup_lookup _ _ _ _ Hd Hq Hr). lia.
Qed.

(** [AddCustomer] adds the person at the end. *)
Lemma append_node_rep b ps l p x :
  rep b ps l -> p <> NULL -> cells b !! p = None ->
  exists b', append_node b p x = Some b' /\ rep b' (ps ++ [p]) (l ++ [x]).
Proof.
  intros Hr Hp Hfresh. pose proof (rep_size _ _ _ Hr) as Hsz.
  destruct Hr as [Hlen Hd Hnull Hhd Hl Hdom].
  assert (Hps : p ∉ ps).
  { intros Hin. apply not_elem_of_dom in Hfresh. rewrite Hdom in Hfresh. set_solver. }
  assert (Hds : NoDup (ps ++ [p])).
  { apply NoDup_app. split_and!; [done | set_solver | apply NoDup_singleton]. }
  unfold append_node. rewrite Hhd. destruct (Z.eqb_spec (link ps 0) NULL) as [He|He].
  { apply link_null in He; [|done]. destruct ps; [|simpl in He; lia]. destruct l; [|done].
    eexists. split; [done|]. split; simpl; try done; [set_solver | |set_solver].
    intros [|i] q y; simpl; [|by destruct i]. intros [= ->] [= ->]. by rewrite lookup_insert_eq. }
  rewrite link_null in He by done.
  set (h := <[p := _]> _). assert (Hlh : linked h ps l) by by apply linked_fresh.
  assert (size h = S (length l)) as Hszh by (unfold h; rewrite map_size_insert_None; [lia|done]).
  unfold walk_fuel. rewrite (last_node_linked h ps l) by (done || lia). simpl.
  set (q := link ps (length ps - 1)). assert (Hq : ps !! (length ps - 1)%nat = Some q) by (apply link_lt; lia).
  assert (p <> q) by (intros ->; by apply list_elem_of_lookup_2 in Hq).
  destruct (linked_at h ps l (length ps - 1) Hlen Hlh) as (y & Hy & Hhq); [lia|]. fold q in Hhq.
  unfold set_next, set_prev. rewrite Hhq. simpl.
  rewrite lookup_insert_ne by done. unfold h at 2. rewrite lookup_insert_eq. simpl.
  eexists. split; [done|]. split; simpl.
  - rewrite !length_app. simpl. lia.
  - done.
  - set_solver.
  - by rewrite link_snoc, decide_False by lia.
  - by apply linked_snoc.
  - rewrite !dom_insert_L, list_to_set_app_L. unfold h. rewrite dom_insert_L, Hdom.
    apply list_elem_of_lookup_2 in Hq. set_solver.
Qed.

Lemma link_delete ps i j :
  link (delete i ps) j = link ps (if decide (j < i)%nat then j else S j).
Proof.
  unfold link. case_decide; f_equal; [by apply list_lookup_delete_lt | apply list_lookup_delete_ge; lia].
Qed.

(** The heap after the node [i] of the list was taken out. *)
Definition unlinked (h : heap) (ps : list Z) (i : nat) : option heap :=
  h1 ← (if negb (before ps i =? NULL) then set_next h (before ps i) (link ps (S i)) else Some h);
  h2 ← (if negb (link ps (S i) =? NULL) then set_prev h1 (link ps (S i)) (before ps i) else Some h1);
  free h2 (link ps i).

Lemma before_null ps i : NULL ∉ ps -> (i <= length ps)%nat -> (before ps i = NULL <-> i = 0%nat).
Proof. intros Hn Hi. destruct i as [|i]; simpl; [done|]. rewrite link_null by done. lia. Qed.

(** What the two stores and the [free] leave in the heap. *)
Section unlink.
Context (h : gmap Z customer) (ps : list Z) (l : list person) (i : nat).
Hypothesis (Hlen : length ps = length l) (Hnull : NULL ∉ ps) (Hd : NoDup ps) (Hl : linked h ps l)
  (Hi : (i < length ps)%nat).

Lemma link_ne j k :
  (j < length ps)%nat -> (k < length ps)%nat -> j <> k -> link ps j <> link ps k.
Proof. intros Hj Hk Hjk He. by apply Hjk, (link_inj ps). Qed.

Lemma store_next_lookup :
  exists h1, (if negb (before ps i =? NULL) then set_next h (before ps i) (link ps (S i)) else Some h) = Some h1 /\
    dom h1 = dom h /\
    forall j, (j < length ps)%nat -> h1 !! link ps j =
      (fun c => mkCustomer (data c) (prev c) (if decide (S j = i) then link ps (S i) else next c))
        <$> h !! link ps j.
Proof.
  destruct (Z.eqb_spec (before ps i) NULL) as [He|He]; simpl.
  - apply before_null in He as ->; [|done|lia]. eexists. split_and!; [done..|]. intros j _.
    by destruct (h !! link ps j) as [[]|].
  - destruct i as [|i']; [done|]. simpl in *. unfold set_next.
    destruct (linked_at h ps l i' Hlen Hl) as (y & _ & Hy); [lia|]. rewrite Hy. simpl.
    eexists. split_and!; [done| |].
    + rewrite dom_insert_L. apply elem_of_dom_2 in Hy. set_solver.
    + intros j Hj. destruct (decide (S j = S i')) as [[= ->]|Hji].
      * by rewrite lookup_insert_eq, Hy.
      * rewrite lookup_insert_ne by (apply link_ne; lia). by destruct (h !! link ps j) as [[]|].
Qed.

Lemma store_prev_lookup h1 :
  (forall j, (j < length ps)%nat -> is_Some (h1 !! link ps j)) ->
  exists h2, (if negb (link ps (S i) =? NULL) then set_prev h1 (link ps (S i)) (before ps i) else Some h1) = Some h2 /\
    dom h2 = dom h1 /\
    forall j, (j < length ps)%nat -> h2 !! link ps j =
      (fun c => mkCustomer (data c) (if decide (j = S i) then before ps i else prev c) (next c))
        <$> h1 !! link ps j.
Proof.
  intros H1. destruct (Z.eqb_spec (link ps (S i)) NULL) as [He|He]; simpl.
  - apply link_null in He; [|done]. eexists. split_and!; [done..|]. intros j Hj.
    destruct (h1 !! link ps j) as [[]|]; simpl; [|done]. by rewrite decide_False by lia.
  - rewrite link_null in He by done. unfold set_prev.
    destruct (H1 (S i)) as [y Hy]; [lia|]. rewrite Hy. simpl.
    eexists. split_and!; [done| |].
    + rewrite dom_insert_L. apply elem_of_dom_2 in Hy. set_solver.
    + intros j Hj. destruct (decide (j = S i)) as [->|Hji].
      * by rewrite lookup_insert_eq, Hy.
      * rewrite lookup_insert_ne by (apply link_ne; lia). by destruct (h1 !! link ps j) as [[]|].
Qed.

Lemma unlinked_lookup :
  exists h', unlinked h ps i = Some h' /\ dom h' = dom h ∖ {[link ps i]} /\
    forall j, (j < length ps)%nat -> j <> i ->
      h' !! link ps j =
        (fun c => mkCustomer (data c) (if decide (j = S i) then before ps i else prev c)
                    (if decide (S j = i) then link ps (S i) else next c)) <$> h !! link ps j.
Proof.
  unfold unlinked. destruct store_next_lookup as (h1 & -> & Hdom1 & H1). simpl.
  assert (Hs : forall j, (j < length ps)%nat -> is_Some (h !! link ps j)).
  { intros j Hj. destruct (linked_at h ps l j Hlen Hl Hj) as (y & _ & ->). done. }
  destruct (store_prev_lookup h1) as (h2 & -> & Hdom2 & H2).
  { intros j Hj. rewrite H1 by done. by apply fmap_is_Some, Hs. }
  simpl. unfold free.
  rewrite bool_decide_true by (rewrite H2, H1 by lia; by apply fmap_is_Some, fmap_is_Some, Hs).
  eexists. split_and!; [done| |].
  - by rewrite dom_delete_L, Hdom2, Hdom1.
  - intros j Hj Hji. rewrite lookup_delete_ne by (apply link_ne; lia). rewrite H2, H1 by done.
    by destruct (h !! link ps j) as [[]|].
Qed.

Lemma unlinked_linked :
  exists h', unlinked h ps i = Some h' /\ dom h' = dom h ∖ {[link ps i]} /\
    linked h' (delete i ps) (delete i l).
Proof.
  destruct unlinked_lookup as (h' & Hu & Hdom & Hlk). exists h'. split_and!; [done..|].
  intros j p x Hp Hx.
  set (k := if decide (j < i)%nat then j else S j).
  assert (Hpk : ps !! k = Some p).
  { unfold k. case_decide; [by rewrite list_lookup_delete_lt in Hp|].
    by rewrite list_lookup_delete_ge in Hp by lia. }
  assert (Hxk : l !! k = Some x).
  { unfold k. case_decide; [by rewrite list_lookup_delete_lt in Hx|].
    by rewrite list_lookup_delete_ge in Hx by lia. }
  pose proof (lookup_lt_Some _ _ _ Hpk) as Hk. pose proof (link_Some _ _ _ Hpk) as Hlp.
  rewrite <- Hlp, Hlk by (done || unfold k; case_decide; lia). rewrite Hlp, (Hl _ _ _ Hpk Hxk). simpl.
  rewrite link_delete. do 2 f_equal; unfold k.
  - destruct j as [|j]; simpl.
    + repeat case_decide; try lia; [|done]. by assert (i = 0%nat) as -> by lia.
    + rewrite link_delete. repeat case_decide; subst; simpl; try lia; try done.
      * by replace i with (S j) by lia.
  - repeat case_decide; subst; try lia; done.
Qed.
End unlink.

(** [DeleteCustomer] removes the person at position [n], counted from 1, and nothing
    when there is no such position. *)
Lemma delete_node_rep b ps l n :
  rep b ps l -> 1 <= n ->
  exists b' ps', delete_node b n = Some (b', (spec_delete l n).2) /\ rep b' ps' (spec_delete l n).1.
Proof.
  intros Hr Hn. pose proof (rep_size _ _ _ Hr) as Hsz. pose proof Hr as [Hlen Hd Hnull Hhd Hl Hdom].
  unfold delete_node, spec_delete. rewrite Hhd.
  rewrite (nth_node_linked (cells b) ps l Hlen Hnull Hl _ 0 n) by (unfold walk_fuel; lia). simpl.
  destruct (Z.leb_spec n (Z.of_nat (length l))) as [Hle|Hgt]; simpl.
  2: { rewrite link_end by lia. by exists b, ps. }
  replace (Nat.min _ _) with (Z.to_nat (n - 1)) by lia. assert (Hi : (Z.to_nat (n - 1) < length ps)%nat) by lia.
  generalize dependent (Z.to_nat (n - 1)). intros i Hi.
  destruct (Z.eqb_spec (link ps i) NULL) as [He|He]; [apply link_null in He; [lia | done]|].
  destruct (linked_at _ ps l i Hlen Hl Hi) as (x & Hx & ->). simpl.
  destruct (unlinked_linked (cells b) ps l i Hlen Hnull Hd Hl Hi) as (h' & Hu & Hdom' & Hl').
  unfold unlinked in Hu. exists (mkBook (link (delete i ps) 0) h'), (delete i ps). split.
  - rewrite link_delete. destruct (before ps i =? NULL) eqn:Hb; simpl in *; bool_to_prop.
    + apply before_null in Hb as ->; [|done|lia]. simpl in *.
      destruct (if negb _ then _ else _) as [h2|]; simpl in *; [|done]. by rewrite Hu.
    + rewrite before_null in Hb by (done || lia). rewrite decide_True by lia.
      destruct (set_next _ _ _) as [h1|]; simpl in *; [|done].
      destruct (if negb _ then _ else _) as [h2|]; simpl in *; [|done]. by rewrite Hu.
  - split; simpl; [| | |done|done|].
    + rewrite !length_delete by (apply lookup_lt_is_Some_2; lia). lia.
    + eapply sublist_NoDup; [done|]. apply sublist_delete.
    + by intros Hin%list_elem_of_delete_inv.
    + rewrite Hdom', Hdom, (delete_take_drop ps i).
      rewrite <- (take_drop_middle ps i (link ps i)) in Hd |- * at 1 by by apply link_lt.
      apply NoDup_app in Hd as (_ & H1 & H2%NoDup_cons).
      rewrite !list_to_set_app_L. simpl. set_solver.
Qed.

(** ** The whole program *)

(** What is assumed of [malloc]: it fails when the memory is exhausted, and otherwise
    returns an address that is not [NULL] and not in use. *)
Definition malloc_ok (exhausted : nat -> bool) (malloc : heap -> Z) : Prop :=
  forall h, if exhausted (size h) then malloc h = NULL else malloc h <> NULL /\ h !! malloc h = None.

(** The implementation's outcome for an outcome of the specification. *)
Definition outcome_of (r : option (list msg)) : outcome :=
  match r with Some out => Exit ∅ out | None => Running end.

Lemma say_outcome_of ms r : say ms (outcome_of r) = outcome_of (out ← r; Some (ms ++ out)).
Proof. by destruct r. Qed.

Lemma SearchCustomers_rep b ps l query :
  rep b ps l -> SearchCustomers b query = Some (spec_search l query).
Proof.
  intros Hr. pose proof (rep_size _ _ _ Hr). destruct Hr. unfold SearchCustomers, walk_fuel.
  rewrite rep_head0, (list_nodes_linked _ ps l) by (done || lia). unfold spec_search. simpl.
  by destruct (numbered _ _ _).
Qed.

Lemma OutputAllCustomers_rep b ps l :
  rep b ps l -> OutputAllCustomers b = Some (numbered 1 l (fun _ => true)).
Proof.
  intros Hr. pose proof (rep_size _ _ _ Hr). destruct Hr. unfold OutputAllCustomers, walk_fuel.
  rewrite rep_head0, (list_nodes_linked _ ps l) by (done || lia). done.
Qed.

Lemma free_all_rep b ps l :
  rep b ps l -> free_all (walk_fuel (cells b)) (cells b) (head b) = Some ∅.
Proof.
  intros Hr. pose proof (rep_size _ _ _ Hr). destruct Hr. unfold walk_fuel.
  rewrite rep_head0. by apply (free_all_linked _ _ (cells b) ps l); try lia.
Qed.

Lemma main_loop_rep exhausted malloc fuel b ps l input :
  malloc_ok exhausted malloc -> rep b ps l ->
  main_loop malloc fuel b input = outcome_of (spec_loop exhausted fuel l input).
Proof.
  intros Hm. revert b ps l input. induction fuel as [|k IH]; intros b ps l input Hr; [done|].
  cbn [main_loop spec_loop]. destruct (ReadString 16 input) as [line rest].
  destruct (scan_int line) as [choice|]; [|by rewrite (IH _ _ _ _ Hr), say_outcome_of].
  case_if.
  { unfold AddCustomer. pose proof (Hm (cells b)) as Hmb. rewrite (rep_size _ _ _ Hr) in Hmb.
    destruct (exhausted (length l)); [rewrite Hmb; simpl; by rewrite (IH _ _ _ _ Hr), say_outcome_of|].
    destruct Hmb as [Hn Hf]. rewrite (proj2 (Z.eqb_neq _ _) Hn).
    destruct (read_person _ _) as [[[x rest'] ms]|]; [|done]. cbn [mbind option_bind].
    destruct (append_node_rep b ps l _ x Hr Hn Hf) as (b' & -> & Hr'). cbn [mbind option_bind].
    by rewrite (IH _ _ _ _ Hr'), say_outcome_of. }
  case_if.
  { unfold DeleteCustomer. destruct (ReadString 16 rest) as [line' rest'].
    destruct (scan_int line') as [n|]; [|by rewrite (IH _ _ _ _ Hr), say_outcome_of].
    case_if; [by rewrite (IH _ _ _ _ Hr), say_outcome_of|].
    destruct (delete_node_rep b ps l n Hr) as (b' & ps' & -> & Hr'); [lia|].
    by rewrite (IH _ _ _ _ Hr'), say_outcome_of. }
  case_if.
  { destruct (ReadString 20 rest) as [query rest'].
    rewrite (SearchCustomers_rep _ _ _ _ Hr). cbn [mbind option_bind].
    by rewrite (IH _ _ _ _ Hr), say_outcome_of. }
  case_if.
  { rewrite (OutputAllCustomers_rep _ _ _ Hr). cbn [mbind option_bind].
    by rewrite (IH _ _ _ _ Hr), say_outcome_of. }
  case_if; [by rewrite (free_all_rep _ _ _ Hr)|].
  by rewrite (IH _ _ _ _ Hr), say_outcome_of.
Qed.

(** ** How much fuel is enough *)

Lemma ReadString_eof size : ReadString size [] = ([], []).
Proof. done. Qed.

Lemma ReadString_length size input : (length (ReadString size input).2 <= length input)%nat.
Proof.
  unfold ReadString. destruct (fgets size input) as [[raw rest]|] eqn:E; simpl; [|lia].
  apply fgets_spec in E as (-> & _). rewrite length_app. lia.
Qed.

Lemma ReadString_progress size input :
  (1 < size)%nat -> input <> [] -> (length (ReadString size input).2 < length input)%nat.
Proof.
  intros Hs Hi. unfold ReadString. destruct (fgets size input) as [[raw rest]|] eqn:E; simpl.
  - by apply (fgets_progress size input raw rest).
  - by destruct input.
Qed.

Lemma read_tel_eof fuel : read_tel fuel [] = None.
Proof. induction fuel as [|k IH]; simpl; [done|]. by rewrite IH. Qed.

(** A phone number that is not found within one turn per byte, and one more, is never
    found. *)
Lemma read_tel_fuel k input r fuel :
  read_tel k input = Some r -> (length input < fuel)%nat -> read_tel fuel input = Some r.
Proof.
  revert input r fuel. induction k as [|k IH]; intros input r fuel; [done|]. intros Hk Hf.
  destruct fuel as [|fuel]; [lia|]. cbn [read_tel] in *.
  destruct (decide (input = [])) as [->|Hne].
  { rewrite ReadString_eof in Hk. simpl in Hk. by rewrite read_tel_eof in Hk. }
  pose proof (ReadString_progress 11 input ltac:(lia) Hne) as Hlt.
  destruct (ReadString 11 input) as [t rest]. simpl in Hlt. case_if; [done|].
  destruct (read_tel k rest) as [[[t' rest'] ms]|] eqn:E; [|done].
  by rewrite (IH _ _ fuel E) by lia.
Qed.

Lemma read_tel_length fuel input t rest ms :
  read_tel fuel input = Some (t, rest, ms) -> (length rest <= length input)%nat.
Proof.
  revert input ms. induction fuel as [|k IH]; intros input ms; simpl; [done|].
  pose proof (ReadString_length 11 input). destruct (ReadString 11 input) as [t' rest']. simpl in *.
  case_if; [by intros [= <- <- <-]|].
  destruct (read_tel k rest') as [[[u v] ms']|] eqn:E; [|done]. intros [= <- <- <-].
  apply IH in E. lia.
Qed.

Lemma read_person_length fuel input x rest ms :
  read_person fuel input = Some (x, rest, ms) -> (length rest <= length input)%nat.
Proof.
  unfold read_person. pose proof (ReadString_length 20 input) as H1.
  destruct (ReadString 20 input) as [n in1]. simpl in H1.
  pose proof (ReadString_length 20 in1) as H2. destruct (ReadString 20 in1) as [s in2]. simpl in H2.
  destruct (read_tel fuel in2) as [[[t in3] ms']|] eqn:E; [|done].
  intros [= <- <- <-]. apply read_tel_length in E. lia.
Qed.

Lemma spec_loop_eof exhausted fuel l : spec_loop exhausted fuel l [] = None.
Proof. revert l. induction fuel as [|k IH]; intros l; [done|]. simpl. by rewrite IH. Qed.

Lemma spec_loop_fuel exhausted k l input out fuel :
  spec_loop exhausted k l input = Some out -> (length input < fuel)%nat ->
  spec_loop exhausted fuel l input = Some out.
Proof.
  revert l input out fuel. induction k as [|k IH]; intros l input out fuel; [done|]. intros Hk Hf.
  destruct fuel as [|fuel]; [lia|].
  destruct (decide (input = [])) as [->|Hne]; [by rewrite spec_loop_eof in Hk|].
  cbn [spec_loop] in *. pose proof (ReadString_progress 16 input ltac:(lia) Hne) as Hlt.
  destruct (ReadString 16 input) as [line rest]. simpl in Hlt.
  assert (Hgo : forall (r : list person * list msg) rest', (length rest' <= length rest)%nat ->
    (o ← spec_loop exhausted k r.1 rest'; Some (r.2 ++ o)) = Some out ->
    (o ← spec_loop exhausted fuel r.1 rest'; Some (r.2 ++ o)) = Some out).
  { intros r rest' Hle H. destruct (spec_loop exhausted k r.1 rest') as [o|] eqn:E; [|done].
    by rewrite (IH _ _ _ fuel E) by lia. }
  destruct (scan_int line) as [choice|]; [|by apply Hgo].
  case_if.
  { case_if; [by apply Hgo|].
    destruct (read_person _ _) as [[[x rest'] ms]|] eqn:E; [|done]. apply read_person_length in E.
    by apply (Hgo (l ++ [x], ms)). }
  case_if.
  { pose proof (ReadString_length 16 rest). destruct (ReadString 16 rest) as [line' rest'].
    destruct (scan_int line') as [n|]; [case_if|]; by apply Hgo. }
  case_if.
  { pose proof (ReadString_length 20 rest). destruct (ReadString 20 rest) as [q rest']. by apply Hgo. }
  case_if; [by apply Hgo|]. case_if; [done|]. by apply Hgo.
Qed.

(** ** A session: a memory of two nodes, two persons added, a third one refused, a search, a
    deletion, a listing and the end *)

Definition demo_exhausted (n : nat) : bool := (2 <=? n)%nat.
Definition demo_malloc (h : heap) : Z :=
  if demo_exhausted (size h) then NULL else fresh ({[NULL]} ∪ dom h : gset Z).

Lemma demo_malloc_ok : malloc_ok demo_exhausted demo_malloc.
Proof.
  intros h. unfold demo_malloc. destruct (demo_exhausted (size h)); [done|].
  pose proof (is_fresh ({[NULL]} ∪ dom h : gset Z)) as Hf. apply not_elem_of_union in Hf as [H1 H2].
  split; [set_solver | by apply not_elem_of_dom].
Qed.

Definition line (s : string) : list byte := lit s ++ [NL].

Definition demo_session : list byte :=
  line "1" ++ line "Ada" ++ line "Lovelace" ++ line "x12" ++ line "1815" ++
  line "1" ++ line "Alan" ++ line "Turing" ++ line "1912" ++ line "1" ++
  line "3" ++ line "ring" ++ line "2" ++ line "1" ++ line "2" ++ line "9" ++ line "4" ++ line "0".

Definition ada : person := mkPerson (lit "Ada") (lit "Lovelace") (lit "1815").
Definition alan : person := mkPerson (lit "Alan") (lit "Turing") (lit "1912").

Definition demo_output : list msg :=
  [DigitsOnly; MallocFailed; Entry 2 alan; Deleted 1; BadPosition; Entry 1 alan].

(** ** Properties *)

(** C14 (refinement).  The phone book is a list of persons.  For every input, the program that
    keeps its records in a doubly linked list of heap nodes behaves as the specification that keeps
    them in a list: a new person goes to the end, a deletion takes out the person at the given
    position, searches and listings print the numbered matches, wrong input changes nothing.  It
    never follows a bad pointer or frees twice, and when it ends every node has been
    freed. *)
Theorem phonebook_refines exhausted malloc fuel input :
  malloc_ok exhausted malloc ->
  main_loop malloc fuel empty_book input =
    match spec_loop exhausted fuel [] input with
    | Some out => Exit ∅ out
    | None => Running
    end.
Proof. intros Hm. apply (main_loop_rep exhausted malloc fuel empty_book [] [] input Hm rep_empty). Qed.

Lemma phonebook_refines_witness :
  main_loop demo_malloc 9 empty_book demo_session = Exit ∅ demo_output.
Proof.
  rewrite (phonebook_refines demo_exhausted demo_malloc 9 demo_session demo_malloc_ok).
  vm_compute. reflexivity.
Defined.

(** One turn of the menu per byte of the input, and one more, decides
    whether the program ends: if it ends at all it has ended by then, with the same
    output; the same holds for the loop that asks for the phone number.  (At the end of the file both
    loops repeat for ever.) *)
Theorem phonebook_fuel_enough exhausted malloc input fuel :
  malloc_ok exhausted malloc -> main_loop malloc fuel empty_book input <> Running ->
  main_loop malloc (S (length input)) empty_book input = main_loop malloc fuel empty_book input /\
  (forall k rest r, read_tel k rest = Some r -> read_tel (S (length rest)) rest = Some r).
Proof.
  intros Hm. rewrite !(main_loop_rep exhausted malloc _ _ [] [] input Hm rep_empty). intros Hrun. split.
  - destruct (spec_loop exhausted fuel [] input) as [out|] eqn:E; [|done].
    by rewrite (spec_loop_fuel _ _ _ _ _ (S (length input)) E) by lia.
  - intros k rest r E. apply (read_tel_fuel k); [done | lia].
Qed.

Lemma phonebook_fuel_enough_witness :
  main_loop demo_malloc (S (length demo_session)) empty_book demo_session =
    main_loop demo_malloc 9 empty_book demo_session.
Proof.
  apply (phonebook_fuel_enough demo_exhausted demo_malloc demo_session 9 demo_malloc_ok).
  vm_compute. discriminate.
Defined.
