(* ===== verification/Exercises.v ===== *)
(** * Bit operations and substring search

    [basic_c/bits_operations/Task1.c] and [basic_c/pointers/Task3_2.c].  The numbers and
    lines [scanf] and [fgets] store are arguments; the output is a string.  The loops over
    the mask and over the characters keep the source's shape, with the fuel proved to be
    enough. *)

From S2P Require Import Prelude CString.

(** ** Bits *)

Definition ZERO : byte := 48.
Definition ONE : byte := 49.

(** [1U << (sizeof(n) * 8 - 1)] *)
Definition TOP_MASK : Z := Z.shiftl 1 31.

(** [for (; mask; mask >>= 1) ...] with the flag [started]; [n & mask] converts [n] to
    [unsigned].  The loop, and the [if (!started)] after it. *)
Fixpoint binary_loop (fuel : nat) (n mask : Z) (started : bool) : option cstr :=
  match fuel with
  | O => None
  | S k =>
      if mask =? 0 then Some (if started then [] else [ZERO])
      else
        let bit := Z.land (u32 n) mask in
        let rest := fun s => binary_loop k n (Z.shiftr mask 1) s in
        if negb (bit =? 0) || started
        then out ← rest true; Some ((if negb (bit =? 0) then ONE else ZERO) :: out)
        else rest started
  end.

Definition printBinary (n : Z) : option cstr := binary_loop 33 n TOP_MASK false.

Inductive reply := NotPositive | NotNegative | Binary (s : cstr) | Ones (s : cstr) (count : Z)
  | Replaced (n : Z) (s : cstr).

Definition printBinaryPositive (n : Z) : option reply :=
  if n <? 0 then Some NotPositive else out ← printBinary n; Some (Binary out).

Definition printBinaryNegative (n : Z) : option reply :=
  if n >=? 0 then Some NotNegative else out ← printBinary n; Some (Binary out).

Fixpoint ones_loop (fuel : nat) (n mask count : Z) : option Z :=
  match fuel with
  | O => None
  | S k =>
      if mask =? 0 then Some count
      else ones_loop k n (Z.shiftr mask 1)
             (if negb (Z.land (u32 n) mask =? 0) then count + 1 else count)
  end.

Definition countOnes (n : Z) : option reply :=
  if n <? 0 then Some NotPositive
  else
    count ← ones_loop 33 n TOP_MASK 0;
    out ← printBinary n;
    Some (Ones out count).

(** [(n & ~mask) | ((unsigned int)newByte << (8 * 2))], converted back to [int]. *)
Definition third_byte (n newByte : Z) : Z :=
  let mask := Z.shiftl 255 16 in
  i32 (Z.lor (Z.land (u32 n) (u32 (Z.lnot mask))) (Z.shiftl newByte 16)).

Definition replaceThirdByte (n newByte : Z) : option reply :=
  if n <? 0 then Some NotPositive
  else
    let n := third_byte n newByte in
    out ← printBinary n;
    Some (Replaced n out).

(** ** Substring search *)

(** The inner loop: the value of [j] when it ends.  [None] is a read outside an array. *)
Fixpoint match_loop (fuel : nat) (str substr : list byte) (i j : Z) : option Z :=
  match fuel with
  | O => None
  | S k =>
      c ← aget substr j;
      if c =? NUL then Some j
      else
        d ← aget str (i + j);
        if negb (d =? c) then Some j else match_loop k str substr i (j + 1)
  end.

(** The outer loop: the index of the result, -1 for [NULL]. *)
Fixpoint find_loop (fuel : nat) (str substr : list byte) (i : Z) : option Z :=
  match fuel with
  | O => None
  | S k =>
      c ← aget str i;
      if c =? NUL then Some (-1)
      else
        j ← match_loop (S (length substr)) str substr i 0;
        e ← aget substr j;
        if e =? NUL then Some i else find_loop k str substr (i + 1)
  end.

Definition FindSubstring (str substr : list byte) : option Z :=
  find_loop (S (length str)) str substr 0.

(** The loops of [main] that cut a line at its newline. *)
Fixpoint cut_loop (fuel : nat) (s : list byte) (i : Z) : option (list byte) :=
  match fuel with
  | O => None
  | S k =>
      c ← aget s i;
      if c =? NUL then Some s else if c =? NL then aset s i NUL else cut_loop k s (i + 1)
  end.

(** What [main] prints: the text from the match on, or nothing. *)
Definition search (string substring : list byte) : option (option cstr) :=
  string ← cut_loop (S (length string)) string 0;
  substring ← cut_loop (S (length substring)) substring 0;
  i ← FindSubstring string substring;
  Some (if i =? -1 then None else Some (c_str (drop (Z.to_nat i) string))).

(** ** Bits: lemmas *)

(** The value of a string of binary digits. *)
Definition bin_val (s : cstr) : Z := foldl (fun v c => v * 2 + (c - ZERO)) 0 s.

(** The number of ones among the [k] lowest bits. *)
Fixpoint popcount (k : nat) (n : Z) : Z :=
  match k with O => 0 | S j => Z.b2z (Z.testbit n (Z.of_nat j)) + popcount j n end.

Lemma mask_positive k : 2 ^ Z.of_nat k =? 0 = false.
Proof. apply Z.eqb_neq. pose proof (Z.pow_pos_nonneg 2 (Z.of_nat k)). lia. Qed.

Lemma mask_shift k : Z.shiftr (2 ^ Z.of_nat (S k)) 1 = 2 ^ Z.of_nat k.
Proof. rewrite Z.shiftr_div_pow2, Nat2Z.inj_succ, Z.pow_succ_r by lia. rewrite Z.pow_1_r, Z.mul_comm. apply Z.div_mul. lia. Qed.

Lemma mask_last : Z.shiftr (2 ^ Z.of_nat 0) 1 = 0.
Proof. reflexivity. Qed.

(** [n & (1 << k)] tests bit [k]. *)
Lemma land_mask n k : negb (Z.land n (2 ^ Z.of_nat k) =? 0) = Z.testbit n (Z.of_nat k).
Proof.
  destruct (Z.testbit n (Z.of_nat k)) eqn:E.
  - apply negb_true_iff, Z.eqb_neq. intros H. apply (f_equal (fun z => Z.testbit z (Z.of_nat k))) in H.
    by rewrite Z.land_spec, E, Z.pow2_bits_true, Z.bits_0 in H by lia.
  - apply negb_false_iff, Z.eqb_eq, Z.bits_inj'. intros j Hj.
    rewrite Z.land_spec, Z.bits_0. destruct (Z.eq_dec j (Z.of_nat k)) as [->|Hne]; [by rewrite E|].
    by rewrite Z.pow2_bits_false, andb_false_r by lia.
Qed.

Lemma mod_pow2_split n k :
  n mod 2 ^ Z.of_nat (S k) = Z.b2z (Z.testbit n (Z.of_nat k)) * 2 ^ Z.of_nat k + n mod 2 ^ Z.of_nat k.
Proof.
  rewrite Z.testbit_spec' by lia. rewrite Nat2Z.inj_succ, Z.pow_succ_r by lia.
  pose proof (Z.pow_pos_nonneg 2 (Z.of_nat k)). rewrite (Z.mul_comm 2), Z.rem_mul_r by lia. lia.
Qed.

Lemma bin_val_from v s : foldl (fun v c => v * 2 + (c - ZERO)) v s = v * 2 ^ Z.of_nat (length s) + bin_val s.
Proof.
  unfold bin_val. revert v. induction s as [|c s IH]; intros v; cbn [foldl length].
  - rewrite Z.pow_0_r. lia.
  - rewrite IH, (IH (0 * 2 + (c - ZERO))), Nat2Z.inj_succ, Z.pow_succ_r by lia. lia.
Qed.

Lemma bin_val_cons c s : bin_val (c :: s) = (c - ZERO) * 2 ^ Z.of_nat (length s) + bin_val s.
Proof. unfold bin_val. cbn [foldl]. rewrite bin_val_from. done. Qed.

Definition binary_digit (c : byte) : Prop := c = ZERO \/ c = ONE.

(** Once started, the loop prints every bit below the mask. *)
Lemma binary_loop_started fuel n k :
  (k < fuel)%nat ->
  exists out, binary_loop (S fuel) n (2 ^ Z.of_nat k) true = Some out /\
    length out = S k /\ Forall binary_digit out /\ bin_val out = u32 n mod 2 ^ Z.of_nat (S k).
Proof.
  revert fuel. induction k as [|k IH]; intros fuel Hk; destruct fuel as [|fuel]; try lia.
  - cbn [binary_loop]. rewrite mask_positive, orb_true_r, mask_last, land_mask, mod_pow2_split.
    rewrite Z.mod_1_r. destruct (Z.testbit _ _); cbn.
    + exists [ONE]. split_and!; [done | done | by repeat constructor; right | done].
    + exists [ZERO]. split_and!; [done | done | by repeat constructor; left | done].
  - cbn [binary_loop]. rewrite mask_positive, orb_true_r, mask_shift, land_mask.
    destruct (IH fuel) as (out & E & Hlen & Hd & Hv); [lia|]. cbn [binary_loop] in E. rewrite E.
    cbn [mbind option_bind]. eexists. split_and!; [done | simpl; lia | |].
    + constructor; [|done]. destruct (Z.testbit _ _); [by right | by left].
    + rewrite bin_val_cons, mod_pow2_split, Hv, Hlen. by destruct (Z.testbit _ _).
Qed.

(** Before, it skips the zeros above the highest one; a number without ones gives "0". *)
Lemma binary_loop_waiting fuel n k :
  (k < fuel)%nat ->
  exists out, binary_loop (S fuel) n (2 ^ Z.of_nat k) false = Some out /\
    Forall binary_digit out /\ bin_val out = u32 n mod 2 ^ Z.of_nat (S k) /\
    (out = [ZERO] \/ hd ZERO out = ONE).
Proof.
  revert fuel. induction k as [|k IH]; intros fuel Hk; destruct fuel as [|fuel]; try lia.
  - cbn [binary_loop]. rewrite mask_positive, orb_false_r, mask_last, land_mask, mod_pow2_split.
    rewrite Z.mod_1_r. destruct (Z.testbit _ _); cbn.
    + exists [ONE]. split_and!; [done | by repeat constructor; right | done | by right].
    + exists [ZERO]. split_and!; [done | by repeat constructor; left | done | by left].
  - cbn [binary_loop]. rewrite mask_positive, orb_false_r, mask_shift, land_mask, mod_pow2_split.
    destruct (Z.testbit _ _); cbn [Z.b2z].
    + destruct (binary_loop_started fuel n k) as (out & E & Hlen & Hd & Hv); [lia|].
      cbn [binary_loop] in E. rewrite E. cbn [mbind option_bind]. exists (ONE :: out).
      split_and!; [done | by apply Forall_cons_2; [right|] | by rewrite bin_val_cons, Hv, Hlen | by right].
    + destruct (IH fuel) as (out & E & Hd & Hv & Hh); [lia|]. cbn [binary_loop] in E. rewrite E.
      by exists out.
Qed.

Lemma printBinary_spec n :
  exists out, printBinary n = Some out /\ Forall binary_digit out /\ bin_val out = u32 n /\
    (out = [ZERO] \/ hd ZERO out = ONE).
Proof.
  destruct (binary_loop_waiting 32 n 31) as (out & E & Hd & Hv & Hh); [lia|].
  exists out. split_and!; try done. rewrite Hv. unfold u32. by rewrite Z.mod_mod.
Qed.

Lemma ones_loop_spec fuel n k count :
  (k < fuel)%nat ->
  ones_loop (S fuel) n (2 ^ Z.of_nat k) count = Some (count + popcount (S k) (u32 n)).
Proof.
  revert fuel count. induction k as [|k IH]; intros fuel count Hk; destruct fuel as [|fuel]; try lia.
  - cbn [ones_loop]. rewrite mask_positive, mask_last, land_mask. cbn [popcount ones_loop Z.eqb].
    f_equal. destruct (Z.testbit _ _); cbn; lia.
  - cbn [ones_loop]. rewrite mask_positive, mask_shift, land_mask.
    specialize (IH fuel). cbn [ones_loop] in IH. rewrite IH by lia.
    cbn [popcount]. f_equal. destruct (Z.testbit _ _); cbn [Z.b2z]; lia.
Qed.

Lemma popcount_ext k n m :
  (forall j, 0 <= j < Z.of_nat k -> Z.testbit n j = Z.testbit m j) -> popcount k n = popcount k m.
Proof.
  induction k as [|k IH]; intros H; [done|]. cbn [popcount].
  rewrite H, IH by lia || (intros; apply H; lia). done.
Qed.

Lemma u32_small n : 0 <= n <= INT_MAX -> u32 n = n.
Proof. unfold u32, INT_MAX. intros. apply Z.mod_small. lia. Qed.

(** The bits of a number written with a new third byte. *)
Lemma third_byte_bits n b j :
  0 <= n <= INT_MAX -> 0 <= b <= 255 -> 0 <= j ->
  Z.testbit (Z.lor (Z.land n (u32 (Z.lnot (Z.shiftl 255 16)))) (Z.shiftl b 16)) j =
    if (16 <=? j) && (j <? 24) then Z.testbit b (j - 16) else Z.testbit n j.
Proof.
  intros Hn Hb Hj. unfold u32. change 4294967296 with (2 ^ 32). change 255 with (Z.ones 8).
  rewrite Z.lor_spec, Z.land_spec, Z.shiftl_spec by lia.
  assert (Hbits : forall z k p, 0 <= z < 2 ^ k -> k <= p -> Z.testbit z p = false).
  { intros z k p Hz Hkp. destruct (Z.eq_dec z 0) as [->|]; [apply Z.bits_0|].
    apply Z.bits_above_log2; [lia|]. enough (Z.log2 z < k) by lia. apply Z.log2_lt_pow2; lia. }
  assert (Hnj : 32 <= j -> Z.testbit n j = false).
  { intros. apply (Hbits _ 31); [unfold INT_MAX in *; lia | lia]. }
  destruct (Z.ltb_spec j 32).
  - rewrite Z.mod_pow2_bits_low, Z.lnot_spec, Z.shiftl_spec by lia.
    destruct (Z.leb_spec 16 j); simpl.
    + destruct (Z.ltb_spec j 24).
      * rewrite Z.ones_spec_low by lia. by rewrite andb_false_r.
      * rewrite Z.ones_spec_high by lia. rewrite (Hbits b 8) by lia. by rewrite andb_true_r, orb_false_r.
    + rewrite !(Z.testbit_neg_r _ (j - 16)) by lia. by rewrite andb_true_r, orb_false_r.
  - rewrite Hnj by done. rewrite (Hbits b 8) by lia.
    replace (j <? 24) with false by lia. by rewrite andb_false_r.
Qed.

Lemma third_byte_spec n b :
  0 <= n <= INT_MAX -> 0 <= b <= 255 ->
  0 <= third_byte n b <= INT_MAX /\
  forall j, 0 <= j -> Z.testbit (third_byte n b) j =
    if (16 <=? j) && (j <? 24) then Z.testbit b (j - 16) else Z.testbit n j.
Proof.
  intros Hn Hb. unfold third_byte. rewrite (u32_small n) by done.
  pose proof (fun j => third_byte_bits n b j Hn Hb) as Hbits.
  set (r := Z.lor _ _) in *.
  assert (Hr : r = r mod 2 ^ 31).
  { apply Z.bits_inj'. intros j Hj. destruct (Z.ltb_spec j 31).
    - by rewrite Z.mod_pow2_bits_low by lia.
    - rewrite Z.mod_pow2_bits_high by lia. rewrite Hbits by lia.
      replace (j <? 24) with false by lia. rewrite andb_false_r.
      destruct (Z.eq_dec n 0) as [->|]; [apply Z.bits_0|]. apply Z.bits_above_log2; [lia|].
      enough (Z.log2 n < 31) by lia. apply Z.log2_lt_pow2; unfold INT_MAX in *; lia. }
  pose proof (Z.mod_pos_bound r (2 ^ 31)) as Hpos.
  assert (i32 r = r) as -> by (unfold i32; rewrite Z.mod_small; lia).
  split; [unfold INT_MAX; lia | done].
Qed.

(** ** Substring search: lemmas *)

(** The length of the longest common prefix. *)
Fixpoint lcp (s t : cstr) : nat :=
  match s, t with
  | c :: s', d :: t' => if c =? d then S (lcp s' t') else 0
  | _, _ => 0
  end.

Lemma lcp_prefixb s t : prefixb t s = (lcp s t =? length t)%nat.
Proof.
  revert s. induction t as [|d t IH]; intros [|c s]; simpl; try done.
  rewrite (Z.eqb_sym d c). destruct (c =? d); simpl; [apply IH | done].
Qed.

Lemma lcp_le s t : (lcp s t <= length t)%nat.
Proof. revert s. induction t as [|d t IH]; intros [|c s]; simpl; try lia. case_if; [|lia]. pose proof (IH s). lia. Qed.

(** A buffer that holds the string [s]. *)
Definition holds (buf : list byte) (s : cstr) : Prop :=
  Forall (fun c => c <> NUL) s /\ exists junk, buf = s ++ NUL :: junk.

Lemma holds_get buf s i :
  holds buf s -> (i <= length s)%nat -> aget buf (Z.of_nat i) = Some (default NUL (s !! i)).
Proof.
  intros [_ [junk ->]] Hi. unfold aget. rewrite (proj2 (Z.leb_le _ _)) by lia. rewrite Nat2Z.id.
  destruct (decide (i = length s)) as [->|].
  - rewrite list_lookup_middle by done. by rewrite lookup_ge_None_2.
  - rewrite lookup_app_l by lia. destruct (lookup_lt_is_Some_2 s i) as [c Hc]; [lia|]. by rewrite Hc.
Qed.

Lemma holds_nonzero buf s i c : holds buf s -> s !! i = Some c -> c <> NUL.
Proof. intros [H _] Hc. by eapply Forall_lookup_1 in H. Qed.

Lemma match_loop_spec fuel str substr s t i j :
  holds str s -> holds substr t -> (i + j <= length s)%nat -> (j <= length t)%nat ->
  (length t < j + fuel)%nat ->
  match_loop fuel str substr (Z.of_nat i) (Z.of_nat j) =
    Some (Z.of_nat (j + lcp (drop (i + j) s) (drop j t))).
Proof.
  intros Hs Ht. revert j. induction fuel as [|k IH]; intros j Hi Hj Hk; [lia|]. cbn [match_loop].
  rewrite (holds_get _ t) by done. cbn [mbind option_bind].
  destruct (t !! j) as [c|] eqn:Hc; cbn [default from_option id].
  - rewrite (proj2 (Z.eqb_neq c NUL)) by by eapply holds_nonzero.
    rewrite <- Nat2Z.inj_add, (holds_get _ s) by done. rewrite (drop_S t c j Hc).
    cbn [mbind option_bind]. destruct (s !! (i + j)%nat) as [d|] eqn:Hd; cbn [default from_option id].
    + rewrite (drop_S s d _ Hd). cbn [lcp]. destruct (d =? c); cbn [negb]; [|f_equal; lia].
      pose proof (lookup_lt_Some _ _ _ Hd). pose proof (lookup_lt_Some _ _ _ Hc).
      replace (Z.of_nat j + 1) with (Z.of_nat (S j)) by lia. rewrite IH by lia.
      replace (i + S j)%nat with (S (i + j)) by lia. do 2 f_equal. lia.
    + rewrite (proj2 (Z.eqb_neq NUL c)) by (intros <-; by eapply holds_nonzero in Hc).
      rewrite drop_ge by by apply lookup_ge_None. simpl. f_equal. lia.
  - apply lookup_ge_None in Hc. rewrite (drop_ge t) by lia. destruct (drop (i + j) s); simpl; f_equal; lia.
Qed.

Lemma find_loop_spec fuel str substr s t i :
  holds str s -> holds substr t -> (i <= length s)%nat -> (length s < i + fuel)%nat ->
  (i < length s)%nat \/ t <> [] ->
  find_loop fuel str substr (Z.of_nat i) =
    Some (match strstr_from i (drop i s) t with Some k => Z.of_nat k | None => -1 end).
Proof.
  intros Hs Ht. revert i. induction fuel as [|k IH]; intros i Hi Hk Hne; [lia|]. cbn [find_loop].
  rewrite (holds_get _ s) by done. cbn [mbind option_bind].
  destruct (s !! i) as [c|] eqn:Hc; cbn [default from_option id].
  - rewrite (proj2 (Z.eqb_neq c NUL)) by by eapply (holds_nonzero _ s i).
    change 0 with (Z.of_nat 0).
    rewrite (match_loop_spec _ str substr s t i 0) by
      (try done; destruct Ht as [_ [junk ->]]; rewrite ?length_app; lia).
    rewrite Nat.add_0_r, drop_0. cbn [mbind option_bind plus].
    pose proof (lcp_le (drop i s) t) as Hle. rewrite (holds_get _ t) by done. cbn [mbind option_bind].
    pose proof (lcp_prefixb (drop i s) t) as Hp. pose proof (lookup_lt_Some _ _ _ Hc).
    destruct (t !! lcp (drop i s) t) as [d|] eqn:Hd; cbn [default from_option id].
    + rewrite (proj2 (Z.eqb_neq d NUL)) by by eapply (holds_nonzero _ t).
      apply lookup_lt_Some in Hd. rewrite (proj2 (Nat.eqb_neq _ _)) in Hp by lia.
      rewrite (drop_S s c i Hc) in *. cbn [strstr_from]. rewrite Hp.
      replace (Z.of_nat i + 1) with (Z.of_nat (S i)) by lia. apply IH; [lia..|].
      right. intros ->. simpl in Hd. lia.
    + apply lookup_ge_None in Hd. rewrite (proj2 (Nat.eqb_eq _ _)) in Hp by lia.
      rewrite (drop_S s c i Hc) in *. cbn [strstr_from]. by rewrite Hp.
  - apply lookup_ge_None in Hc. rewrite drop_ge by lia. cbn [strstr_from].
    destruct t as [|d t]; [destruct Hne; [lia | done]|]. done.
Qed.

Lemma cut_loop_spec fuel buf s i :
  holds buf s -> (i <= length s)%nat -> (length s < i + fuel)%nat ->
  Forall (fun c => c <> NL) (take i s) ->
  exists buf', cut_loop fuel buf (Z.of_nat i) = Some buf' /\ holds buf' (chop_newline s) /\
    length buf' = length buf.
Proof.
  intros Hb. revert i. induction fuel as [|k IH]; intros i Hi Hk Hpre; [lia|]. cbn [cut_loop].
  rewrite (holds_get _ s) by done. cbn [mbind option_bind].
  destruct (s !! i) as [c|] eqn:Hc; cbn [default from_option id].
  - rewrite (proj2 (Z.eqb_neq c NUL)) by by eapply (holds_nonzero _ s i).
    pose proof (lookup_lt_Some _ _ _ Hc).
    destruct (Z.eqb_spec c NL) as [->|Hn].
    + destruct Hb as [Hnz [junk ->]].
      rewrite aset_is_Some by (rewrite length_app; simpl; lia). eexists. split_and!; [done| |].
      * rewrite Nat2Z.id, insert_app_l by lia.
        assert (chop_newline s = take i s) as ->.
        { unfold chop_newline. rewrite <- (take_drop_middle s i NL Hc) at 1.
          rewrite take_while_app_all; [simpl; by rewrite app_nil_r|].
          eapply Forall_impl; [done|]. intros c Hcn. by apply negb_true_iff, Z.eqb_neq. }
        split; [by apply Forall_take|]. exists (drop (S i) s ++ NUL :: junk).
        rewrite insert_take_drop by lia. by rewrite <- app_assoc.
      * by rewrite length_insert.
    + replace (Z.of_nat i + 1) with (Z.of_nat (S i)) by lia. apply IH; [lia..|].
      rewrite (take_S_r s i c Hc). by apply Forall_app_2; [|constructor].
  - apply lookup_ge_None in Hc. exists buf. split_and!; [done| |done].
    rewrite take_ge in Hpre by lia.
    unfold chop_newline. rewrite take_while_all; [done|].
    eapply Forall_impl; [done|]. intros c Hcn. by apply negb_true_iff, Z.eqb_neq.
Qed.

Lemma c_str_holds buf s k : holds buf s -> (k <= length s)%nat -> c_str (drop k buf) = drop k s.
Proof.
  intros [Hs [junk ->]] Hk. rewrite drop_app_le by done. unfold c_str.
  rewrite take_while_app_all; [simpl; by rewrite app_nil_r|].
  apply Forall_drop. eapply Forall_impl; [done|]. intros c Hc. by apply negb_true_iff, Z.eqb_neq.
Qed.

Lemma strstr_from_bound i s t k : strstr_from i s t = Some k -> (i <= k <= i + length s)%nat.
Proof.
  revert i. induction s as [|c s IH]; intros i; simpl.
  - case_if; [|done]. intros [= <-]. lia.
  - case_if; [intros [= <-]; lia|]. intros H%IH. lia.
Qed.

Lemma FindSubstring_spec str substr s t :
  holds str s -> holds substr t ->
  FindSubstring str substr =
    Some (if bool_decide (s = []) then -1
          else match strstr s t with Some k => Z.of_nat k | None => -1 end).
Proof.
  intros Hs Ht. unfold FindSubstring. case_bool_decide as He.
  - subst s. destruct Hs as [_ [junk ->]]. done.
  - change 0 with (Z.of_nat 0). apply (find_loop_spec _ str substr s t 0); try done; [lia| |left; destruct s; [done | simpl; lia]].
    destruct Hs as [_ [junk ->]]. rewrite length_app. lia.
Qed.

(** ** Properties *)

(** The bit exercises.  For every [int] that is not negative, the binary
    form that is printed consists of binary digits, has the value of the number and no leading
    zero (except for 0 itself); the count of ones is the number of bits that are set; and replacing
    the third byte gives an [int] that has the new byte in bits 16 to 23 and every other bit as
    before.  A negative [int] is printed as its 32-bit two's complement pattern. *)
Theorem bit_exercises_correct n b :
  0 <= n <= INT_MAX -> 0 <= b <= 255 ->
  exists out,
    printBinaryPositive n = Some (Binary out) /\
    countOnes n = Some (Ones out (popcount 32 n)) /\
    Forall binary_digit out /\ bin_val out = n /\ (out = [ZERO] \/ hd ZERO out = ONE) /\
  exists r out',
    replaceThirdByte n b = Some (Replaced r out') /\ bin_val out' = r /\ 0 <= r <= INT_MAX /\
    (forall j, 0 <= j -> Z.testbit r j =
       if (16 <=? j) && (j <? 24) then Z.testbit b (j - 16) else Z.testbit n j) /\
  exists out'',
    printBinaryNegative (- n - 1) = Some (Binary out'') /\ bin_val out'' = 2 ^ 32 - n - 1.
Proof.
  intros Hn Hb. destruct (printBinary_spec n) as (out & E & Hd & Hv & Hh).
  destruct (third_byte_spec n b Hn Hb) as [Hr Hbits].
  destruct (printBinary_spec (third_byte n b)) as (out' & E' & _ & Hv' & _).
  destruct (printBinary_spec (- n - 1)) as (out'' & E'' & _ & Hv'' & _).
  rewrite u32_small in Hv, Hv' by done.
  unfold printBinaryPositive, countOnes, replaceThirdByte, printBinaryNegative.
  rewrite (proj2 (Z.ltb_ge n 0)) by lia. replace (- n - 1 >=? 0) with false by lia.
  rewrite E, E', E''. change TOP_MASK with (2 ^ Z.of_nat 31).
  rewrite (ones_loop_spec 32 n 31 0), u32_small by lia. cbn [mbind option_bind].
  exists out. split_and!; [done..|]. exists (third_byte n b), out'. split_and!; [done | done | lia | lia | done |].
  exists out''. split; [done|]. rewrite Hv''. unfold u32, INT_MAX in *.
  rewrite <- (Z.mod_add _ 1), Z.mod_small; lia.
Qed.

Lemma bit_exercises_correct_witness :
  exists out, printBinaryPositive 305419896 = Some (Binary out) /\ bin_val out = 305419896 /\
    replaceThirdByte 305419896 255 = Some (Replaced 318723704 (lit "10010111111110101011001111000")) .
Proof.
  destruct (bit_exercises_correct 305419896 255) as (out & E & _ & _ & Hv & _);
    [split; vm_compute; discriminate | split; vm_compute; discriminate |].
  exists out. split_and!; [exact E | exact Hv | vm_compute; reflexivity].
Defined.

(** The hand-written search agrees with [strstr]: for any two input lines
    in their buffers, whatever follows them there, the program reads nothing outside the buffers
    and reports the text from the first occurrence of the second line in the first one on, or that there is
    none; only for an empty first line it reports none where [strstr] would find the empty
    string. *)
Theorem search_is_strstr string substring s t :
  holds string s -> holds substring t ->
  search string substring =
    Some (if bool_decide (chop_newline s = []) then None
          else (fun k => drop k (chop_newline s)) <$> strstr (chop_newline s) (chop_newline t)).
Proof.
  intros Hs Ht. unfold search.
  destruct (cut_loop_spec (S (length string)) string s 0) as (b1 & E1 & Hb1 & _);
    [done | lia | destruct Hs as [_ [junk ->]]; rewrite length_app; lia | done |].
  destruct (cut_loop_spec (S (length substring)) substring t 0) as (b2 & E2 & Hb2 & _);
    [done | lia | destruct Ht as [_ [junk ->]]; rewrite length_app; lia | done |].
  change (Z.of_nat 0) with 0 in *. rewrite E1, E2. cbn [mbind option_bind].
  rewrite (FindSubstring_spec _ _ _ _ Hb1 Hb2). cbn [mbind option_bind].
  case_bool_decide; [done|]. unfold strstr.
  destruct (strstr_from 0 _ _) as [k|] eqn:E; [|done]. apply strstr_from_bound in E.
  rewrite (proj2 (Z.eqb_neq _ _)) by lia. rewrite Nat2Z.id. simpl. by rewrite (c_str_holds _ (chop_newline s)) by (done || lia).
Qed.

Lemma search_is_strstr_witness :
  search (lit "embedded" ++ [NL; NUL; 7]) (lit "bed" ++ [NUL]) = Some (Some (lit "bedded")).
Proof.
  rewrite (search_is_strstr _ _ (lit "embedded" ++ [NL]) (lit "bed")).
  - vm_compute. reflexivity.
  - split; [repeat constructor; discriminate | exists [7]; reflexivity].
  - split; [repeat constructor; discriminate | exists []; reflexivity].
Defined.
