(* ===== verification/Arrays.v ===== *)
(** * Array and pointer exercises

    [basic_c/arrays/Task2.c] (the four matrices and lists, for any size [N] where the
    program has 5) and [ChangeThirdByte] and [ArrayViaPointers] of
    [basic_c/pointers/Task3_1.c].  A function gives the numbers it prints, row by row. *)

From S2P Require Import Prelude.

(** [for (int i = 0; i < n; i++)] *)
Definition loop {A} (n : nat) (f : Z -> A) : list A := (fun i => f (Z.of_nat i)) <$> seq 0 n.

(** ** Task2.c *)

(** The inner loop fills a row, the outer one goes on with the value reached. *)
Fixpoint square_row (cols : nat) (val : Z) : list Z * Z :=
  match cols with
  | O => ([], val)
  | S c => let '(row, val') := square_row c (val + 1) in (val :: row, val')
  end.
Fixpoint square_rows (rows cols : nat) (val : Z) : list (list Z) :=
  match rows with
  | O => []
  | S r => let '(row, val') := square_row cols val in row :: square_rows r cols val'
  end.
Definition SquareMatrixOfN (n : nat) : list (list Z) := square_rows n n 1.

Definition ReverseArrayOutput (n : nat) : option (list Z) :=
  let array := loop n (fun i => i + 1) in
  mapM (fun i => aget array (Z.of_nat n - i - 1)) (loop n id).

Definition TriangleMatrix (n : nat) : list (list Z) :=
  loop n (fun i => loop n (fun j => if i + j >=? Z.of_nat n - 1 then 1 else 0)).

Definition MyAbs (x : Z) : Z := if x <? 0 then - x else x.

(** The body of the main block of [SnailMatrix]; C's [/] and [%] are [Z.quot] and
    [Z.rem]. *)
Definition snail_cell (N ik jk : Z) : Z :=
  let i := ik + 1 in
  let j := jk + 1 in
  let switcher := Z.quot (j - i + N) N in
  let Ic := MyAbs (i - Z.quot N 2 - 1) + Z.quot (i - 1) (Z.quot N 2) * Z.rem (N - 1) 2 in
  let Jc := MyAbs (j - Z.quot N 2 - 1) + Z.quot (j - 1) (Z.quot N 2) * Z.rem (N - 1) 2 in
  let ring := Z.quot N 2 - Z.quot (MyAbs (Ic - Jc) + Ic + Jc) 2 in
  let Xs := i - ring + j - ring - 1 in
  let coef := 4 * ring * (N - ring) in
  coef + switcher * Xs + MyAbs (switcher - 1) * (4 * (N - 2 * ring) - 2 - Xs).

Definition SnailMatrix (n : nat) : list (list Z) :=
  loop n (fun ik => loop n (fun jk => snail_cell (Z.of_nat n) ik jk)).

(** ** Task3_1.c *)

(** The bytes of an [int] on a little-endian machine, and back. *)
Definition int_bytes (n : Z) : list Z :=
  let u := u32 n in [u mod 256; u / 256 mod 256; u / 65536 mod 256; u / 16777216].
Definition of_bytes (b : list Z) : Z :=
  match b with [b0; b1; b2; b3] => i32 (b0 + 256 * b1 + 65536 * b2 + 16777216 * b3) | _ => 0 end.

(** [printf("%u ", ptr[i])] of a [char], which is signed. *)
Definition print_char_u (c : Z) : Z := if c <? 128 then c else u32 (c - 256).

(** [ptr[2] = x]: the number and the four bytes printed. *)
Definition ChangeThirdByte (n x : Z) : Z * list Z :=
  let b := <[2%nat := u8 x]> (int_bytes n) in (of_bytes b, print_char_u <$> b).

Fixpoint through_pointer (arr : list Z) (ptr : Z) (n : nat) : option (list Z) :=
  match n with
  | O => Some []
  | S n' => x ← aget arr ptr; rest ← through_pointer arr (ptr + 1) n'; Some (x :: rest)
  end.
Definition ArrayViaPointers : option (list Z) := through_pointer [1; 2; 3; 4; 5; 6; 7; 8; 9; 10] 0 10.

(** ** The spiral *)

(** The number a walk along the border of an [n] by [n] square, clockwise from the top left
    corner and then on into the square inside it, gives to the cell of row [i] and column [j], when it begins
    with [start]. *)
Fixpoint spiral (fuel : nat) (n start i j : Z) : Z :=
  match fuel with
  | O => 0
  | S fuel' =>
      if i =? 0 then start + j
      else if j =? n - 1 then start + (n - 1) + i
      else if i =? n - 1 then start + 3 * (n - 1) - j
      else if j =? 0 then start + 4 * (n - 1) - i
      else spiral fuel' (n - 2) (start + 4 * (n - 1)) (i - 1) (j - 1)
  end.

(** ** Lemmas *)

(** How far a cell is from the border. *)
Definition depth (N i j : Z) : Z := Z.min (Z.min i j) (Z.min (N - 1 - i) (N - 1 - j)).

(** The distance of a row or column from the middle as the code measures it. *)
Lemma centre_distance N i : 2 <= N -> 0 <= i < N ->
  MyAbs (i + 1 - Z.quot N 2 - 1) + Z.quot (i + 1 - 1) (Z.quot N 2) * Z.rem (N - 1) 2
  = Z.quot N 2 - Z.min i (N - 1 - i).
Proof.
  intros HN Hi. rewrite Z.quot_div_nonneg, Z.rem_mod_nonneg by lia.
  pose proof (Z.div_mod N 2 ltac:(lia)) as HD. pose proof (Z.mod_pos_bound N 2 ltac:(lia)) as HM.
  set (h := N / 2) in *. assert (1 <= h) by lia.
  rewrite Z.quot_div_nonneg by lia. replace (i + 1 - 1) with i by lia.
  unfold MyAbs. destruct (decide (N mod 2 = 0)) as [He|He].
  - assert ((N - 1) mod 2 = 1) as -> by (symmetry; apply (Z.mod_unique _ _ (h - 1)); lia).
    destruct (decide (i < h)).
    + rewrite (Z.div_small i h) by lia. case_ifs.
    + assert (i / h = 1) as -> by (symmetry; apply (Z.div_unique _ _ _ (i - h)); lia). case_ifs.
  - assert ((N - 1) mod 2 = 0) as -> by (symmetry; apply (Z.mod_unique _ _ h); lia). case_ifs.
Qed.

Lemma half_max a b : 0 <= a -> 0 <= b -> Z.quot (MyAbs (a - b) + a + b) 2 = Z.max a b.
Proof.
  intros Ha Hb. unfold MyAbs. rewrite Z.quot_div_nonneg by case_ifs. symmetry.
  apply (Z.div_unique _ _ _ 0); case_ifs.
Qed.

(** The formula of the code in terms of the distance to the border. *)
Lemma snail_cell_ring N i j : 2 <= N -> 0 <= i < N -> 0 <= j < N ->
  snail_cell N i j =
    let r := depth N i j in
    4 * r * (N - r) +
    (if i <=? j then i + j + 1 - 2 * r else 4 * (N - 2 * r) - 2 - (i + j + 1 - 2 * r)).
Proof.
  intros HN Hi Hj. unfold snail_cell. rewrite !centre_distance by lia.
  assert (0 <= Z.quot N 2) by (apply Z.quot_pos; lia).
  assert (forall k, 0 <= k < N -> 0 <= Z.quot N 2 - Z.min k (N - 1 - k)) as Hc.
  { intros k Hk. rewrite Z.quot_div_nonneg by lia. pose proof (Z.div_mod N 2 ltac:(lia)).
    pose proof (Z.mod_pos_bound N 2 ltac:(lia)). lia. }
  rewrite half_max by (apply Hc; lia).
  assert (Z.quot N 2 - Z.max (Z.quot N 2 - Z.min i (N - 1 - i)) (Z.quot N 2 - Z.min j (N - 1 - j)) = depth N i j)
    as -> by (unfold depth; lia).
  set (r := depth N i j). rewrite Z.quot_div_nonneg by lia.
  destruct (i <=? j) eqn:E; bool_to_prop.
  - assert ((j + 1 - (i + 1) + N) / N = 1) as -> by (symmetry; apply (Z.div_unique _ _ _ (j - i)); lia).
    change (MyAbs (1 - 1)) with 0. lia.
  - rewrite (Z.div_small _ N) by lia. change (MyAbs (0 - 1)) with 1. lia.
Qed.

Lemma spiral_ring fuel N start i j :
  1 <= N -> 0 <= i < N -> 0 <= j < N -> depth N i j < Z.of_nat fuel ->
  spiral fuel N start i j =
    let r := depth N i j in
    start - 1 + 4 * r * (N - r) +
    (if i <=? j then i + j + 1 - 2 * r else 4 * (N - 2 * r) - 2 - (i + j + 1 - 2 * r)).
Proof.
  revert N start i j. induction fuel as [|fuel IH]; intros N start i j HN Hi Hj Hf.
  { unfold depth in Hf. lia. }
  cbn [spiral]. cbv zeta.
  assert (depth N i j = 0 -> start - 1 + 4 * depth N i j * (N - depth N i j) +
    (if i <=? j then i + j + 1 - 2 * depth N i j
     else 4 * (N - 2 * depth N i j) - 2 - (i + j + 1 - 2 * depth N i j))
    = start - 1 + (if i <=? j then i + j + 1 else 4 * N - 2 - (i + j + 1))) as Hborder.
  { intros ->. case_ifs. }
  destruct (i =? 0) eqn:E1; bool_to_prop; [rewrite Hborder by (unfold depth; lia); case_ifs|].
  destruct (j =? N - 1) eqn:E2; bool_to_prop; [rewrite Hborder by (unfold depth; lia); case_ifs|].
  destruct (i =? N - 1) eqn:E3; bool_to_prop; [rewrite Hborder by (unfold depth; lia); case_ifs|].
  destruct (j =? 0) eqn:E4; bool_to_prop; [rewrite Hborder by (unfold depth; lia); case_ifs|].
  assert (depth (N - 2) (i - 1) (j - 1) = depth N i j - 1) as Hd by (unfold depth; lia).
  rewrite IH by lia. cbv zeta. rewrite Hd. set (r := depth N i j).
  assert (4 * (r - 1) * (N - 2 - (r - 1)) = 4 * r * (N - r) - 4 * (N - 1)) as -> by ring.
  assert ((i - 1 <=? j - 1) = (i <=? j)) as -> by lia. case_ifs.
Qed.

Lemma loop_lookup {A} n (f : Z -> A) i : (i < n)%nat -> loop n f !! i = Some (f (Z.of_nat i)).
Proof. intros Hi. unfold loop. by rewrite list_lookup_fmap, lookup_seq_lt. Qed.

(** ** Properties *)

(** C39 (equivalence).  The formula of [SnailMatrix] is the spiral.  For every size from 2 on the
    number the formula puts into a cell is the one a clockwise walk from the top left
    corner, border by border inwards, counts there. *)
Theorem snail_is_spiral n i j :
  (2 <= n)%nat -> (i < n)%nat -> (j < n)%nat ->
  exists row, SnailMatrix n !! i = Some row /\ length row = n /\
    row !! j = Some (spiral n (Z.of_nat n) 1 (Z.of_nat i) (Z.of_nat j)).
Proof.
  intros Hn Hi Hj. unfold SnailMatrix. rewrite loop_lookup by done. eexists. split_and!; [done | |].
  - unfold loop. by rewrite length_fmap, length_seq.
  - rewrite loop_lookup by done. f_equal. rewrite snail_cell_ring by lia.
    rewrite spiral_ring by (unfold depth; lia). cbv zeta. lia.
Qed.

Lemma snail_is_spiral_witness :
  SnailMatrix 5 = [[1; 2; 3; 4; 5]; [16; 17; 18; 19; 6]; [15; 24; 25; 20; 7]; [14; 23; 22; 21; 8]; [13; 12; 11; 10; 9]] /\
  exists row, SnailMatrix 5 !! 2%nat = Some row /\ length row = 5%nat /\ row !! 3%nat = Some (spiral 5 5 1 2 3).
Proof. split; [reflexivity|]. apply (snail_is_spiral 5 2 3); lia. Defined.

(** The other functions of the exercises. *)
Lemma reverse_array_output n :
  ReverseArrayOutput n = Some (reverse (loop n (fun i => i + 1))).
Proof.
  unfold ReverseArrayOutput. apply mapM_Some_2, Forall2_same_length_lookup_2.
  - rewrite length_reverse. unfold loop. by rewrite !length_fmap, length_seq.
  - intros i x y Hx Hy. pose proof (lookup_lt_Some _ _ _ Hx) as Hi. unfold loop in Hi.
    rewrite length_fmap, length_seq in Hi. rewrite loop_lookup in Hx by done. injection Hx as <-.
    rewrite reverse_lookup in Hy by (unfold loop; by rewrite length_fmap, length_seq).
    unfold loop in Hy at 1. rewrite length_fmap, length_seq in Hy. unfold aget.
    rewrite (proj2 (Z.leb_le _ _)) by (unfold id; lia). rewrite <- Hy. f_equal. unfold id. lia.
Qed.

Lemma triangle_matrix n i j : (i < n)%nat -> (j < n)%nat ->
  exists row, TriangleMatrix n !! i = Some row /\
    row !! j = Some (if (n - 1 <=? i + j)%nat then 1 else 0).
Proof.
  intros Hi Hj. unfold TriangleMatrix. rewrite loop_lookup by done. eexists. split; [done|].
  rewrite loop_lookup by done. f_equal.
  assert ((Z.of_nat i + Z.of_nat j >=? Z.of_nat n - 1) = (n - 1 <=? i + j)%nat) as ->; [|done].
  apply Bool.eq_iff_eq_true. rewrite Z.geb_le, Nat.leb_le. lia.
Qed.

Lemma array_via_pointers : ArrayViaPointers = Some [1; 2; 3; 4; 5; 6; 7; 8; 9; 10].
Proof. reflexivity. Qed.
