(* ===== verification/Shell.v ===== *)
(** * The shell with pipelines and redirections

    [pipes/bash_equivalent/src/main.c].  A process has a table of descriptors; [pipe] and
    [open] take the lowest free numbers, [fork] copies the table.  Whether [fork] succeeds
    and which files can be opened are parameters.  The result of a line is the list of the
    programs it starts: the arguments and the descriptors each of them gets. *)

From S2P Require Import Prelude CString.

Definition MAX_LINE : nat := 1024.
Definition MAX_ARGS : nat := 64.
Definition BAR : byte := 124.

(** ** Parsing *)

(** [args[i] = strtok(...)] in the loop of [parse_input]: the array up to its [NULL]. *)
Fixpoint args_loop (room : nat) (tok : option (cstr * cstr)) : list cstr :=
  match room, tok with
  | S r, Some (a, rest) => a :: args_loop r (strtok [SP; NL] rest)
  | _, _ => []
  end.

Definition parse_input (input : cstr) : list cstr := args_loop (MAX_ARGS - 1) (strtok [SP; NL] input).

(** The loop of [parse_pipeline] with its growing array. *)
Fixpoint commands_loop (fuel : nat) (capacity : nat) (commands : list cstr)
  (token : option (cstr * cstr)) : option (list cstr * nat) :=
  match fuel with
  | O => None
  | S k =>
      match token with
      | None => Some (commands, capacity)
      | Some (t, rest) =>
          let capacity := if (capacity <=? length commands)%nat then (capacity * 2)%nat else capacity in
          if (length commands <? capacity)%nat
          then commands_loop k capacity (commands ++ [t]) (strtok [BAR] rest)
          else None
      end
  end.

Definition parse_pipeline (input : cstr) : option (list cstr) :=
  fst <$> commands_loop (S (length input)) 4 [] (strtok [BAR] input).

(** [args] as [parse_redirection] sees and changes it: [None] is [NULL]. *)
Record redirection := mkRedir { infile : option cstr; outfile : option cstr; append : bool }.

Fixpoint redir_loop (fuel : nat) (args : list (option cstr)) (i : Z) (r : redirection)
  : option (list (option cstr) * redirection) :=
  match fuel with
  | O => None
  | S k =>
      a ← aget args i;
      match a with
      | None => Some (args, r)
      | Some w =>
          if streq w (lit "<") then
            f ← aget args (i + 1); args ← aset args i None;
            redir_loop k args (i + 1) (mkRedir f (outfile r) (append r))
          else if streq w (lit ">") then
            f ← aget args (i + 1); args ← aset args i None;
            redir_loop k args (i + 1) (mkRedir (infile r) f false)
          else if streq w (lit ">>") then
            f ← aget args (i + 1); args ← aset args i None;
            redir_loop k args (i + 1) (mkRedir (infile r) f true)
          else redir_loop k args (i + 1) r
      end
  end.

Definition parse_redirection (args : list (option cstr)) : option (list (option cstr) * redirection) :=
  redir_loop (S (length args)) args 0 (mkRedir None None false).

(** What [execvp] takes from the array: the strings before the first [NULL]. *)
Fixpoint argv (args : list (option cstr)) : list cstr :=
  match args with Some w :: args' => w :: argv args' | _ => [] end.

(** ** Descriptors *)

Inductive obj :=
  | Inherited (fd : Z)
  | PipeR (k : nat)
  | PipeW (k : nat)
  | FileR (f : cstr)
  | FileW (f : cstr) (app : bool).

#[export] Instance obj_eq_dec : EqDecision obj.
Proof. solve_decision. Defined.

Abbreviation fds := (gmap Z obj) (only parsing).

Fixpoint free_from (fuel : nat) (t : fds) (z : Z) : Z :=
  match fuel with
  | O => z
  | S k => if bool_decide (is_Some (t !! z)) then free_from k t (z + 1) else z
  end.

(** The lowest free descriptor. *)
Definition lowest_free (t : fds) : Z := free_from (size t) t 0.

Definition dup2 (t : fds) (a b : Z) : fds := match t !! a with Some o => <[b := o]> t | None => t end.
Definition close (t : fds) (a : Z) : fds := delete a t.

(** [pipe(fd)]: the two ends of the pipe number [k]. *)
Definition pipe (t : fds) (k : nat) : fds * (Z * Z) :=
  let r := lowest_free t in
  let t := <[r := PipeR k]> t in
  let w := lowest_free t in
  (<[w := PipeW k]> t, (r, w)).

Section shell.
Context (can_read can_write : cstr -> bool) (fork_ok : nat -> bool).

(** [open], [dup2] and [close] for a redirection: when [open] fails the descriptor is -1 and the two calls
    that follow do nothing. *)
Definition redirect (t : fds) (ok : bool) (o : obj) (target : Z) : fds :=
  if ok then let fd := lowest_free t in close (dup2 (<[fd := o]> t) fd target) fd else t.

(** The child of command [i] of [n]: the plumbing, then the redirections. *)
Definition child_plumbing (t : fds) (i n : nat) (prev_fd : Z) (fd : Z * Z) : fds :=
  let t := if negb (prev_fd =? -1) then close (dup2 t prev_fd 0) prev_fd else t in
  if (i <? n - 1)%nat then close (close (dup2 t fd.2 1) fd.1) fd.2 else t.

Definition child_redirect (t : fds) (r : redirection) : fds :=
  let t := match infile r with Some f => redirect t (can_read f) (FileR f) 0 | None => t end in
  match outfile r with Some f => redirect t (can_write f) (FileW f (append r)) 1 | None => t end.

Record program := mkProgram { words : list cstr; table : fds }.

Definition child (t : fds) (i n : nat) (prev_fd : Z) (fd : Z * Z) (command : cstr) : option program :=
  let t := child_plumbing t i n prev_fd fd in
  let args := (Some <$> parse_input command) ++ [None] in
  '(args, r) ← parse_redirection args;
  Some (mkProgram (argv args) (child_redirect t r)).

(** The loop of [execute_pipeline] in the parent, with the children it starts. *)
Fixpoint pipeline_loop (commands : list cstr) (i n : nat) (prev_fd : Z) (fd : Z * Z) (t : fds)
  : option (fds * list program) :=
  match commands with
  | [] => Some (t, [])
  | command :: commands =>
      let '(t, fd) := if (i <? n - 1)%nat then pipe t i else (t, fd) in
      ps ← (if fork_ok i then p ← child t i n prev_fd fd command; Some [p] else Some []);
      let t := if negb (prev_fd =? -1) then close t prev_fd else t in
      let '(t, prev_fd) := if (i <? n - 1)%nat then (close t fd.2, fd.1) else (t, prev_fd) in
      '(t, rest) ← pipeline_loop commands (S i) n prev_fd fd t;
      Some (t, ps ++ rest)
  end.

(** [fd] is not initialised before the first [pipe]. *)
Definition execute_pipeline (commands : list cstr) (junk : Z * Z) (t : fds) : option (fds * list program) :=
  pipeline_loop commands 0 (length commands) (-1) junk t.

(** ** [main]: the programs of each line, until the end of the input or "exit" *)
Fixpoint main_loop (fuel : nat) (junk : Z * Z) (t : fds) (input : list byte) : option (fds * list program) :=
  match fuel with
  | O => None
  | S k =>
      match fgets MAX_LINE input with
      | None => Some (t, [])
      | Some (raw, rest) =>
          let line := c_str raw in
          if streq line [NL] then main_loop k junk t rest
          else
            let line := chop_newline line in
            if streq line (lit "exit") then Some (t, [])
            else
              commands ← parse_pipeline line;
              '(t, ps) ← execute_pipeline commands junk t;
              '(t, rest) ← main_loop k junk t rest;
              Some (t, ps ++ rest)
      end
  end.
End shell.

(** ** Parsing: lemmas *)

Definition join (sep : byte) (ws : list cstr) : cstr :=
  match ws with [] => [] | w :: ws' => w ++ concat ((fun v => sep :: v) <$> ws') end.

Definition word (delims : cstr) (w : cstr) : Prop := w <> [] /\ Forall (fun c => c ∉ delims) w.

Lemma strtok_join delims sep w ws :
  sep ∈ delims -> word delims w -> Forall (word delims) ws ->
  strtok delims (join sep (w :: ws)) = Some (w, join sep ws).
Proof.
  intros Hs [Hw Hd] Hws. destruct ws as [|v ws]; simpl.
  - rewrite app_nil_r. rewrite <- (app_nil_r w) at 1. by rewrite strtok_token.
  - by rewrite strtok_token.
Qed.

Lemma strtok_nil delims : strtok delims [] = None.
Proof. done. Qed.

Lemma strtok_words delims sep ws :
  sep ∈ delims -> Forall (word delims) ws ->
  strtok delims (join sep ws) = match ws with [] => None | w :: ws' => Some (w, join sep ws') end.
Proof. intros Hs Hws. destruct Hws; [done|]. by apply strtok_join. Qed.

Lemma args_loop_join room sep ws :
  sep ∈ [SP; NL] -> Forall (word [SP; NL]) ws ->
  args_loop room (strtok [SP; NL] (join sep ws)) = take room ws.
Proof.
  intros Hs Hws. revert ws Hws. induction room as [|r IH]; intros ws Hws; [by destruct (strtok _ _)|].
  rewrite strtok_words by done. destruct Hws as [|w ws Hw Hws]; [done|]. simpl. by rewrite IH.
Qed.

(** The array of commands always has room, and every token is stored. *)
Lemma commands_loop_total fuel capacity cs s :
  (0 < capacity)%nat -> (length cs <= capacity)%nat -> (length s < fuel)%nat ->
  exists cs' cap', commands_loop fuel capacity cs (strtok [BAR] s) = Some (cs ++ cs', cap') /\
    Forall (word [BAR]) cs' /\
    (forall ws, Forall (word [BAR]) ws -> s = join BAR ws -> cs' = ws).
Proof.
  revert capacity cs s. induction fuel as [|k IH]; intros capacity cs s Hc Hle Hf; [lia|].
  cbn [commands_loop]. destruct (strtok [BAR] s) as [[tok rest]|] eqn:E.
  - apply strtok_Some in E as Ht. destruct Ht as (Hne & Hd & Hlen).
    cbv zeta. assert (exists cap, (if (capacity <=? length cs)%nat then (capacity * 2)%nat else capacity) = cap /\
      (length cs < cap)%nat) as (cap & -> & Hcap) by (eexists; split; [done|]; destruct (Nat.leb_spec capacity (length cs)); lia).
    rewrite (proj2 (Nat.ltb_lt _ _) Hcap).
    destruct (IH cap (cs ++ [tok]) rest) as (cs' & cap' & Ec & Hw & Hj).
    { lia. } { rewrite length_app. simpl. lia. } { destruct tok; [done|]. simpl in Hlen. lia. }
    rewrite Ec. exists (tok :: cs'), cap'. split_and!; [by rewrite <- app_assoc | by constructor|].
    intros ws Hws ->. rewrite strtok_words in E by (done || apply list_elem_of_singleton; done).
    destruct Hws as [|w ws ? Hws]; [done|]. simplify_eq. f_equal. by apply Hj.
  - exists [], capacity. split_and!; [by rewrite app_nil_r | done|].
    intros ws Hws ->. rewrite strtok_words in E by (done || apply list_elem_of_singleton; done).
    by destruct Hws.
Qed.

Lemma parse_pipeline_total s : exists cs, parse_pipeline s = Some cs /\
  forall ws, Forall (word [BAR]) ws -> s = join BAR ws -> cs = ws.
Proof.
  destruct (commands_loop_total (S (length s)) 4 [] s) as (cs & cap & E & _ & Hj); [simpl; lia..|].
  unfold parse_pipeline. rewrite E. by exists cs.
Qed.

(** ** Redirections: lemmas *)

Definition is_op (w : cstr) : bool := streq w (lit "<") || streq w (lit ">") || streq w (lit ">>").

(** The redirections of a list of words, read without changing it. *)
Fixpoint redirs (ws : list cstr) (r : redirection) : redirection :=
  match ws with
  | [] => r
  | w :: ws' =>
      if streq w (lit "<") then redirs ws' (mkRedir (hd_error ws') (outfile r) (append r))
      else if streq w (lit ">") then redirs ws' (mkRedir (infile r) (hd_error ws') false)
      else if streq w (lit ">>") then redirs ws' (mkRedir (infile r) (hd_error ws') true)
      else redirs ws' r
  end.

Definition no_redir : redirection := mkRedir None None false.

Definition cleared (w : cstr) : option cstr := if is_op w then None else Some w.

Lemma aget_middle {A} (pre post : list A) x : aget (pre ++ x :: post) (Z.of_nat (length pre)) = Some x.
Proof. unfold aget. rewrite (proj2 (Z.leb_le _ _)), Nat2Z.id by lia. by apply list_lookup_middle. Qed.

Lemma redir_loop_spec fuel pre ws r :
  (length ws < fuel)%nat ->
  redir_loop fuel (pre ++ (Some <$> ws) ++ [None]) (Z.of_nat (length pre)) r =
    Some (pre ++ (cleared <$> ws) ++ [None], redirs ws r).
Proof.
  revert fuel pre r. induction ws as [|w ws IH]; intros fuel pre r Hf; destruct fuel as [|k]; simpl in Hf; try lia.
  - cbn [redir_loop fmap list_fmap app]. by rewrite (aget_middle pre []).
  - change ((Some <$> w :: ws) ++ [None]) with (Some w :: (Some <$> ws) ++ [None]).
    change ((cleared <$> w :: ws) ++ [None]) with (cleared w :: (cleared <$> ws) ++ [None]).
    set (l := pre ++ Some w :: _).
    assert (Hg : aget l (Z.of_nat (length pre)) = Some (Some w)) by apply aget_middle.
    assert (Hs : forall x, aset l (Z.of_nat (length pre)) x = Some ((pre ++ [x]) ++ (Some <$> ws) ++ [None])).
    { intros x. unfold l. rewrite aset_is_Some by (rewrite length_app; simpl; lia).
      rewrite Nat2Z.id, insert_app_r_alt by lia. rewrite Nat.sub_diag. simpl. by rewrite <- app_assoc. }
    assert (Hl : forall x : option cstr, Z.of_nat (length pre) + 1 = Z.of_nat (length (pre ++ [x])))
      by (intros; rewrite length_app; simpl; lia).
    assert (Hg1 : aget l (Z.of_nat (length pre) + 1) = Some (hd_error ws)).
    { rewrite (Hl (Some w)). unfold l. rewrite cons_middle, app_assoc. destruct ws; apply aget_middle. }
    cbn [redir_loop redirs]. unfold cleared at 1, is_op. rewrite Hg. cbn [mbind option_bind].
    destruct (streq w (lit "<")); [|destruct (streq w (lit ">")); [|destruct (streq w (lit ">>"))]];
      cbn [orb]; [rewrite Hg1, Hs; cbn [mbind option_bind]; rewrite (Hl None), IH by lia;
                  by rewrite <- app_assoc..|].
    unfold l. rewrite (Hl (Some w)), cons_middle, app_assoc, IH by lia. by rewrite <- app_assoc.
Qed.

Lemma argv_cleared ws : argv ((cleared <$> ws) ++ [None]) = take_while (fun w => negb (is_op w)) ws.
Proof.
  induction ws as [|w ws IH]; [done|]. cbn [fmap list_fmap app take_while]. unfold cleared at 1.
  destruct (is_op w); simpl; [done|]. by rewrite IH.
Qed.

Lemma parse_redirection_spec ws :
  exists args, parse_redirection ((Some <$> ws) ++ [None]) = Some (args, redirs ws no_redir) /\
    argv args = take_while (fun w => negb (is_op w)) ws.
Proof.
  eexists. split; [|apply argv_cleared]. unfold parse_redirection.
  apply (redir_loop_spec _ [] ws no_redir). rewrite length_app, length_fmap. lia.
Qed.

(** ** Descriptors: lemmas *)

Lemma free_from_spec fuel (t : gmap Z obj) z :
  0 <= z -> (forall y, z <= y < z + Z.of_nat fuel -> is_Some (t !! y)) \/
  t !! free_from fuel t z = None /\ z <= free_from fuel t z.
Proof.
  revert z. induction fuel as [|k IH]; intros z Hz; [left; intros; lia|]. cbn [free_from].
  case_bool_decide as Hs.
  - destruct (IH (z + 1)) as [Hall|[Hn Hle]]; [lia| |right; split; [done|lia]].
    left. intros y Hy. destruct (Z.eq_dec y z) as [->|]; [done|]. apply Hall. lia.
  - right. split; [by apply eq_None_not_Some | lia].
Qed.

(** As many descriptors as the table has entries cannot all be in use besides the next one. *)
Lemma all_used_size (t : gmap Z obj) n :
  (forall y, 0 <= y < Z.of_nat n -> is_Some (t !! y)) -> (n <= size t)%nat.
Proof.
  intros H. rewrite <- size_dom.
  assert (size (list_to_set (seqZ 0 (Z.of_nat n)) : gset Z) = n) as <-.
  { rewrite size_list_to_set by apply NoDup_seqZ. rewrite length_seqZ. lia. }
  apply subseteq_size. intros y Hy. apply elem_of_list_to_set, elem_of_seqZ in Hy.
  apply elem_of_dom, H. lia.
Qed.

Lemma free_from_all fuel (t : gmap Z obj) z :
  (forall y, z <= y < z + Z.of_nat fuel -> is_Some (t !! y)) ->
  free_from fuel t z = z + Z.of_nat fuel.
Proof.
  revert z. induction fuel as [|k IH]; intros z H; [simpl; lia|]. cbn [free_from].
  rewrite bool_decide_true by (apply H; lia). rewrite IH; [lia|]. intros y Hy. apply H. lia.
Qed.

Lemma lowest_free_fresh (t : gmap Z obj) : t !! lowest_free t = None /\ 0 <= lowest_free t.
Proof.
  unfold lowest_free. destruct (free_from_spec (size t) t 0) as [Hall|[Hn Hle]]; [lia| |done].
  rewrite free_from_all by done. split; [|lia]. apply eq_None_not_Some. intros Hs.
  assert (S (size t) <= size t)%nat; [|lia]. apply all_used_size. intros y Hy.
  destruct (Z.eq_dec y (0 + Z.of_nat (size t))) as [->|]; [done|]. apply Hall. lia.
Qed.

(** A redirection replaces one descriptor and leaves nothing else open. *)
Lemma redirect_spec (t : gmap Z obj) ok o target :
  is_Some (t !! target) -> redirect t ok o target = if ok then <[target := o]> t else t.
Proof.
  intros [x Hx]. unfold redirect. destruct ok; [|done]. destruct (lowest_free_fresh t) as [Hf _].
  set (fd := lowest_free t) in *. assert (fd <> target) by congruence.
  unfold dup2, close. rewrite lookup_insert_eq. rewrite insert_insert_ne by done.
  by rewrite delete_insert_id by (by rewrite lookup_insert_ne).
Qed.

(** The descriptors of command [i] of [n] before its redirections. *)
Definition wired (base : fds) (i n : nat) : fds :=
  let t := if (i =? 0)%nat then base else <[0 := PipeR (i - 1)]> base in
  if (i <? n - 1)%nat then <[1 := PipeW i]> t else t.

Definition redirected (can_read can_write : cstr -> bool) (t : fds) (r : redirection) : fds :=
  let t := match infile r with
           | Some f => if can_read f then <[0 := FileR f]> t else t
           | None => t
           end in
  match outfile r with
  | Some f => if can_write f then <[1 := FileW f (append r)]> t else t
  | None => t
  end.

Definition has_std (t : fds) : Prop := is_Some (t !! 0) /\ is_Some (t !! 1).

Lemma has_std_insert t k o : has_std t -> has_std (<[k := o]> t).
Proof. intros [H0 H1]. split; by apply lookup_insert_is_Some'; right. Qed.

Lemma has_std_wired base i n : has_std base -> has_std (wired base i n).
Proof. intros H. unfold wired. repeat case_if; auto using has_std_insert. Qed.

Lemma child_redirect_spec can_read can_write t r :
  has_std t -> child_redirect can_read can_write t r = redirected can_read can_write t r.
Proof.
  intros [H0 H1]. unfold child_redirect, redirected.
  destruct (infile r) as [f|]; [rewrite redirect_spec by done|];
    destruct (outfile r) as [g|]; try done; apply redirect_spec; [|done].
  case_if; [|done]. by apply lookup_insert_is_Some'; right.
Qed.

(** The parent's table at the start of round [i]. *)
Definition parent_table (base : fds) (i : nat) (prev_fd : Z) : fds :=
  if (i =? 0)%nat then base else <[prev_fd := PipeR (i - 1)]> base.

Definition prev_ok (base : fds) (i : nat) (prev_fd : Z) : Prop :=
  if (i =? 0)%nat then prev_fd = -1 else base !! prev_fd = None /\ 0 <= prev_fd.

Lemma close_std (t : gmap Z obj) fd k o :
  fd <> k -> t !! fd = None -> delete fd (<[k := o]> (<[fd := o]> t)) = <[k := o]> t.
Proof. intros Hne Hn. rewrite delete_insert_ne by done. by rewrite delete_insert_id. Qed.

Lemma has_std_ne t fd : has_std t -> t !! fd = None -> fd <> 0 /\ fd <> 1.
Proof. intros [[? H0] [? H1]] Hn. split; congruence. Qed.

(** The ends of a new pipe are new and different. *)
Lemma pipe_spec (t : gmap Z obj) k :
  exists r w, pipe t k = (<[w := PipeW k]> (<[r := PipeR k]> t), (r, w)) /\
    t !! r = None /\ t !! w = None /\ r <> w /\ 0 <= r.
Proof.
  unfold pipe. destruct (lowest_free_fresh t) as [Hr Hr0]. set (r := lowest_free t) in *.
  destruct (lowest_free_fresh (<[r := PipeR k]> t)) as [Hw _]. set (w := lowest_free (<[r := _]> t)) in *.
  apply lookup_insert_None in Hw as [Hw Hne]. by exists r, w.
Qed.

Section rounds.
Context (base : gmap Z obj) (i n : nat) (prev_fd : Z).
Hypothesis (Hstd : has_std base) (Hprev : prev_ok base i prev_fd).

(** The last command only takes the previous pipe. *)
Lemma last_round fd :
  (n - 1 <= i)%nat ->
  child_plumbing (parent_table base i prev_fd) i n prev_fd fd = wired base i n /\
  (if negb (prev_fd =? -1) then close (parent_table base i prev_fd) prev_fd
   else parent_table base i prev_fd) = base.
Proof using Hprev Hstd.
  intros Hi. unfold child_plumbing, wired, parent_table, prev_ok in *.
  rewrite (proj2 (Nat.ltb_ge _ _)) by done. destruct (i =? 0)%nat; [by subst|].
  destruct Hprev as [Hn Hp]. destruct (has_std_ne _ _ Hstd Hn).
  rewrite (proj2 (Z.eqb_neq prev_fd (-1))) by lia. cbn [negb]. unfold dup2, close.
  rewrite lookup_insert_eq. split; [by apply close_std | by apply delete_insert_id].
Qed.

(** Every other command also writes to a new pipe, whose reading end the parent keeps. *)
Lemma pipe_round :
  (i < n - 1)%nat ->
  exists t r w, pipe (parent_table base i prev_fd) i = (t, (r, w)) /\
    child_plumbing t i n prev_fd (r, w) = wired base i n /\
    close (if negb (prev_fd =? -1) then close t prev_fd else t) w = parent_table base (S i) r /\
    prev_ok base (S i) r.
Proof using Hprev Hstd.
  intros Hi. destruct (pipe_spec (parent_table base i prev_fd) i) as (r & w & E & Hr & Hw & Hne & Hr0).
  exists (<[w := PipeW i]> (<[r := PipeR i]> (parent_table base i prev_fd))), r, w.
  split; [done|]. unfold child_plumbing, wired, parent_table, prev_ok in *.
  rewrite (proj2 (Nat.ltb_lt _ _)) by done. cbn [fst snd Nat.eqb]. rewrite Nat.sub_succ, Nat.sub_0_r.
  unfold close, dup2. destruct (i =? 0)%nat.
  - subst prev_fd. cbn. destruct (has_std_ne _ _ Hstd Hr), (has_std_ne _ _ Hstd Hw).
    rewrite lookup_insert_eq. split_and!; [| |done|done].
    + apply map_eq. intros k. destruct (decide (k = w)), (decide (k = r)), (decide (k = 1)); by simplify_map_eq.
    + apply map_eq. intros k. destruct (decide (k = w)), (decide (k = r)); by simplify_map_eq.
  - destruct Hprev as [Hn Hp]. rewrite (proj2 (Z.eqb_neq prev_fd (-1))) by lia. cbn [negb].
    apply lookup_insert_None in Hr as [Hr ?], Hw as [Hw ?].
    destruct (has_std_ne _ _ Hstd Hr), (has_std_ne _ _ Hstd Hw), (has_std_ne _ _ Hstd Hn).
    rewrite !lookup_insert_ne, lookup_insert_eq by done.
    rewrite lookup_delete_ne, lookup_insert_ne, lookup_insert_eq by done.
    split_and!; [| |done|done].
    + apply map_eq. intros k.
      destruct (decide (k = w)), (decide (k = r)), (decide (k = prev_fd)), (decide (k = 1)), (decide (k = 0));
        by simplify_map_eq.
    + apply map_eq. intros k.
      destruct (decide (k = w)), (decide (k = r)), (decide (k = prev_fd)); by simplify_map_eq.
Qed.
End rounds.

(** What command [i] of [n] is started with. *)
Definition started (can_read can_write : cstr -> bool) (base : fds) (i n : nat) (command : cstr) : program :=
  let ws := parse_input command in
  mkProgram (take_while (fun w => negb (is_op w)) ws)
    (redirected can_read can_write (wired base i n) (redirs ws no_redir)).

Fixpoint started_from (can_read can_write : cstr -> bool) (fork_ok : nat -> bool) (base : fds) (i n : nat)
  (commands : list cstr) : list program :=
  match commands with
  | [] => []
  | c :: cs =>
      (if fork_ok i then [started can_read can_write base i n c] else [])
      ++ started_from can_read can_write fork_ok base (S i) n cs
  end.

Lemma child_spec can_read can_write base t i n prev_fd fd c :
  has_std base -> child_plumbing t i n prev_fd fd = wired base i n ->
  child can_read can_write t i n prev_fd fd c = Some (started can_read can_write base i n c).
Proof.
  intros Hb Hp. unfold child, started. rewrite Hp.
  destruct (parse_redirection_spec (parse_input c)) as (args & -> & Ha). cbn [mbind option_bind].
  by rewrite Ha, child_redirect_spec by by apply has_std_wired.
Qed.

Lemma pipeline_loop_spec can_read can_write fork_ok base commands i prev_fd fd :
  has_std base -> prev_ok base i prev_fd ->
  pipeline_loop can_read can_write fork_ok commands i (i + length commands) prev_fd fd
    (parent_table base i prev_fd) =
  match commands with
  | [] => Some (parent_table base i prev_fd, [])
  | _ => Some (base, started_from can_read can_write fork_ok base i (i + length commands) commands)
  end.
Proof.
  intros Hb. revert i prev_fd fd. induction commands as [|c cs IH]; intros i prev_fd fd Hp; [done|].
  cbn [pipeline_loop started_from length]. destruct cs as [|c2 cs].
  - rewrite (proj2 (Nat.ltb_ge _ _)) by (simpl; lia).
    destruct (last_round base i (i + 1) prev_fd Hb Hp fd) as [Hc Ht]; [lia|].
    cbn [length]. rewrite Ht, (child_spec _ _ base) by done. cbn [pipeline_loop started_from mbind option_bind].
    by destruct (fork_ok i).
  - set (n := (i + S (length (c2 :: cs)))%nat). assert (Hn : (i < n - 1)%nat) by (unfold n; simpl; lia).
    rewrite (proj2 (Nat.ltb_lt _ _) Hn).
    destruct (pipe_round base i n prev_fd Hb Hp Hn) as (t & r & w & -> & Hc & Ht & Hp').
    rewrite (child_spec _ _ base) by done. cbn [fst snd mbind option_bind]. rewrite Ht.
    specialize (IH (S i) r (r, w) Hp'). replace (S i + length (c2 :: cs))%nat with n in IH by (unfold n; lia).
    destruct (fork_ok i); cbn [mbind option_bind]; rewrite IH; done.
Qed.

Lemma execute_pipeline_spec can_read can_write fork_ok base commands junk :
  has_std base ->
  execute_pipeline can_read can_write fork_ok commands junk base =
    Some (base, started_from can_read can_write fork_ok base 0 (length commands) commands).
Proof.
  intros Hb. unfold execute_pipeline.
  pose proof (pipeline_loop_spec can_read can_write fork_ok base commands 0 (-1) junk Hb eq_refl) as H.
  change (parent_table base 0 (-1)) with base in H. cbn [Nat.add] in H. rewrite H. by destruct commands.
Qed.

Lemma started_from_lookup can_read can_write base i n commands j c :
  commands !! j = Some c ->
  started_from can_read can_write (fun _ => true) base i n commands !! j =
    Some (started can_read can_write base (i + j) n c).
Proof.
  revert i j. induction commands as [|d cs IH]; intros i j; [done|]. destruct j as [|j]; simpl.
  - intros [= ->]. by rewrite Nat.add_0_r.
  - intros H. rewrite (IH (S i) j H). do 2 f_equal. lia.
Qed.

Lemma parse_input_join ws :
  Forall (word [SP; NL]) ws -> (length ws < MAX_ARGS)%nat -> parse_input (join SP ws) = ws.
Proof.
  intros Hws Hlen. unfold parse_input. rewrite args_loop_join by (done || set_solver).
  apply take_ge. lia.
Qed.

Lemma take_while_no_op ws rest :
  Forall (fun w => is_op w = false) ws ->
  take_while (fun w => negb (is_op w)) (ws ++ rest) = ws ++ take_while (fun w => negb (is_op w)) rest.
Proof. intros H. apply take_while_app_all. eapply Forall_impl; [done|]. by intros w ->. Qed.

Lemma redirs_no_op ws rest r :
  Forall (fun w => is_op w = false) ws -> redirs (ws ++ rest) r = redirs rest r.
Proof.
  induction 1 as [|w ws Hw _ IH]; [done|]. cbn [app redirs]. unfold is_op in Hw. bool_to_prop.
  repeat match goal with H : streq w _ = false |- _ => rewrite H end. done.
Qed.

Lemma wired_other base i n fd : fd <> 0 -> fd <> 1 -> wired base i n !! fd = base !! fd.
Proof. intros. unfold wired. repeat case_if; by rewrite ?lookup_insert_ne by done. Qed.

Lemma word_weaken w : word [SP; NL; BAR] w -> word [SP; NL] w.
Proof. intros [? H]. split; [done|]. eapply Forall_impl; [exact H|]. set_solver. Qed.

Lemma join_word ws : Forall (word [SP; NL; BAR]) ws -> ws <> [] -> word [BAR] (join SP ws).
Proof.
  intros Hw Hne. destruct Hw as [|w ws [Hn Hc] Hws]; [done|]. split; [by destruct w|]. simpl.
  apply Forall_app_2; [eapply Forall_impl; [exact Hc | set_solver]|].
  induction Hws as [|v ws [_ Hv] _ IH]; [done|]. simpl. apply Forall_cons_2.
  - rewrite list_elem_of_singleton. discriminate.
  - apply Forall_app_2; [eapply Forall_impl; [exact Hv | set_solver] | exact (IH ltac:(done))].
Qed.

(** Comparisons of literal words. *)
Ltac eval_literals :=
  repeat match goal with
  | |- context [streq (lit ?a) (lit ?b)] =>
      let v := eval vm_compute in (streq (lit a) (lit b)) in change (streq (lit a) (lit b)) with v
  | |- context [bool_decide (lit ?a = lit ?b)] =>
      let v := eval vm_compute in (bool_decide (lit a = lit b)) in
      change (bool_decide (lit a = lit b)) with v
  end.

(** ** Examples *)

Definition terminal : fds := <[0 := Inherited 0]> (<[1 := Inherited 1]> {[2 := Inherited 2]}).

Lemma terminal_std : has_std terminal.
Proof. split; vm_compute; eauto. Qed.

(** ** Properties *)

(** C32 (functional).  A pipeline is wired correctly.  For commands of plain words, the line
    with bars between them is split into these commands, and each is started with exactly its
    words; its input is the reading end of the previous command's pipe (the shell's input for the
    first one), its output the writing end of its own pipe (the shell's output for the last one),
    and no other pipe end is open in it, so every reader sees the end of its input; the
    shell's own descriptors are as before. *)
Theorem pipeline_wiring can_read can_write junk base cmds :
  has_std base ->
  Forall (fun ws => Forall (word [SP; NL; BAR]) ws /\ Forall (fun w => is_op w = false) ws /\
                    ws <> [] /\ (length ws < MAX_ARGS)%nat) cmds ->
  exists ps,
    parse_pipeline (join BAR (join SP <$> cmds)) = Some (join SP <$> cmds) /\
    execute_pipeline can_read can_write (fun _ => true) (join SP <$> cmds) junk base = Some (base, ps) /\
    forall i ws, cmds !! i = Some ws ->
      exists p, ps !! i = Some p /\ words p = ws /\
        table p !! 0 = (if decide (i = 0%nat) then base !! 0 else Some (PipeR (i - 1))) /\
        table p !! 1 = (if decide (S i = length cmds) then base !! 1 else Some (PipeW i)) /\
        forall fd, fd <> 0 -> fd <> 1 -> table p !! fd = base !! fd.
Proof.
  intros Hb Hc. eexists. split_and!.
  - destruct (parse_pipeline_total (join BAR (join SP <$> cmds))) as (cs & -> & Hj). f_equal.
    apply Hj; [|done]. apply Forall_fmap. eapply Forall_impl; [exact Hc|].
    intros ws (Hw & _ & Hne & _). by apply join_word.
  - by apply execute_pipeline_spec.
  - intros i ws Hi. pose proof (Forall_lookup_1 _ _ _ _ Hc Hi) as (Hw & Hop & _ & Hlen).
    pose proof (lookup_lt_Some _ _ _ Hi). eexists. split.
    { apply started_from_lookup. rewrite list_lookup_fmap, Hi. done. }
    unfold started. rewrite parse_input_join by (done || by eapply Forall_impl; [exact Hw | apply word_weaken]).
    pose proof (take_while_no_op ws [] Hop) as Ht. pose proof (redirs_no_op ws [] no_redir Hop) as Hr.
    rewrite app_nil_r in Ht, Hr. rewrite Ht, Hr, length_fmap. cbn [take_while redirs words table Nat.add].
    rewrite app_nil_r. change (redirected can_read can_write ?t no_redir) with t.
    split_and!; [done | | | by intros; apply wired_other].
    + unfold wired. destruct i as [|i]; cbn; case_if; by simplify_map_eq.
    + unfold wired. case_decide.
      * rewrite (proj2 (Nat.ltb_ge _ _)) by lia. case_if; by simplify_map_eq.
      * rewrite (proj2 (Nat.ltb_lt _ _)) by lia. by simplify_map_eq.
Qed.

Lemma pipeline_wiring_witness :
  exists ps, execute_pipeline (fun _ => true) (fun _ => true) (fun _ => true)
      [lit "ls -l"; lit "grep c"; lit "wc"] (0, 0) terminal = Some (terminal, ps) /\
    exists p, ps !! 1%nat = Some p /\ words p = [lit "grep"; lit "c"] /\
      table p !! 0 = Some (PipeR 0) /\ table p !! 1 = Some (PipeW 1) /\ table p !! 2 = Some (Inherited 2).
Proof.
  destruct (pipeline_wiring (fun _ => true) (fun _ => true) (0, 0) terminal
    [[lit "ls"; lit "-l"]; [lit "grep"; lit "c"]; [lit "wc"]] terminal_std) as (ps & _ & E & Hps).
  - repeat constructor; try done; try (apply bool_decide_eq_false; reflexivity);
      try (intros H; apply (bool_decide_eq_true_2 _) in H; discriminate H); try (simpl; lia).
  - exists ps. split; [exact E|]. destruct (Hps 1%nat _ eq_refl) as (p & Hp & Hw & H0 & H1 & H2).
    exists p. split_and!; [exact Hp | exact Hw | exact H0 | exact H1 | exact (H2 2 ltac:(done) ltac:(done))].
Defined.

(** C36 (functional).  Redirections reach the files they name: a command of plain words
    followed by an input and an output redirection is started with its words alone, reading from
    the one file and writing to the other, appending exactly for [>>]; when the input file cannot be
    opened the command is started all the same, on the input it would have had without the
    redirection. *)
Theorem redirections_apply can_read can_write junk base ws f op g :
  has_std base -> Forall (word [SP; NL]) (f :: g :: ws) ->
  Forall (fun w => is_op w = false) (f :: g :: ws) -> (length ws < MAX_ARGS - 4)%nat ->
  op = lit ">" \/ op = lit ">>" -> can_write g = true ->
  execute_pipeline can_read can_write (fun _ => true)
    [join SP (ws ++ [lit "<"; f; op; g])] junk base =
  Some (base, [mkProgram ws (<[1 := FileW g (bool_decide (op = lit ">>"))]>
                               (if can_read f then <[0 := FileR f]> base else base))]).
Proof.
  intros Hb Hw Hop Hlen Ho Hcw. rewrite execute_pipeline_spec by done.
  apply Forall_cons in Hw as [Hf Hw], Hop as [Hof Hop]. apply Forall_cons in Hw as [Hg Hw], Hop as [Hog Hop].
  cbn [length started_from app]. unfold started.
  assert (Hwop : word [SP; NL] (lit "<") /\ word [SP; NL] op).
  { split; [|destruct Ho as [-> | ->]]; (split; [done|]); repeat constructor; set_solver by discriminate. }
  rewrite parse_input_join; cycle 1.
  { apply Forall_app_2; [done|]. destruct Hwop. repeat (apply Forall_cons_2; [done|]). apply Forall_nil_2. }
  { rewrite length_app. unfold MAX_ARGS in *. simpl. lia. }
  rewrite take_while_no_op, redirs_no_op by done.
  assert (Hio : is_op op = true) by (destruct Ho as [-> | ->]; done).
  unfold is_op in Hof, Hog. bool_to_prop.
  cbn [take_while redirs is_op]. change (streq (lit "<") (lit "<")) with true.
  cbn [orb negb hd_error infile outfile append].
  repeat match goal with H : streq ?w _ = false |- _ => rewrite H; clear H end.
  rewrite app_nil_r. unfold redirected.
  destruct Ho as [-> | ->]; eval_literals; cbn [infile outfile append hd_error]; by rewrite Hcw.
Qed.

Lemma redirections_apply_witness :
  execute_pipeline (fun f => streq f (lit "in")) (fun _ => true) (fun _ => true)
    [lit "sort -u < in >> out"] (0, 0) terminal =
  Some (terminal, [mkProgram [lit "sort"; lit "-u"]
    (<[1 := FileW (lit "out") true]> (<[0 := FileR (lit "in")]> terminal))]).
Proof.
  apply (redirections_apply (fun f => streq f (lit "in")) (fun _ => true) (0, 0) terminal
    [lit "sort"; lit "-u"] (lit "in") (lit ">>") (lit "out") terminal_std).
  - repeat constructor; try done; set_solver by discriminate.
  - repeat constructor.
  - vm_compute. lia.
  - right. reflexivity.
  - reflexivity.
Defined.

(** The shell survives every input: for any bytes on its standard input, one
    turn per byte and one more is enough to reach the end of the file (or [exit]), no array is
    left, whichever forks fail and whichever files are missing, and when it ends its descriptors
    are the ones it started with. *)
Theorem shell_terminates can_read can_write fork_ok junk base input :
  has_std base ->
  exists ps, main_loop can_read can_write fork_ok (S (length input)) junk base input = Some (base, ps).
Proof.
  intros Hb. remember (S (length input)) as fuel eqn:Hf. assert (length input < fuel)%nat as Hlt by lia.
  clear Hf. revert input Hlt. induction fuel as [|k IH]; intros input Hlt; [lia|]. cbn [main_loop].
  destruct (fgets MAX_LINE input) as [[raw rest]|] eqn:E; [|by eexists].
  apply fgets_progress in E; [|unfold MAX_LINE; lia].
  destruct (IH rest) as [ps Hps]; [lia|]. case_if; [by exists ps|]. case_if; [by eexists|].
  destruct (parse_pipeline_total (chop_newline (c_str raw))) as (cs & -> & _). cbn [mbind option_bind].
  rewrite execute_pipeline_spec by done. cbn [mbind option_bind]. rewrite Hps. by eexists.
Qed.

Lemma shell_terminates_witness :
  exists ps, main_loop (fun _ => false) (fun _ => false) (fun i => (i =? 0)%nat) 10 (0, 0) terminal
    (lit "| | <" ++ [NL] ++ lit ">|a") = Some (terminal, ps).
Proof.
  exact (shell_terminates (fun _ => false) (fun _ => false) (fun i => (i =? 0)%nat) (0, 0) terminal
    (lit "| | <" ++ [NL] ++ lit ">|a") terminal_std).
Defined.
