(* ===== verification/SimpleShell.v ===== *)
(** * The shell without pipelines

    [processes/bash_equivalent/src/main.c]: the loop of [main]; [parse_input] is the one of
    the shell with pipelines.  The result is what the shell does, in order: the programs it
    starts and waits for, with the arguments each is given. *)

From S2P Require Import Prelude CString Shell.

(** [fork] gives no process, or a child that calls [execvp] with the arguments (with no
    word on the line, with a null pointer) and for which the parent waits. *)
Inductive event := ForkFailed | Ran (args : list cstr).

Definition simple_parse_input (input : cstr) : list cstr := parse_input input.

(** The loop of [main] up to the end of the input or ["exit"]; [fork_ok] is asked with the
    number of the line. *)
Fixpoint simple_main_loop (fuel : nat) (fork_ok : nat -> bool) (n : nat) (input : list byte)
  : option (list event) :=
  match fuel with
  | O => None
  | S k =>
      match fgets MAX_LINE input with
      | None => Some []
      | Some (raw, rest) =>
          let line := c_str raw in
          if streq line [NL] then simple_main_loop k fork_ok (S n) rest
          else
            let line := chop_newline line in
            if streq line (lit "exit") then Some []
            else
              let e := if fork_ok n then Ran (simple_parse_input line) else ForkFailed in
              es ← simple_main_loop k fork_ok (S n) rest; Some (e :: es)
      end
  end.

(** ** Lemmas *)

(** A round reads at least a byte. *)
Lemma simple_shell_terminates fuel fork_ok n input :
  (length input < fuel)%nat -> is_Some (simple_main_loop fuel fork_ok n input).
Proof.
  revert n input. induction fuel as [|k IH]; intros n input Hl; [lia|]. cbn [simple_main_loop].
  destruct (fgets MAX_LINE input) as [[raw rest]|] eqn:E; [|by eexists].
  apply fgets_progress in E as Hp; [|unfold MAX_LINE; lia]. cbv zeta.
  destruct (streq (c_str raw) [NL]); [apply IH; lia|].
  destruct (streq _ _); [by eexists|].
  destruct (IH (S n) rest) as [es ->]; [lia|]. simpl. eauto.
Qed.

(** A property of the bytes of the words and of the blank holds of the line. *)
Lemma Forall_join (P : byte -> Prop) ws : P SP -> Forall (Forall P) ws -> Forall P (join SP ws).
Proof.
  intros Hs HF. destruct HF as [|w ws Hw HF]; [done|]. simpl. apply Forall_app_2; [done|].
  induction HF as [|v ws Hv _ IH]; [done|]. csimpl. constructor; [done|]. by apply Forall_app_2.
Qed.

(** The words of a line, up to 63 of them, are the arguments. *)
Lemma simple_shell_runs_words k fork_ok n ws rest :
  Forall (word [SP; NL]) ws -> Forall (fun w => NUL ∉ w) ws ->
  ws <> [] -> ws <> [lit "exit"] -> (length ws < MAX_ARGS)%nat -> (length (join SP ws) + 1 < MAX_LINE)%nat ->
  simple_main_loop (S k) fork_ok n (join SP ws ++ NL :: rest) =
    (es ← simple_main_loop k fork_ok (S n) rest;
     Some ((if fork_ok n then Ran ws else ForkFailed) :: es)).
Proof.
  intros Hw Hn Hne Hex Hl Hlen. cbn [simple_main_loop].
  assert (Forall (fun c => c <> NL) (join SP ws)) as HNL.
  { apply Forall_join; [done|]. eapply Forall_impl; [exact Hw|]. intros w [_ Hc].
    eapply Forall_impl; [exact Hc|]. set_solver. }
  assert (Forall (fun c => c <> NUL) (join SP ws)) as HNUL.
  { apply Forall_join; [done|]. eapply Forall_impl; [exact Hn|]. intros w Hc. apply Forall_forall.
    intros c Hin ->. done. }
  rewrite fgets_line by done. cbv zeta.
  assert (c_str (join SP ws ++ [NL]) = join SP ws ++ [NL]) as ->.
  { apply take_while_all, Forall_app_2; [|by list_forall].
    eapply Forall_impl; [exact HNUL|]. intros c Hc. by apply negb_true_iff, Z.eqb_neq. }
  assert (join SP ws <> []) as Hj.
  { destruct Hw as [|w ws [Hw0 _] _]; [done|]. simpl. by destruct w. }
  assert (streq (join SP ws ++ [NL]) [NL] = false) as ->.
  { apply bool_decide_eq_false. intros H. apply Hj. by apply (app_inj_2 _ [] [NL] [NL]). }
  assert (chop_newline (join SP ws ++ [NL]) = join SP ws) as ->.
  { unfold chop_newline. rewrite take_while_app_all; [by rewrite app_nil_r|].
    eapply Forall_impl; [exact HNL|]. intros c Hc. by apply negb_true_iff, Z.eqb_neq. }
  pose proof (parse_input_join ws Hw Hl) as Hp.
  assert (streq (join SP ws) (lit "exit") = false) as ->.
  { apply bool_decide_eq_false. intros H. apply Hex. by rewrite <- Hp, H. }
  unfold simple_parse_input. by rewrite Hp.
Qed.
