(* ===== verification/Clock.v ===== *)
(** * The time the servers send

    [get_time] of the four time servers in [sockets/] (the same function in each), for a buffer of a given
    size and what [localtime] says. *)

From S2P Require Import Prelude CString.

(** The fields of [struct tm] that are printed. *)
Record tm := mkTm { tm_year : Z; tm_mon : Z; tm_mday : Z; tm_hour : Z; tm_min : Z; tm_sec : Z }.

(** What [localtime] may store for a time after 1969. *)
Definition tm_ok (t : tm) : Prop :=
  69 <= tm_year t <= INT_MAX /\ 0 <= tm_mon t <= 11 /\ 1 <= tm_mday t <= 31 /\
  0 <= tm_hour t <= 23 /\ 0 <= tm_min t <= 59 /\ 0 <= tm_sec t <= 60.

(** Two digits, as ["%m"] and the like. *)
Definition two (d : Z) : cstr := if d <? 10 then lit "0" ++ dec d else dec d.

(** ["%Y-%m-%d %H:%M:%S\n"]. *)
Definition stamp (t : tm) : cstr :=
  dec (tm_year t + 1900) ++ lit "-" ++ two (tm_mon t + 1) ++ lit "-" ++ two (tm_mday t) ++ lit " " ++
  two (tm_hour t) ++ lit ":" ++ two (tm_min t) ++ lit ":" ++ two (tm_sec t) ++ [NL].

(** [None]: [strftime] returns 0, and the buffer has no defined contents. *)
Definition get_time (size : nat) (t : tm) : option cstr :=
  if (S (length (stamp t)) <=? size)%nat then Some (stamp t) else None.

(** The copies, with the buffers they are given. *)
Definition sp_get_time : tm -> option cstr := get_time 128.
Definition pool_get_time : tm -> option cstr := get_time 128.
Definition producer_get_time : tm -> option cstr := get_time 128.
Definition multiprotocol_get_time : tm -> option cstr := get_time 64.

(** The texts a server can send. *)
Definition time_of (f : tm -> option cstr) (now : cstr) : Prop := exists t, tm_ok t /\ f t = Some now.

(** A line without NUL that is not longer than any of the buffers. *)
Definition time_line (now : cstr) : Prop := now <> [] /\ (NUL ∉ now) /\ (length now <= 63)%nat.

(** ** Lemmas *)

Lemma two_length d : 0 <= d < 100 -> length (two d) = 2%nat.
Proof.
  assert (Forall (fun d => length (two d) = 2%nat) (seqZ 0 100)) as H by (apply (bool_decide_unpack _); vm_compute; exact I).
  intros Hd. rewrite Forall_forall in H. apply H. by apply elem_of_seqZ.
Qed.

Lemma two_clean d : NUL ∉ two d.
Proof.
  assert (NUL ∉ dec d) as H.
  { intros Hin. pose proof (dec_not_space d) as HF. rewrite Forall_forall in HF. by destruct (HF _ Hin). }
  unfold two. case_if; [|done]. rewrite elem_of_app. intros [Hin|Hin]; [|done].
  apply list_elem_of_singleton in Hin. done.
Qed.

Lemma dec_inj x y : 0 <= x -> 0 <= y -> dec x = dec y -> x = y.
Proof.
  intros Hx Hy. unfold dec. rewrite !(proj2 (Z.ltb_ge _ 0)) by done. intros E.
  by rewrite <- (udec_val x), <- (udec_val y), E.
Qed.

Lemma two_inj x y : 0 <= x < 100 -> 0 <= y < 100 -> two x = two y -> x = y.
Proof.
  assert (NoDup (two <$> seqZ 0 100)) as H by (apply (bool_decide_unpack _); vm_compute; exact I).
  intros Hx Hy E. assert ((two <$> seqZ 0 100) !! Z.to_nat x = Some (two x)) as Ex.
  { rewrite list_lookup_fmap, lookup_seqZ_lt by lia. cbn. do 2 f_equal. lia. }
  assert ((two <$> seqZ 0 100) !! Z.to_nat y = Some (two y)) as Ey.
  { rewrite list_lookup_fmap, lookup_seqZ_lt by lia. cbn. do 2 f_equal. lia. }
  rewrite E in Ex. pose proof (NoDup_lookup _ _ _ _ H Ex Ey). lia.
Qed.

Lemma year_length y : 0 <= y <= INT_MAX + 1900 -> (length (dec y) <= 32)%nat.
Proof.
  intros Hy. unfold dec. rewrite (proj2 (Z.ltb_ge _ 0)) by lia. unfold udec.
  pose proof (length_udec_fuel (Z.to_nat (Z.log2 y)) y).
  assert (Z.log2 y <= 31); [|lia].
  change 31 with (Z.log2 4294967295). apply Z.log2_le_mono. unfold INT_MAX in Hy. lia.
Qed.

Lemma stamp_line t : tm_ok t -> time_line (stamp t).
Proof.
  intros (Hy & Hmo & Hd & Hh & Hmi & Hs). unfold stamp. split_and!.
  - intros E. apply app_eq_nil in E as [E _]. by apply dec_nonempty in E.
  - repeat rewrite elem_of_app.
    assert (NUL ∉ dec (tm_year t + 1900)) as Hyc.
    { intros Hin. pose proof (dec_not_space (tm_year t + 1900)) as HF. rewrite Forall_forall in HF. by destruct (HF _ Hin). }
    assert ((NUL ∉ lit "-") /\ (NUL ∉ lit " ") /\ (NUL ∉ lit ":") /\ (NUL ∉ [NL])) as (H1 & H2 & H3 & H4)
      by (apply (bool_decide_unpack _); vm_compute; exact I).
    pose proof two_clean as Ht. intros Hin. repeat (destruct Hin as [Hin|Hin]; [by destruct (Ht _ Hin) || done|]). done.
  - repeat rewrite length_app. rewrite !two_length by lia. pose proof (year_length (tm_year t + 1900) ltac:(lia)). cbn. lia.
Qed.

(** The buffers of 64 and 128 bytes are large enough. *)
Lemma get_time_fits size t : (64 <= size)%nat -> tm_ok t -> get_time size t = Some (stamp t).
Proof.
  intros Hsz Ht. destruct (stamp_line t Ht) as (_ & _ & Hl). unfold get_time.
  by rewrite (proj2 (Nat.leb_le _ _)) by lia.
Qed.

Lemma time_of_line size now : (64 <= size)%nat -> time_of (get_time size) now -> time_line now.
Proof. intros Hsz (t & Ht & E). rewrite get_time_fits in E by done. injection E as <-. by apply stamp_line. Qed.

(** The text says which second it is. *)
Lemma get_time_inj size t u now :
  (64 <= size)%nat -> tm_ok t -> tm_ok u -> get_time size t = Some now -> get_time size u = Some now -> t = u.
Proof.
  intros Hsz Ht Hu. rewrite !get_time_fits by done. intros [= <-] [= E].
  destruct t as [y mo d h mi s], u as [y' mo' d' h' mi' s']. unfold stamp, tm_ok in *. cbn [tm_year tm_mon tm_mday tm_hour tm_min tm_sec] in *.
  apply app_inj_2 in E as [Ey E]; [|by repeat rewrite length_app; rewrite !two_length by lia].
  apply dec_inj in Ey; [|lia..].
  repeat match goal with
  | H : lit _ ++ _ = lit _ ++ _ |- _ => apply app_inv_head in H
  | H : two ?a ++ _ = two ?b ++ _ |- _ =>
      apply app_inj_1 in H as [H ?]; [apply two_inj in H; [|lia..]|by rewrite !two_length by lia]
  end.
  f_equal; lia.
Qed.

Definition noon : cstr := lit "2024-05-01 12:00:00" ++ [NL].

Lemma noon_told size : (64 <= size)%nat -> time_of (get_time size) noon.
Proof.
  intros Hsz. exists (mkTm 124 4 1 12 0 0). assert (tm_ok (mkTm 124 4 1 12 0 0)) as Ht by (unfold tm_ok, INT_MAX; cbn; lia).
  split; [done|]. rewrite get_time_fits by done. vm_compute. reflexivity.
Qed.
