(* ===== verification/PcQueue.v ===== *)
(** * Producer-consumer server

    [sockets/сlient-server_schemes/producer-consumer/producer_server.c]: a listener stores the
    ports of its clients in a queue in shared memory, and service processes take them out and
    answer.  The class [QueueSpec] says what the server expects of a queue; the server's theorems are
    proved for any queue that keeps it, and [shm_queue] is shown to keep it.  Here an operation on the
    queue is one step; the source has no lock around them, and the last section shows what happens
    when two of them overlap. *)

From S2P Require Import Prelude CString.

Definition QUEUE_MAX : Z := 128.

(** ** The interface of a queue of ports *)

Class QueueOps (Q : Type) := {
  enq : Q -> Z -> option Q;
  deq : Q -> option (Z * Q)
}.

Class QueueSpec (Q : Type) `{QueueOps Q} := {
  q_inv : Q -> Prop;
  q_view : Q -> list Z;
  q_room : nat;
  enq_spec q p : q_inv q ->
    exists q', enq q p = Some q' /\ q_inv q' /\
      q_view q' = if (length (q_view q) <? q_room)%nat then q_view q ++ [p] else q_view q;
  deq_spec q : q_inv q ->
    exists q', deq q = Some (List.hd (-1) (q_view q), q') /\ q_inv q' /\ q_view q' = tail (q_view q)
}.

(** ** The queue in shared memory *)

Record shm_queue := mkQueue { head : Z; tail : Z; count : Z; cap : Z; ports : list Z }.

Definition enqueue (q : shm_queue) (port : Z) : option shm_queue :=
  if count q =? cap q then Some q
  else
    ps ← aset (ports q) (tail q) port;
    Some (mkQueue (head q) (Z.rem (tail q + 1) (cap q)) (count q + 1) (cap q) ps).

Definition dequeue (q : shm_queue) : option (Z * shm_queue) :=
  if count q =? 0 then Some (-1, q)
  else
    p ← aget (ports q) (head q);
    Some (p, mkQueue (Z.rem (head q + 1) (cap q)) (tail q) (count q - 1) (cap q) (ports q)).

(** The memory as [main] prepares it; the array holds what [mmap] gives. *)
Definition init_queue (ps : list Z) : shm_queue := mkQueue 0 0 0 QUEUE_MAX ps.

#[export] Instance shm_ops : QueueOps shm_queue := { enq := enqueue; deq := dequeue }.

(** ** The server *)

(** What a service gets when it contacts the port it took. *)
Inductive conn := NoSocket | NoConnect | Connected (request : list byte).

Inductive reply := NoReply | TimeReply | UnknownCommand.

Definition answer (request : list byte) : reply :=
  let buf := take 1023 request in
  if (length buf =? 0)%nat then NoReply
  else if strneq 4 (c_str buf) (lit "time") then TimeReply else UnknownCommand.

(** [ntohl] of the four bytes that were read into [netport], as an [int]. *)
Definition read_port (bytes : list byte) : option Z :=
  match bytes with
  | [a; b; c; d] => Some (i32 (((a * 256 + b) * 256 + c) * 256 + d))
  | _ => None
  end.

(** One turn of the listener (the bytes its [read] gave, or a failed [accept]) or of a
    service. *)
Inductive event := Arrive (bytes : list byte) | AcceptFailed | Serve (id : nat) (c : conn).

Inductive out := Ack | Finished (id : nat) (port : Z) (r : reply).

Section server.
Context {Q : Type} `{QueueSpec Q}.

Definition listener_turn (q : Q) (bytes : list byte) : option (Q * list out) :=
  match read_port bytes with
  | Some port => q' ← enq q port; Some (q', [Ack])
  | None => Some (q, [])
  end.

Definition service_turn (q : Q) (id : nat) (c : conn) : option (Q * list out) :=
  '(client_port, q') ← deq q;
  if client_port =? -1 then Some (q', [])
  else match c with
  | NoSocket | NoConnect => Some (q', [])
  | Connected request => Some (q', [Finished id client_port (answer request)])
  end.

Definition turn (q : Q) (e : event) : option (Q * list out) :=
  match e with
  | Arrive bytes => listener_turn q bytes
  | AcceptFailed => Some (q, [])
  | Serve id c => service_turn q id c
  end.

Fixpoint run (es : list event) (q : Q) : option (Q * list out) :=
  match es with
  | [] => Some (q, [])
  | e :: es' =>
      '(q1, o1) ← turn q e;
      '(q2, o2) ← run es' q1;
      Some (q2, o1 ++ o2)
  end.
End server.

(** ** The specification: a list of waiting ports *)

Definition spec_turn (room : nat) (l : list Z) (e : event) : list Z * list out :=
  match e with
  | Arrive bytes =>
      match read_port bytes with
      | Some port => (if (length l <? room)%nat then l ++ [port] else l, [Ack])
      | None => (l, [])
      end
  | AcceptFailed => (l, [])
  | Serve id c =>
      match l with
      | [] => ([], [])
      | p :: l' =>
          (l', if p =? -1 then []
               else match c with Connected r => [Finished id p (answer r)] | _ => [] end)
      end
  end.

Fixpoint spec_run (room : nat) (es : list event) (l : list Z) : list Z * list out :=
  match es with
  | [] => (l, [])
  | e :: es' =>
      let r1 := spec_turn room l e in
      let r2 := spec_run room es' r1.1 in (r2.1, r1.2 ++ r2.2)
  end.

Section server_spec.
Context {Q : Type} `{QueueSpec Q}.

Lemma turn_spec (q : Q) e :
  q_inv q -> exists q', turn q e = Some (q', (spec_turn q_room (q_view q) e).2) /\ q_inv q' /\
    q_view q' = (spec_turn q_room (q_view q) e).1.
Proof.
  intros Hq. destruct e as [bytes| |id c]; simpl.
  - unfold listener_turn. destruct (read_port bytes) as [p|]; [|by exists q].
    destruct (enq_spec q p Hq) as (q' & -> & Hq' & Hv). by exists q'.
  - by exists q.
  - unfold service_turn. destruct (deq_spec q Hq) as (q' & -> & Hq' & Hv). simpl.
    destruct (q_view q) as [|p l]; simpl in *; [by exists q'|].
    destruct (p =? -1); [by exists q'|]. destruct c; by exists q'.
Qed.

Lemma run_spec es (q : Q) :
  q_inv q -> exists q', run es q = Some (q', (spec_run q_room es (q_view q)).2) /\ q_inv q' /\
    q_view q' = (spec_run q_room es (q_view q)).1.
Proof.
  revert q. induction es as [|e es IH]; intros q Hq; [by exists q|]. simpl.
  destruct (turn_spec q e Hq) as (q1 & -> & H1 & Hv1). simpl.
  destruct (IH q1 H1) as (q2 & -> & H2 & Hv2). simpl. exists q2. by rewrite Hv2, Hv1.
Qed.
End server_spec.

(** ** The queue in shared memory keeps the interface *)

Record queue_ok (q : shm_queue) : Prop := {
  qo_cap : cap q = QUEUE_MAX;
  qo_len : length (ports q) = Z.to_nat QUEUE_MAX;
  qo_head : 0 <= head q < QUEUE_MAX;
  qo_count : 0 <= count q <= QUEUE_MAX;
  qo_tail : tail q = (head q + count q) mod QUEUE_MAX
}.

(** The port at distance [i] from the head. *)
Definition port_at (ps : list Z) (h : Z) (i : nat) : Z :=
  default 0 (ps !! Z.to_nat ((h + Z.of_nat i) mod QUEUE_MAX)).

Definition waiting (q : shm_queue) : list Z := port_at (ports q) (head q) <$> seq 0 (Z.to_nat (count q)).

Lemma waiting_length q : length (waiting q) = Z.to_nat (count q).
Proof. unfold waiting. by rewrite length_fmap, length_seq. Qed.

Lemma slot_bound z : 0 <= z mod QUEUE_MAX < QUEUE_MAX.
Proof. apply Z.mod_pos_bound. unfold QUEUE_MAX. lia. Qed.

(** Different distances are different places. *)
Lemma slot_inj h i j :
  0 <= i < QUEUE_MAX -> 0 <= j < QUEUE_MAX -> (h + i) mod QUEUE_MAX = (h + j) mod QUEUE_MAX -> i = j.
Proof.
  intros Hi Hj He. unfold QUEUE_MAX in *.
  pose proof (Z.div_mod (h + i) 128 ltac:(lia)). pose proof (Z.div_mod (h + j) 128 ltac:(lia)). lia.
Qed.

Lemma enqueue_ok q p :
  queue_ok q -> exists q', enqueue q p = Some q' /\ queue_ok q' /\
    waiting q' = if (length (waiting q) <? 128)%nat then waiting q ++ [p] else waiting q.
Proof.
  intros Hok. pose proof Hok as [Hc Hl Hh Hn Ht]. rewrite waiting_length. unfold enqueue. rewrite Hc.
  destruct (Z.eqb_spec (count q) QUEUE_MAX) as [He|He].
  { exists q. rewrite (proj2 (Nat.ltb_ge _ _)) by (rewrite He; vm_compute; lia). done. }
  rewrite (proj2 (Nat.ltb_lt _ _)) by (unfold QUEUE_MAX in *; lia).
  pose proof (slot_bound (head q + count q)) as Hb.
  rewrite aset_is_Some by (rewrite Hl, Ht; unfold QUEUE_MAX in *; lia). cbn [mbind option_bind].
  eexists. split_and!; [done| |].
  - split; simpl; [done | by rewrite length_insert | done | lia |].
    rewrite Z.rem_mod_nonneg by (unfold QUEUE_MAX in *; lia).
    rewrite Ht, Zplus_mod_idemp_l. f_equal. lia.
  - unfold waiting. simpl. replace (Z.to_nat (count q + 1)) with (S (Z.to_nat (count q))) by lia.
    rewrite seq_S, fmap_app. f_equal.
    + apply list_fmap_ext. intros i j Hi. apply lookup_seq in Hi as [-> Hi]. unfold port_at.
      rewrite list_lookup_insert_ne; [done|]. intros Heq. rewrite Ht in Heq.
      pose proof (slot_bound (head q + Z.of_nat (0 + i))) as Hb'. apply Z2Nat.inj in Heq; [|lia..].
      apply slot_inj in Heq; unfold QUEUE_MAX in *; lia.
    + simpl. unfold port_at. rewrite Ht. replace (Z.of_nat (Z.to_nat (count q))) with (count q) by lia.
      rewrite list_lookup_insert_eq; [done|]. rewrite Hl. unfold QUEUE_MAX in *. lia.
Qed.

Lemma dequeue_ok q :
  queue_ok q -> exists q', dequeue q = Some (List.hd (-1) (waiting q), q') /\ queue_ok q' /\
    waiting q' = List.tl (waiting q).
Proof.
  intros Hok. pose proof Hok as [Hc Hl Hh Hn Ht]. unfold dequeue.
  destruct (Z.eqb_spec (count q) 0) as [He|He].
  { exists q. unfold waiting. by rewrite He. }
  destruct (aget_is_Some (ports q) (head q)) as [p Hp]; [rewrite Hl; unfold QUEUE_MAX in *; lia|].
  rewrite Hp. cbn [mbind option_bind]. rewrite Hc.
  rewrite Z.rem_mod_nonneg by (unfold QUEUE_MAX in *; lia).
  assert (waiting q = p :: (port_at (ports q) (head q) <$> seq 1 (Z.to_nat (count q - 1)))) as Hw.
  { unfold waiting. replace (Z.to_nat (count q)) with (S (Z.to_nat (count q - 1))) by lia. simpl. f_equal.
    unfold port_at. rewrite Z.add_0_r, Z.mod_small by done. apply aget_Some in Hp as [_ ->]. done. }
  rewrite Hw. eexists. split_and!; [done| |].
  - split; simpl; [done | done | apply slot_bound | lia |].
    rewrite Ht, Zplus_mod_idemp_l. f_equal. lia.
  - unfold waiting. simpl. rewrite <- fmap_S_seq, <- list_fmap_compose. apply list_fmap_ext.
    intros i j _. unfold port_at, compose. rewrite Zplus_mod_idemp_l.
    by replace (head q + 1 + Z.of_nat j) with (head q + Z.of_nat (S j)) by lia.
Qed.

#[export] Instance shm_spec : QueueSpec shm_queue := {|
  q_inv := queue_ok;
  q_view := waiting;
  q_room := 128;
  enq_spec := enqueue_ok;
  deq_spec := dequeue_ok
|}.

Lemma init_queue_ok ps : length ps = Z.to_nat QUEUE_MAX -> queue_ok (init_queue ps).
Proof. intros Hl. split; simpl; [done | done | unfold QUEUE_MAX; lia.. | done]. Qed.

(** ** What happens without a lock

    The four accesses of [dequeue] to the shared memory, one per step, for a service that
    runs at the same time as others. *)

Inductive pc := Test | Load | Advance (p : Z) | Decrement (p : Z) | Returned (p : Z).

Definition dequeue_step (c : pc) (q : shm_queue) : option (pc * shm_queue) :=
  match c with
  | Test => Some (if count q =? 0 then Returned (-1) else Load, q)
  | Load => p ← aget (ports q) (head q); Some (Advance p, q)
  | Advance p =>
      Some (Decrement p, mkQueue (Z.rem (head q + 1) (cap q)) (tail q) (count q) (cap q) (ports q))
  | Decrement p => Some (Returned p, mkQueue (head q) (tail q) (count q - 1) (cap q) (ports q))
  | Returned p => Some (Returned p, q)
  end.

(** The services take steps in the order of the schedule. *)
Fixpoint interleave (schedule : list nat) (pcs : list pc) (q : shm_queue) : option (list pc * shm_queue) :=
  match schedule with
  | [] => Some (pcs, q)
  | i :: schedule' =>
      c ← pcs !! i;
      '(c', q') ← dequeue_step c q;
      interleave schedule' (<[i := c']> pcs) q'
  end.

(** Alone, the steps are [dequeue]. *)
Lemma dequeue_alone q p q' :
  dequeue q = Some (p, q') -> interleave [0; 0; 0; 0]%nat [Test] q = Some ([Returned p], q').
Proof.
  unfold dequeue. simpl. destruct (count q =? 0); simpl; [by intros [= <- <-]|].
  destruct (aget (ports q) (head q)) as [r|]; simpl; [|done]. by intros [= <- <-].
Qed.

Definition one_client (port : Z) : shm_queue := mkQueue 0 1 1 QUEUE_MAX (port :: replicate 127 0).

(** Counterexample.  Two services that overlap take the same client: from a queue with one
    port both return it, and the count of waiting clients becomes -1, so that the next service
    takes a port no client ever sent. *)
Lemma overlapping_services port :
  interleave [0; 0; 1; 1; 0; 0; 1; 1]%nat [Test; Test] (one_client port) =
    Some ([Returned port; Returned port], mkQueue 2 1 (-1) QUEUE_MAX (port :: replicate 127 0)) /\
  fst <$> dequeue (mkQueue 2 1 (-1) QUEUE_MAX (port :: replicate 127 0)) = Some 0.
Proof. split; reflexivity. Qed.

(** ** Properties *)

(** C19 (refinement).  The server hands out ports in the order in which they arrived.  For any
    sequence of turns of the listener and the services, none of which overlap in the queue, the ring in
    shared memory never leaves its array and behaves as a list of at most 128 waiting ports: a
    client that arrives goes to the end (or is dropped when the list is full, although it is told that it
    is queued), a service takes the first one and answers it, and nothing else is
    answered. *)
Theorem server_is_fifo ps es :
  length ps = Z.to_nat QUEUE_MAX ->
  exists q, run es (init_queue ps) = Some (q, (spec_run 128 es []).2) /\
    queue_ok q /\ waiting q = (spec_run 128 es []).1.
Proof.
  intros Hl. destruct (run_spec es (init_queue ps)) as (q & E & Hq & Hv); [by apply init_queue_ok|].
  by exists q.
Qed.

Definition demo_events : list event :=
  [Arrive [0; 0; 31; 144]; Arrive [1; 2]; Arrive [0; 0; 31; 145]; Serve 3 (Connected (lit "time"));
   Serve 1 NoConnect; Serve 0 (Connected (lit "date")); Arrive [0; 0; 31; 146]].

Lemma server_is_fifo_witness :
  exists q, run demo_events (init_queue (replicate 128 7)) = Some (q, [Ack; Ack; Finished 3 8080 TimeReply; Ack]) /\
    waiting q = [8082].
Proof.
  destruct (server_is_fifo (replicate 128 7) demo_events) as (q & E & _ & Hw); [reflexivity|].
  exists q. split; [exact E | exact Hw].
Defined.
