(* ===== verification/PcSystem.v ===== *)
(** * The producer-consumer program as a system of processes

    [sockets/сlient-server_schemes/producer-consumer]: any number of clients ([client.c]), the
    listener and the services ([producer_server.c]) running in any order.  A process is a
    position in its program and what it holds; a step is one blocking or shared call with what
    follows it.  The queue of ports is any queue of the interface of [PcQueue]; the
    connections are byte streams.  [None] is a step that is not possible now, because the call
    blocks or the process has ended.

    What the kernel does: every listening socket has a port of its own, a [connect] to a port
    nobody listens on is refused, what is written on one end is read at the other, and a read from a
    closed connection ends (a [write] to one is lost; the invariant shows that there is none).  The limits on waiting connections are not modelled: a
    connection over the limit waits in [connect] instead of in the list. *)

From S2P Require Import Prelude CString Clock Echo PcQueue.

(** [htonl] of the port as the four bytes [write] sends. *)
Definition net_port (p : Z) : list byte := htons (u32 p / 65536) ++ htons (u32 p).

(** ** The client *)

(** Where a client is: before [create_listener], before [connect], before the [write] of its
    port, in the [read] of the acknowledgement, in [accept], before the [write] of the
    request, in the [read] of the answer, after [main] returned. *)
Inductive cpos :=
  | Start | Created | Reached | AckWait | AcceptWait | Accepted (s : nat) | ReplyWait (s : nat)
  | Exit (status : Z).

#[export] Instance cpos_eq_dec : EqDecision cpos.
Proof. solve_decision. Defined.

(** [to_listener] is what the listener has not read yet, and [dismissed] that the listener has closed
    that connection; [pending] are the services connected to the client's socket and not accepted;
    [inbox] and [hangup] are the stream from the accepted service. *)
Record client := mkClient {
  port : Z;
  pos : cpos;
  to_listener : list byte;
  dismissed : bool;
  pending : list nat;
  inbox : list byte;
  hangup : bool;
  screen : list byte
}.

Definition move (p : cpos) (c : client) : client :=
  mkClient (port c) p (to_listener c) (dismissed c) (pending c) (inbox c) (hangup c) (screen c).
Definition set_pending (l : list nat) (c : client) : client :=
  mkClient (port c) (pos c) (to_listener c) (dismissed c) l (inbox c) (hangup c) (screen c).
Definition set_to_listener (b : list byte) (c : client) : client :=
  mkClient (port c) (pos c) b (dismissed c) (pending c) (inbox c) (hangup c) (screen c).
Definition dismiss (c : client) : client :=
  mkClient (port c) (pos c) (to_listener c) true (pending c) (inbox c) (hangup c) (screen c).
Definition receive (b : list byte) (close : bool) (c : client) : client :=
  mkClient (port c) (pos c) (to_listener c) (dismissed c) (pending c) (inbox c ++ b)
    (hangup c || close) (screen c).
Definition show (b : list byte) (c : client) : client :=
  mkClient (port c) (pos c) (to_listener c) (dismissed c) (pending c) (inbox c) (hangup c)
    (screen c ++ b).

(** The socket [create_listener] opened is open until [main] returns. *)
Definition listens (c : client) : bool := match pos c with Start | Exit _ => false | _ => true end.

(** ** The services *)

(** Where a service is: before [dequeue], before [connect] to the port it took, in the
    [read] of the request of a client, before the [write] of the answer. *)
Inductive spos := Polling | Dialing (p : Z) | ReadWait (i : nat) | Replying (i : nat) (request : list byte).

Record service := mkService { at_ : spos; sbox : list byte; gone : bool }.

Definition go (p : spos) (v : service) : service := mkService p (sbox v) (gone v).
Definition idle_service : service := mkService Polling [] false.

(** The client closed the connection. *)
Definition hang_up (v : service) : service := mkService (at_ v) (sbox v) true.

(** ** The system *)

Inductive lpos := Accepting | Attending (i : nat).

(** [line] are the connections the listener has not accepted. *)
Record sys (Q : Type) := mkSys {
  clients : list client;
  services : list service;
  queue : Q;
  listener : lpos;
  line : list nat
}.
Arguments mkSys {Q}.
Arguments clients {Q}.
Arguments services {Q}.
Arguments queue {Q}.
Arguments listener {Q}.
Arguments line {Q}.

(** One step of a process; [ok] is whether the call that can fail succeeds, [now] is what
    [get_time] gives. *)
Inductive action := Client (i : nat) (ok : bool) | Listener (ok : bool) | Service (s : nat) (ok : bool) (now : cstr).

Section system.
Context {Q : Type} `{QueueSpec Q}.

Definition set_client (i : nat) (c : client) (σ : sys Q) : sys Q :=
  mkSys (<[i := c]> (clients σ)) (services σ) (queue σ) (listener σ) (line σ).
Definition set_service (s : nat) (v : service) (σ : sys Q) : sys Q :=
  mkSys (clients σ) (<[s := v]> (services σ)) (queue σ) (listener σ) (line σ).
Definition set_queue (q : Q) (σ : sys Q) : sys Q :=
  mkSys (clients σ) (services σ) q (listener σ) (line σ).
Definition set_listener (l : lpos) (ln : list nat) (σ : sys Q) : sys Q :=
  mkSys (clients σ) (services σ) (queue σ) l ln.

(** Every descriptor of client [i] is closed: the services it is connected with see the end. *)
Definition hang_up_all (ss : list nat) (σ : sys Q) : sys Q :=
  mkSys (clients σ) (foldr (fun s vs => alter hang_up s vs) (services σ) ss)
    (queue σ) (listener σ) (line σ).

Definition REQUEST : cstr := lit "time" ++ [NL].

(** What [main] of the client prints for what [read] gave. *)
Definition show_reply (bytes : list byte) : list byte :=
  if (0 <? length bytes)%nat then lit "Server time: " ++ c_str bytes else [].

Definition client_step (i : nat) (ok : bool) (σ : sys Q) : option (sys Q) :=
  c ← clients σ !! i;
  match pos c with
  | Start => Some (set_client i (move (if ok then Created else Exit 1) c) σ)
  | Created =>
      if ok then Some (set_listener (listener σ) (line σ ++ [i]) (set_client i (move Reached c) σ))
      else Some (set_client i (move (Exit 1) c) σ)
  | Reached =>
      Some (set_client i (move AckWait (set_to_listener (to_listener c ++ net_port (port c)) c)) σ)
  | AckWait => if dismissed c then Some (set_client i (move AcceptWait c) σ) else None
  | AcceptWait =>
      if ok then
        match pending c with
        | [] => None
        | s :: rest => Some (set_client i (move (Accepted s) (set_pending rest c)) σ)
        end
      else Some (hang_up_all (pending c) (set_client i (move (Exit 1) c) σ))
  | Accepted s =>
      v ← services σ !! s;
      Some (set_service s (mkService (at_ v) (sbox v ++ REQUEST) (gone v)) (set_client i (move (ReplyWait s) c) σ))
  | ReplyWait s =>
      if bool_decide (inbox c = []) && negb (hangup c) then None
      else Some (hang_up_all (if hangup c then pending c else s :: pending c)
                   (set_client i (move (Exit 0) (show (show_reply (take 1023 (inbox c))) c)) σ))
  | Exit _ => None
  end.

(** The body of [main]'s loop in the server is [PcQueue.listener_turn]; here it is cut where it
    waits for the client's bytes. *)
Definition listener_step (ok : bool) (σ : sys Q) : option (sys Q) :=
  match listener σ with
  | Accepting =>
      if ok then match line σ with [] => None | i :: rest => Some (set_listener (Attending i) rest σ) end
      else Some σ
  | Attending i =>
      c ← clients σ !! i;
      if bool_decide (to_listener c = []) then None
      else
        '(q, _) ← listener_turn (queue σ) (take 4 (to_listener c));
        Some (set_listener Accepting (line σ)
               (set_queue q (set_client i (dismiss (set_to_listener (drop 4 (to_listener c)) c)) σ)))
  end.

(** The client that listens on port [htons(p)]. *)
Definition who_listens (p : Z) (cs : list client) : option (nat * client) :=
  list_find (fun c => listens c = true /\ port c = u16 p) cs.

Definition respond (r : reply) (now : cstr) : list byte :=
  match r with NoReply => [] | TimeReply => now | UnknownCommand => lit "unknown command" ++ [NL] end.

Definition service_step (s : nat) (ok : bool) (now : cstr) (σ : sys Q) : option (sys Q) :=
  v ← services σ !! s;
  match at_ v with
  | Polling =>
      '(p, q) ← deq (queue σ);
      Some (set_queue q (if p =? -1 then σ else set_service s (go (Dialing p) v) σ))
  | Dialing p =>
      if negb ok then Some (set_service s (go Polling v) σ)
      else match who_listens p (clients σ) with
           | None => Some (set_service s (go Polling v) σ)
           | Some (i, c) =>
               Some (set_service s (mkService (ReadWait i) [] false)
                      (set_client i (set_pending (pending c ++ [s]) c) σ))
           end
  | ReadWait i =>
      if bool_decide (sbox v = []) then
        if gone v then
          c ← clients σ !! i; Some (set_service s idle_service (set_client i (receive [] true c) σ))
        else None
      else Some (set_service s (mkService (Replying i (take 1023 (sbox v))) (drop 1023 (sbox v)) (gone v)) σ)
  | Replying i request =>
      c ← clients σ !! i;
      Some (set_service s idle_service (set_client i (receive (respond (answer request) now) true c) σ))
  end.

Definition step (a : action) (σ : sys Q) : option (sys Q) :=
  match a with
  | Client i ok => client_step i ok σ
  | Listener ok => listener_step ok σ
  | Service s ok now => service_step s ok now σ
  end.

Fixpoint run_system (acts : list action) (σ : sys Q) : option (sys Q) :=
  match acts with [] => Some σ | a :: acts' => σ' ← step a σ; run_system acts' σ' end.

(** The server has forked its services and the clients are started; [ports] are what the kernel
    gives the clients' sockets. *)
Definition new_client (p : Z) : client := mkClient p Start [] false [] [] false [].
Definition init_system (q : Q) (n : nat) (ports : list Z) : sys Q :=
  mkSys (new_client <$> ports) (replicate n idle_service) q Accepting [].

End system.

(** ** The stages of a client

    The protocol as the invariant sees it: where the port of a client is, and who is connected
    with it. *)

Inductive stage :=
  | Fresh | InLine | Queued
  | Taken (s : nat) | Calling (s : nat) | Talking (s : nat) | Asked (s : nat) | Heard (s : nat)
  | Answered (now : cstr) | Served (now : cstr) | Lost.

(** The service that works for the client. *)
Definition uses (x : stage) : option nat :=
  match x with Taken s | Calling s | Talking s | Asked s | Heard s => Some s | _ => None end.

(** The client waits, or has given up. *)
Definition waits (c : client) : Prop :=
  dismissed c = true /\ (pos c = AckWait \/ pos c = AcceptWait \/ pos c = Exit 1).

Definition quiet (c : client) : Prop := pending c = [] /\ inbox c = [] /\ hangup c = false.

Section invariant.
(** What [get_time] may give. *)
Context (clock : cstr -> Prop).

Definition local_ok (c : client) (x : stage) : Prop :=
  (0 < port c < 65536) /\ (pos c <> Exit 0 -> screen c = []) /\
  match x with
  | Fresh => quiet c /\ (pos c = Start \/ pos c = Created \/ pos c = Exit 1) /\ to_listener c = [] /\ dismissed c = false
  | InLine =>
      quiet c /\ dismissed c = false /\
      (pos c = Reached /\ to_listener c = [] \/ pos c = AckWait /\ to_listener c = net_port (port c))
  | Queued | Taken _ => quiet c /\ waits c
  | Calling s => inbox c = [] /\ hangup c = false /\ pending c = [s] /\ waits c
  | Talking s => quiet c /\ pos c = Accepted s
  | Asked s | Heard s => quiet c /\ pos c = ReplyWait s
  | Answered now => clock now /\ pending c = [] /\ inbox c = now /\ hangup c = true /\ exists s, pos c = ReplyWait s
  | Served now => clock now /\ pos c = Exit 0 /\ screen c = lit "Server time: " ++ now
  | Lost => pos c = Exit 1 \/ quiet c /\ waits c
  end.

(** What the service of the stage does. *)
Definition peer_ok (i : nat) (c : client) (x : stage) (v : service) : Prop :=
  match x with
  | Taken _ => v = mkService (Dialing (port c)) [] false
  | Calling _ => v = mkService (ReadWait i) [] (bool_decide (pos c = Exit 1))
  | Talking _ => v = mkService (ReadWait i) [] false
  | Asked _ => v = mkService (ReadWait i) REQUEST false
  | Heard _ => v = mkService (Replying i REQUEST) [] false
  | _ => False
  end.

(** Clients, services and stages fit together. *)
Record talk_ok (cs : list client) (vs : list service) (st : list stage) : Prop := {
  tk_length : length st = length cs;
  tk_local i c x : cs !! i = Some c -> st !! i = Some x -> local_ok c x;
  tk_peer i c x s : cs !! i = Some c -> st !! i = Some x -> uses x = Some s ->
    exists v, vs !! s = Some v /\ peer_ok i c x v;
  tk_one i j x y s : st !! i = Some x -> st !! j = Some y -> uses x = Some s -> uses y = Some s -> i = j;
  tk_service s v : vs !! s = Some v ->
    v = idle_service \/ exists i x, st !! i = Some x /\ uses x = Some s
}.

(** A client moves on alone. *)
Lemma talk_client cs vs st i c c' x x' :
  talk_ok cs vs st -> cs !! i = Some c -> st !! i = Some x ->
  local_ok c' x' -> uses x' = uses x ->
  (forall v, peer_ok i c x v -> peer_ok i c' x' v) ->
  talk_ok (<[i:=c']> cs) vs (<[i:=x']> st).
Proof.
  intros [Hlen Hloc Hpeer Hone Hsrv] Hc Hx Hl Hu Hp. split.
  - by rewrite !length_insert.
  - intros j d y Hd Hy. destruct (decide (i = j)) as [<-|Hne].
    + rewrite list_lookup_insert_eq in Hd by (by eapply lookup_lt_Some). rewrite list_lookup_insert_eq in Hy by (by eapply lookup_lt_Some). by simplify_eq.
    + rewrite list_lookup_insert_ne in Hd by done. rewrite list_lookup_insert_ne in Hy by done. eauto.
  - intros j d y s Hd Hy Hs. destruct (decide (i = j)) as [<-|Hne].
    + rewrite list_lookup_insert_eq in Hd by (by eapply lookup_lt_Some). rewrite list_lookup_insert_eq in Hy by (by eapply lookup_lt_Some). simplify_eq.
      rewrite Hu in Hs. destruct (Hpeer i c x s) as (v & Hv & Hok); [done..|]. eauto.
    + rewrite list_lookup_insert_ne in Hd by done. rewrite list_lookup_insert_ne in Hy by done. eauto.
  - assert (forall j y s, <[i:=x']> st !! j = Some y -> uses y = Some s -> exists z, st !! j = Some z /\ uses z = Some s) as Ho.
    { intros j y s Hy Hs. destruct (decide (i = j)) as [<-|Hne].
      - rewrite list_lookup_insert_eq in Hy by (by eapply lookup_lt_Some). simplify_eq. rewrite Hu in Hs. eauto.
      - rewrite list_lookup_insert_ne in Hy by done. eauto. }
    intros j k y z s Hj Hk Hy Hz. destruct (Ho _ _ _ Hj Hy) as (? & ? & ?), (Ho _ _ _ Hk Hz) as (? & ? & ?). eauto.
  - intros s v Hv. destruct (Hsrv s v Hv) as [?|(j & y & Hy & Hs)]; [by left|right].
    destruct (decide (i = j)) as [<-|Hne].
    + simplify_eq. exists i, x'. rewrite Hu. split; [|done]. apply list_lookup_insert_eq. by eapply lookup_lt_Some.
    + exists j, y. by rewrite list_lookup_insert_ne.
Qed.

(** A client and a service move on together: the service was the client's or free, and is the
    client's or free afterwards. *)
Lemma talk_both cs vs st i c c' x x' s v v' :
  talk_ok cs vs st -> cs !! i = Some c -> st !! i = Some x -> vs !! s = Some v ->
  uses x = Some s \/ uses x = None /\ v = idle_service ->
  local_ok c' x' ->
  uses x' = Some s /\ peer_ok i c' x' v' \/ uses x' = None /\ v' = idle_service ->
  talk_ok (<[i:=c']> cs) (<[s:=v']> vs) (<[i:=x']> st).
Proof.
  intros [Hlen Hloc Hpeer Hone Hsrv] Hc Hx Hv Hu Hl Hu'.
  assert (forall j y, j <> i -> st !! j = Some y -> uses y <> Some s) as Hoth.
  { intros j y Hne Hy Hs. destruct Hu as [Hu|[_ ->]].
    - by apply Hne, (Hone j i y x s).
    - destruct (lookup_lt_is_Some_2 cs j) as [d Hd]; [rewrite <- Hlen; by eapply lookup_lt_Some|].
      destruct (Hpeer j d y s Hd Hy Hs) as (? & ? & Hp). simplify_eq. by destruct y. }
  assert (forall j y, <[i:=x']> st !! j = Some y -> j <> i /\ st !! j = Some y \/ j = i /\ y = x') as Hst.
  { intros j y Hy. destruct (decide (i = j)) as [<-|Hne].
    - rewrite list_lookup_insert_eq in Hy by (by eapply lookup_lt_Some). simplify_eq. by right.
    - rewrite list_lookup_insert_ne in Hy by done. by left. }
  split.
  - by rewrite !length_insert.
  - intros j d y Hd [[Hne Hy]|[-> ->]]%Hst.
    + rewrite list_lookup_insert_ne in Hd by done. eauto.
    + rewrite list_lookup_insert_eq in Hd by (by eapply lookup_lt_Some). by simplify_eq.
  - intros j d y s' Hd [[Hne Hy]|[-> ->]]%Hst Hs.
    + rewrite list_lookup_insert_ne in Hd by done. pose proof (Hoth j y Hne Hy).
      rewrite list_lookup_insert_ne by congruence. eauto.
    + rewrite list_lookup_insert_eq in Hd by (by eapply lookup_lt_Some). simplify_eq.
      destruct Hu' as [[Hu' Hp]|[Hu' _]]; [|congruence]. simplify_eq.
      exists v'. split; [|done]. apply list_lookup_insert_eq. by eapply lookup_lt_Some.
  - intros j k y z s' [[Hj Hy]|[-> ->]]%Hst [[Hk Hz]|[-> ->]]%Hst Hsy Hsz; [by eauto | | | done].
    + destruct Hu' as [[Hu' _]|[Hu' _]]; [|congruence]. simplify_eq. by destruct (Hoth _ _ Hj Hy).
    + destruct Hu' as [[Hu' _]|[Hu' _]]; [|congruence]. simplify_eq. by destruct (Hoth _ _ Hk Hz).
  - intros s' w Hw. destruct (decide (s = s')) as [<-|Hne].
    + rewrite list_lookup_insert_eq in Hw by (by eapply lookup_lt_Some). simplify_eq.
      destruct Hu' as [[Hu' _]|[_ ->]]; [right|by left]. exists i, x'. split; [|done].
      apply list_lookup_insert_eq. by eapply lookup_lt_Some.
    + rewrite list_lookup_insert_ne in Hw by done. destruct (Hsrv _ _ Hw) as [?|(j & y & Hy & Hs)]; [by left|right].
      destruct (decide (i = j)) as [<-|Hne'].
      * simplify_eq. destruct Hu as [Hu|[Hu _]]; congruence.
      * exists j, y. by rewrite list_lookup_insert_ne.
Qed.

End invariant.

(** ** The clients of one stage, as a list *)

Definition listed (st : list stage) (x : stage) (l : list nat) : Prop :=
  NoDup l /\ forall i, i ∈ l <-> st !! i = Some x.

Lemma listed_keep st i x x' y l :
  st !! i = Some x -> x' = x \/ x <> y /\ x' <> y -> listed st y l -> listed (<[i:=x']> st) y l.
Proof.
  intros Hx [->|[Hne Hne']] [Hnd Hl]; [by rewrite list_insert_id|]. split; [done|].
  intros j. rewrite Hl. destruct (decide (i = j)) as [<-|Hj].
  - rewrite list_lookup_insert_eq by (by eapply lookup_lt_Some). split; congruence.
  - by rewrite list_lookup_insert_ne.
Qed.

Lemma listed_push st i x y l :
  st !! i = Some x -> x <> y -> listed st y l -> listed (<[i:=y]> st) y (l ++ [i]).
Proof.
  intros Hx Hne [Hnd Hl]. split.
  - apply NoDup_app. split_and!; [done| |apply NoDup_singleton].
    intros j Hj%Hl ->%list_elem_of_singleton. congruence.
  - intros j. rewrite elem_of_app, list_elem_of_singleton, Hl. destruct (decide (i = j)) as [<-|Hj].
    + rewrite list_lookup_insert_eq by (by eapply lookup_lt_Some). intuition.
    + rewrite list_lookup_insert_ne by done. intuition congruence.
Qed.

Lemma listed_pop st i x' y l :
  x' <> y -> listed st y (i :: l) -> listed (<[i:=x']> st) y l.
Proof.
  intros Hne [[Hni Hnd]%NoDup_cons Hl]. pose proof (proj1 (Hl i) (list_elem_of_here _ _)) as Hi.
  split; [done|]. intros j. destruct (decide (i = j)) as [<-|Hj].
  - rewrite list_lookup_insert_eq by (by eapply lookup_lt_Some). split; [done|congruence].
  - rewrite list_lookup_insert_ne by done. rewrite <- Hl, elem_of_cons. intuition congruence.
Qed.

(** What a clock writes: a line that fits the buffers. *)
Definition clock_ok (clock : cstr -> Prop) : Prop :=
  forall now, clock now -> now <> [] /\ NUL ∉ now /\ (length now <= 1023)%nat.

(** ** The invariant *)

Definition pos_rank (p : cpos) : Z :=
  match p with
  | Start => 7 | Created => 6 | Reached => 5 | AckWait => 4 | AcceptWait => 3 | Accepted _ => 2
  | ReplyWait _ => 1 | Exit _ => 0
  end.

Definition stage_rank (x : stage) : Z :=
  match x with
  | Fresh => 10 | InLine => 8 | Queued => 7 | Taken _ => 6 | Calling _ => 5 | Talking _ => 4
  | Asked _ => 3 | Heard _ => 2 | Answered _ => 1 | Served _ | Lost => 0
  end.

Definition attended (l : lpos) : list nat := match l with Accepting => [] | Attending i => [i] end.

Definition line_ok (l : lpos) (ln : list nat) (st : list stage) : Prop := listed st InLine (attended l ++ ln).

Definition reliable (a : action) : bool :=
  match a with Client _ ok | Listener ok | Service _ ok _ => ok end.

Section invariant_kept.
Context {Q : Type} `{QueueSpec Q} (clock : cstr -> Prop) (ports : list Z).

Definition port_of (i : nat) : Z := default 0 (ports !! i).

Definition order_ok (q : Q) (st : list stage) : Prop :=
  q_inv q /\ exists order, q_view q = port_of <$> order /\ listed st Queued order.

Record inv (σ : sys Q) (st : list stage) : Prop := {
  iv_ports : port <$> clients σ = ports;
  iv_talk : talk_ok clock (clients σ) (services σ) st;
  iv_order : order_ok (queue σ) st;
  iv_line : line_ok (listener σ) (line σ) st
}.

(** The steps that are left. *)
Definition measure (σ : sys Q) (st : list stage) : Z :=
  zsum (fun c => pos_rank (pos c)) (clients σ) + zsum stage_rank st + Z.of_nat (length (line σ)).

(** A turn of a process that finds nothing to do: a failed [accept], an empty queue. *)
Definition idle_turn (a : action) (σ : sys Q) : bool :=
  match a with
  | Client _ _ => false
  | Listener ok => negb ok && match listener σ with Accepting => true | _ => false end
  | Service s _ _ =>
      match services σ !! s, deq (queue σ) with
      | Some v, Some (p, _) => match at_ v with Polling => p =? -1 | _ => false end
      | _, _ => false
      end
  end.

(** Nobody has given up. *)
Definition well (σ : sys Q) (st : list stage) : Prop :=
  Forall (fun c => pos c <> Exit 1) (clients σ) /\ Forall (fun x => x <> Lost) st.

Definition after (a : action) (σ : sys Q) (st : list stage) (σ' : sys Q) (st' : list stage) : Prop :=
  inv σ' st' /\ measure σ' st' <= measure σ st /\
  (idle_turn a σ = false -> measure σ' st' < measure σ st) /\
  ((length ports <= q_room)%nat -> reliable a = true -> well σ st -> well σ' st').

Lemma order_keep q st i x x' :
  order_ok q st -> st !! i = Some x -> x' = x \/ x <> Queued /\ x' <> Queued -> order_ok q (<[i:=x']> st).
Proof. intros (Hq & o & Ho & Hl) Hx Hk. split; [done|]. exists o. eauto using listed_keep. Qed.

Lemma line_keep l ln st i x x' :
  line_ok l ln st -> st !! i = Some x -> x' = x \/ x <> InLine /\ x' <> InLine -> line_ok l ln (<[i:=x']> st).
Proof. intros Hl Hx Hk. eapply listed_keep; eauto. Qed.

Lemma after_intro a σ st i c c' x x' vs' q' l' ln' :
  inv σ st -> clients σ !! i = Some c -> st !! i = Some x -> port c' = port c ->
  talk_ok clock (<[i:=c']> (clients σ)) vs' (<[i:=x']> st) ->
  order_ok q' (<[i:=x']> st) -> line_ok l' ln' (<[i:=x']> st) ->
  pos_rank (pos c') + stage_rank x' + Z.of_nat (length ln') <
    pos_rank (pos c) + stage_rank x + Z.of_nat (length (line σ)) ->
  ((length ports <= q_room)%nat -> reliable a = true -> pos c <> Exit 1 -> x <> Lost -> pos c' <> Exit 1 /\ x' <> Lost) ->
  after a σ st (mkSys (<[i:=c']> (clients σ)) vs' q' l' ln') (<[i:=x']> st).
Proof.
  intros Hinv Hc Hx Hp Ht Ho Hl Hm Hw.
  assert (measure (mkSys (<[i:=c']> (clients σ)) vs' q' l' ln') (<[i:=x']> st) < measure σ st) as Hlt.
  { unfold measure. cbn [clients line]. rewrite (zsum_insert _ _ _ _ _ Hc), (zsum_insert _ _ _ _ _ Hx). lia. }
  split_and!; [|lia|done|].
  - split; cbn; [|done..]. rewrite list_fmap_insert, Hp, <- (iv_ports _ _ Hinv).
    apply list_insert_id. by rewrite list_lookup_fmap, Hc.
  - intros Hr Hrel [Hcs Hst]. pose proof (Forall_lookup_1 _ _ _ _ Hcs Hc) as Hc1.
    pose proof (Forall_lookup_1 _ _ _ _ Hst Hx) as Hx1. destruct (Hw Hr Hrel Hc1 Hx1) as [Hc2 Hx2].
    split; cbn [clients]; by apply Forall_insert.
Qed.

(** The stages a position of the client allows. *)
Definition waiting_stage (x : stage) : Prop :=
  match x with Queued | Taken _ | Calling _ | Lost => True | _ => False end.

Lemma stages_of c x :
  local_ok clock c x ->
  match pos c with
  | Start | Created => x = Fresh
  | Reached => x = InLine
  | AckWait => if dismissed c then waiting_stage x else x = InLine
  | AcceptWait => waiting_stage x
  | Accepted s => x = Talking s
  | ReplyWait s => match x with Asked s' | Heard s' => s' = s | Answered _ => True | _ => False end
  | Exit _ => True
  end.
Proof.
  intros (_ & _ & Hl). unfold waits in Hl.
  destruct x;
    repeat match goal with
    | Hp : _ /\ _ |- _ => destruct Hp
    | Hp : _ \/ _ |- _ => destruct Hp
    | Hp : ex _ |- _ => destruct Hp
    end;
    match goal with Hp : pos c = _ |- _ => rewrite Hp end;
    try match goal with Hd : dismissed c = _ |- _ => rewrite Hd end; done.
Qed.

Lemma client_stage σ st i c :
  inv σ st -> clients σ !! i = Some c -> exists x, st !! i = Some x /\ local_ok clock c x.
Proof.
  intros [_ Ht _ _] Hc. destruct (lookup_lt_is_Some_2 st i) as [x Hx].
  { rewrite (tk_length _ _ _ _ Ht). by eapply lookup_lt_Some. }
  exists x. split; [done|]. by eapply tk_local.
Qed.

(** What a client holds after a step that the position decides. *)
Ltac solve_local :=
  unfold local_ok, quiet, waits in *; cbn in *;
  repeat match goal with H : _ /\ _ |- _ => destruct H end;
  split_and!; auto; intros; auto;
  try match goal with H : pos ?c <> Exit 0 -> screen ?c = [] |- _ => apply H end; try congruence.

(** A step of a client that concerns nobody else. *)
Lemma after_client a σ st i c c' x x' :
  inv σ st -> clients σ !! i = Some c -> st !! i = Some x -> port c' = port c ->
  local_ok clock c' x' -> uses x' = uses x -> (forall v, peer_ok i c x v -> peer_ok i c' x' v) ->
  x' = x \/ (x <> Queued /\ x <> InLine) /\ (x' <> Queued /\ x' <> InLine) ->
  pos_rank (pos c') + stage_rank x' < pos_rank (pos c) + stage_rank x ->
  ((length ports <= q_room)%nat -> reliable a = true -> pos c <> Exit 1 -> x <> Lost -> pos c' <> Exit 1 /\ x' <> Lost) ->
  after a σ st (set_client i c' σ) (<[i:=x']> st).
Proof.
  intros Hi Hc Hx Hp Hl Hu Hpeer Hk Hm Hw. pose proof Hi as [_ Ht Ho Hln].
  eapply after_intro; eauto; [by eapply talk_client| | |lia].
  - eapply order_keep; [done..|]. destruct Hk as [?|[[? ?] [? ?]]]; [by left|by right].
  - eapply line_keep; [done..|]. destruct Hk as [?|[[? ?] [? ?]]]; [by left|by right].
Qed.

Lemma client_start_ok i ok σ st σ' c :
  inv σ st -> clients σ !! i = Some c -> pos c = Start ->
  client_step i ok σ = Some σ' -> exists st', after (Client i ok) σ st σ' st'.
Proof.
  intros Hi Hc Hp. unfold client_step. rewrite Hc. cbn [mbind option_bind]. rewrite Hp. intros [= <-].
  destruct (client_stage _ _ _ _ Hi Hc) as (x & Hx & Hl). pose proof (stages_of _ _ Hl) as Hs.
  rewrite Hp in Hs. subst x. exists (<[i:=Fresh]> st).
  eapply after_client; eauto; cbn; rewrite ?Hp; try done.
  - destruct ok; solve_local.
  - by destruct ok.
  - by destruct ok.
Qed.

Lemma client_created_ok i ok σ st σ' c :
  inv σ st -> clients σ !! i = Some c -> pos c = Created ->
  client_step i ok σ = Some σ' -> exists st', after (Client i ok) σ st σ' st'.
Proof.
  intros Hi Hc Hp. unfold client_step. rewrite Hc. cbn [mbind option_bind]. rewrite Hp.
  destruct (client_stage _ _ _ _ Hi Hc) as (x & Hx & Hl). pose proof (stages_of _ _ Hl) as Hs.
  rewrite Hp in Hs. subst x. destruct ok; intros [= <-].
  - exists (<[i:=InLine]> st). pose proof Hi as [_ Ht Ho Hln].
    unfold set_listener, set_client. cbn [clients services queue listener line].
    eapply after_intro; eauto.
    + eapply talk_client; eauto. solve_local.
    + eapply order_keep; eauto.
    + unfold line_ok. rewrite app_assoc. by eapply listed_push.
    + rewrite length_app, Hp. cbn. lia.
  - exists (<[i:=Fresh]> st). eapply after_client; eauto; cbn; rewrite ?Hp; try done; solve_local.
Qed.

Lemma client_reached_ok i ok σ st σ' c :
  inv σ st -> clients σ !! i = Some c -> pos c = Reached ->
  client_step i ok σ = Some σ' -> exists st', after (Client i ok) σ st σ' st'.
Proof.
  intros Hi Hc Hp. unfold client_step. rewrite Hc. cbn [mbind option_bind]. rewrite Hp. intros [= <-].
  destruct (client_stage _ _ _ _ Hi Hc) as (x & Hx & Hl). pose proof (stages_of _ _ Hl) as Hs.
  rewrite Hp in Hs. subst x. exists (<[i:=InLine]> st).
  eapply after_client; eauto; cbn; rewrite ?Hp; try done.
  destruct Hl as (Hport & Hsc & Hq & Hd & [[_ Htl]|[Hp' _]]); [|congruence]. rewrite Htl. solve_local.
Qed.

Lemma client_acked_ok i ok σ st σ' c :
  inv σ st -> clients σ !! i = Some c -> pos c = AckWait ->
  client_step i ok σ = Some σ' -> exists st', after (Client i ok) σ st σ' st'.
Proof.
  intros Hi Hc Hp. unfold client_step. rewrite Hc. cbn [mbind option_bind]. rewrite Hp.
  destruct (dismissed c) eqn:Hd; [|done]. intros [= <-].
  destruct (client_stage _ _ _ _ Hi Hc) as (x & Hx & Hl). pose proof (stages_of _ _ Hl) as Hs.
  rewrite Hp, Hd in Hs. exists (<[i:=x]> st).
  eapply after_client; eauto; cbn; rewrite ?Hp; try done; [| |cbn; lia].
  - destruct x; try done; [solve_local..|]. destruct Hl as (Hport & Hsc & [?|Hl]); [congruence|].
    split_and!; [apply Hport..|by intros _; apply Hsc; rewrite Hp|]. right. solve_local.
  - intros v. destruct x; try done; cbn. by rewrite Hp.
Qed.

Lemma client_accept_ok i σ st σ' c :
  inv σ st -> clients σ !! i = Some c -> pos c = AcceptWait ->
  client_step i true σ = Some σ' -> exists st', after (Client i true) σ st σ' st'.
Proof.
  intros Hi Hc Hp. unfold client_step. rewrite Hc. cbn [mbind option_bind]. rewrite Hp.
  destruct (client_stage _ _ _ _ Hi Hc) as (x & Hx & Hl). pose proof (stages_of _ _ Hl) as Hs.
  rewrite Hp in Hs. destruct (pending c) as [|s rest] eqn:Hpd; [done|]. intros [= <-].
  assert (x = Calling s /\ rest = []) as [-> ->].
  { destruct Hl as (_ & _ & Hl). destruct x; try done; unfold quiet in Hl.
    - destruct Hl as [[? _] _]. congruence.
    - destruct Hl as [[? _] _]. congruence.
    - destruct Hl as (_ & _ & Hl & _). rewrite Hpd in Hl. by injection Hl as -> ->.
    - destruct Hl as [?|[[? _] _]]; congruence. }
  exists (<[i:=Talking s]> st). eapply after_client; eauto; cbn; try done.
  - solve_local.
  - intros v ->. rewrite Hp. done.
  - rewrite Hp. cbn. lia.
Qed.

Lemma client_gives_up_ok i σ st σ' c :
  inv σ st -> clients σ !! i = Some c -> pos c = AcceptWait ->
  client_step i false σ = Some σ' -> exists st', after (Client i false) σ st σ' st'.
Proof.
  intros Hi Hc Hp. unfold client_step. rewrite Hc. cbn [mbind option_bind]. rewrite Hp. intros [= <-].
  destruct (client_stage _ _ _ _ Hi Hc) as (x & Hx & Hl). pose proof (stages_of _ _ Hl) as Hs.
  rewrite Hp in Hs. exists (<[i:=x]> st).
  assert ((exists s, x = Calling s) \/ ~ exists s, x = Calling s) as [[s ->]|Hn].
  { destruct x; try (right; by intros [? ?]). left. eauto. }
  - pose proof Hi as [_ Ht Ho Hln]. destruct (tk_peer _ _ _ _ Ht _ _ _ s Hc Hx eq_refl) as (v & Hv & ->).
    assert (pending c = [s]) as -> by apply Hl.
    unfold hang_up_all, set_client. cbn [foldr clients services queue listener line].
    rewrite (alter_lookup _ _ _ _ Hv). eapply after_intro; eauto.
    + eapply talk_both; eauto; [solve_local|]. left. split; [done|]. done.
    + eapply order_keep; eauto.
    + eapply line_keep; eauto.
    + rewrite Hp. cbn. lia.
  - assert (pending c = []) as ->.
    { destruct Hl as (_ & _ & Hl). destruct x; try done; unfold quiet in Hl; [tauto..| |].
      - destruct Hn. eauto.
      - destruct Hl as [?|Hl]; [congruence|tauto]. }
    change (hang_up_all [] (set_client i (move (Exit 1) c) σ)) with (set_client i (move (Exit 1) c) σ).
    eapply after_client; eauto; cbn; try done.
    + destruct x; try done; solve_local.
    + intros v. destruct x; try done. destruct Hn. eauto.
    + rewrite Hp. cbn. lia.
Qed.

Lemma client_asks_ok i ok σ st σ' c s :
  inv σ st -> clients σ !! i = Some c -> pos c = Accepted s ->
  client_step i ok σ = Some σ' -> exists st', after (Client i ok) σ st σ' st'.
Proof.
  intros Hi Hc Hp. unfold client_step. rewrite Hc. cbn [mbind option_bind]. rewrite Hp.
  destruct (client_stage _ _ _ _ Hi Hc) as (x & Hx & Hl). pose proof (stages_of _ _ Hl) as Hs.
  rewrite Hp in Hs. subst x. pose proof Hi as [_ Ht Ho Hln].
  destruct (tk_peer _ _ _ _ Ht _ _ _ s Hc Hx eq_refl) as (v & Hv & ->).
  rewrite Hv. cbn [mbind option_bind]. intros [= <-]. exists (<[i:=Asked s]> st).
  unfold set_service, set_client. cbn [clients services queue listener line].
  eapply after_intro; eauto.
  - eapply talk_both; eauto; [solve_local|by left].
  - eapply order_keep; eauto.
  - eapply line_keep; eauto.
  - rewrite Hp. cbn. lia.
Qed.

Hypothesis Hclock : clock_ok clock.

Lemma show_reply_clock now : clock now -> show_reply (take 1023 now) = lit "Server time: " ++ now.
Proof using Hclock.
  intros Hn. destruct (Hclock now Hn) as (Hne & Hnul & Hlen). unfold show_reply.
  rewrite take_ge by done. rewrite (proj2 (Nat.ltb_lt _ _)) by (destruct now; [done|simpl; lia]). by rewrite c_str_id.
Qed.

Lemma client_prints_ok i ok σ st σ' c s :
  inv σ st -> clients σ !! i = Some c -> pos c = ReplyWait s ->
  client_step i ok σ = Some σ' -> exists st', after (Client i ok) σ st σ' st'.
Proof using Hclock.
  intros Hi Hc Hp. unfold client_step. rewrite Hc. cbn [mbind option_bind]. rewrite Hp.
  destruct (client_stage _ _ _ _ Hi Hc) as (x & Hx & Hl). pose proof (stages_of _ _ Hl) as Hs.
  rewrite Hp in Hs. destruct x as [| | | | | |s'|s'|now| |]; try done.
  1, 2: destruct Hl as (_ & _ & (_ & -> & ->) & _); done.
  destruct Hl as (Hport & Hsc & Hn & Hpd & -> & -> & _). rewrite Hpd, andb_false_r. intros [= <-].
  exists (<[i:=Served now]> st). rewrite show_reply_clock by done.
  unfold hang_up_all; cbn [foldr clients services queue listener line set_client].
  eapply after_client; eauto; cbn; try done.
  - split_and!; [apply Hport..|done|done|done|]. cbn. by rewrite Hsc by by rewrite Hp.
  - rewrite Hp. cbn. lia.
Qed.

Lemma pc_client_step_ok i ok σ st σ' :
  inv σ st -> client_step i ok σ = Some σ' -> exists st', after (Client i ok) σ st σ' st'.
Proof using Hclock.
  intros Hi Hs. assert (exists c, clients σ !! i = Some c) as [c Hc].
  { unfold client_step in Hs. destruct (clients σ !! i) as [c|]; [eauto|done]. }
  destruct (pos c) eqn:Hp.
  - by eapply client_start_ok.
  - by eapply client_created_ok.
  - by eapply client_reached_ok.
  - by eapply client_acked_ok.
  - destruct ok; [by eapply client_accept_ok|by eapply client_gives_up_ok].
  - by eapply client_asks_ok.
  - by eapply client_prints_ok.
  - unfold client_step in Hs. rewrite Hc in Hs. cbn [mbind option_bind] in Hs. by rewrite Hp in Hs.
Qed.

(** *** The listener *)

Lemma read_net_port p : 0 < p < 65536 -> read_port (take 4 (net_port p)) = Some p.
Proof.
  intros Hp. unfold net_port, htons. cbn [app take read_port]. unfold u32. rewrite (Z.mod_small p) by lia.
  rewrite (Z.div_small p 65536) by lia. change (0 / 256 mod 256) with 0. change (0 mod 256) with 0.
  pose proof (htons_value p ltac:(lia)). f_equal.
  replace (((0 * 256 + 0) * 256 + p / 256 mod 256) * 256 + p mod 256) with p by lia.
  unfold i32. rewrite Z.mod_small by lia. lia.
Qed.

(** A client that is not in the queue leaves room for itself. *)
Lemma listed_room st x y i l : listed st x l -> st !! i = Some y -> y <> x -> (length l < length st)%nat.
Proof.
  intros [Hnd Hl] Hi Hne. apply (Nat.lt_le_trans _ (length (i :: l))); [simpl; lia|].
  rewrite <- (length_seq (length st) 0). apply submseteq_length, NoDup_submseteq.
  - apply NoDup_cons. split; [|done]. intros Hin%Hl. congruence.
  - intros j Hj. apply elem_of_seq. split; [lia|]. apply elem_of_cons in Hj as [->|Hj%Hl]; by eapply lookup_lt_Some.
Qed.

Lemma listener_accepts_ok ok σ st σ' :
  inv σ st -> listener σ = Accepting ->
  listener_step ok σ = Some σ' -> exists st', after (Listener ok) σ st σ' st'.
Proof.
  intros Hi Hls. unfold listener_step. rewrite Hls. pose proof Hi as [Hp Ht Ho Hln]. exists st. destruct ok.
  - destruct (line σ) as [|i rest] eqn:El; [done|]. simplify_eq. split_and!.
    + split; [done..|]. unfold line_ok in *. cbn. by rewrite Hls in Hln.
    + unfold measure. cbn [clients line set_listener]. rewrite El. cbn [length]. lia.
    + intros _. unfold measure. cbn [clients line set_listener]. rewrite El. cbn [length]. lia.
    + intros _ _ Hw. exact Hw.
  - simplify_eq. split_and!; [done|lia| |done]. cbn [idle_turn]. by rewrite Hls.
Qed.

Lemma listener_attends_ok ok i σ st σ' :
  inv σ st -> listener σ = Attending i ->
  listener_step ok σ = Some σ' -> exists st', after (Listener ok) σ st σ' st'.
Proof.
  intros Hi Hls. unfold listener_step. rewrite Hls. pose proof Hi as [Hp Ht (Hq & o & Hv & Hol) Hln].
  destruct (clients σ !! i) as [c|] eqn:Hc; [|done]. cbn [mbind option_bind].
  unfold line_ok in Hln. rewrite Hls in Hln. cbn [attended app] in Hln.
  pose proof (proj1 (proj2 Hln i) (list_elem_of_here _ _)) as Hx. pose proof (tk_local _ _ _ _ Ht _ _ _ Hc Hx) as Hl.
  case_bool_decide as Hne; [done|].
  destruct (tk_local _ _ _ _ Ht _ _ _ Hc Hx) as (Hport & _ & _ & _ & [[_ ?]|[Hpos Htl]]); [done|]. rewrite Htl.
  unfold listener_turn. rewrite read_net_port by done. cbn [mbind option_bind].
  destruct (enq_spec (queue σ) (port c) Hq) as (q' & -> & Hq' & Hv'). cbn [mbind option_bind]. intros [= <-].
  pose proof (listed_room _ _ _ _ _ Hol Hx ltac:(done)) as Hlen. rewrite Hv, length_fmap in Hv'.
  assert (length st = length ports) as Hst by by rewrite <- Hp, length_fmap, (tk_length _ _ _ _ Ht).
  set (x' := if (length o <? q_room)%nat then Queued else Lost). exists (<[i:=x']> st).
  unfold set_listener, set_queue, set_client. cbn [clients services queue listener line].
  eapply after_intro; eauto.
  - eapply talk_client; eauto; unfold x'; case_match; try done; solve_local.
  - split; [done|]. unfold x'. destruct (length o <? q_room)%nat.
    + exists (o ++ [i]). split; [|by eapply listed_push]. rewrite Hv', fmap_app. do 2 f_equal. cbn.
      unfold port_of. by rewrite <- Hp, list_lookup_fmap, Hc.
    + exists o. split; [done|]. eapply listed_keep; eauto.
  - eapply (listed_pop _ _ _ _ (line σ)); [|done]. unfold x'. by destruct (_ <? _)%nat.
  - cbn. unfold x'. destruct (_ <? _)%nat; cbn; lia.
  - intros Hroom _ He _. split; [done|]. unfold x'. by rewrite (proj2 (Nat.ltb_lt _ _)) by lia.
Qed.

Lemma listener_step_ok ok σ st σ' :
  inv σ st -> listener_step ok σ = Some σ' -> exists st', after (Listener ok) σ st σ' st'.
Proof.
  intros Hi. destruct (listener σ) eqn:El; [by apply listener_accepts_ok|by eapply listener_attends_ok].
Qed.

(** *** The services *)

(** A service is idle or works for a client. *)
Lemma service_user σ st s v :
  inv σ st -> services σ !! s = Some v ->
  v = idle_service \/
  exists i c x, clients σ !! i = Some c /\ st !! i = Some x /\ uses x = Some s /\
    local_ok clock c x /\ peer_ok i c x v.
Proof.
  intros [_ Ht _ _] Hv. destruct (tk_service _ _ _ _ Ht s v Hv) as [?|(i & x & Hx & Hu)]; [by left|right].
  destruct (lookup_lt_is_Some_2 (clients σ) i) as [c Hc].
  { rewrite <- (tk_length _ _ _ _ Ht). by eapply lookup_lt_Some. }
  destruct (tk_peer _ _ _ _ Ht _ _ _ _ Hc Hx Hu) as (w & Hw & Hp). simplify_eq.
  exists i, c, x. split_and!; [done..| |done]. by eapply tk_local.
Qed.

Lemma service_polls_ok s ok now σ st σ' v :
  inv σ st -> services σ !! s = Some v -> at_ v = Polling ->
  service_step s ok now σ = Some σ' -> exists st', after (Service s ok now) σ st σ' st'.
Proof.
  intros Hi Hv Hat. unfold service_step. rewrite Hv. cbn [mbind option_bind]. rewrite Hat.
  destruct (service_user _ _ _ _ Hi Hv) as [->|(i & c & x & _ & _ & _ & _ & Hpeer)];
    [|destruct x; cbn in Hpeer; by subst].
  pose proof Hi as [Hp Ht (Hq & o & Hvw & Hol) Hln].
  destruct (deq_spec (queue σ) Hq) as (q' & Hd & Hq' & Hv'). rewrite Hd. cbn [mbind option_bind].
  destruct o as [|i o]; rewrite Hvw in Hd, Hv' |- *; cbn [fmap list_fmap List.hd tail] in *.
  - intros [= <-]. exists st. split_and!.
    + split; [done|done| |done]. split; [done|]. by exists [].
    + apply Z.le_refl.
    + cbn [idle_turn]. rewrite Hv, Hd. done.
    + intros _ _ Hw. exact Hw.
  - pose proof (proj1 (proj2 Hol i) (list_elem_of_here _ _)) as Hx.
    destruct (lookup_lt_is_Some_2 (clients σ) i) as [c Hc].
    { rewrite <- (tk_length _ _ _ _ Ht). by eapply lookup_lt_Some. }
    assert (port_of i = port c) as -> by (unfold port_of; by rewrite <- Hp, list_lookup_fmap, Hc).
    pose proof (tk_local _ _ _ _ Ht _ _ _ Hc Hx) as Hl. destruct (Z.eqb_spec (port c) (-1)); [destruct Hl; lia|].
    intros [= <-]. exists (<[i:=Taken s]> st).
    unfold set_queue, set_service. cbn [clients services queue listener line].
    rewrite <- (list_insert_id (clients σ) i c) by done. eapply after_intro; eauto.
    + eapply talk_both; eauto. by left.
    + split; [done|]. exists o. split; [done|]. by eapply listed_pop.
    + eapply line_keep; eauto.
    + cbn. lia.
Qed.

(** A client that listens is found by its port. *)
Lemma who_listens_port (σ : sys Q) i c :
  NoDup ports -> port <$> clients σ = ports -> clients σ !! i = Some c -> 0 < port c < 65536 ->
  who_listens (port c) (clients σ) = if listens c then Some (i, c) else None.
Proof.
  intros Hnd Hp Hc Hport. assert (u16 (port c) = port c) as Hu by (unfold u16; rewrite Z.mod_small; lia).
  unfold who_listens. rewrite Hu.
  assert (forall j d, clients σ !! j = Some d -> port d = port c -> j = i) as Hone.
  { intros j d Hd He. eapply (NoDup_lookup ports); [done| |]; rewrite <- Hp, list_lookup_fmap.
    - by rewrite Hd.
    - rewrite Hc. cbn. by rewrite He. }
  destruct (listens c) eqn:El.
  - apply list_find_Some. split_and!; [done..|]. intros j d Hd Hj [_ He]. pose proof (Hone _ _ Hd He). lia.
  - apply list_find_None, Forall_forall. intros d [j Hd]%list_elem_of_lookup [Hls He].
    pose proof (Hone _ _ Hd He) as ->. congruence.
Qed.

Lemma service_dials_ok s ok now σ st σ' v p :
  NoDup ports -> inv σ st -> services σ !! s = Some v -> at_ v = Dialing p ->
  service_step s ok now σ = Some σ' -> exists st', after (Service s ok now) σ st σ' st'.
Proof.
  intros Hnd Hi Hv Hat. unfold service_step. rewrite Hv. cbn [mbind option_bind]. rewrite Hat.
  destruct (service_user _ _ _ _ Hi Hv) as [->|(i & c & x & Hc & Hx & Hu & Hl & Hpeer)]; [done|].
  assert (x = Taken s /\ v = mkService (Dialing (port c)) [] false /\ p = port c) as (-> & -> & ->).
  { destruct x; cbn in Hpeer, Hu; simplify_eq; cbn in Hat; by simplify_eq. }
  pose proof Hi as [Hp Ht Ho Hln]. pose proof Hl as (Hport & _ & Hq & Hw).
  rewrite (who_listens_port _ _ _ Hnd Hp Hc Hport).
  assert (pos c = Exit 1 \/ ok = false -> after (Service s ok now) σ st (set_service s idle_service σ) (<[i:=Lost]> st)) as Hlost.
  { intros Hor. unfold set_service. rewrite <- (list_insert_id (clients σ) i c) at 1 by done. eapply after_intro; eauto.
    - eapply talk_both; eauto. destruct Hl as (? & ? & _). split_and!; [tauto..|by right].
    - by eapply order_keep; eauto.
    - by eapply line_keep; eauto.
    - cbn. lia.
    - cbn. intros _ -> ?. by destruct Hor. }
  destruct ok; cbn [negb]; [|intros [= <-]; eauto].
  destruct (listens c) eqn:El.
  - intros [= <-]. exists (<[i:=Calling s]> st). unfold set_service, set_client. cbn [clients services queue listener line].
    assert (pos c <> Exit 1) as Hne by (intros He; unfold listens in El; by rewrite He in El).
    eapply after_intro; eauto.
    + eapply talk_both; eauto; [|left; split; [done|]; cbn; by rewrite bool_decide_false].
      destruct Hq as (Hpd & ? & ?). destruct Hl as (? & ? & _). split_and!; cbn; try tauto. by rewrite Hpd.
    + by eapply order_keep; eauto.
    + by eapply line_keep; eauto.
    + cbn. lia.
  - intros [= <-]. exists (<[i:=Lost]> st). apply Hlost. left. unfold listens in El. destruct Hw as [_ [He|[He|He]]]; by rewrite He in El |- *.
Qed.

Lemma service_reads_ok s ok now σ st σ' v j :
  inv σ st -> services σ !! s = Some v -> at_ v = ReadWait j ->
  service_step s ok now σ = Some σ' -> exists st', after (Service s ok now) σ st σ' st'.
Proof.
  intros Hi Hv Hat. unfold service_step. rewrite Hv. cbn [mbind option_bind]. rewrite Hat.
  destruct (service_user _ _ _ _ Hi Hv) as [->|(i & c & x & Hc & Hx & Hu & Hl & Hpeer)]; [done|].
  pose proof Hi as [Hp Ht Ho Hln].
  assert (j = i) as -> by (destruct x; cbn in Hpeer; try done; rewrite Hpeer in Hat; cbn in Hat; by simplify_eq).
  destruct x; cbn in Hpeer, Hu; try done; rewrite Hpeer in Hat, Hv |- *; try done; injection Hu as ->; cbn [sbox gone].
  - case_bool_decide as He; [|done]. rewrite Hc. cbn [mbind option_bind].
    rewrite bool_decide_true by done. intros [= <-]. exists (<[i:=Lost]> st).
    unfold set_service, set_client. cbn [clients services queue listener line]. eapply after_intro; eauto.
    + eapply talk_both; eauto. destruct Hl as (? & ? & _). split_and!; [tauto..|by left].
    + by eapply order_keep; eauto.
    + by eapply line_keep; eauto.
    + cbn. lia.
  - rewrite bool_decide_false by done. intros [= <-]. exists (<[i:=Heard s]> st).
    unfold set_service. rewrite <- (list_insert_id (clients σ) i c) at 1 by done. eapply after_intro; eauto.
    + eapply talk_both; eauto. by left.
    + by eapply order_keep; eauto.
    + by eapply line_keep; eauto.
    + cbn. lia.
Qed.

Lemma service_replies_ok s ok now σ st σ' v j request :
  clock now -> inv σ st -> services σ !! s = Some v -> at_ v = Replying j request ->
  service_step s ok now σ = Some σ' -> exists st', after (Service s ok now) σ st σ' st'.
Proof.
  intros Hnow Hi Hv Hat. unfold service_step. rewrite Hv. cbn [mbind option_bind]. rewrite Hat.
  destruct (service_user _ _ _ _ Hi Hv) as [->|(i & c & x & Hc & Hx & Hu & Hl & Hpeer)]; [done|].
  pose proof Hi as [Hp Ht Ho Hln].
  destruct x; cbn in Hpeer, Hu; try done; rewrite Hpeer in Hat, Hv; try done. injection Hu as ->. injection Hat as <- <-.
  rewrite Hc. cbn [mbind option_bind]. intros [= <-]. exists (<[i:=Answered now]> st).
  change (respond (answer REQUEST) now) with now.
  unfold set_service, set_client. cbn [clients services queue listener line]. eapply after_intro; eauto.
  - eapply talk_both; eauto. destruct Hl as (? & ? & (Hpd & Hin & Hh) & Hpos).
    split_and!; cbn; [tauto..|done|done|by rewrite Hin|by rewrite orb_true_r|eauto].
  - by eapply order_keep; eauto.
  - by eapply line_keep; eauto.
  - cbn. lia.
Qed.

(** *** All steps *)

Definition timely (a : action) : Prop := match a with Service _ _ now => clock now | _ => True end.

Lemma pc_step_ok a σ st σ' :
  NoDup ports -> timely a -> inv σ st -> step a σ = Some σ' -> exists st', after a σ st σ' st'.
Proof using Hclock.
  intros Hnd Ha Hi. destruct a as [i ok|ok|s ok now]; cbn [step].
  - by apply pc_client_step_ok.
  - by apply listener_step_ok.
  - intros Hs. assert (exists v, services σ !! s = Some v) as [v Hv].
    { unfold service_step in Hs. destruct (services σ !! s) as [v|]; [eauto|done]. }
    destruct (at_ v) eqn:Hat.
    + by eapply service_polls_ok.
    + by eapply service_dials_ok.
    + by eapply service_reads_ok.
    + by eapply service_replies_ok.
Qed.

(** The steps of a run that are not idle turns. *)
Fixpoint work (acts : list action) (σ : sys Q) : nat :=
  match acts with
  | [] => 0
  | a :: acts' =>
      match step a σ with
      | Some σ' => ((if idle_turn a σ then 0 else 1) + work acts' σ')%nat
      | None => 0
      end
  end.

Lemma measure_nonneg σ st : 0 <= measure σ st.
Proof.
  unfold measure. pose proof (zsum_nonneg (fun c => pos_rank (pos c)) (clients σ)) as H1.
  pose proof (zsum_nonneg stage_rank st) as H2.
  assert (0 <= zsum (fun c => pos_rank (pos c)) (clients σ)) by (apply H1; intros c; by destruct (pos c)).
  assert (0 <= zsum stage_rank st) by (apply H2; intros x; by destruct x). lia.
Qed.

Lemma pc_run_ok acts σ st σ' :
  NoDup ports -> Forall timely acts -> inv σ st -> run_system acts σ = Some σ' ->
  exists st', inv σ' st' /\ Z.of_nat (work acts σ) + measure σ' st' <= measure σ st /\
    ((length ports <= q_room)%nat -> Forall (fun a => reliable a = true) acts -> well σ st -> well σ' st').
Proof using Hclock.
  intros Hnd. revert σ st. induction acts as [|a acts IH]; intros σ st Hf Hi Hrun.
  { injection Hrun as <-. exists st. split_and!; [done|cbn; lia|done]. }
  apply Forall_cons in Hf as [Ha Hf]. cbn [run_system work] in *.
  destruct (step a σ) as [σ1|] eqn:Es; [|done]. cbn [mbind option_bind] in Hrun.
  destruct (pc_step_ok _ _ _ _ Hnd Ha Hi Es) as (st1 & Hi1 & Hm & Hm' & Hw).
  destruct (IH _ _ Hf Hi1 Hrun) as (st' & Hi' & Hm2 & Hw2). exists st'. split_and!; [done| |].
  - destruct (idle_turn a σ); [lia|]. specialize (Hm' eq_refl). lia.
  - intros Hr [Hra Hrel]%Forall_cons Hwell. auto.
Qed.

(** *** There is always something to do *)

Context (now0 : cstr) (Hnow0 : clock now0).

(** A step that is not an idle turn and in which nothing fails. *)
Definition can_work (σ : sys Q) : Prop :=
  exists a, reliable a = true /\ timely a /\ is_Some (step a σ) /\ idle_turn a σ = false.

Lemma client_works i σ : is_Some (client_step i true σ) -> can_work σ.
Proof. intros Hs. by exists (Client i true). Qed.

Lemma talk_progress σ st i c x :
  inv σ st -> clients σ !! i = Some c -> st !! i = Some x -> pos c <> Exit 1 ->
  uses x <> None \/ (exists now, x = Answered now) -> can_work σ.
Proof using Hnow0.
  intros Hi Hc Hx Hne Hu. pose proof Hi as [_ Ht _ _]. pose proof (tk_local _ _ _ _ Ht _ _ _ Hc Hx) as (_ & _ & Hl).
  assert (forall s, uses x = Some s -> exists v, services σ !! s = Some v /\ peer_ok i c x v) as Hp
    by (intros s Hs; by apply (tk_peer _ _ _ _ Ht _ _ _ _ Hc Hx)).
  assert (forall s v, services σ !! s = Some v -> at_ v <> Polling -> is_Some (service_step s true now0 σ) -> can_work σ) as Hsrv.
  { intros s v Hv Hat Hs. exists (Service s true now0). split_and!; [done..|]. cbn [idle_turn]. rewrite Hv.
    destruct (deq (queue σ)) as [[p q]|]; [|done]. by destruct (at_ v). }
  destruct x as [| | |s|s|s|s|s|now|now|]; try (by destruct Hu as [?|[? ?]]).
  - destruct (Hp s eq_refl) as (v & Hv & ->). apply (Hsrv _ _ Hv); [done|]. unfold service_step. rewrite Hv.
    cbn. destruct (who_listens _ _) as [[j d]|]; done.
  - destruct Hl as (_ & _ & Hpd & Hd & [Hpos|[Hpos|?]]); [| |done]; apply (client_works i);
      unfold client_step; rewrite Hc; cbn [mbind option_bind]; rewrite Hpos, ?Hd, ?Hpd; done.
  - destruct (Hp s eq_refl) as (v & Hv & _). apply (client_works i).
    unfold client_step. rewrite Hc. cbn [mbind option_bind]. by rewrite (proj2 Hl), Hv.
  - destruct (Hp s eq_refl) as (v & Hv & ->). apply (Hsrv _ _ Hv); [done|]. unfold service_step. by rewrite Hv.
  - destruct (Hp s eq_refl) as (v & Hv & ->). apply (Hsrv _ _ Hv); [done|]. unfold service_step. rewrite Hv.
    cbn. by rewrite Hc.
  - destruct Hl as (_ & _ & _ & Hh & s & Hpos). apply (client_works i).
    unfold client_step. rewrite Hc. cbn [mbind option_bind]. by rewrite Hpos, Hh, andb_false_r.
Qed.

Lemma reached_works σ i c : clients σ !! i = Some c -> pos c = Reached -> can_work σ.
Proof. intros Hc Hp. apply (client_works i). unfold client_step. rewrite Hc. cbn. by rewrite Hp. Qed.

Lemma line_progress σ st i c :
  inv σ st -> clients σ !! i = Some c -> st !! i = Some InLine -> can_work σ.
Proof.
  intros Hi Hc Hx. pose proof Hi as [_ Ht [Hq _] [_ Hln]].
  destruct (listener σ) as [|j] eqn:El; cbn [attended app] in Hln.
  - exists (Listener true). cbn [reliable timely step idle_turn negb andb]. split_and!; [done..| |done].
    unfold listener_step. rewrite El. pose proof (proj2 (Hln i) Hx) as Hin. destruct (line σ); [by apply not_elem_of_nil in Hin|done].
  - pose proof (proj1 (Hln j) (list_elem_of_here _ _)) as Hxj.
    destruct (lookup_lt_is_Some_2 (clients σ) j) as [d Hd].
    { rewrite <- (tk_length _ _ _ _ Ht). by eapply lookup_lt_Some. }
    destruct (tk_local _ _ _ _ Ht _ _ _ Hd Hxj) as (Hport & _ & _ & _ & [[Hpos _]|[_ Htl]]); [by eapply reached_works|].
    exists (Listener true). cbn [reliable timely step idle_turn negb andb]. split_and!; [done..| |done].
    unfold listener_step. rewrite El, Hd. cbn [mbind option_bind]. rewrite Htl, bool_decide_false by done.
    unfold listener_turn. rewrite read_net_port by done. cbn [mbind option_bind].
    destruct (enq_spec (queue σ) (port d) Hq) as (q' & -> & _). done.
Qed.

Lemma queue_progress σ st i c :
  inv σ st -> services σ <> [] -> Forall (fun c => pos c <> Exit 1) (clients σ) ->
  clients σ !! i = Some c -> st !! i = Some Queued -> can_work σ.
Proof using Hnow0.
  intros Hi Hs Hw Hc Hx. destruct (services σ !! 0%nat) as [v|] eqn:Hv; [|by destruct (services σ)].
  destruct (service_user _ _ _ _ Hi Hv) as [->|(j & d & y & Hd & Hy & Hu & _ & _)].
  - exists (Service 0 true now0). pose proof Hi as [Hp Ht (Hq & o & Hvw & Hol) _].
    destruct (deq_spec (queue σ) Hq) as (q' & Hd & _). cbn [reliable timely step idle_turn].
    rewrite Hv, Hd. split_and!; [done..|by unfold service_step; rewrite Hv; cbn; rewrite Hd|]. cbn.
    rewrite Hvw. destruct o as [|j o]; [by pose proof (proj2 (proj2 Hol i) Hx) as ?%not_elem_of_nil|].
    pose proof (proj1 (proj2 Hol j) (list_elem_of_here _ _)) as Hxj.
    destruct (lookup_lt_is_Some_2 (clients σ) j) as [d Hdj].
    { rewrite <- (tk_length _ _ _ _ Ht). by eapply lookup_lt_Some. }
    destruct (tk_local _ _ _ _ Ht _ _ _ Hdj Hxj) as (Hport & _). cbn. unfold port_of.
    rewrite <- Hp, list_lookup_fmap, Hdj. cbn. lia.
  - eapply talk_progress; eauto; [by eapply (Forall_lookup_1 _ _ _ _ Hw Hd)|]. left. by rewrite Hu.
Qed.

Lemma progress σ st :
  inv σ st -> well σ st -> services σ <> [] ->
  Forall (fun c => pos c = Exit 0) (clients σ) \/ can_work σ.
Proof using Hnow0.
  intros Hi [Hw Hl0] Hs. destruct (decide (Forall (fun c => pos c = Exit 0) (clients σ))) as [?|Hn]; [by left|right].
  apply not_Forall_Exists, Exists_exists in Hn as (c & [i Hc]%list_elem_of_lookup & Hne); [|intros ?; apply _].
  destruct (client_stage _ _ _ _ Hi Hc) as (x & Hx & Hl). pose proof (Forall_lookup_1 _ _ _ _ Hw Hc) as Hne1.
  pose proof (Forall_lookup_1 _ _ _ _ Hl0 Hx) as HnL. cbn beta in *.
  destruct x as [| | |s|s|s|s|s|now|now|]; [| | |by eapply talk_progress; eauto..| |done].
  - apply (client_works i). unfold client_step. rewrite Hc. cbn. destruct Hl as (_ & _ & _ & [Hp|[Hp|Hp]] & _); by rewrite Hp.
  - by eapply line_progress.
  - by eapply queue_progress.
  - by destruct Hl as (_ & _ & _ & ? & _).
Qed.
End invariant_kept.

Section initial.
Context {Q : Type} `{QueueSpec Q} (clock : cstr -> Prop).

Lemma init_talk n ports :
  Forall (fun p => 0 < p < 65536) ports ->
  talk_ok clock (new_client <$> ports) (replicate n idle_service) (replicate (length ports) Fresh).
Proof.
  intros Hf. split.
  - by rewrite length_replicate, length_fmap.
  - intros i c x Hc [-> _]%lookup_replicate_1. apply list_lookup_fmap_Some_1 in Hc as (p & -> & Hp).
    pose proof (Forall_lookup_1 _ _ _ _ Hf Hp) as Hport. unfold local_ok, quiet; cbn. destruct Hport. split_and!; auto.
  - by intros i c x s _ [-> _]%lookup_replicate_1.
  - by intros i j x y s [-> _]%lookup_replicate_1.
  - intros s v [-> _]%lookup_replicate_1. by left.
Qed.

Lemma init_inv (q : Q) n ports :
  q_inv q -> q_view q = [] -> Forall (fun p => 0 < p < 65536) ports ->
  inv clock ports (init_system q n ports) (replicate (length ports) Fresh).
Proof.
  assert (forall x, x <> Fresh -> listed (replicate (length ports) Fresh) x []) as Hnone.
  { intros x Hx. split; [constructor|]. intros i. split; [by intros ?%not_elem_of_nil|].
    intros [-> _]%lookup_replicate_1. done. }
  intros Hq Hv Hf. split.
  - cbn. rewrite <- list_fmap_compose. apply list_eq. intros i. rewrite list_lookup_fmap. by destruct (ports !! i).
  - by apply init_talk.
  - split; [done|]. exists []. split; [done|]. by apply Hnone.
  - by apply Hnone.
Qed.

Lemma init_measure (q : Q) n ports :
  measure (init_system q n ports) (replicate (length ports) Fresh) = 17 * Z.of_nat (length ports).
Proof.
  unfold measure, init_system. cbn [clients line length].
  induction ports as [|p ports IH]; [done|]. cbn [fmap list_fmap length replicate]. rewrite !zsum_cons.
  cbn [new_client pos pos_rank stage_rank]. lia.
Qed.

Lemma init_well (q : Q) n ports : well (init_system q n ports) (replicate (length ports) Fresh).
Proof. split; cbn; [by apply Forall_fmap, Forall_true|by apply Forall_replicate]. Qed.

Lemma step_services a (σ σ' : sys Q) : step a σ = Some σ' -> length (services σ') = length (services σ).
Proof.
  assert (forall ss vs, length (foldr (fun s vs => alter hang_up s vs) vs ss) = length vs) as Hh.
  { intros ss vs. induction ss as [|s ss IH]; [done|]. cbn. by rewrite length_alter. }
  intros Hs. destruct a as [i ok|ok|s ok now]; cbn in Hs; unfold client_step, listener_step, service_step in Hs;
    repeat (case_match || (apply bind_Some in Hs as (? & ? & Hs))); simplify_eq/=; rewrite ?length_insert, ?length_alter, ?Hh; done.
Qed.

Lemma run_services acts (σ σ' : sys Q) : run_system acts σ = Some σ' -> length (services σ') = length (services σ).
Proof.
  revert σ. induction acts as [|a acts IH]; intros σ; [by intros [= <-]|]. cbn [run_system].
  destruct (step a σ) as [σ1|] eqn:Es; [|done]. intros Hr. by rewrite (IH _ Hr), (step_services _ _ _ Es).
Qed.

End initial.

(** ** Properties *)


(** Two clients and two services; the second client is the first to be queued. *)
Definition demo_run : list action :=
  [Client 0 true; Client 1 true; Client 1 true; Client 1 true; Client 0 true; Listener true; Listener true;
   Client 0 true; Service 1 true noon; Service 0 true noon; Listener true; Service 1 true noon; Client 1 true;
   Client 1 true; Listener true; Client 1 true; Service 1 true noon; Service 1 true noon; Service 0 true noon;
   Client 1 true; Service 0 true noon].

