(* ===== verification/TimeServers.v ===== *)
(** * Two small time servers

    [sockets/сlient-server_schemes/simple_parallel_tcp_server] ([Forking]): for every client the server
    forks a process that opens a socket of its own, tells the client its port and answers one
    request there.  [sockets/сlient-server_schemes/multiprotocol-server] ([Epoll]): one process
    answers TCP and UDP clients as [epoll_wait] reports them.  Sockets are opened by the kernel; what is
    sent and received is modelled. *)

From S2P Require Import Prelude CString Clock.

(** What the clients print for the bytes their [read] or [recvfrom] gave; [size] is the room in
    their buffer. *)
Definition show_time (size : nat) (bytes : list byte) : list byte :=
  let buf := take size bytes in
  if (0 <? length buf)%nat then lit "Server time: " ++ c_str buf else [].

Lemma show_time_line size now : time_line now -> (63 <= size)%nat -> show_time size now = lit "Server time: " ++ now.
Proof.
  intros (Hne & Hnul & Hlen) Hs. unfold show_time. rewrite take_ge by lia.
  rewrite (proj2 (Nat.ltb_lt _ _)) by (destruct now; [done|simpl; lia]). by rewrite c_str_id.
Qed.

(** ** A process for every client *)

Module Forking.

(** Where the forked process is: before [bind], before [listen], in [accept], in the [read] of the
    request, after [exit]; [NoChild] when [fork] failed. *)
Inductive child_pos := Begin | Bound (port : Z) | Listening (port : Z) | Serving (port : Z) | Exited | NoChild.

(** Where the client is: in the [read] of the port, before the second [connect], before the
    [write] of the request, in the [read] of the answer, after [main]; killed by the signal that
    a [write] to a socket without connection raises; at the use of a port it never got. *)
Inductive client_pos := Unserved | HasPort (port : Z) | Asking | Waiting | Done (printed : list byte) | Killed | Garbage.

(** One client of the listener and the process forked for it: [wire] and [wire_open] are the connection
    from the listener to the client, [connected] the connection to the process' own socket,
    [to_child] and [to_client] the bytes on it, [hung_up] that the process closed it. *)
Record session := mkSession {
  child : child_pos;
  client : client_pos;
  wire : list byte;
  wire_open : bool;
  connected : bool;
  to_child : list byte;
  to_client : list byte;
  hung_up : bool
}.

(** The four bytes of an [int] in memory, and the [int] read back from them. *)
Definition int_bytes (z : Z) : list byte := [z mod 256; z / 256 mod 256; z / 65536 mod 256; z / 16777216 mod 256].
Definition read_int (b : list byte) : option Z :=
  match b with [a; b; c; d] => Some (i32 (a + 256 * b + 65536 * c + 16777216 * d)) | _ => None end.

(** One turn of the server's loop. *)
Definition server_turn (fork_ok : bool) (ss : list session) : list session :=
  ss ++ [mkSession (if fork_ok then Begin else NoChild) Unserved [] fork_ok false [] [] false].

(** The port of a socket that is open. *)
Definition open_port (s : session) : option Z :=
  match child s with Bound p | Listening p | Serving p => Some p | _ => None end.

(** One step of a forked process; [port] is what the kernel gives to [bind], which is no port in
    use, and [now] what [get_time] stores. *)
Definition child_step (port : Z) (now : cstr) (ss : list session) (s : session) : option session :=
  match child s with
  | Begin =>
      if bool_decide (Exists (fun s' => open_port s' = Some port) ss) then None
      else Some (mkSession (Bound port) (client s) (wire s ++ int_bytes port) (wire_open s) (connected s)
                   (to_child s) (to_client s) (hung_up s))
  | Bound p =>
      Some (mkSession (Listening p) (client s) (wire s) (wire_open s) (connected s) (to_child s) (to_client s) (hung_up s))
  | Listening p =>
      if connected s then
        Some (mkSession (Serving p) (client s) (wire s) (wire_open s) (connected s) (to_child s) (to_client s) (hung_up s))
      else None
  | Serving p =>
      if bool_decide (to_child s = []) then None
      else Some (mkSession Exited (client s) (wire s) false (connected s) (drop 1023 (to_child s))
                   (to_client s ++ now) true)
  | Exited | NoChild => None
  end.

(** The process that listens on a port. *)
Definition listens_on (p : Z) (s : session) : Prop := child s = Listening (u16 p).

#[export] Instance child_pos_eq_dec : EqDecision child_pos.
Proof. solve_decision. Defined.
#[export] Instance listens_on_dec p s : Decision (listens_on p s) := decide (child s = Listening (u16 p)).

Definition set_client (c : client_pos) (s : session) : session :=
  mkSession (child s) c (wire s) (wire_open s) (connected s) (to_child s) (to_client s) (hung_up s).
Definition connect (s : session) : session :=
  mkSession (child s) (client s) (wire s) (wire_open s) true (to_child s) (to_client s) (hung_up s).
Definition send_request (b : list byte) (s : session) : session :=
  mkSession (child s) (client s) (wire s) (wire_open s) (connected s) (to_child s ++ b) (to_client s) (hung_up s).

(** One step of the client of session [i].  [Asking] talks to the process whose socket it is connected
    with. *)
Definition client_step (i : nat) (ss : list session) (s : session) : option (list session) :=
  match client s with
  | Unserved =>
      match read_int (take 4 (wire s)) with
      | Some p => Some (<[i := set_client (HasPort p) s]> ss)
      | None => if wire_open s then None else Some (<[i := set_client Garbage s]> ss)
      end
  | HasPort p =>
      match list_find (listens_on p) ss with
      | Some (j, _) => Some (alter connect j (<[i := set_client Asking s]> ss))
      | None => Some (<[i := set_client Killed s]> ss)
      end
  | Asking => Some (<[i := send_request (lit "time" ++ [NL]) (set_client Waiting s)]> ss)
  | Waiting =>
      if bool_decide (to_client s = []) && negb (hung_up s) then None
      else Some (<[i := set_client (Done (show_time 1023 (to_client s))) s]> ss)
  | Done _ | Killed | Garbage => None
  end.

Inductive action := Accept (fork_ok : bool) | Child (i : nat) (port : Z) (now : cstr) | Client (i : nat).

Definition step (a : action) (ss : list session) : option (list session) :=
  match a with
  | Accept ok => Some (server_turn ok ss)
  | Child i p now => s ← ss !! i; s' ← child_step p now ss s; Some (<[i := s']> ss)
  | Client i => s ← ss !! i; client_step i ss s
  end.

Fixpoint run (acts : list action) (ss : list session) : option (list session) :=
  match acts with [] => Some ss | a :: acts' => ss' ← step a ss; run acts' ss' end.

(** *** The invariant *)

(** Nothing has happened on the socket of the process. *)
Definition unused (s : session) : Prop :=
  connected s = false /\ to_child s = [] /\ to_client s = [] /\ hung_up s = false.
Definition linked (request : list byte) (s : session) : Prop :=
  connected s = true /\ to_child s = request /\ to_client s = [] /\ hung_up s = false.

Section invariant.
Context (clock : cstr -> Prop).

Definition session_ok (s : session) : Prop :=
  match child s, client s with
  | NoChild, Unserved => wire s = [] /\ wire_open s = false /\ unused s
  | NoChild, Garbage => True
  | Begin, Unserved => wire s = [] /\ wire_open s = true /\ unused s
  | (Bound p | Listening p), Unserved => wire s = int_bytes p /\ (0 < p < 65536) /\ unused s
  | (Bound p | Listening p), HasPort q => q = p /\ (0 < p < 65536) /\ unused s
  | (Bound _ | Listening _), Killed => unused s
  | (Listening _ | Serving _), Asking => linked [] s
  | (Listening _ | Serving _), Waiting => linked (lit "time" ++ [NL]) s
  | Exited, Waiting => clock (to_client s)
  | Exited, Done out => exists now, clock now /\ out = lit "Server time: " ++ now
  | _, _ => False
  end.

(** Every open socket has a port of its own. *)
Definition distinct (ss : list session) : Prop :=
  forall i j s s' p, ss !! i = Some s -> ss !! j = Some s' -> open_port s = Some p -> open_port s' = Some p -> i = j.

Definition sessions_ok (ss : list session) : Prop := Forall session_ok ss /\ distinct ss.

Lemma sessions_update i s s' ss :
  sessions_ok ss -> ss !! i = Some s -> session_ok s' ->
  (forall p, open_port s' = Some p -> open_port s = Some p \/ Forall (fun x => open_port x <> Some p) ss) ->
  sessions_ok (<[i := s']> ss).
Proof.
  intros [Hf Hd] Hi Hs Hp. split; [by apply Forall_insert|].
  assert (forall j x p, <[i:=s']> ss !! j = Some x -> open_port x = Some p -> j <> i ->
    open_port s' = Some p -> False) as Hno.
  { intros j x p Hj Hx Hne Hs'. rewrite list_lookup_insert_ne in Hj by done. destruct (Hp p Hs') as [He|HF].
    - by apply Hne, (Hd j i x s p).
    - by apply (Forall_lookup_1 _ _ _ _ HF Hj). }
  intros j k x y p Hj Hk Hx Hy. pose proof (lookup_lt_Some _ _ _ Hi) as Hlt.
  destruct (decide (j = i)) as [->|Hji], (decide (k = i)) as [->|Hki]; [done| | |].
  - rewrite list_lookup_insert_eq in Hj by done. simplify_eq. by destruct (Hno k y p).
  - rewrite list_lookup_insert_eq in Hk by done. simplify_eq. by destruct (Hno j x p).
  - rewrite list_lookup_insert_ne in Hj, Hk by done. by apply (Hd j k x y p).
Qed.

Definition timely (a : action) : Prop :=
  match a with Child _ p now => 0 < p < 65536 /\ clock now | _ => True end.

(** The client connects before the process listens. *)
Definition early (a : action) (ss : list session) : bool :=
  match a with
  | Client i =>
      match ss !! i with
      | Some s => match client s, child s with HasPort _, Bound _ => true | _, _ => false end
      | None => false
      end
  | _ => false
  end.

(** The executions in which nobody is early. *)
Fixpoint patient (acts : list action) (ss : list session) : bool :=
  match acts with
  | [] => true
  | a :: acts' => negb (early a ss) && match step a ss with Some ss' => patient acts' ss' | None => true end
  end.

Definition lucky (s : session) : Prop := client s <> Killed.

Lemma session_turn_ok ok ss : sessions_ok ss -> sessions_ok (server_turn ok ss).
Proof.
  intros [Hf Hd]. unfold server_turn. split.
  - apply Forall_app. split; [done|]. apply Forall_singleton. by destruct ok.
  - intros i j s s' p Hi Hj Hs Hs'.
    assert (forall k x, (ss ++ [mkSession (if ok then Begin else NoChild) Unserved [] ok false [] [] false]) !! k = Some x ->
      open_port x = Some p -> ss !! k = Some x) as Hold.
    { intros k x [?|[_ Hx]]%lookup_app_Some Ho; [done|]. apply list_lookup_singleton_Some in Hx as [_ <-]. by destruct ok. }
    by apply (Hd i j s s' p); [apply Hold|apply Hold| |].
Qed.

Lemma session_child_ok i p now ss s s' :
  sessions_ok ss -> ss !! i = Some s -> 0 < p < 65536 -> clock now -> child_step p now ss s = Some s' ->
  sessions_ok (<[i := s']> ss) /\ client s' = client s.
Proof.
  intros Hok Hi Hp Hn. pose proof (Forall_lookup_1 _ _ _ _ (proj1 Hok) Hi) as Hs. unfold child_step, session_ok, unused, linked in *.
  destruct (child s) as [|q|q|q| |] eqn:Ec; try done.
  - case_bool_decide as Hex; [done|]. intros [= <-]. split; [|done]. eapply sessions_update; eauto.
    + unfold session_ok, unused. cbn. destruct (client s); try done. destruct Hs as (-> & _ & ?). done.
    + cbn. intros r [= <-]. right. by apply not_Exists_Forall in Hex; [|intros ?; apply _].
  - intros [= <-]. split; [|done]. eapply sessions_update; eauto.
    + unfold session_ok, unused, linked. cbn. by destruct (client s).
    + cbn. unfold open_port. rewrite Ec. by left.
  - destruct (connected s) eqn:Econ; [|done]. intros [= <-]. split; [|done]. eapply sessions_update; eauto.
    + unfold session_ok, unused, linked. cbn. destruct (client s); try done; destruct_and?; congruence.
    + cbn. unfold open_port. rewrite Ec. by left.
  - case_bool_decide as He; [done|]. intros [= <-]. split; [|done]. eapply sessions_update; eauto.
    + unfold session_ok. cbn. destruct (client s); try done; destruct Hs as (_ & Htc & Htl & _); [congruence|by rewrite Htl].
    + done.
Qed.

Lemma read_int_bytes p : 0 < p < 65536 -> read_int (take 4 (int_bytes p)) = Some p.
Proof.
  intros Hp. unfold int_bytes. cbn [take read_int].
  assert (0 <= p / 256 < 256) by (split; [apply Z.div_pos|apply Z.div_lt_upper_bound]; lia).
  pose proof (Z.div_mod p 256 ltac:(lia)). pose proof (Z.mod_pos_bound p 256 ltac:(lia)).
  rewrite (Z.div_small p 65536), (Z.div_small p 16777216), (Z.mod_small (p / 256)) by lia.
  change (0 mod 256) with 0. unfold i32. rewrite Z.mod_small by lia. f_equal. lia.
Qed.

(** A port leads to the process that has it, if that listens. *)
Lemma find_own i ss s p :
  distinct ss -> ss !! i = Some s -> open_port s = Some p -> 0 < p < 65536 ->
  list_find (listens_on p) ss = if decide (child s = Listening p) then Some (i, s) else None.
Proof.
  intros Hd Hi Ho Hp. assert (u16 p = p) as Hu by (unfold u16; rewrite Z.mod_small; lia).
  assert (forall j x, ss !! j = Some x -> listens_on p x -> j = i) as Hone.
  { intros j x Hj Hx. apply (Hd j i x s p); [done..| |done]. unfold listens_on in Hx. unfold open_port. by rewrite Hx, Hu. }
  case_decide as Hc.
  - apply list_find_Some. split_and!; [done|unfold listens_on; by rewrite Hu|]. intros j x Hj Hlt Hx.
    pose proof (Hone _ _ Hj Hx). lia.
  - apply list_find_None, Forall_forall. intros x [j Hj]%list_elem_of_lookup Hx. pose proof (Hone _ _ Hj Hx) as ->.
    unfold listens_on in Hx. rewrite Hu in Hx. congruence.
Qed.

Hypothesis Hclock : forall now, clock now -> time_line now.

Lemma session_client_ok i ss s ss' :
  sessions_ok ss -> ss !! i = Some s -> client_step i ss s = Some ss' ->
  exists s', ss' = <[i := s']> ss /\ sessions_ok ss' /\ (early (Client i) ss = false -> lucky s -> lucky s').
Proof using Hclock.
  intros Hok Hi. pose proof (Forall_lookup_1 _ _ _ _ (proj1 Hok) Hi) as Hs.
  assert (forall s', session_ok s' -> child s' = child s -> sessions_ok (<[i := s']> ss)) as Hup.
  { intros s' Hs' Hc. eapply sessions_update; eauto. unfold open_port. rewrite Hc. by left. }
  unfold client_step, session_ok, unused, linked in *. unfold early, lucky. rewrite Hi.
  destruct (client s) as [|q| | |out| |] eqn:Ec; try done.
  - destruct (child s) as [|p|p|p| |] eqn:Eh; try done; destruct Hs as (Hw & Hwo & Hu); rewrite Hw.
    + by rewrite Hwo.
    + rewrite read_int_bytes by done. intros [= <-]. eexists. split_and!; [done|apply Hup; cbn; by rewrite ?Eh|done].
    + rewrite read_int_bytes by done. intros [= <-]. eexists. split_and!; [done|apply Hup; cbn; by rewrite ?Eh|done].
    + rewrite Hwo. intros [= <-]. eexists. split_and!; [done|apply Hup; cbn; by rewrite ?Eh|done].
  - destruct (child s) as [|p|p|p| |] eqn:Eh; try done; destruct Hs as (-> & Hp & Hu);
      (rewrite (find_own i ss s p); [|apply Hok|done|unfold open_port; by rewrite Eh|done]); rewrite Eh.
    + rewrite decide_False by done. intros [= <-]. eexists. split_and!; [done|apply Hup; cbn; by rewrite ?Eh|done].
    + rewrite decide_True by done. intros [= <-].
      rewrite (alter_lookup _ _ _ (set_client Asking s)), list_insert_insert_eq
        by (apply list_lookup_insert_eq; by eapply lookup_lt_Some).
      eexists. split_and!; [done|apply Hup; cbn; rewrite ?Eh; [|done]|done]. tauto.
  - intros [= <-]. eexists. split_and!; [done|apply Hup; cbn; [|done]|done].
    destruct (child s); try done; destruct Hs as (? & -> & ?); done.
  - destruct (_ && _) eqn:Eb; [done|]. intros [= <-]. eexists. split_and!; [done|apply Hup; cbn; [|done]|done].
    destruct (child s); try done; try (destruct Hs as (_ & _ & Ht & Hh); by rewrite Ht, Hh in Eb).
    exists (to_client s). split; [done|]. apply show_time_line; [by apply Hclock|lia].
Qed.

(** ** Properties *)

Lemma session_run_ok acts ss ss' :
  Forall timely acts -> sessions_ok ss -> run acts ss = Some ss' ->
  sessions_ok ss' /\ (patient acts ss = true -> Forall lucky ss -> Forall lucky ss').
Proof using Hclock.
  revert ss. induction acts as [|a acts IH]; intros ss Ht Hok; [by intros [= <-]|].
  apply Forall_cons in Ht as [Ha Ht]. cbn [run patient]. destruct (step a ss) as [ss1|] eqn:Es; [|done].
  cbn [mbind option_bind]. intros Hr.
  assert (sessions_ok ss1 /\ (early a ss = false -> Forall lucky ss -> Forall lucky ss1)) as [Hok1 Hl1].
  { destruct a as [ok|i p now|i]; cbn [step] in Es.
    - injection Es as <-. split; [by apply session_turn_ok|]. intros _ Hl. apply Forall_app. split; [done|].
      by apply Forall_singleton.
    - destruct (ss !! i) as [s|] eqn:Hi; [|done]. cbn [mbind option_bind] in Es.
      destruct (child_step p now ss s) as [s'|] eqn:Ec; [|done]. cbn [mbind option_bind] in Es. injection Es as <-.
      destruct Ha as [Hp Hn]. destruct (session_child_ok _ _ _ _ _ _ Hok Hi Hp Hn Ec) as [Hok1 Hcl]. split; [done|].
      intros _ Hl. apply Forall_insert; [done|]. unfold lucky. rewrite Hcl. by apply (Forall_lookup_1 _ _ _ _ Hl Hi).
    - destruct (ss !! i) as [s|] eqn:Hi; [|done]. cbn [mbind option_bind] in Es.
      destruct (session_client_ok _ _ _ _ Hok Hi Es) as (s' & -> & Hok1 & Hs'). split; [done|]. intros He Hl.
      apply Forall_insert; [done|]. apply Hs'; [done|]. by apply (Forall_lookup_1 _ _ _ _ Hl Hi). }
  destruct (IH ss1 Ht Hok1 Hr) as [Hok' Hl']. split; [done|].
  intros [He Hp]%andb_prop Hl. apply Hl'; [done|]. apply Hl1; [by apply negb_true_iff|done].
Qed.

End invariant.

(** A client that is quicker than its process. *)
Lemma early_client_is_killed :
  run [Accept true; Child 0 4001 []; Client 0; Client 0; Child 0 4001 []; Child 0 4001 []] [] = None /\
  exists s, run [Accept true; Child 0 4001 []; Client 0; Client 0; Child 0 4001 []] [] = Some [s] /\
    client s = Killed /\ child s = Listening 4001.
Proof. split; [reflexivity|]. eexists. split; reflexivity || (split; reflexivity). Qed.

Definition demo_run : list action :=
  [Accept true; Accept true; Child 1 4002 noon; Child 1 4002 noon; Child 0 4001 noon; Client 0; Client 1; Client 0;
   Client 1; Client 1; Child 1 4002 noon; Child 1 4002 noon; Client 1].

End Forking.

(** ** One process for both protocols *)

Module Epoll.

Definition MAX_EVENTS : nat := 10.

(** [backlog] are the TCP clients that wait for [accept], [datagrams] the senders of the UDP packets that
    wait for [recvfrom]. *)
Record server := mkServer { backlog : list nat; datagrams : list nat }.

Inductive event := TcpReady | UdpReady.

Inductive out := TcpReply (client : nat) (bytes : list byte) | UdpReply (addr : nat) (bytes : list byte).

(** The body of the inner loop; [now] is what [get_time] stores.  Both sockets are non-blocking:
    without a client [accept] fails and the time is written to descriptor -1; without a packet
    [recvfrom] fails and [sendto] uses an address that was never stored, which is undefined. *)
Definition handle (e : event) (now : cstr) (s : server) : option (server * list out) :=
  match e with
  | TcpReady =>
      match backlog s with
      | [] => Some (s, [])
      | c :: rest => Some (mkServer rest (datagrams s), [TcpReply c now])
      end
  | UdpReady =>
      match datagrams s with
      | [] => None
      | a :: rest => Some (mkServer (backlog s) rest, [UdpReply a now])
      end
  end.

Fixpoint handle_all (es : list (event * cstr)) (s : server) : option (server * list out) :=
  match es with
  | [] => Some (s, [])
  | (e, now) :: es' =>
      '(s1, o1) ← handle e now s; '(s2, o2) ← handle_all es' s1; Some (s2, o1 ++ o2)
  end.

(** What [epoll_wait] reports of the two sockets, which are watched for input only and
    level-triggered: each one that can be read, once. *)
Definition epoll_wait (s : server) (now : cstr) : list (event * cstr) :=
  take MAX_EVENTS
    ((match backlog s with [] => [] | _ => [(TcpReady, now)] end)
     ++ (match datagrams s with [] => [] | _ => [(UdpReady, now)] end)).

(** Turns of the server's loop, one for each time. *)
Fixpoint turns (nows : list cstr) (s : server) : option (server * list out) :=
  match nows with
  | [] => Some (s, [])
  | now :: nows' =>
      '(s1, o1) ← handle_all (epoll_wait s now) s; '(s2, o2) ← turns nows' s1; Some (s2, o1 ++ o2)
  end.

(** What the clients print. *)
Definition tcp_client (bytes : list byte) : list byte := show_time 127 bytes.
Definition udp_client (bytes : list byte) : list byte := show_time 127 bytes.

Definition tcp_served (os : list out) : list nat := omap (fun o => match o with TcpReply c _ => Some c | _ => None end) os.
Definition udp_served (os : list out) : list nat := omap (fun o => match o with UdpReply a _ => Some a | _ => None end) os.
Definition reply_of (o : out) : list byte := match o with TcpReply _ b => tcp_client b | UdpReply _ b => udp_client b end.

(** Everybody who waits is served once and in the order of arrival, by both protocols at the same
    time: in as many turns as the longer of the two queues has elements. *)
Lemma everybody_served nows s :
  Forall (time_of multiprotocol_get_time) nows -> (length (backlog s) <= length nows)%nat -> (length (datagrams s) <= length nows)%nat ->
  exists os, turns nows s = Some (mkServer [] [], os) /\
    tcp_served os = backlog s /\ udp_served os = datagrams s /\
    Forall (fun o => exists now, now ∈ nows /\ reply_of o = lit "Server time: " ++ now) os.
Proof.
  revert s. induction nows as [|now nows IH]; intros [b d] Hf Hb Hd; cbn [backlog datagrams length] in *.
  { destruct b, d; simpl in *; [by exists []|lia..]. }
  apply Forall_cons in Hf as [Hn Hf].
  destruct (IH (mkServer (tail b) (tail d)) Hf) as (os & E & Ht & Hu & Hr).
  { destruct b; simpl in *; lia. } { destruct d; simpl in *; lia. }
  assert (forall o, reply_of o = lit "Server time: " ++ now -> exists now', now' ∈ now :: nows /\ reply_of o = lit "Server time: " ++ now') as Hnew.
  { intros o Ho. exists now. split; [apply list_elem_of_here|done]. }
  assert (Forall (fun o => exists now', now' ∈ now :: nows /\ reply_of o = lit "Server time: " ++ now') os) as Hold.
  { eapply Forall_impl; [exact Hr|]. intros o (x & Hx & Ho). exists x. split; [by apply list_elem_of_further|done]. }
  assert (time_line now) as Hl by (by eapply time_of_line; [|exact Hn]; lia).
  pose proof (show_time_line 127 now Hl ltac:(lia)) as Hs.
  unfold tcp_served, udp_served in *.
  destruct b as [|c b], d as [|a d]; cbn in E |- *; rewrite E; cbn; eexists; (split; [done|]); cbn in Ht, Hu |- *;
    (split_and!; [by rewrite <- Ht|by rewrite <- Hu|]); repeat (apply Forall_cons_2; [by apply Hnew|]); done.
Qed.

End Epoll.
