(* ===== verification/Pool.v ===== *)
(** * The time server with a pool of services

    [sockets/.../parallel_server_with_pool]: the listener of [parallel_tcp_server.c], its
    services and [client.c].  The listener learns the state of a service from messages on a
    pipe, which is a stream of bytes; the system is a step function over the actions of the
    processes in any order.  [None] means that the action is not possible. *)

From S2P Require Import Prelude CString Echo.

Definition MAX_SERVICES : nat := 5.

(** ** The processes *)

(** Where a service process is: before it writes ["ready"], waiting in [accept], or with a
    client. *)
Inductive phase := Starting | Idle | Serving.

#[export] Instance phase_eq_dec : EqDecision phase.
Proof. solve_decision. Defined.

(** [port] and [busy] are the listener's [ServiceInfo]; [pipe] is what is written and not
    read yet; [told] counts the clients that got the port and that the service has not
    accepted. *)
Record service := mkService {
  port : Z;
  busy : bool;
  pipe : list byte;
  status : phase;
  told : nat
}.

Definition set_busy (b : bool) (s : service) : service := mkService (port s) b (pipe s) (status s) (told s).
Definition set_pipe (p : list byte) (s : service) : service := mkService (port s) (busy s) p (status s) (told s).

(** The entry of the table after the fork; the process has not run yet. *)
Definition new_service (port : Z) : service := mkService port false [] Starting 0.

(** [write(notify_fd, ...)] *)
Definition notify (msg : cstr) (s : service) : service := set_pipe (pipe s ++ msg) s.

Definition service_ready (s : service) : option service :=
  match status s with
  | Starting => Some (notify (lit "ready") (mkService (port s) (busy s) (pipe s) Idle (told s)))
  | _ => None
  end.

Definition service_accept (s : service) : option service :=
  match status s, told s with
  | Idle, S n => Some (notify (lit "busy") (mkService (port s) (busy s) (pipe s) Serving n))
  | _, _ => None
  end.

(** The request is answered with the time when it is not empty; [time] is what [get_time]
    stores. *)
Definition service_finish (request : list byte) (time : cstr) (s : service)
  : option (service * option (list byte)) :=
  match status s with
  | Serving =>
      Some (notify (lit "free") (mkService (port s) (busy s) (pipe s) Idle (told s)),
            if (0 <? length request)%nat then Some time else None)
  | _ => None
  end.

(** [char buf[6] = {0}; read(..., buf, 5)] and the three comparisons. *)
Definition read_status (s : service) : option service :=
  if bool_decide (pipe s = []) then None
  else
    let buf := c_str (take 5 (pipe s)) in
    let s := set_pipe (drop 5 (pipe s)) s in
    Some (if strneq 4 buf (lit "busy") then set_busy true s
          else if strneq 4 buf (lit "free") then set_busy false s
          else if strneq 5 buf (lit "ready") then set_busy false s
          else s).

(** The first loop of a turn: [readable] are the indices [select] reported. *)
Fixpoint read_all (readable : list nat) (i : nat) (ss : list service) : option (list service) :=
  match ss with
  | [] => Some []
  | s :: ss' =>
      s' ← (if bool_decide (i ∈ readable) then read_status s else Some s);
      rest ← read_all readable (S i) ss';
      Some (s' :: rest)
  end.

(** The four bytes sent for a number, [htonl]. *)
Definition port_message (n : Z) : list byte := htons (u32 n / 65536) ++ htons (u32 n).

(** The first service that is not busy gets the client; the message sent to it. *)
Fixpoint dispatch (ss : list service) : list service * Z :=
  match ss with
  | [] => ([], -1)
  | s :: ss' =>
      if negb (busy s)
      then (mkService (port s) true (pipe s) (status s) (S (told s)) :: ss', port s)
      else let '(r, n) := dispatch ss' in (s :: r, n)
  end.

(** ** The system *)

Inductive action :=
  | Ready (i : nat)
  | Accept (i : nat)
  | Finish (i : nat) (request : list byte) (time : cstr)
  | Turn (readable : list nat) (client : bool).

(** What a client is sent. *)
Inductive output := Message (n : Z) | Time (t : cstr).

Definition update (i : nat) (f : service -> option service) (ss : list service) : option (list service) :=
  s ← ss !! i; s' ← f s; Some (<[i := s']> ss).

Definition turn (readable : list nat) (client : bool) (ss : list service)
  : option (list service * list output) :=
  ss ← read_all readable 0 ss;
  if client then let '(ss', n) := dispatch ss in Some (ss', [Message n]) else Some (ss, []).

Definition step (a : action) (ss : list service) : option (list service * list output) :=
  match a with
  | Ready i => ss' ← update i service_ready ss; Some (ss', [])
  | Accept i => ss' ← update i service_accept ss; Some (ss', [])
  | Finish i req t =>
      s ← ss !! i; r ← service_finish req t s;
      Some (<[i := r.1]> ss, match r.2 with Some t => [Time t] | None => [] end)
  | Turn rd c => turn rd c ss
  end.

Fixpoint run (acts : list action) (ss : list service) : option (list service * list output) :=
  match acts with
  | [] => Some (ss, [])
  | a :: acts' => r ← step a ss; r' ← run acts' r.1; Some (r'.1, r.2 ++ r'.2)
  end.

(** The table after the loop that starts the services. *)
Definition init_services (ports : list Z) : list service := new_service <$> ports.

(** ** The client *)

(** [recv(..., &port_net, 4, MSG_WAITALL)] and [ntohl]: the port, [None] without free
    services, or the failure to read it. *)
Inductive client_result := NoPort | NoServices | Port (n : Z).

Definition client_port (received : list byte) : client_result :=
  match received with
  | [a; b; c; d] =>
      let n := i32 (a * 16777216 + b * 65536 + c * 256 + d) in
      if n =? -1 then NoServices else Port n
  | _ => NoPort
  end.

(** ** Executions in which every message is read before the next one *)

Definition prompt (a : action) (ss : list service) : bool :=
  match a with
  | Turn _ _ => true
  | Ready i | Accept i | Finish i _ _ =>
      match ss !! i with Some s => bool_decide (pipe s = []) | None => false end
  end.

Fixpoint prompt_run (acts : list action) (ss : list service) : option (list service * list output) :=
  match acts with
  | [] => Some (ss, [])
  | a :: acts' =>
      if prompt a ss then r ← step a ss; r' ← prompt_run acts' r.1; Some (r'.1, r.2 ++ r'.2) else None
  end.

(** The states of a service the listener's table is right about. *)
Inductive in_step : service -> Prop :=
  | is_free p : in_step (mkService p false [] Idle 0)
  | is_told p : in_step (mkService p true [] Idle 1)
  | is_accepted p : in_step (mkService p true (lit "busy") Serving 0)
  | is_serving p : in_step (mkService p true [] Serving 0)
  | is_finished p : in_step (mkService p true (lit "free") Idle 0).

(** The clients a service has: told and not accepted, or being served. *)
Definition clients_of (s : service) : nat :=
  (told s + (if bool_decide (status s = Serving) then 1 else 0))%nat.

(** A service the listener will never hand out again. *)
Definition lost (s : service) : Prop := busy s = true /\ pipe s = [] /\ status s = Idle /\ told s = 0%nat.

(** What a turn with a client answers. *)
Definition answers (ss : list service) (n : Z) : Prop :=
  (exists i s, ss !! i = Some s /\ busy s = false /\ n = port s /\
     forall j s', (j < i)%nat -> ss !! j = Some s' -> busy s' = true) \/
  (n = -1 /\ Forall (fun s => busy s = true) ss).

(** ** Lemmas *)

Lemma update_Some i f ss ss' :
  update i f ss = Some ss' <-> exists s s', ss !! i = Some s /\ f s = Some s' /\ ss' = <[i := s']> ss.
Proof.
  unfold update. split.
  - destruct (ss !! i) as [s|]; [|done]. simpl. destruct (f s) as [s'|] eqn:E; [|done]. intros [= <-]. eauto.
  - intros (s & s' & -> & Hf & ->). simpl. by rewrite Hf.
Qed.

Lemma read_in_step s s' : in_step s -> read_status s = Some s' -> in_step s'.
Proof. intros [] Hr; vm_compute in Hr; try done; injection Hr as <-; constructor. Qed.

Lemma read_all_in_step rd i ss ss' : Forall in_step ss -> read_all rd i ss = Some ss' -> Forall in_step ss'.
Proof.
  intros HF. revert i ss'. induction HF as [|s ss Hs _ IH]; intros i ss'; cbn [read_all].
  { by intros [= <-]. }
  destruct (if bool_decide _ then _ else _) as [s1|] eqn:E1; [|done]. cbn [mbind option_bind].
  destruct (read_all rd (S i) ss) as [rest|] eqn:E2; [|done]. intros [= <-].
  constructor; [|by eapply IH]. case_match; [by eapply read_in_step | by injection E1 as <-].
Qed.

Lemma dispatch_spec ss ss' n :
  dispatch ss = (ss', n) ->
  answers ss n /\
  (n = -1 /\ ss' = ss /\ Forall (fun s => busy s = true) ss \/
   exists i s, ss !! i = Some s /\ busy s = false /\ n = port s /\
     ss' = <[i := mkService (port s) true (pipe s) (status s) (S (told s))]> ss).
Proof.
  revert ss' n. induction ss as [|s ss IH]; intros ss' n; cbn [dispatch].
  { intros [= <- <-]. split; [by right|by left]. }
  destruct (busy s) eqn:Eb; cbn [negb].
  - destruct (dispatch ss) as [r m] eqn:Ed. intros [= <- <-].
    destruct (IH r m eq_refl) as [Ha [(-> & -> & HF)|(i & x & Hx & Hbx & -> & ->)]].
    + split; [right|left]; split_and!; auto.
    + split; [|right; by exists (S i), x]. destruct Ha as [(k & y & Hy & Hby & Hn & Hlt)|[Hn HF]].
      * left. exists (S k), y. split_and!; try done. intros [|j] z Hj Hz; [by injection Hz as <-|].
        apply (Hlt j); [lia | done].
      * rewrite Forall_lookup in HF. by rewrite (HF _ _ Hx) in Hbx.
  - intros [= <- <-]. split; [left|right]; exists 0%nat, s; split_and!; try done. intros j z Hj. lia.
Qed.

Lemma told_in_step s :
  in_step s -> busy s = false -> in_step (mkService (port s) true (pipe s) (status s) (S (told s))).
Proof. intros [] Hb; try done. simpl. constructor. Qed.

Lemma turn_in_step rd c ss ss' out :
  Forall in_step ss -> turn rd c ss = Some (ss', out) -> Forall in_step ss'.
Proof.
  intros HF. unfold turn. destruct (read_all rd 0 ss) as [ss1|] eqn:E; [|done]. cbn [mbind option_bind].
  pose proof (read_all_in_step _ _ _ _ HF E) as HF1. destruct c; [|by intros [= <- _]].
  destruct (dispatch ss1) as [ss2 n] eqn:Ed. intros [= <- _].
  destruct (dispatch_spec _ _ _ Ed) as [_ [(_ & -> & _)|(i & s & Hs & Hb & _ & ->)]]; [done|].
  apply Forall_insert; [done|]. apply told_in_step; [|done]. by eapply Forall_lookup_1.
Qed.

(** A service at a time. *)
Lemma service_in_step s s' :
  in_step s -> pipe s = [] ->
  service_ready s = Some s' \/ service_accept s = Some s' \/
  (exists req t o, service_finish req t s = Some (s', o)) -> in_step s'.
Proof.
  intros [] Hp H; try done; destruct H as [H|[H|(req & t & o & H)]]; try done; injection H as <-;
    try (intros _); constructor.
Qed.

Lemma step_in_step a ss ss' out :
  Forall in_step ss -> prompt a ss = true -> step a ss = Some (ss', out) -> Forall in_step ss'.
Proof.
  intros HF Hp Hst. destruct a as [i|i|i req t|rd c]; cbn [step prompt] in *; [| | |by eapply turn_in_step].
  1,2: destruct (update _ _ _) as [ss1|] eqn:E; [|done]; injection Hst as <- _;
    apply update_Some in E as (s & s' & Hs & Hf & ->); rewrite Hs in Hp; bool_to_prop;
    apply Forall_insert; [done|]; apply (service_in_step s); [by eapply Forall_lookup_1 | done | eauto].
  destruct (ss !! i) as [s|] eqn:Hs; [|done]. cbn [mbind option_bind] in Hst. bool_to_prop.
  destruct (service_finish req t s) as [[s' o]|] eqn:Ef; [|done]. injection Hst as <- _.
  apply Forall_insert; [done|]. apply (service_in_step s); [by eapply Forall_lookup_1 | done | eauto 10].
Qed.

Lemma in_step_clients s : in_step s -> (clients_of s <= 1)%nat /\ (busy s = false -> clients_of s = 0%nat).
Proof. intros []; vm_compute; split; (lia || done). Qed.

Lemma read_all_lookup rd i ss ss' k s :
  read_all rd i ss = Some ss' -> ss !! k = Some s ->
  exists s', ss' !! k = Some s' /\ port s' = port s /\ clients_of s' = clients_of s.
Proof.
  revert i ss' k. induction ss as [|x ss IH]; intros i ss' k; cbn [read_all]; [done|].
  destruct (if bool_decide _ then _ else _) as [s1|] eqn:E1; [|done]. cbn [mbind option_bind].
  destruct (read_all rd (S i) ss) as [rest|] eqn:E2; [|done]. intros [= <-].
  destruct k as [|k]; simpl; [|by eapply IH]. intros [= <-]. exists s1. split; [done|].
  case_match; [|by injection E1 as <-]. unfold read_status in E1. case_match; [done|].
  injection E1 as <-. by repeat case_match.
Qed.

Lemma read_all_length rd i ss ss' : read_all rd i ss = Some ss' -> length ss' = length ss.
Proof.
  revert i ss'. induction ss as [|x ss IH]; intros i ss'; cbn [read_all]; [by intros [= <-]|].
  destruct (if bool_decide _ then _ else _) as [s1|]; [|done]. cbn [mbind option_bind].
  destruct (read_all rd (S i) ss) as [rest|] eqn:E2; [|done]. intros [= <-]. simpl. f_equal. by eapply IH.
Qed.

Lemma prompt_run_in_step acts ss ss' out :
  Forall in_step ss -> prompt_run acts ss = Some (ss', out) -> Forall in_step ss'.
Proof.
  revert ss out. induction acts as [|a acts IH]; intros ss out HF; cbn [prompt_run]; [by intros [= <- _]|].
  destruct (prompt a ss) eqn:Ep; [|done]. destruct (step a ss) as [[ss1 o]|] eqn:E; [|done].
  cbn [mbind option_bind fst]. destruct (prompt_run acts ss1) as [[ss2 o2]|] eqn:E2; [|done].
  intros [= <- _]. eapply IH; [|exact E2]. by eapply step_in_step.
Qed.

(** The number sent is the number the client reads. *)
Lemma port_message_read n :
  -1 <= n < 65536 -> client_port (port_message n) = if n =? -1 then NoServices else Port n.
Proof.
  intros Hn. destruct (decide (n = -1)) as [->|Hne]; [reflexivity|].
  unfold port_message, client_port, htons. cbn [app]. unfold u32. rewrite (Z.mod_small n 4294967296) by lia.
  rewrite (Z.div_small n 65536) by lia. change (0 / 256 mod 256) with 0. change (0 mod 256) with 0.
  pose proof (htons_value n ltac:(lia)).
  replace (0 * 16777216 + 0 * 65536 + n / 256 mod 256 * 256 + n mod 256) with n by lia.
  unfold i32. rewrite Z.mod_small by lia. by replace (n + 2147483648 - 2147483648) with n by lia.
Qed.

(** Nothing moves a pool of lost services. *)
Lemma lost_read_all rd i ss ss' : Forall lost ss -> read_all rd i ss = Some ss' -> ss' = ss.
Proof.
  intros HF. revert i ss'. induction HF as [|s ss (Hb & Hp & _) _ IH]; intros i ss'; cbn [read_all].
  { by intros [= <-]. }
  case_bool_decide; cbn [mbind option_bind].
  - unfold read_status at 1. by rewrite Hp.
  - destruct (read_all rd (S i) ss) as [rest|] eqn:E; [|done]. intros [= <-]. f_equal. by apply (IH (S i)).
Qed.

Lemma lost_dispatch ss : Forall lost ss -> dispatch ss = (ss, -1).
Proof. induction 1 as [|s ss (Hb & _) _ IH]; cbn [dispatch]; [done|]. by rewrite Hb, IH. Qed.

Lemma lost_step a ss ss' out :
  Forall lost ss -> step a ss = Some (ss', out) -> ss' = ss /\ Forall (fun o => o = Message (-1)) out.
Proof.
  intros HF Hst. destruct a as [i|i|i req t|rd c]; cbn [step] in Hst.
  1,2: destruct (update _ _ _) as [ss1|] eqn:E; [|done]; exfalso;
    apply update_Some in E as (s & s' & Hs & Hf & _); eapply Forall_lookup_1 in HF as (_ & _ & H1 & H2); [|done];
    unfold service_ready, service_accept in Hf; by rewrite H1, ?H2 in Hf.
  - exfalso. destruct (ss !! i) as [s|] eqn:Hs; [|done]. cbn [mbind option_bind] in Hst.
    eapply Forall_lookup_1 in HF as (_ & _ & H1 & _); [|done].
    unfold service_finish in Hst. by rewrite H1 in Hst.
  - unfold turn in Hst. destruct (read_all rd 0 ss) as [ss1|] eqn:E; [|done]. cbn [mbind option_bind] in Hst.
    apply lost_read_all in E as ->; [|done]. destruct c; [|by injection Hst as <- <-].
    rewrite lost_dispatch in Hst by done. injection Hst as <- <-. split; [done|]. by repeat constructor.
Qed.

Lemma lost_run acts ss ss' out :
  Forall lost ss -> run acts ss = Some (ss', out) -> ss' = ss /\ Forall (fun o => o = Message (-1)) out.
Proof.
  intros HF. revert ss' out. induction acts as [|a acts IH]; intros ss' out; cbn [run]; [by intros [= <- <-]|].
  destruct (step a ss) as [[ss1 o]|] eqn:E; [|done]. cbn [mbind option_bind fst].
  destruct (lost_step _ _ _ _ HF E) as [-> Ho].
  destruct (run acts ss) as [[ss2 o2]|]; [|done]. intros [= <- <-].
  destruct (IH ss2 o2 eq_refl) as [-> Ho2]. split; [done|]. by apply Forall_app.
Qed.

(** Five services that become ready, and then five clients one after the other, each served before
    the listener turns again: the pipe then holds ["busyfree"]. *)
Definition quick_client (i : nat) : list action :=
  [Turn [] true; Accept i; Finish i [1] (lit "now"); Turn [i] false; Turn [i] false].
Definition five_clients : list action :=
  (Ready <$> seq 0 MAX_SERVICES) ++ [Turn (seq 0 MAX_SERVICES) false]
  ++ mjoin (quick_client <$> seq 0 MAX_SERVICES).

(** ** Properties *)

(** C13 (safety).  While every message is read before the service writes the next one, no
    service ever has two clients.  From services that are ready, through any actions of
    the processes with that property, a service has at most one client, told or being
    served; and the next client is told, in a form it reads back as such, the port of a service
    without a client, whose only client it then is, or that there is none, and then the
    whole table is busy. *)
Theorem prompt_pool_never_double_books acts ss ss' out rd ss2 o :
  Forall in_step ss -> prompt_run acts ss = Some (ss', out) ->
  Forall (fun s => 0 <= port s < 65536) ss' -> turn rd true ss' = Some (ss2, o) ->
  Forall (fun s => (clients_of s <= 1)%nat) ss' /\
  exists n, o = [Message n] /\
    ((exists i s s2, ss' !! i = Some s /\ ss2 !! i = Some s2 /\ clients_of s = 0%nat /\
        clients_of s2 = 1%nat /\ n = port s /\ client_port (port_message n) = Port n) \/
     (client_port (port_message n) = NoServices /\ Forall (fun s => busy s = true) ss2)).
Proof.
  intros HF Hrun Hports Hturn. pose proof (prompt_run_in_step _ _ _ _ HF Hrun) as HF'. split.
  { eapply Forall_impl; [exact HF'|]. intros s Hs. by apply in_step_clients. }
  unfold turn in Hturn. destruct (read_all rd 0 ss') as [ss1|] eqn:E; [|done].
  cbn [mbind option_bind] in Hturn. destruct (dispatch ss1) as [ss3 n] eqn:Ed. injection Hturn as <- <-.
  exists n. split; [done|]. pose proof (read_all_in_step _ _ _ _ HF' E) as HF1.
  destruct (dispatch_spec _ _ _ Ed) as [_ [(-> & -> & Hall)|(i & s1 & Hs1 & Hb & -> & ->)]].
  { right. split; [done | done]. }
  left. destruct (lookup_lt_is_Some_2 ss' i) as [s Hs].
  { rewrite <- (read_all_length _ _ _ _ E). by eapply lookup_lt_Some. }
  destruct (read_all_lookup _ _ _ _ _ _ E Hs) as (s1' & Hs1' & Hport & Hcl).
  rewrite Hs1 in Hs1'. injection Hs1' as <-.
  pose proof (proj2 (in_step_clients s1 (Forall_lookup_1 _ _ _ _ HF1 Hs1)) Hb) as Hz.
  eexists i, s, _. split_and!; [done | apply list_lookup_insert_eq; by eapply lookup_lt_Some | congruence | | done |].
  - unfold clients_of in *. cbn [told status]. lia.
  - rewrite Hport. pose proof (Forall_lookup_1 _ _ _ _ Hports Hs) as Hp. cbn beta in Hp.
    rewrite port_message_read by lia. by rewrite (proj2 (Z.eqb_neq _ _)) by lia.
Qed.

Definition ready_services : list service := (fun p => mkService p false [] Idle 0) <$> [4001; 4002; 4003; 4004; 4005].
Definition demo_actions : list action := [Turn [] true; Accept 0; Turn [0%nat] false; Turn [] true].

Lemma prompt_pool_never_double_books_witness :
  exists ss', prompt_run demo_actions ready_services = Some (ss', [Message 4001; Message 4002]) /\
    (Forall (fun s => (clients_of s <= 1)%nat) ss' /\
     exists n, [Message 4003] = [Message n] /\
       ((exists i s s2, ss' !! i = Some s /\ (dispatch ss').1 !! i = Some s2 /\ clients_of s = 0%nat /\
           clients_of s2 = 1%nat /\ n = port s /\ client_port (port_message n) = Port n) \/
        (client_port (port_message n) = NoServices /\ Forall (fun s => busy s = true) (dispatch ss').1))).
Proof.
  eexists. split; [vm_compute; reflexivity|].
  refine (prompt_pool_never_double_books demo_actions ready_services _ [Message 4001; Message 4002] [] _ _ _ _ _ _).
  - unfold ready_services. simpl. list_forall; constructor.
  - reflexivity.
  - list_forall; simpl; lia.
  - reflexivity.
Defined.

(** Counterexample.  The pool wears out.  The listener reads five bytes at a time
    and takes them for one message, so of ["busyfree"] it sees ["busyf"] and then
    ["ree"], which is none: a service that serves its client before the listener has
    turned stays busy in the table.  Five such clients, all of them served, leave a
    system in which nothing ever changes and every client is told that there is no
    service. *)
Theorem pool_wears_out p0 p1 p2 p3 p4 :
  exists ss, run five_clients (init_services [p0; p1; p2; p3; p4]) =
      Some (ss, mjoin ((fun p => [Message p; Time (lit "now")]) <$> [p0; p1; p2; p3; p4])) /\
    Forall (fun s => status s = Idle /\ told s = 0%nat /\ pipe s = []) ss /\
    (forall client, turn [] client ss = Some (ss, if client then [Message (-1)] else [])) /\
    forall acts ss' out, run acts ss = Some (ss', out) ->
      ss' = ss /\ Forall (fun o => o = Message (-1)) out.
Proof.
  eexists. split; [vm_compute; reflexivity|]. split; [by list_forall|]. split; [by intros []|].
  intros acts ss' out. apply lost_run. by list_forall.
Qed.
