(* ===== verification/Posix.v ===== *)
(** * Processes and all their schedules

    The small programs of the repository that show a single means of communication are
    modelled as interaction trees: a program is a tree of system calls.  This file has what they
    share: the processes (fork, wait, exit, standard output), a class for the part of the kernel a
    program communicates through ([Device]), and a search through all schedules that is proved
    to find exactly the ways in which the programs can end. *)

From S2P Require Import Prelude CString.
From ITree Require Import Core.ITreeDefinition.

(** ** Programs *)

(** The answer of a call: its result, and the bytes (or numbers) it stores. *)
Record ans := mkAns { ret : Z; data : list Z }.

#[export] Instance ans_eq_dec : EqDecision ans.
Proof. solve_decision. Defined.

Inductive base_call :=
  | Fork | Wait | GetPid | GetPpid
  | PrintOut (b : list byte)
  | UExit (status : Z)
  | OnInterrupt (handler : nat)
  | Undefined.

(** The calls of a program that talks to a device with the calls [C]; [_exit] is [UExit],
    [printf] is [PrintOut], and [Undefined] is what C leaves undefined. *)
Variant sysE (C : Type) : Type -> Type :=
  | Base (b : base_call) : sysE C ans
  | Dev (c : C) : sysE C ans.
Arguments Base {C}.
Arguments Dev {C}.

(** A program ends with the status [main] returns. *)
Definition program (C : Type) : Type := itree (sysE C) Z.

Notation "'let!' x ':=' t 'in' k" := (ITree.bind t (fun x => k))
  (at level 10, x name, t at level 200, k at level 200, right associativity) : clib_scope.
Notation "'run!' t 'in' k" := (ITree.bind t (fun _ => k))
  (at level 10, t at level 200, k at level 200, right associativity) : clib_scope.

Definition base {C} (b : base_call) : itree (sysE C) ans := ITree.trigger (Base b).
Definition dev {C} (c : C) : itree (sysE C) ans := ITree.trigger (Dev c).

(** [printf("...%s...", buf)] needs a NUL in the bytes that were stored in [buf]. *)
Definition with_string {C} (buf : list byte) (k : cstr -> program C) : program C :=
  if bool_decide (NUL ∈ buf) then k (c_str buf) else ITree.bind (base Undefined) (fun _ => Ret 0).

(** ** Devices *)

(** What a call does: it waits, it returns, or its process gets a signal. *)
Inductive dev_result (K : Type) := Blocked | Returns (a : ans) (k : K) | Signal (sig : Z) (k : K).
Arguments Blocked {K}.
Arguments Returns {K}.
Arguments Signal {K}.

Class Device (C K : Type) := {
  dev_call : nat -> C -> K -> dev_result K;
  dev_fork : nat -> nat -> K -> K;
  dev_exit : nat -> K -> K
}.

Definition SIGINT : Z := 2.
Definition SIGBUS : Z := 7.
Definition SIGSEGV : Z := 11.
Definition SIGPIPE : Z := 13.

(** ** Processes *)

Inductive ending := Exited (status : Z) | Killed (sig : Z) | Crashed.

(** What SIGINT does: it kills, it starts the program [h], or it is blocked because that runs. *)
Inductive disposition := Default | Handle (h : nat) | Handling.

#[export] Instance disposition_eq_dec : EqDecision disposition.
Proof. solve_decision. Defined.

(** A process runs the program [root]; where it is in it follows from the answers it got.  [obuf]
    is the buffer of its standard output, [screen] what it has written, [reaped] that its
    parent has waited for it; [parent] is [None] for a process that the shell started. *)
Record proc := mkProc {
  root : nat;
  hist : list ans;
  parent : option nat;
  ended : option ending;
  reaped : bool;
  on_int : disposition;
  obuf : list byte;
  screen : list byte
}.

Record config (K : Type) := mkConfig { procs : list proc; kern : K }.
Arguments mkConfig {K}.
Arguments procs {K}.
Arguments kern {K}.

#[export] Instance ending_eq_dec : EqDecision ending.
Proof. solve_decision. Defined.
#[export] Instance proc_eq_dec : EqDecision proc.
Proof. solve_decision. Defined.
#[export] Instance config_eq_dec K `{EqDecision K} : EqDecision (config K).
Proof. solve_decision. Defined.

(** Quick comparisons; that they answer [true] only for equals is all that is needed. *)
Definition ans_eqb (a b : ans) : bool := (ret a =? ret b) && list_eqb Z.eqb (data a) (data b).
Definition proc_eqb (p q : proc) : bool :=
  (root p =? root q)%nat && list_eqb ans_eqb (hist p) (hist q) && bool_decide (parent p = parent q) &&
  bool_decide (ended p = ended q) && Bool.eqb (reaped p) (reaped q) && bool_decide (on_int p = on_int q) &&
  list_eqb Z.eqb (obuf p) (obuf q) && list_eqb Z.eqb (screen p) (screen q).
Definition config_eqb {K} `{EqDecision K} (c d : config K) : bool :=
  list_eqb proc_eqb (procs c) (procs d) && bool_decide (kern c = kern d).

Lemma zlist_eqb_eq (l m : list Z) : list_eqb Z.eqb l m = true -> l = m.
Proof. apply list_eqb_eq. intros x y. apply Z.eqb_eq. Qed.

Lemma ans_eqb_eq a b : ans_eqb a b = true -> a = b.
Proof.
  unfold ans_eqb. rewrite andb_true_iff. intros [Hr%Z.eqb_eq Hd%zlist_eqb_eq]. destruct a, b; cbn in *. by subst.
Qed.

Lemma proc_eqb_eq p q : proc_eqb p q = true -> p = q.
Proof.
  unfold proc_eqb. rewrite !andb_true_iff, !bool_decide_eq_true, Nat.eqb_eq, Bool.eqb_true_iff.
  intros (((((((? & Hh) & ?) & ?) & ?) & ?) & Ho%zlist_eqb_eq) & Hs%zlist_eqb_eq).
  apply list_eqb_eq in Hh; [|apply ans_eqb_eq]. destruct p, q; cbn in *. by subst.
Qed.

Lemma config_eqb_eq {K} `{EqDecision K} (c d : config K) : config_eqb c d = true -> c = d.
Proof.
  unfold config_eqb. rewrite andb_true_iff, bool_decide_eq_true. intros [Hp Hk].
  apply list_eqb_eq in Hp; [|apply proc_eqb_eq]. destruct c, d; cbn in *. by subst.
Qed.

(** The pids the kernel gives. *)
Definition pid_of (i : nat) : Z := 100 + Z.of_nat i.

(** The pid of the shell the programs were started from. *)
Definition SHELL_PID : Z := 50.

(** Standard output: a terminal is written to at every new line, anything else when the process
    ends with [exit]. *)
Definition keep_after_newline (b : list byte) : list byte * list byte :=
  let l := reverse b in
  let rest := take_while (fun c => negb (c =? NL)) l in
  (reverse (drop (length rest) l), reverse rest).

Definition print (tty : bool) (b : list byte) (p : proc) : proc :=
  let '(now, later) := if tty then keep_after_newline (obuf p ++ b) else ([], obuf p ++ b) in
  mkProc (root p) (hist p) (parent p) (ended p) (reaped p) (on_int p) later (screen p ++ now).

Definition got (a : ans) (p : proc) : proc :=
  mkProc (root p) (hist p ++ [a]) (parent p) (ended p) (reaped p) (on_int p) (obuf p) (screen p).
Definition set_ended (e : ending) (flush : bool) (p : proc) : proc :=
  mkProc (root p) (hist p) (parent p) (Some e) (reaped p) (on_int p) []
    (if flush then screen p ++ obuf p else screen p).
Definition set_reaped (p : proc) : proc :=
  mkProc (root p) (hist p) (parent p) (ended p) true (on_int p) (obuf p) (screen p).
Definition set_handler (h : nat) (p : proc) : proc :=
  mkProc (root p) (hist p) (parent p) (ended p) (reaped p) (Handle h) (obuf p) (screen p).
Definition child_of (i : nat) (p : proc) : proc :=
  mkProc (root p) (hist p ++ [mkAns 0 []]) (Some i) None false (on_int p) (obuf p) [].
Definition start_handler (h : nat) (p : proc) : proc :=
  mkProc h [] (parent p) (ended p) (reaped p) Handling (obuf p) (screen p).

(** ** One step *)

Section machine.
Context {C K : Type} `{!EqDecision K} `{!Device C K}.
(** The programs; the most processes there can be, above which [fork] fails; whether standard
    output is a terminal; the processes somebody may interrupt with Ctrl-C. *)
Context (programs : list (program C)) (limit : nat) (tty : bool) (interruptible : list nat).

(** What a program does next. *)
Inductive view := Silent | Returned (status : Z) | Calls (e : base_call + C) (k : ans -> program C).

Fixpoint next (n : nat) (t : program C) : view :=
  match observe t with
  | RetF r => Returned r
  | TauF t' => match n with O => Silent | S n' => next n' t' end
  | VisF e k =>
      match e in sysE _ X return (X -> program C) -> view with
      | Base b => fun k => Calls (inl b) k
      | Dev c => fun k => Calls (inr c) k
      end k
  end.

(** The silent steps between two calls; a loop has one per turn. *)
Definition TAUS : nat := 4.

Fixpoint replay (t : program C) (h : list ans) : view :=
  match h with
  | [] => next TAUS t
  | a :: h' => match next TAUS t with Calls _ k => replay (k a) h' | v => v end
  end.

Definition where_is (p : proc) : view :=
  match programs !! root p with Some t => replay t (hist p) | None => Silent end.

Definition set_proc (i : nat) (p : proc) (c : config K) : config K := mkConfig (<[i := p]> (procs c)) (kern c).

(** The process ends: its descriptors are closed. *)
Definition end_proc (i : nat) (e : ending) (flush : bool) (p : proc) (c : config K) : config K :=
  mkConfig (<[i := set_ended e flush p]> (procs c)) (dev_exit i (kern c)).

(** The first child that has ended and was not waited for. *)
Definition ended_child (i : nat) (c : config K) : option (nat * proc) :=
  list_find (fun p => parent p = Some i /\ is_Some (ended p) /\ reaped p = false) (procs c).
Definition has_child (i : nat) (c : config K) : bool :=
  existsb (fun p => bool_decide (parent p = Some i) && negb (reaped p)) (procs c).

(** The status [wait] stores, as [WEXITSTATUS] reads it. *)
Definition wait_status (e : option ending) : list Z :=
  match e with Some (Exited s) => [s mod 256] | _ => [0] end.

(** A process whose parent has ended belongs to process 1. *)
Definition ppid_of (p : proc) (c : config K) : Z :=
  match parent p with
  | None => SHELL_PID
  | Some j => match procs c !! j with Some q => if bool_decide (ended q = None) then pid_of j else 1 | None => 1 end
  end.

Definition base_step (i : nat) (p : proc) (b : base_call) (c : config K) : option (config K) :=
  match b with
  | Fork =>
      let j := length (procs c) in
      if (j <? limit)%nat then
        Some (mkConfig (<[i := got (mkAns (pid_of j) []) p]> (procs c) ++ [child_of i p]) (dev_fork i j (kern c)))
      else Some (set_proc i (got (mkAns (-1) []) p) c)
  | Wait =>
      match ended_child i c with
      | Some (j, q) =>
          Some (set_proc i (got (mkAns (pid_of j) (wait_status (ended q))) p) (set_proc j (set_reaped q) c))
      | None => if has_child i c then None else Some (set_proc i (got (mkAns (-1) []) p) c)
      end
  | GetPid => Some (set_proc i (got (mkAns (pid_of i) []) p) c)
  | GetPpid => Some (set_proc i (got (mkAns (ppid_of p c) []) p) c)
  | PrintOut b => Some (set_proc i (print tty b (got (mkAns (Z.of_nat (length b)) []) p)) c)
  | UExit s => Some (end_proc i (Exited s) false p c)
  | OnInterrupt h => Some (set_proc i (set_handler h (got (mkAns 0 []) p)) c)
  | Undefined => Some (end_proc i Crashed false p c)
  end.

(** A step of process [i]: [None] when it waits or has ended. *)
Definition proc_step (i : nat) (c : config K) : option (config K) :=
  p ← procs c !! i;
  match ended p with
  | Some _ => None
  | None =>
      match where_is p with
      | Silent => None
      | Returned s => Some (end_proc i (Exited s) true p c)
      | Calls (inl b) _ => base_step i p b c
      | Calls (inr d) _ =>
          match dev_call i d (kern c) with
          | Blocked => None
          | Returns a k => Some (mkConfig (<[i := got a p]> (procs c)) k)
          | Signal s k => Some (end_proc i (Killed s) false p (mkConfig (procs c) k))
          end
      end
  end.

(** Ctrl-C: the handler runs instead of the program, or the process is killed. *)
Definition interrupt (i : nat) (c : config K) : option (config K) :=
  p ← procs c !! i;
  if negb (bool_decide (i ∈ interruptible)) then None
  else match ended p, on_int p with
       | Some _, _ | None, Handling => None
       | None, Handle h => Some (set_proc i (start_handler h p) c)
       | None, Default => Some (end_proc i (Killed SIGINT) false p c)
       end.

Inductive action := Step (i : nat) | Interrupt (i : nat).

Definition act (a : action) (c : config K) : option (config K) :=
  match a with Step i => proc_step i c | Interrupt i => interrupt i c end.

Fixpoint run (acts : list action) (c : config K) : option (config K) :=
  match acts with [] => Some c | a :: acts' => c' ← act a c; run acts' c' end.

(** ** All schedules *)

Definition actions (c : config K) : list action :=
  (Step <$> seq 0 (length (procs c))) ++ (Interrupt <$> interruptible).

Definition succs (c : config K) : list (config K) := omap (fun a => act a c) (actions c).

(** Nothing can happen any more. *)
Definition final (c : config K) : bool := bool_decide (succs c = []).

(** A number that tells most configurations apart, so that few of them are compared. *)
Definition hash (c : config K) : Z :=
  foldl (fun h p => (h * 64 + Z.of_nat (length (hist p))) * 8 +
    (match ended p with None => 0 | Some (Exited _) => 1 | Some (Killed _) => 2 | Some Crashed => 3 end)) 0 (procs c).

Fixpoint seen (x : Z * config K) (l : list (Z * config K)) : bool :=
  match l with
  | [] => false
  | y :: l' => if x.1 =? y.1 then if config_eqb x.2 y.2 then true else seen x l' else seen x l'
  end.

Lemma seen_true x l : seen x l = true -> x.2 ∈ l.*2.
Proof.
  induction l as [|y l IH]; [done|]. cbn [seen fmap list_fmap]. rewrite elem_of_cons.
  destruct (x.1 =? y.1); [|by auto]. destruct (config_eqb _ _) eqn:E; [|by auto]. left. by apply config_eqb_eq.
Qed.

Fixpoint dedupe (l : list (Z * config K)) : list (config K) :=
  match l with
  | [] => []
  | x :: l' => if seen x l' then dedupe l' else x.2 :: dedupe l'
  end.

(** The configurations with what can come after them. *)
Definition with_succs (front : list (config K)) : list (config K * list (config K)) :=
  (fun c => (c, succs c)) <$> front.
Definition next_layer (front : list (config K * list (config K))) : list (config K) :=
  dedupe ((fun c => (hash c, c)) <$> (front ≫= snd)).
Definition finals (front : list (config K * list (config K))) : list (config K) :=
  omap (fun x => match x.2 with [] => Some x.1 | _ => None end) front.

(** Layer by layer, every configuration once; [None] when [n] layers are not enough. *)
Fixpoint search (n : nat) (front : list (config K)) : option (list (config K)) :=
  match front, n with
  | [], _ => Some []
  | _, O => None
  | _, S n' =>
      let front' := with_succs front in
      rest ← search n' (next_layer front'); Some (finals front' ++ rest)
  end.

Lemma act_action a c c' : act a c = Some c' -> a ∈ actions c.
Proof.
  unfold actions. rewrite elem_of_app, !list_elem_of_fmap. destruct a as [i|i]; cbn [act]; intros H.
  - left. exists i. split; [done|]. unfold proc_step in H. destruct (procs c !! i) eqn:E; [|done].
    apply elem_of_seq. apply lookup_lt_Some in E. lia.
  - right. exists i. split; [done|]. unfold interrupt in H. destruct (procs c !! i); [|done]. cbn in H.
    by case_bool_decide.
Qed.

Lemma elem_of_succs c c' : c' ∈ succs c <-> exists a, act a c = Some c'.
Proof.
  unfold succs. rewrite list_elem_of_omap. split; [by intros (a & _ & H); eauto|].
  intros [a H]. exists a. split; [by eapply act_action|done].
Qed.

Lemma final_spec c : final c = true <-> forall a, act a c = None.
Proof.
  unfold final. rewrite bool_decide_eq_true. split.
  - intros Hn a. destruct (act a c) as [c'|] eqn:E; [|done].
    assert (c' ∈ succs c) as Hin by (apply elem_of_succs; eauto). rewrite Hn in Hin. by apply not_elem_of_nil in Hin.
  - intros Hn. destruct (succs c) as [|c' l] eqn:E; [done|].
    assert (c' ∈ succs c) as [a Ha]%elem_of_succs by (rewrite E; apply list_elem_of_here). by rewrite Hn in Ha.
Qed.

Lemma schedule_app acts1 acts2 c : run (acts1 ++ acts2) c = c' ← run acts1 c; run acts2 c'.
Proof. revert c. induction acts1 as [|a acts IH]; intros c; [done|]. cbn. destruct (act a c); [apply IH|done]. Qed.

Lemma elem_of_dedupe l c : c ∈ dedupe l <-> c ∈ l.*2.
Proof.
  induction l as [|x l IH]; [done|]. cbn [dedupe fmap list_fmap]. rewrite elem_of_cons.
  destruct (seen x l) eqn:Es; [|by rewrite elem_of_cons, IH].
  rewrite IH. split; [by right|]. intros [->|?]; [by apply seen_true|done].
Qed.

Lemma elem_of_next_layer front c' :
  c' ∈ next_layer (with_succs front) <-> exists c a, c ∈ front /\ act a c = Some c'.
Proof.
  unfold next_layer, with_succs. rewrite elem_of_dedupe, <- list_fmap_compose. unfold compose. cbn.
  rewrite list_fmap_id, list_elem_of_bind. split.
  - intros (x & Hx & (c & -> & Hc)%list_elem_of_fmap). apply elem_of_succs in Hx as [a Ha]. eauto.
  - intros (c & a & Hc & Ha). exists (c, succs c). split; [apply elem_of_succs; eauto|]. apply list_elem_of_fmap. eauto.
Qed.

Lemma elem_of_finals front c : c ∈ finals (with_succs front) <-> final c = true /\ c ∈ front.
Proof.
  unfold finals, with_succs, final. rewrite bool_decide_eq_true, list_elem_of_omap. split.
  - intros (x & (d & -> & Hd)%list_elem_of_fmap & Hx). cbn in Hx. destruct (succs d) eqn:E; [|done]. by simplify_eq.
  - intros [Hs Hc]. exists (c, succs c). split; [apply list_elem_of_fmap; eauto|]. cbn. by rewrite Hs.
Qed.

(** What the search finds is exactly the final configurations of the runs, and no run is
    longer than the search was deep. *)
Lemma search_sound n front fs acts c c' :
  search n front = Some fs -> c ∈ front -> run acts c = Some c' ->
  (length acts < n)%nat /\ (final c' = true -> c' ∈ fs).
Proof.
  revert front fs acts c. induction n as [|n IH]; intros front fs acts c Hs Hc Hr.
  { destruct front; [by apply not_elem_of_nil in Hc|done]. }
  destruct front as [|d front]; [by apply not_elem_of_nil in Hc|]. cbn [search] in Hs.
  set (fr := d :: front) in *.
  destruct (search n (next_layer (with_succs fr))) as [rest|] eqn:Es; [|done]. injection Hs as <-.
  destruct acts as [|a acts].
  - injection Hr as <-. split; [cbn; lia|]. intros Hf. apply elem_of_app. left. by apply (proj2 (elem_of_finals fr c)).
  - cbn [run] in Hr. destruct (act a c) as [c1|] eqn:Ea; [|done]. cbn in Hr.
    assert (c1 ∈ next_layer (with_succs fr)) as Hc1.
    { apply elem_of_next_layer. eauto. }
    destruct (IH _ _ _ _ Es Hc1 Hr) as [Hl Hin]. split; [cbn; lia|].
    intros Hf. apply elem_of_app. right. by apply Hin.
Qed.

Lemma search_complete n front fs c' :
  search n front = Some fs -> c' ∈ fs -> final c' = true /\ exists c acts, c ∈ front /\ run acts c = Some c'.
Proof.
  revert front fs. induction n as [|n IH]; intros front fs Hs Hin.
  { destruct front; [|done]. injection Hs as <-. by apply not_elem_of_nil in Hin. }
  destruct front as [|d front]; [injection Hs as <-; by apply not_elem_of_nil in Hin|]. cbn [search] in Hs.
  set (fr := d :: front) in *.
  destruct (search n (next_layer (with_succs fr))) as [rest|] eqn:Es; [|done]. injection Hs as <-.
  apply elem_of_app in Hin as [Hin|Hin]; [apply (proj1 (elem_of_finals fr c')) in Hin as [Hf Hin]|].
  - split; [done|]. by exists c', [].
  - destruct (IH _ _ Es Hin) as (Hf & c1 & acts & Hc1 & Hr). split; [done|].
    apply elem_of_next_layer in Hc1 as (c & a & Hc & Ha).
    exists c, (a :: acts). split; [done|]. cbn. by rewrite Ha.
Qed.

End machine.

(** ** How a set of programs ends *)

(** How every process ended, if it did, and what it has written. *)
Definition outcome {K} (c : config K) : list (option ending * list byte) :=
  (fun p => (ended p, screen p)) <$> procs c.

Definition start_proc (i : nat) : proc := mkProc i [] None None false Default [] [].

(** The programs with numbers below [n] are started together. *)
Definition start {K} (n : nat) (k : K) : config K := mkConfig (start_proc <$> seq 0 n) k.

Section endings.
Context {C K : Type} `{!EqDecision K} `{!Device C K}.
Context (programs : list (program C)) (limit : nat) (tty : bool) (interruptible : list nat).

(** Whatever the schedule, there are at most [n] steps, and the ways in which they can end are the
    ones of the list, each of which happens. *)
Definition ends_as (n : nat) (c : config K) (os : list (list (option ending * list byte))) : Prop :=
  (forall acts c', run programs limit tty interruptible acts c = Some c' -> (length acts <= n)%nat) /\
  forall o, o ∈ os <->
    exists acts c', run programs limit tty interruptible acts c = Some c' /\
      (forall a, act programs limit tty interruptible a c' = None) /\ outcome c' = o.

(** The check that decides it. *)
Definition outcomes (n : nat) (c : config K) : option (list (list (option ending * list byte))) :=
  fs ← search programs limit tty interruptible (S n) [c]; Some (remove_dups (outcome <$> fs)).

Lemma outcomes_correct n c os : outcomes n c = Some os -> ends_as n c os.
Proof.
  unfold outcomes. destruct (search _ _ _ _ _ _) as [fs|] eqn:Es; [|done]. intros [= <-]. split.
  - intros acts c' Hr. destruct (search_sound _ _ _ _ _ _ _ _ _ _ Es (list_elem_of_here _ _) Hr). lia.
  - intros o. rewrite elem_of_remove_dups, list_elem_of_fmap. split.
    + intros (c' & -> & Hin). destruct (search_complete _ _ _ _ _ _ _ _ Es Hin) as (Hf & c0 & acts & Hc & Hr).
      apply list_elem_of_singleton in Hc as ->. exists acts, c'. split_and!; [done|by apply final_spec|done].
    + intros (acts & c' & Hr & Hf & <-). exists c'. split; [done|].
      destruct (search_sound _ _ _ _ _ _ _ _ _ _ Es (list_elem_of_here _ _) Hr) as [_ Hin].
      apply Hin. by apply final_spec.
Qed.

End endings.
