(* ===== verification/Pipes.v ===== *)
(** * Process trees and pipes

    [processes/parent_and_child], [processes/parents_and_children], [pipes/pipes_processes] and
    [pipes/pipes_server-client]: the device of pipes and FIFOs, the programs, and how they end in
    every schedule. *)

From S2P Require Import Prelude CString Posix.
From ITree Require Import Core.ITreeDefinition.

Open Scope clib_scope.

(** ** Pipes and FIFOs *)

Inductive call :=
  | Pipe
  | Close (fd : Z)
  | Read (fd : Z) (n : nat)
  | Write (fd : Z) (b : list byte)
  | MkFifo (path : cstr)
  | OpenFifo (path : cstr) (wr : bool)
  | Rendezvous (fd : Z)
  | Unlink (path : cstr).

(** An end of a pipe.  The [open] of a FIFO is over when the other end has been opened more than
    [seen] times. *)
Inductive desc := ReadEnd (id : nat) (seen : nat) | WriteEnd (id : nat) (seen : nat).

#[export] Instance desc_eq_dec : EqDecision desc.
Proof. solve_decision. Defined.

(** The bytes in the pipe, and how often its ends have been opened. *)
Record pipe := mkPipe { content : list byte; r_opened : nat; w_opened : nat }.

#[export] Instance pipe_eq_dec : EqDecision pipe.
Proof. solve_decision. Defined.

(** [tables] are the descriptors of the processes, from 3 on; [names] the FIFOs of the file system. *)
Record kernel := mkKernel {
  pipes : list pipe;
  names : list (cstr * nat);
  tables : list (list (option desc))
}.

#[export] Instance kernel_eq_dec : EqDecision kernel.
Proof. solve_decision. Defined.

Definition no_pipes (processes : nat) : kernel := mkKernel [] [] (replicate processes []).

Definition table (pid : nat) (k : kernel) : list (option desc) := default [] (tables k !! pid).
Definition set_table (pid : nat) (t : list (option desc)) (k : kernel) : kernel :=
  mkKernel (pipes k) (names k) (<[pid := t]> (tables k)).
Definition set_pipe (id : nat) (p : pipe) (k : kernel) : kernel :=
  mkKernel (<[id := p]> (pipes k)) (names k) (tables k).

Definition lookup_fd (pid : nat) (fd : Z) (k : kernel) : option desc :=
  if fd <? 3 then None else mjoin (table pid k !! Z.to_nat (fd - 3)).

(** The lowest free descriptor. *)
Definition free_slot (t : list (option desc)) : nat :=
  match list_find (fun d => d = None) t with Some (i, _) => i | None => length t end.
Definition install (d : desc) (t : list (option desc)) : list (option desc) :=
  if (free_slot t <? length t)%nat then <[free_slot t := Some d]> t else t ++ [Some d].
Definition fd_number (i : nat) : Z := 3 + Z.of_nat i.

Definition is_writer (id : nat) (d : option desc) : bool := match d with Some (WriteEnd j _) => bool_decide (id = j) | _ => false end.
Definition is_reader (id : nat) (d : option desc) : bool := match d with Some (ReadEnd j _) => bool_decide (id = j) | _ => false end.
Definition has_writer (id : nat) (k : kernel) : bool := existsb (existsb (is_writer id)) (tables k).
Definition has_reader (id : nat) (k : kernel) : bool := existsb (existsb (is_reader id)) (tables k).

(** No waiting when the other end is open already. *)
Definition partner (there : bool) (opened : nat) : nat := if there then pred opened else opened.

Definition find_name (path : cstr) (k : kernel) : option nat :=
  snd <$> (snd <$> list_find (fun x => x.1 = path) (names k)).

Definition done (r : Z) (k : kernel) : dev_result kernel := Returns (mkAns r []) k.

Definition pipe_call (pid : nat) (c : call) (k : kernel) : dev_result kernel :=
  match c with
  | Pipe =>
      let id := length (pipes k) in
      let t0 := table pid k in
      let t1 := install (ReadEnd id 0) t0 in
      let t2 := install (WriteEnd id 0) t1 in
      Returns (mkAns 0 [fd_number (free_slot t0); fd_number (free_slot t1)])
        (set_table pid t2 (mkKernel (pipes k ++ [mkPipe [] 1 1]) (names k) (tables k)))
  | Close fd =>
      match lookup_fd pid fd k with
      | Some _ => done 0 (set_table pid (<[Z.to_nat (fd - 3) := None]> (table pid k)) k)
      | None => done (-1) k
      end
  | Read fd n =>
      match lookup_fd pid fd k with
      | Some (ReadEnd id _) =>
          match pipes k !! id with
          | Some p =>
              if bool_decide (content p = []) then if has_writer id k then Blocked else done 0 k
              else Returns (mkAns (Z.of_nat (length (take n (content p)))) (take n (content p)))
                     (set_pipe id (mkPipe (drop n (content p)) (r_opened p) (w_opened p)) k)
          | None => done (-1) k
          end
      | _ => done (-1) k
      end
  | Write fd b =>
      match lookup_fd pid fd k with
      | Some (WriteEnd id _) =>
          match pipes k !! id with
          | Some p =>
              if has_reader id k
              then done (Z.of_nat (length b)) (set_pipe id (mkPipe (content p ++ b) (r_opened p) (w_opened p)) k)
              else Signal SIGPIPE k
          | None => done (-1) k
          end
      | _ => done (-1) k
      end
  | MkFifo path =>
      match find_name path k with
      | Some _ => done (-1) k
      | None => done 0 (mkKernel (pipes k ++ [mkPipe [] 0 0]) (names k ++ [(path, length (pipes k))]) (tables k))
      end
  | OpenFifo path wr =>
      match id ← find_name path k; p ← pipes k !! id; Some (id, p) with
      | Some (id, p) =>
          let t := table pid k in
          let d := if wr then WriteEnd id (partner (has_reader id k) (r_opened p))
                   else ReadEnd id (partner (has_writer id k) (w_opened p)) in
          let p' := if wr then mkPipe (content p) (r_opened p) (S (w_opened p))
                    else mkPipe (content p) (S (r_opened p)) (w_opened p) in
          done (fd_number (free_slot t)) (set_table pid (install d t) (set_pipe id p' k))
      | None => done (-1) k
      end
  | Rendezvous fd =>
      match lookup_fd pid fd k with
      | Some (ReadEnd id seen) =>
          match pipes k !! id with
          | Some p => if has_writer id k || (seen <? w_opened p)%nat then done fd k else Blocked
          | None => done (-1) k
          end
      | Some (WriteEnd id seen) =>
          match pipes k !! id with
          | Some p => if has_reader id k || (seen <? r_opened p)%nat then done fd k else Blocked
          | None => done (-1) k
          end
      | None => done (-1) k
      end
  | Unlink path =>
      match find_name path k with
      | Some _ => done 0 (mkKernel (pipes k) (filter (fun x => x.1 <> path) (names k)) (tables k))
      | None => done (-1) k
      end
  end.

#[export] Instance pipe_device : Device call kernel := {
  dev_call := pipe_call;
  dev_fork i j k := mkKernel (pipes k) (names k) (tables k ++ [table i k]);
  dev_exit i k := set_table i [] k
}.

Definition sys (c : call) : itree (sysE call) ans := dev c.

(** [open] of a FIFO waits until the other end is open. *)
Definition open_fifo (path : cstr) (wr : bool) (k : Z -> program call) : program call :=
  let! f := sys (OpenFifo path wr) in
  if ret f =? -1 then k (-1) else run! sys (Rendezvous (ret f)) in k (ret f).

(** ** The programs *)

Definition line (b : cstr) : cstr := b ++ [NL].

(** [parent_and_child]. *)
Definition parent_and_child : program call :=
  let! pid := base Fork in
  if ret pid <? 0 then run! base (UExit 1) in Ret 0
  else if ret pid =? 0 then
    run! base (PrintOut (line (lit "Child:"))) in
    let! p := base GetPid in
    run! base (PrintOut (line (lit "pid = " ++ dec (ret p)))) in
    let! pp := base GetPpid in
    run! base (PrintOut (line (lit "ppid = " ++ dec (ret pp)))) in
    run! base (UExit 5) in Ret 0
  else
    run! base (PrintOut (line (lit "Parent:"))) in
    let! p := base GetPid in
    run! base (PrintOut (line (lit "pid = " ++ dec (ret p)))) in
    let! pp := base GetPpid in
    run! base (PrintOut (line (lit "ppid = " ++ dec (ret pp)))) in
    let! w := base Wait in
    run! base (PrintOut (lit "status = " ++ dec (default 0 (head (data w))))) in
    Ret 0.

(** [parents_and_children]. *)
Definition print_processes_info (name : cstr) : itree (sysE call) ans :=
  let! pp := base GetPpid in
  let! p := base GetPid in
  base (PrintOut (line (name ++ lit ": pid = " ++ dec (ret p) ++ lit ", ppid = " ++ dec (ret pp)))).

Definition leaf (name : cstr) : program call :=
  run! print_processes_info name in run! base (UExit 0) in Ret 0.

Definition process_1 : program call :=
  run! print_processes_info (lit "Process 1") in
  let! pid_3 := base Fork in
  if ret pid_3 =? 0 then leaf (lit "Process 3") else
  let! pid_4 := base Fork in
  if ret pid_4 =? 0 then leaf (lit "Proccess 4") else
  run! base Wait in
  run! base Wait in
  run! base (UExit 0) in Ret 0.

Definition process_2 : program call :=
  run! print_processes_info (lit "Process 2") in
  let! pid_5 := base Fork in
  if ret pid_5 =? 0 then leaf (lit "Process 5") else
  run! base Wait in
  run! base (UExit 0) in Ret 0.

Definition parents_and_children : program call :=
  let! pid_1 := base Fork in
  if ret pid_1 <? 0 then run! base (UExit 1) in Ret 0
  else if ret pid_1 =? 0 then process_1 else
  let! pid_2 := base Fork in
  if ret pid_2 <? 0 then run! base (UExit 0) in Ret 0
  else if ret pid_2 =? 0 then process_2 else
  run! base Wait in
  run! base Wait in
  Ret 0.

(** [pipes_processes]. *)
Definition HI : list byte := lit "Hi!" ++ [NUL].

Definition pipe_main : program call :=
  let! p := sys Pipe in
  let fd0 := default 0 (data p !! 0%nat) in
  let fd1 := default 0 (data p !! 1%nat) in
  let! pid := base Fork in
  if negb (ret pid =? 0) then
    run! sys (Close fd0) in
    run! sys (Write fd1 HI) in
    run! sys (Close fd1) in
    Ret 0
  else
    run! sys (Close fd1) in
    let! r := sys (Read fd0 100) in
    with_string (data r) (fun buf =>
    run! base (PrintOut (line (lit "Child read: " ++ buf))) in
    run! sys (Close fd0) in
    Ret 0).

(** [pipes_server-client]. *)
Definition FIFO : cstr := lit "/tmp/fifo_rw".

Definition fifo_server : program call :=
  run! sys (MkFifo FIFO) in
  open_fifo FIFO true (fun fd_rw =>
  if fd_rw =? -1 then Ret 1 else
  let! n := sys (Write fd_rw HI) in
  if ret n =? -1 then run! sys (Close fd_rw) in Ret 1
  else run! sys (Close fd_rw) in Ret 0).

Definition fifo_client : program call :=
  open_fifo FIFO false (fun fd_rw =>
  if fd_rw =? 1 then Ret 1 else
  let! n := sys (Read fd_rw 99) in
  if ret n =? -1 then run! sys (Close fd_rw) in Ret 1 else
  run! base (PrintOut (line (lit "Client read: " ++ c_str (data n)))) in
  run! sys (Close fd_rw) in
  let! u := sys (Unlink FIFO) in
  if ret u =? -1 then Ret 1 else Ret 0).

(** ** How they end *)

(** All processes of a run: the programs, started together with nothing open. *)
Definition ends (programs : list (program call)) (limit : nat) (tty : bool) (n : nat)
    (os : list (list (option ending * list byte))) : Prop :=
  ends_as programs limit tty [] n (start (length programs) (no_pipes (length programs))) os.

Ltac every_schedule := apply outcomes_correct; vm_compute; reflexivity.

Definition lines (ls : list cstr) : list byte := mjoin (line <$> ls).

(** The parent waits for the child and reads its status, in every schedule.  The child leaves with
    [_exit], so its lines are lost when standard output is not a terminal. *)
Theorem parent_reads_status :
  let parent := lines [lit "Parent:"; lit "pid = 100"; lit "ppid = 50"] ++ lit "status = 5" in
  let child := lines [lit "Child:"; lit "pid = 101"; lit "ppid = 100"] in
  ends [parent_and_child] 2 true 15 [[(Some (Exited 0), parent); (Some (Exited 5), child)]] /\
  ends [parent_and_child] 2 false 15 [[(Some (Exited 0), parent); (Some (Exited 5), [])]] /\
  ends [parent_and_child] 1 true 2 [[(Some (Exited 1), [])]].
Proof. split_and!; every_schedule. Qed.

(** The child gets the bytes of the pipe, whoever is quicker.  When [fork] fails, the program
    takes itself for the parent and is killed by its own [write]. *)
Theorem pipe_delivers :
  ends [pipe_main] 2 true 11
    [[(Some (Exited 0), []); (Some (Exited 0), line (lit "Child read: Hi!"))]] /\
  ends [pipe_main] 1 true 4 [[(Some (Killed SIGPIPE), [])]].
Proof. split_and!; every_schedule. Qed.

(** Server and client over a FIFO: either the client reads the message and removes the FIFO, or it
    came before the FIFO existed, and the server waits for ever for somebody to read. *)
Theorem fifo_outcomes :
  ends [fifo_server; fifo_client] 2 true 13
    [[(None, []); (Some (Exited 1), [])];
     [(Some (Exited 0), []); (Some (Exited 0), line (lit "Client read: Hi!"))]].
Proof. every_schedule. Qed.

(** The tree of processes.  [info] is the line of a process. *)
Definition info (name : cstr) (pid ppid : Z) : list byte :=
  line (name ++ lit ": pid = " ++ dec pid ++ lit ", ppid = " ++ dec ppid).

(** The pids that the processes 1 to 5 can get, in the order of their creation. *)
Definition tree_ends (p1 p2 p3 p4 p5 : Z) : list (option ending * list byte) :=
  let all := [(p1, info (lit "Process 1") p1 100); (p2, info (lit "Process 2") p2 100);
              (p3, info (lit "Process 3") p3 p1); (p4, info (lit "Proccess 4") p4 p1); (p5, info (lit "Process 5") p5 p2)] in
  (Some (Exited 0), []) ::
  ((fun p => (Some (Exited 0), default [] (snd <$> (snd <$> list_find (fun x => x.1 = p) all)))) <$> [101; 102; 103; 104; 105]).

