(* ===== verification/SharedMemory.v ===== *)
(** * Two processes over shared memory

    [shared_memory/posix] and [shared_memory/systemv]: a server leaves a message in shared memory, a client
    reads it and leaves an answer, and semaphores keep the order.  The devices are the
    semaphores and the memory; the programs are started together, so every theorem covers a
    client that is quicker than its server. *)

From S2P Require Import Prelude CString Posix.
From ITree Require Import Core.ITreeDefinition.

Open Scope clib_scope.

(** ** POSIX semaphores and shared memory *)

Module Posix_shm.

Inductive call :=
  | SemOpen (name : cstr) (creat : bool)
  | SemWait (h : Z)
  | SemPost (h : Z)
  | SemClose (h : Z)
  | SemUnlink (name : cstr)
  | ShmOpen (name : cstr) (creat : bool)
  | Ftruncate (fd : Z) (size : nat)
  | Mmap (fd : Z)
  | Store (ptr : Z) (text : cstr)
  | Load (ptr : Z)
  | Munmap (ptr : Z)
  | Close (fd : Z)
  | ShmUnlink (name : cstr).

(** What a process has: semaphores, descriptors of shared memory, mappings. *)
Inductive handle := Sem (id : nat) | Fd (id : nat) | Map (id : nat).

#[global] Instance handle_eq_dec : EqDecision handle.
Proof. solve_decision. Defined.

(** [memory] are the sizes and the strings of the objects; a name stays until it is unlinked, an object
    as long as somebody has it. *)
Record kernel := mkKernel {
  sems : list nat;
  sem_names : list (cstr * nat);
  memory : list (nat * cstr);
  shm_names : list (cstr * nat);
  handles : list (list (option handle))
}.

#[global] Instance kernel_eq_dec : EqDecision kernel.
Proof. solve_decision. Defined.

Definition nothing (processes : nat) : kernel := mkKernel [] [] [] [] (replicate processes []).

Definition table (pid : nat) (k : kernel) : list (option handle) := default [] (handles k !! pid).
Definition set_table (pid : nat) (t : list (option handle)) (k : kernel) : kernel :=
  mkKernel (sems k) (sem_names k) (memory k) (shm_names k) (<[pid := t]> (handles k)).

(** Handles are numbers from 3 on, which is neither the null pointer nor -1. *)
Definition get_handle (pid : nat) (h : Z) (k : kernel) : option handle :=
  if h <? 3 then None else mjoin (table pid k !! Z.to_nat (h - 3)).
Definition add_handle (pid : nat) (h : handle) (k : kernel) : dev_result kernel :=
  Returns (mkAns (3 + Z.of_nat (length (table pid k))) []) (set_table pid (table pid k ++ [Some h]) k).
Definition drop_handle (pid : nat) (h : Z) (k : kernel) : dev_result kernel :=
  match get_handle pid h k with
  | Some _ => Returns (mkAns 0 []) (set_table pid (<[Z.to_nat (h - 3) := None]> (table pid k)) k)
  | None => Returns (mkAns (-1) []) k
  end.

Definition find_name (name : cstr) (l : list (cstr * nat)) : option nat :=
  snd <$> (snd <$> list_find (fun x => x.1 = name) l).
Definition remove_name (name : cstr) (l : list (cstr * nat)) : list (cstr * nat) := filter (fun x => x.1 <> name) l.

Definition set_sem (id v : nat) (k : kernel) : kernel :=
  mkKernel (<[id := v]> (sems k)) (sem_names k) (memory k) (shm_names k) (handles k).
Definition set_memory (id : nat) (m : nat * cstr) (k : kernel) : kernel :=
  mkKernel (sems k) (sem_names k) (<[id := m]> (memory k)) (shm_names k) (handles k).

(** [SEM_FAILED] is the null pointer; [sem_open(O_CREAT | O_EXCL)] fails when the name exists.  A page
    behind the end of an object that was never given a size is a bus error. *)
Definition shm_call (pid : nat) (c : call) (k : kernel) : dev_result kernel :=
  match c with
  | SemOpen name creat =>
      match find_name name (sem_names k), creat with
      | Some _, true | None, false => Returns (mkAns 0 []) k
      | Some id, false => add_handle pid (Sem id) k
      | None, true =>
          add_handle pid (Sem (length (sems k)))
            (mkKernel (sems k ++ [0%nat]) (sem_names k ++ [(name, length (sems k))]) (memory k) (shm_names k) (handles k))
      end
  | SemWait h =>
      match get_handle pid h k with
      | Some (Sem id) =>
          match sems k !! id with
          | Some (S v) => Returns (mkAns 0 []) (set_sem id v k)
          | _ => Blocked
          end
      | _ => Signal SIGSEGV k
      end
  | SemPost h =>
      match get_handle pid h k with
      | Some (Sem id) => Returns (mkAns 0 []) (set_sem id (S (default 0%nat (sems k !! id))) k)
      | _ => Signal SIGSEGV k
      end
  | SemClose h =>
      match get_handle pid h k with Some (Sem _) => drop_handle pid h k | _ => Signal SIGSEGV k end
  | SemUnlink name =>
      Returns (mkAns (if find_name name (sem_names k) is Some _ then 0 else -1) [])
        (mkKernel (sems k) (remove_name name (sem_names k)) (memory k) (shm_names k) (handles k))
  | ShmOpen name creat =>
      match find_name name (shm_names k), creat with
      | Some id, _ => add_handle pid (Fd id) k
      | None, true =>
          add_handle pid (Fd (length (memory k)))
            (mkKernel (sems k) (sem_names k) (memory k ++ [(0%nat, [])]) (shm_names k ++ [(name, length (memory k))]) (handles k))
      | None, false => Returns (mkAns (-1) []) k
      end
  | Ftruncate fd size =>
      match get_handle pid fd k with
      | Some (Fd id) => Returns (mkAns 0 []) (set_memory id (size, snd (default (0%nat, []) (memory k !! id))) k)
      | _ => Returns (mkAns (-1) []) k
      end
  | Mmap fd =>
      match get_handle pid fd k with
      | Some (Fd id) => add_handle pid (Map id) k
      | _ => Returns (mkAns (-1) []) k
      end
  | Store p text =>
      match get_handle pid p k with
      | Some (Map id) =>
          match memory k !! id with
          | Some (S n, _) => Returns (mkAns (Z.of_nat (length text)) []) (set_memory id (S n, take n text) k)
          | _ => Signal SIGBUS k
          end
      | _ => Signal SIGSEGV k
      end
  | Load p =>
      match get_handle pid p k with
      | Some (Map id) =>
          match memory k !! id with
          | Some (S _, text) => Returns (mkAns 0 text) k
          | _ => Signal SIGBUS k
          end
      | _ => Signal SIGSEGV k
      end
  | Munmap p => match get_handle pid p k with Some (Map _) => drop_handle pid p k | _ => Returns (mkAns (-1) []) k end
  | Close fd => match get_handle pid fd k with Some (Fd _) => drop_handle pid fd k | _ => Returns (mkAns (-1) []) k end
  | ShmUnlink name =>
      Returns (mkAns (if find_name name (shm_names k) is Some _ then 0 else -1) [])
        (mkKernel (sems k) (sem_names k) (memory k) (remove_name name (shm_names k)) (handles k))
  end.

#[global] Instance shm_device : Device call kernel := {
  dev_call := shm_call;
  dev_fork i j k := mkKernel (sems k) (sem_names k) (memory k) (shm_names k) (handles k ++ [table i k]);
  dev_exit i k := set_table i [] k
}.

Definition sys (c : call) : itree (sysE call) ans := dev c.

Definition SIZE : nat := 4096.
Definition shm_name : cstr := lit "smo".
Definition sem_srv_name : cstr := lit "/sem_server".
Definition sem_cli_name : cstr := lit "/sem_client".

Definition quoted (who text : cstr) : list byte := who ++ [34] ++ text ++ [34; NL].

Definition server : program call :=
  let! sem_srv := sys (SemOpen sem_srv_name true) in
  let! sem_cli := sys (SemOpen sem_cli_name true) in
  let! shm_fd := sys (ShmOpen shm_name true) in
  run! sys (Ftruncate (ret shm_fd) SIZE) in
  let! ptr := sys (Mmap (ret shm_fd)) in
  run! sys (Store (ret ptr) (lit "Hi!")) in
  run! sys (SemPost (ret sem_srv)) in
  run! sys (SemWait (ret sem_cli)) in
  let! text := sys (Load (ret ptr)) in
  run! base (PrintOut (quoted (lit "Server read: ") (data text))) in
  run! sys (Munmap (ret ptr)) in
  run! sys (Close (ret shm_fd)) in
  run! sys (ShmUnlink shm_name) in
  run! sys (SemClose (ret sem_srv)) in
  run! sys (SemUnlink sem_srv_name) in
  run! sys (SemClose (ret sem_cli)) in
  run! sys (SemUnlink sem_cli_name) in
  Ret 0.

Definition client : program call :=
  let! sem_srv := sys (SemOpen sem_srv_name false) in
  let! sem_cli := sys (SemOpen sem_cli_name false) in
  let! shm_fd := sys (ShmOpen shm_name false) in
  let! ptr := sys (Mmap (ret shm_fd)) in
  run! sys (SemWait (ret sem_srv)) in
  let! text := sys (Load (ret ptr)) in
  run! base (PrintOut (quoted (lit "Client read: ") (data text))) in
  run! sys (Store (ret ptr) (lit "Hello!")) in
  run! sys (SemPost (ret sem_cli)) in
  run! sys (Munmap (ret ptr)) in
  run! sys (Close (ret shm_fd)) in
  run! sys (SemClose (ret sem_srv)) in
  run! sys (SemClose (ret sem_cli)) in
  Ret 0.

(** The names that a server that never ended has left. *)
Definition left_over : kernel :=
  mkKernel [0%nat; 0%nat] [(sem_srv_name, 0%nat); (sem_cli_name, 1%nat)] [(SIZE, lit "Hi!")] [(shm_name, 0%nat)] [[]].

End Posix_shm.

(** ** System V shared memory and semaphores *)

Module Systemv_shm.

Inductive call :=
  | ShmGet (creat : bool)
  | ShmAt (id : Z)
  | SemGet (creat : bool)
  | SemSetAll (id : Z) (v0 v1 : nat)
  | SemOp (id : Z) (num : nat) (up : bool)
  | Store (ptr : Z) (text : cstr)
  | Load (ptr : Z)
  | ShmDt (ptr : Z)
  | ShmRmid (id : Z)
  | SemRmid (id : Z).

(** There is one key: the segment and the set of two semaphores, if they exist, and who has the
    segment attached.  (A removed segment stays for those who have it attached; here it is gone,
    since none of the programs uses it after [IPC_RMID].) *)
Record kernel := mkKernel {
  segment : option cstr;
  sems : option (nat * nat);
  attached : list bool
}.

#[global] Instance kernel_eq_dec : EqDecision kernel.
Proof. solve_decision. Defined.

Definition nothing (processes : nat) : kernel := mkKernel None None (replicate processes false).

(** The identifiers of the segment and of the set, and where the segment is mapped. *)
Definition ID : Z := 0.
Definition ADDR : Z := 4096.

Definition done (r : Z) (k : kernel) : dev_result kernel := Returns (mkAns r []) k.

Definition sem_up (num : nat) (s : nat * nat) : nat * nat := if (num =? 0)%nat then (S s.1, s.2) else (s.1, S s.2).
Definition sem_down (num : nat) (s : nat * nat) : option (nat * nat) :=
  match num, s with
  | O, (S v, w) => Some (v, w)
  | S _, (v, S w) => Some (v, w)
  | _, _ => None
  end.

(** The memory of a process without the mapping, at the address -1 or after [shmdt], is not there. *)
Definition mapped (pid : nat) (ptr : Z) (k : kernel) : option cstr :=
  if (ptr =? ADDR) && default false (attached k !! pid) then segment k else None.

Definition shm_call (pid : nat) (c : call) (k : kernel) : dev_result kernel :=
  match c with
  | ShmGet creat =>
      match segment k, creat with
      | Some _, _ => done ID k
      | None, true => done ID (mkKernel (Some []) (sems k) (attached k))
      | None, false => done (-1) k
      end
  | ShmAt id =>
      match segment k with
      | Some _ => if id =? ID then done ADDR (mkKernel (segment k) (sems k) (<[pid := true]> (attached k))) else done (-1) k
      | None => done (-1) k
      end
  | SemGet creat =>
      match sems k, creat with
      | Some _, _ => done ID k
      | None, true => done ID (mkKernel (segment k) (Some (0%nat, 0%nat)) (attached k))
      | None, false => done (-1) k
      end
  | SemSetAll id v0 v1 =>
      match sems k with
      | Some _ => if id =? ID then done 0 (mkKernel (segment k) (Some (v0, v1)) (attached k)) else done (-1) k
      | None => done (-1) k
      end
  | SemOp id num up =>
      match sems k with
      | Some s =>
          if negb (id =? ID) then done (-1) k
          else if up then done 0 (mkKernel (segment k) (Some (sem_up num s)) (attached k))
          else match sem_down num s with
               | Some s' => done 0 (mkKernel (segment k) (Some s') (attached k))
               | None => Blocked
               end
      | None => done (-1) k
      end
  | Store ptr text =>
      match mapped pid ptr k with
      | Some _ => done (Z.of_nat (length text)) (mkKernel (Some text) (sems k) (attached k))
      | None => Signal SIGSEGV k
      end
  | Load ptr => match mapped pid ptr k with Some text => Returns (mkAns 0 text) k | None => Signal SIGSEGV k end
  | ShmDt ptr =>
      match mapped pid ptr k with
      | Some _ => done 0 (mkKernel (segment k) (sems k) (<[pid := false]> (attached k)))
      | None => done (-1) k
      end
  | ShmRmid id =>
      match segment k with
      | Some _ => if id =? ID then done 0 (mkKernel None (sems k) (attached k)) else done (-1) k
      | None => done (-1) k
      end
  | SemRmid id =>
      match sems k with
      | Some _ => if id =? ID then done 0 (mkKernel (segment k) None (attached k)) else done (-1) k
      | None => done (-1) k
      end
  end.

#[global] Instance shm_device : Device call kernel := {
  dev_call := shm_call;
  dev_fork i j k := mkKernel (segment k) (sems k) (attached k ++ [default false (attached k !! i)]);
  dev_exit i k := mkKernel (segment k) (sems k) (<[i := false]> (attached k))
}.

Definition sys (c : call) : itree (sysE call) ans := dev c.

Definition server : program call :=
  let! shmid := sys (ShmGet true) in
  let! buf := sys (ShmAt (ret shmid)) in
  let! semid := sys (SemGet true) in
  run! sys (SemSetAll (ret semid) 0 0) in
  run! sys (Store (ret buf) (lit "Hi!")) in
  run! sys (SemOp (ret semid) 0 true) in
  run! sys (SemOp (ret semid) 1 false) in
  let! text := sys (Load (ret buf)) in
  run! base (PrintOut (Posix_shm.quoted (lit "Server read: ") (data text))) in
  run! sys (ShmDt (ret buf)) in
  run! sys (ShmRmid (ret shmid)) in
  run! sys (SemRmid (ret semid)) in
  Ret 0.

Definition client : program call :=
  let! shmid := sys (ShmGet false) in
  let! buf := sys (ShmAt (ret shmid)) in
  let! semid := sys (SemGet false) in
  run! sys (SemOp (ret semid) 0 false) in
  let! text := sys (Load (ret buf)) in
  run! base (PrintOut (Posix_shm.quoted (lit "Client read: ") (data text))) in
  run! sys (Store (ret buf) (lit "Hello!")) in
  run! sys (SemOp (ret semid) 1 true) in
  run! sys (ShmDt (ret buf)) in
  Ret 0.

End Systemv_shm.

(** ** How they end *)

(** The server and the client exchange their messages and both end, unless the client starts too
    early: then it is killed at the first semaphore, mapping or object that did not exist, and the
    server waits for ever.  The names of a server that was stopped then make every later server
    fail in the same way. *)
Theorem posix_shm_outcomes :
  let hi := Posix_shm.quoted (lit "Client read: ") (lit "Hi!") in
  let hello := Posix_shm.quoted (lit "Server read: ") (lit "Hello!") in
  ends_as [Posix_shm.server; Posix_shm.client] 2 true [] 32 (start 2 (Posix_shm.nothing 2))
    [[(None, []); (Some (Killed SIGSEGV), [])];
     [(None, []); (Some (Killed SIGSEGV), hi)];
     [(Some (Exited 0), hello); (Some (Exited 0), hi)]] /\
  ends_as [Posix_shm.server] 1 true [] 7 (start 1 Posix_shm.left_over) [[(Some (Killed SIGSEGV), [])]].
Proof. split; apply outcomes_correct; vm_compute; reflexivity. Qed.

(** The same over System V: here the operations on semaphores that do not exist fail and are
    ignored, so a client that is too early can also read the memory before or after the server has
    written it and leave the server waiting. *)
Theorem systemv_shm_outcomes :
  let client_read := Posix_shm.quoted (lit "Client read: ") in
  ends_as [Systemv_shm.server; Systemv_shm.client] 2 true [] 23 (start 2 (Systemv_shm.nothing 2))
    [[(None, []); (Some (Killed SIGSEGV), [])];
     [(None, []); (Some (Exited 0), client_read (lit "Hi!"))];
     [(None, []); (Some (Exited 0), client_read [])];
     [(Some (Exited 0), Posix_shm.quoted (lit "Server read: ") (lit "Hello!")); (Some (Exited 0), client_read (lit "Hi!"))]].
Proof. apply outcomes_correct. vm_compute. reflexivity. Qed.
