(* ===== verification/MessageQueues.v ===== *)
(** * Two processes over message queues

    [message_queues/posix] and [message_queues/systemv]: a server sends a message and waits for the
    client's answer, over two POSIX queues or over the two message types of a System V
    queue.  The devices are the queues; the programs are started together. *)

From S2P Require Import Prelude CString Posix.
From ITree Require Import Core.ITreeDefinition.

Open Scope clib_scope.

Definition says (who text : cstr) : list byte := who ++ lit " says: " ++ text ++ [NL].

(** ** POSIX queues *)

Module Posix_mq.

Inductive call :=
  | MqOpen (name : cstr) (creat : bool)
  | MqSend (mq : Z) (msg : list byte)
  | MqReceive (mq : Z) (size : nat)
  | MqClose (mq : Z)
  | MqUnlink (name : cstr).

(** The queues ever created; a name stays until it is unlinked, a queue as long as somebody has it. *)
Record kernel := mkKernel {
  queues : list (list (list byte));
  names : list (cstr * nat);
  handles : list (list (option nat))
}.

#[global] Instance kernel_eq_dec : EqDecision kernel.
Proof. solve_decision. Defined.

Definition nothing (processes : nat) : kernel := mkKernel [] [] (replicate processes []).

Definition table (pid : nat) (k : kernel) : list (option nat) := default [] (handles k !! pid).
Definition set_table (pid : nat) (t : list (option nat)) (k : kernel) : kernel :=
  mkKernel (queues k) (names k) (<[pid := t]> (handles k)).
Definition set_queue (id : nat) (q : list (list byte)) (k : kernel) : kernel :=
  mkKernel (<[id := q]> (queues k)) (names k) (handles k).
Definition find_name (name : cstr) (k : kernel) : option nat :=
  snd <$> (snd <$> list_find (fun x => x.1 = name) (names k)).

(** The queue behind a descriptor; descriptors are numbers from 3 on. *)
Definition queue_of (pid : nat) (mq : Z) (k : kernel) : option (nat * list (list byte)) :=
  if mq <? 3 then None
  else id ← mjoin (table pid k !! Z.to_nat (mq - 3)); q ← queues k !! id; Some (id, q).

Definition add_handle (pid id : nat) (k : kernel) : dev_result kernel :=
  Returns (mkAns (3 + Z.of_nat (length (table pid k))) []) (set_table pid (table pid k ++ [Some id]) k).

Definition done (r : Z) (k : kernel) : dev_result kernel := Returns (mkAns r []) k.

(** [mq_maxmsg] and [mq_msgsize] of both queues. *)
Definition MAXMSG : nat := 10.
Definition MSGSIZE : nat := 100.

(** [mq_receive] refuses a buffer smaller than [mq_msgsize] and [mq_send] a larger message; a full
    queue makes the sender wait, an empty one the receiver. *)
Definition mq_call (pid : nat) (c : call) (k : kernel) : dev_result kernel :=
  match c with
  | MqOpen name creat =>
      match find_name name k with
      | Some id => add_handle pid id k
      | None =>
          if creat then
            add_handle pid (length (queues k))
              (mkKernel (queues k ++ [[]]) (names k ++ [(name, length (queues k))]) (handles k))
          else done (-1) k
      end
  | MqSend mq msg =>
      match queue_of pid mq k with
      | Some (id, q) =>
          if (MSGSIZE <? length msg)%nat then done (-1) k
          else if (MAXMSG <=? length q)%nat then Blocked
          else done 0 (set_queue id (q ++ [msg]) k)
      | None => done (-1) k
      end
  | MqReceive mq size =>
      match queue_of pid mq k with
      | Some (id, q) =>
          if (size <? MSGSIZE)%nat then done (-1) k
          else match q with
               | [] => Blocked
               | msg :: q' => Returns (mkAns (Z.of_nat (length msg)) msg) (set_queue id q' k)
               end
      | None => done (-1) k
      end
  | MqClose mq =>
      match queue_of pid mq k with
      | Some _ => done 0 (set_table pid (<[Z.to_nat (mq - 3) := None]> (table pid k)) k)
      | None => done (-1) k
      end
  | MqUnlink name =>
      done (if find_name name k is Some _ then 0 else -1)
        (mkKernel (queues k) (filter (fun x => x.1 <> name) (names k)) (handles k))
  end.

#[global] Instance mq_device : Device call kernel := {
  dev_call := mq_call;
  dev_fork i j k := mkKernel (queues k) (names k) (handles k ++ [table i k]);
  dev_exit i k := set_table i [] k
}.

Definition sys (c : call) : itree (sysE call) ans := dev c.

Definition server_queue : cstr := lit "/server_queue".
Definition client_queue : cstr := lit "/client_queue".

Definition server : program call :=
  let! mq_s := sys (MqOpen server_queue true) in
  let! mq_c := sys (MqOpen client_queue true) in
  run! sys (MqSend (ret mq_s) (lit "Hi!" ++ [NUL])) in
  let! n := sys (MqReceive (ret mq_c) 100) in
  with_string (data n) (fun buf =>
  run! base (PrintOut (says (lit "Client") buf)) in
  run! sys (MqClose (ret mq_s)) in
  run! sys (MqClose (ret mq_c)) in
  run! sys (MqUnlink server_queue) in
  run! sys (MqUnlink client_queue) in
  Ret 0).

Definition client : program call :=
  let! mq_s := sys (MqOpen server_queue false) in
  let! mq_c := sys (MqOpen client_queue false) in
  let! n := sys (MqReceive (ret mq_s) 100) in
  with_string (data n) (fun buf =>
  run! base (PrintOut (says (lit "Server") buf)) in
  run! sys (MqSend (ret mq_c) (lit "Hello!" ++ [NUL])) in
  run! sys (MqClose (ret mq_s)) in
  run! sys (MqClose (ret mq_c)) in
  Ret 0).

End Posix_mq.

(** ** A System V queue *)

Module Systemv_mq.

Inductive call :=
  | MsgGet (creat : bool)
  | MsgSnd (id : Z) (mtype : Z) (mtext : list byte)
  | MsgRcv (id : Z) (mtype : Z)
  | MsgRmid (id : Z).

(** There is one key.  A queue has an identifier of its own; a call on a queue that was removed
    fails, also one that was waiting. *)
Record kernel := mkKernel { serial : Z; queue : option (list (Z * list byte)) }.

#[global] Instance kernel_eq_dec : EqDecision kernel.
Proof. solve_decision. Defined.

Definition no_queue : kernel := mkKernel 0 None.

Definition done (r : Z) (k : kernel) : dev_result kernel := Returns (mkAns r []) k.
Definition queue_of (id : Z) (k : kernel) : option (list (Z * list byte)) :=
  if id =? serial k then queue k else None.

(** The first message of a type; the limits of the queue are not reached by these programs. *)
Definition mq_call (pid : nat) (c : call) (k : kernel) : dev_result kernel :=
  match c with
  | MsgGet creat =>
      match queue k, creat with
      | Some _, _ => done (serial k) k
      | None, true => done (serial k + 1) (mkKernel (serial k + 1) (Some []))
      | None, false => done (-1) k
      end
  | MsgSnd id mtype mtext =>
      match queue_of id k with
      | Some q => if mtype <? 1 then done (-1) k else done 0 (mkKernel (serial k) (Some (q ++ [(mtype, mtext)])))
      | None => done (-1) k
      end
  | MsgRcv id mtype =>
      match queue_of id k with
      | Some q =>
          match list_find (fun m => m.1 = mtype) q with
          | Some (i, (_, mtext)) =>
              Returns (mkAns (Z.of_nat (length mtext)) mtext) (mkKernel (serial k) (Some (delete i q)))
          | None => Blocked
          end
      | None => done (-1) k
      end
  | MsgRmid id =>
      match queue_of id k with Some _ => done 0 (mkKernel (serial k) None) | None => done (-1) k end
  end.

#[global] Instance mq_device : Device call kernel := {
  dev_call := mq_call;
  dev_fork i j k := k;
  dev_exit i k := k
}.

Definition sys (c : call) : itree (sysE call) ans := dev c.

(** What [strcpy] makes of the 100 bytes [mtext]; [old] are its bytes before. *)
Definition mtext_strcpy (old : list byte) (s : cstr) : list byte := s ++ [NUL] ++ drop (S (length s)) old.

(** What [msgrcv] makes of them. *)
Definition mtext_received (old : list byte) (a : ans) : list byte := data a ++ drop (length (data a)) old.

(** The server's [mtext] is not initialised: [junk] are its bytes. *)
Definition server (junk : list byte) : program call :=
  let! msqid := sys (MsgGet true) in
  let mtext := mtext_strcpy junk (lit "Hi!") in
  run! sys (MsgSnd (ret msqid) 1 mtext) in
  let! n := sys (MsgRcv (ret msqid) 2) in
  with_string (mtext_received mtext n) (fun text =>
  run! base (PrintOut (says (lit "Client") text)) in
  run! sys (MsgRmid (ret msqid)) in
  Ret 0).

(** When the client's [msgrcv] fails, [mtext] is not initialised when it is printed. *)
Definition client (junk : list byte) : program call :=
  let! msqid := sys (MsgGet false) in
  let! n := sys (MsgRcv (ret msqid) 1) in
  with_string (data n) (fun text =>
  run! base (PrintOut (says (lit "Server") text)) in
  run! sys (MsgSnd (ret msqid) 2 (mtext_strcpy (mtext_received junk n) (lit "Hello!"))) in
  Ret 0).

(** 100 bytes nobody has written. *)
Definition JUNK : list byte := replicate 100 170.

End Systemv_mq.

(** ** How they end *)

(** Over the POSIX queues the two exchange their messages, unless the client opens a queue that does not exist yet: then
    it prints a buffer nobody has written, or its answer gets lost, and the server waits for ever.  A second
    client that found the queues waits for ever for a message. *)
Theorem posix_mq_outcomes :
  let hi := says (lit "Server") (lit "Hi!") in
  let hello := says (lit "Client") (lit "Hello!") in
  ends_as [Posix_mq.server; Posix_mq.client] 2 true [] 18 (start 2 (Posix_mq.nothing 2))
    [[(None, []); (Some Crashed, [])];
     [(None, []); (Some (Exited 0), hi)];
     [(Some (Exited 0), hello); (Some (Exited 0), hi)]].
Proof. apply outcomes_correct. vm_compute. reflexivity. Qed.

(** Over the System V queue a client that is too early prints an unwritten buffer and the server
    waits for ever.  Of two clients exactly one gets the message; the other prints an unwritten buffer
    when the server removes the queue it waits for, or found none. *)
Theorem systemv_mq_outcomes :
  let server := Systemv_mq.server Systemv_mq.JUNK in
  let client := Systemv_mq.client Systemv_mq.JUNK in
  let hi := says (lit "Server") (lit "Hi!") in
  let hello := says (lit "Client") (lit "Hello!") in
  ends_as [server; client] 2 true [] 11 (start 2 Systemv_mq.no_queue)
    [[(None, []); (Some Crashed, [])];
     [(Some (Exited 0), hello); (Some (Exited 0), hi)]] /\
  ends_as [server; client; client] 3 true [] 14 (start 3 Systemv_mq.no_queue)
    [[(None, []); (Some Crashed, []); (Some Crashed, [])];
     [(Some (Exited 0), hello); (Some Crashed, []); (Some (Exited 0), hi)];
     [(Some (Exited 0), hello); (Some (Exited 0), hi); (Some Crashed, [])]].
Proof. split; apply outcomes_correct; vm_compute; reflexivity. Qed.
