(* ===== verification/Sockets.v ===== *)
(** * Clients and servers over sockets

    [sockets/basic] (streams and datagrams, over the loopback interface and over paths) and
    [sockets/types_of_data_transmision] (broadcast and multicast).  The device are the sockets of one
    host, as Linux documents them; nothing is lost on the way.  The programs do not check the
    results of their calls, so what happens to those that are started too early is part of
    the theorems. *)

From S2P Require Import Prelude CString Posix.
From ITree Require Import Core.ITreeDefinition.

Open Scope clib_scope.

(** ** Sockets *)

(** Every address of the internet family used here is on this host: a port is enough. *)
Inductive addr := Path (p : cstr) | Port (n : Z) | Broadcast (n : Z) | Group (n : Z).

#[export] Instance addr_eq_dec : EqDecision addr.
Proof. solve_decision. Defined.

(** A connection: its other end has been closed, or was never accepted, which is reported once. *)
Inductive cstate := Open | PeerClosed | Reset | Dead.

#[export] Instance cstate_eq_dec : EqDecision cstate.
Proof. solve_decision. Defined.

(** [inet] tells the family.  An [inbox] has the datagrams with the addresses they are from. *)
Inductive sock :=
  | Dgram (inet : bool) (bound : option addr) (reuse bcast : bool) (inbox : list (list Z * list byte))
  | Stream (inet : bool) (bound : option addr)
  | Listener (inet : bool) (at_ : addr) (backlog : nat) (waiting : list nat)
  | Conn (inet : bool) (peer : nat) (arrived : list byte) (s : cstate)
  | Closed.

#[export] Instance sock_eq_dec : EqDecision sock.
Proof. solve_decision. Defined.

(** [names] are the paths sockets were bound to, [given] the number of ports that were chosen. *)
Record kernel := mkKernel {
  socks : list sock;
  names : list (cstr * nat);
  fds : list (list (option nat));
  given : Z
}.

#[export] Instance kernel_eq_dec : EqDecision kernel.
Proof. solve_decision. Defined.

Definition no_sockets (processes : nat) : kernel := mkKernel [] [] (replicate processes []) 0.

Inductive call :=
  | Socket (inet stream : bool)
  | Bind (fd : Z) (a : addr)
  | Listen (fd : Z) (backlog : nat)
  | Accept (fd : Z)
  | Connect (fd : Z) (a : addr)
  | Send (fd : Z) (b : list byte)
  | Recv (fd : Z) (n : nat)
  | SendTo (fd : Z) (b : list byte) (a : option addr)
  | RecvFrom (fd : Z) (n : nat)
  | AllowBroadcast (fd : Z)
  | ReuseAddr (fd : Z)
  | Unlink (p : cstr)
  | Close (fd : Z).

(** *** The state *)

Definition table (pid : nat) (k : kernel) : list (option nat) := default [] (fds k !! pid).
Definition set_table (pid : nat) (t : list (option nat)) (k : kernel) : kernel :=
  mkKernel (socks k) (names k) (<[pid := t]> (fds k)) (given k).
Definition set_sock (id : nat) (s : sock) (k : kernel) : kernel :=
  mkKernel (<[id := s]> (socks k)) (names k) (fds k) (given k).
Definition add_sock (s : sock) (k : kernel) : kernel := mkKernel (socks k ++ [s]) (names k) (fds k) (given k).

(** Descriptors are numbers from 3 on. *)
Definition fd_sock (pid : nat) (fd : Z) (k : kernel) : option (nat * sock) :=
  if fd <? 3 then None
  else id ← mjoin (table pid k !! Z.to_nat (fd - 3)); s ← socks k !! id; Some (id, s).

Definition done (r : Z) (k : kernel) : dev_result kernel := Returns (mkAns r []) k.
Definition add_fd (pid id : nat) (k : kernel) : dev_result kernel :=
  done (3 + Z.of_nat (length (table pid k))) (set_table pid (table pid k ++ [Some id]) k).

Definition find_path (p : cstr) (k : kernel) : option nat :=
  snd <$> (snd <$> list_find (fun x => x.1 = p) (names k)).
Definition find_sock (P : sock -> bool) (k : kernel) : option nat := fst <$> list_find (fun s => P s = true) (socks k).

(** *** Binding *)

Definition EPHEMERAL : Z := 40000.

Definition is_stream (s : sock) : bool := match s with Stream _ _ | Listener _ _ _ _ => true | _ => false end.

(** The port of [a] belongs to somebody else of the same type.  Datagram sockets share one if both allow
    it; for listeners [SO_REUSEADDR] only concerns connections that are over, which are not kept here. *)
Definition in_use (stream reuse : bool) (a : addr) (k : kernel) : bool :=
  existsb (fun s =>
    match s with
    | Dgram _ (Some b) r _ _ => negb stream && bool_decide (a = b) && negb (reuse && r)
    | Stream _ (Some b) | Listener _ b _ _ => stream && bool_decide (a = b)
    | _ => false
    end) (socks k).

Definition with_addr (a : addr) (s : sock) : sock :=
  match s with
  | Dgram i _ r c q => Dgram i (Some a) r c q
  | Stream i _ => Stream i (Some a)
  | _ => s
  end.

Definition is_unbound (s : sock) : bool :=
  match s with Dgram _ None _ _ _ | Stream _ None => true | _ => false end.
Definition family (s : sock) : bool :=
  match s with Dgram i _ _ _ _ | Stream i _ | Listener i _ _ _ | Conn i _ _ _ => i | Closed => false end.
Definition reusable (s : sock) : bool := match s with Dgram _ _ r _ _ => r | _ => false end.

Definition bind_sock (id : nat) (s : sock) (a : addr) (k : kernel) : dev_result kernel :=
  if negb (is_unbound s) then done (-1) k
  else match a, family s with
       | Path p, false =>
           match find_path p k with
           | Some _ => done (-1) k
           | None => done 0 (mkKernel (<[id := with_addr a s]> (socks k)) (names k ++ [(p, id)]) (fds k) (given k))
           end
       | Port _, true => if in_use (is_stream s) (reusable s) a k then done (-1) k else done 0 (set_sock id (with_addr a s) k)
       | _, _ => done (-1) k
       end.

(** A socket of the internet family that needs a port is given one. *)
Definition auto_bind (id : nat) (s : sock) (k : kernel) : sock * kernel :=
  if is_unbound s && family s then
    let s' := with_addr (Port (EPHEMERAL + given k)) s in
    (s', mkKernel (<[id := s']> (socks k)) (names k) (fds k) (given k + 1))
  else (s, k).

(** *** Connections *)

Definition connect_sock (id : nat) (s : sock) (a : addr) (k : kernel) : dev_result kernel :=
  let target := match a with
                | Path p => find_path p k
                | _ => find_sock (fun s => match s with Listener true b _ _ => bool_decide (a = b) | _ => false end) k
                end in
  match s, l ← target; t ← socks k !! l; Some (l, t) with
  | Stream i _, Some (l, Listener i' b backlog waiting) =>
      if (backlog <? length waiting)%nat then Blocked
      else
        let server_end := length (socks k) in
        done 0 (add_sock (Conn i id [] Open)
                  (set_sock l (Listener i' b backlog (waiting ++ [server_end])) (set_sock id (Conn i server_end [] Open) k)))
  | _, _ => done (-1) k
  end.

(** What the other end of [id] sees when that is closed; [st] is [Reset] if it was never accepted. *)
Definition hang_up (st : cstate) (id : nat) (k : kernel) : kernel :=
  match socks k !! id with
  | Some (Conn _ peer _ _) =>
      match socks k !! peer with
      | Some (Conn i q b Open) => set_sock id Closed (set_sock peer (Conn i q b st) k)
      | _ => set_sock id Closed k
      end
  | _ => set_sock id Closed k
  end.

Definition close_sock (id : nat) (k : kernel) : kernel :=
  match socks k !! id with
  | Some (Listener _ _ _ waiting) => set_sock id Closed (foldr (hang_up Reset) k waiting)
  | _ => hang_up PeerClosed id k
  end.

(** On a socket that is not connected [send] is a broken pipe in the internet family and an error in the
    local one; a reset is an error the first time it is noticed, except by [send] on a local socket. *)
Definition send_conn (id : nat) (s : sock) (b : list byte) (k : kernel) : dev_result kernel :=
  match s with
  | Conn i peer q Open =>
      match socks k !! peer with
      | Some (Conn i' p' q' s') => done (Z.of_nat (length b)) (set_sock peer (Conn i' p' (q' ++ b) s') k)
      | _ => Signal SIGPIPE k
      end
  | Conn true peer q Reset => done (-1) (set_sock id (Conn true peer q Dead) k)
  | Conn _ _ _ _ => Signal SIGPIPE k
  | Stream true _ => Signal SIGPIPE k
  | _ => done (-1) k
  end.

(** The receiver gets what has arrived. *)
Definition recv_conn (id : nat) (s : sock) (n : nat) (k : kernel) : dev_result kernel :=
  match s with
  | Conn i peer ((_ :: _) as q) s' =>
      Returns (mkAns (Z.of_nat (length (take n q))) (take n q)) (set_sock id (Conn i peer (drop n q) s') k)
  | Conn _ _ [] Open => Blocked
  | Conn i peer [] Reset => done (-1) (set_sock id (Conn i peer [] Dead) k)
  | Conn _ _ [] _ => done 0 k
  | _ => done (-1) k
  end.

(** *** Datagrams *)

(** Addresses among the numbers a call stores. *)
Definition encode (a : option addr) : list Z :=
  match a with Some (Port n) => [n] | Some (Path p) => -1 :: p | _ => [] end.
Definition decode (l : list Z) : option addr :=
  match l with [] => None | n :: p => if n =? -1 then Some (Path p) else Some (Port n) end.

(** [recvfrom] stores the address (its length first) and the bytes. *)
Definition src_of (a : ans) : option addr :=
  match data a with [] => None | n :: l => decode (take (Z.to_nat n) l) end.
Definition payload (a : ans) : list byte :=
  match data a with [] => [] | n :: l => drop (Z.to_nat n) l end.

Definition enqueue (m : list Z * list byte) (s : sock) : sock :=
  match s with Dgram i a r c q => Dgram i a r c (q ++ [m]) | _ => s end.

(** Who gets a datagram: a port's owner; every socket bound to the port of a broadcast; and, since 224.0.0.1 is the group
    of all hosts and [IP_MULTICAST_ALL] is not cleared, to the port of a multicast. *)
Definition gets (a : addr) (s : sock) : bool :=
  match s, a with
  | Dgram true (Some b) _ _ _, (Port n | Broadcast n | Group n) => bool_decide (b = Port n)
  | _, _ => false
  end.

(** [sendto] a port nobody has is not an error; a path nobody has is one. *)
Definition send_dgram (id : nat) (s : sock) (b : list byte) (a : option addr) (k : kernel) : dev_result kernel :=
  match s, a with
  | Dgram true _ _ c _, Some ((Port _ | Broadcast _ | Group _) as a) =>
      if match a with Broadcast _ => negb c | _ => false end then done (-1) k
      else
        let '(s', k') := auto_bind id s k in
        let from := match s' with Dgram _ f _ _ _ => encode f | _ => [] end in
        let deliver := fun t => if gets a t then enqueue (from, b) t else t in
        done (Z.of_nat (length b)) (mkKernel (deliver <$> socks k') (names k') (fds k') (given k'))
  | Dgram false f _ _ _, Some (Path p) =>
      match t ← find_path p k; u ← socks k !! t; Some (t, u) with
      | Some (t, (Dgram _ _ _ _ _) as u) =>
          done (Z.of_nat (length b)) (set_sock t (enqueue (encode f, b) u) k)
      | _ => done (-1) k
      end
  | _, _ => done (-1) k
  end.

(** The rest of a datagram that does not fit is dropped. *)
Definition recv_dgram (id : nat) (s : sock) (n : nat) (k : kernel) : dev_result kernel :=
  match s with
  | Dgram _ _ _ _ [] => Blocked
  | Dgram i a r c ((from, b) :: q) =>
      Returns (mkAns (Z.of_nat (length (take n b))) (Z.of_nat (length from) :: from ++ take n b))
        (set_sock id (Dgram i a r c q) k)
  | _ => done (-1) k
  end.

(** *** The device *)

Definition sock_call (pid : nat) (c : call) (k : kernel) : dev_result kernel :=
  let at_fd fd (f : nat -> sock -> dev_result kernel) :=
    match fd_sock pid fd k with Some (id, s) => f id s | None => done (-1) k end in
  match c with
  | Socket inet stream =>
      let s := if stream then Stream inet None else Dgram inet None false false [] in
      add_fd pid (length (socks k)) (add_sock s k)
  | Bind fd a => at_fd fd (fun id s => bind_sock id s a k)
  | Listen fd n =>
      at_fd fd (fun id s =>
        match auto_bind id s k with
        | (Stream i (Some a), k') => done 0 (set_sock id (Listener i a n []) k')
        | _ => done (-1) k
        end)
  | Accept fd =>
      at_fd fd (fun id s =>
        match s with
        | Listener _ _ _ [] => Blocked
        | Listener i a n (c :: w) => add_fd pid c (set_sock id (Listener i a n w) k)
        | _ => done (-1) k
        end)
  | Connect fd a => at_fd fd (fun id s => connect_sock id s a k)
  | Send fd b => at_fd fd (fun id s => send_conn id s b k)
  | Recv fd n => at_fd fd (fun id s => recv_conn id s n k)
  | SendTo fd b a => at_fd fd (fun id s => send_dgram id s b a k)
  | RecvFrom fd n => at_fd fd (fun id s => recv_dgram id s n k)
  | AllowBroadcast fd =>
      at_fd fd (fun id s =>
        match s with Dgram i a r _ q => done 0 (set_sock id (Dgram i a r true q) k) | _ => done (-1) k end)
  | ReuseAddr fd =>
      at_fd fd (fun id s =>
        match s with Dgram i a _ c q => done 0 (set_sock id (Dgram i a true c q) k) | _ => done 0 k end)
  | Unlink p =>
      match find_path p k with
      | Some _ => done 0 (mkKernel (socks k) (filter (fun x => x.1 <> p) (names k)) (fds k) (given k))
      | None => done (-1) k
      end
  | Close fd =>
      at_fd fd (fun id s => done 0 (set_table pid (<[Z.to_nat (fd - 3) := None]> (table pid k)) (close_sock id k)))
  end.

#[export] Instance sock_device : Device call kernel := {
  dev_call := sock_call;
  dev_fork i j k := k;
  dev_exit i k := set_table i [] (foldr close_sock k (omap id (table i k)))
}.

Definition sys (c : call) : itree (sysE call) ans := dev c.

(** [buf[n] = 0] for a buffer of [size] bytes and what [recv] stored in it: outside the buffer it is
    undefined. *)
Definition terminated {R} (size : nat) (n : Z) (b : list byte) (k : cstr -> itree (sysE call) R) (undefined : R) :
    itree (sysE call) R :=
  if (0 <=? n) && (n <? Z.of_nat size) then k (c_str (take (Z.to_nat n) b ++ [NUL]))
  else ITree.bind (base Undefined) (fun _ => Ret undefined).

(** ** Streams *)

Definition BUF : nat := 1024.
Definition PORT : addr := Port 8080.
Definition SOCK_PATH : cstr := lit "/tmp/lockal_tcp_sock".
Definition line (s : cstr) : cstr := s ++ [NL].

Definition stream_client (inet : bool) (server : addr) : program call :=
  let! sock := sys (Socket inet true) in
  run! sys (Connect (ret sock) server) in
  run! sys (Send (ret sock) (line (lit "Hello!"))) in
  let! n := sys (Recv (ret sock) (BUF - 1)) in
  terminated BUF (ret n) (data n) (fun buf =>
  run! base (PrintOut (lit "Server: " ++ buf)) in
  run! sys (Close (ret sock)) in
  Ret 0) 0.

Definition tcp_inet_client : program call := stream_client true PORT.
Definition tcp_local_client : program call := stream_client false (Path SOCK_PATH).

(** The loop of both servers. *)
Definition serve (client : Z) : itree (sysE call) unit :=
  ITree.iter (fun _ : unit =>
    let! n := sys (Recv client (BUF - 1)) in
    if ret n <=? 0 then Ret (inr tt)
    else terminated BUF (ret n) (data n) (fun buf =>
      run! base (PrintOut (lit "Client: " ++ buf)) in
      run! sys (Send client (line (lit "Hi!"))) in
      Ret (inl tt)) (inr tt)) tt.

Definition tcp_inet_server : program call :=
  let! sock := sys (Socket true true) in
  run! sys (Bind (ret sock) PORT) in
  run! sys (Listen (ret sock) 5) in
  let! client := sys (Accept (ret sock)) in
  run! serve (ret client) in
  run! sys (Close (ret client)) in
  run! sys (Close (ret sock)) in
  Ret 0.

Definition tcp_local_server : program call :=
  let! sock := sys (Socket false true) in
  run! sys (Unlink SOCK_PATH) in
  run! sys (Bind (ret sock) (Path SOCK_PATH)) in
  run! sys (Listen (ret sock) 5) in
  let! client := sys (Accept (ret sock)) in
  run! serve (ret client) in
  run! sys (Unlink SOCK_PATH) in
  run! sys (Close (ret client)) in
  run! sys (Close (ret sock)) in
  Ret 0.

(** ** Datagrams *)

Definition SERVER_PATH : cstr := lit "/tmp/udp_server_sock".
Definition CLIENT_PATH : cstr := lit "/tmp/udp_client_sock".

Definition udp_inet_client : program call :=
  let! sock := sys (Socket true false) in
  run! sys (SendTo (ret sock) (line (lit "Hello!")) (Some PORT)) in
  let! n := sys (RecvFrom (ret sock) BUF) in
  terminated BUF (ret n) (payload n) (fun buf =>
  run! base (PrintOut (lit "Server: " ++ buf)) in
  run! sys (Close (ret sock)) in
  Ret 0) 0.

(** The loop of both servers; it has no end. *)
Definition answer (sock : Z) : program call :=
  ITree.iter (fun _ : unit =>
    let! n := sys (RecvFrom sock BUF) in
    terminated BUF (ret n) (payload n) (fun buf =>
      run! base (PrintOut (lit "Client: " ++ buf)) in
      run! sys (SendTo sock (line (lit "Hi!")) (src_of n)) in
      Ret (inl tt)) (inr 0)) tt.

Definition udp_inet_server : program call :=
  let! sock := sys (Socket true false) in
  run! sys (Bind (ret sock) PORT) in
  answer (ret sock).

Definition udp_local_client : program call :=
  let! sock := sys (Socket false false) in
  run! sys (Unlink CLIENT_PATH) in
  run! sys (Bind (ret sock) (Path CLIENT_PATH)) in
  run! sys (SendTo (ret sock) (line (lit "Hello!")) (Some (Path SERVER_PATH))) in
  let! n := sys (RecvFrom (ret sock) BUF) in
  terminated BUF (ret n) (payload n) (fun buf =>
  run! base (PrintOut (lit "Server: " ++ buf)) in
  run! sys (Unlink CLIENT_PATH) in
  run! sys (Close (ret sock)) in
  Ret 0) 0.

(** [h] is the number of [udp_local_handler] among the programs. *)
Definition udp_local_server (h : nat) : program call :=
  run! base (OnInterrupt h) in
  let! sock := sys (Socket false false) in
  run! sys (Unlink SERVER_PATH) in
  run! sys (Bind (ret sock) (Path SERVER_PATH)) in
  answer (ret sock).

Definition udp_local_handler : program call :=
  run! sys (Unlink SERVER_PATH) in
  run! base (UExit 0) in
  Ret 0.

(** ** Broadcast and multicast *)

(** The address of this host, as the receivers print it. *)
Definition HOST : cstr := lit "192.168.1.2".

(** Texts that are printed often, as the bytes they are. *)
Definition From : cstr := Eval cbv in lit "From " ++ HOST ++ lit ":".
Definition Send_ : cstr := Eval cbv in lit "Send: ".
Definition arrow : cstr := Eval cbv in lit " -> ".

(** [for (int i = from; i < from + n; i++) body], with what follows. *)
Fixpoint for_ (n : nat) (i : Z) (body : Z -> itree (sysE call) unit) (k : program call) : program call :=
  match n with O => k | S n' => run! body i in for_ n' (i + 1) body k end.

Definition from_line (a : option addr) (buf : cstr) : list byte :=
  line (From ++ dec (match a with Some (Port p) => p | _ => 0 end) ++ arrow ++ buf).

(** A turn of both receivers. *)
Definition receive (sock : Z) (i : Z) : itree (sysE call) unit :=
  let! n := sys (RecvFrom sock (BUF - 1)) in
  if ret n <? 0 then Ret tt
  else terminated BUF (ret n) (payload n) (fun buf => run! base (PrintOut (from_line (src_of n) buf)) in Ret tt) tt.

Definition broadcast_receiver : program call :=
  let! sock := sys (Socket true false) in
  run! sys (Bind (ret sock) PORT) in
  for_ 10 0 (receive (ret sock))
  (run! sys (Close (ret sock)) in Ret 0).

Definition string_no : cstr := Eval cbv in lit "This is sring №".
Definition broadcast_msg (i : Z) : cstr := string_no ++ dec i.

Definition broadcast_sender : program call :=
  let! sock := sys (Socket true false) in
  run! sys (AllowBroadcast (ret sock)) in
  for_ 10 0 (fun i =>
    run! sys (SendTo (ret sock) (broadcast_msg i) (Some (Broadcast 8080))) in
    run! base (PrintOut (line (Send_ ++ broadcast_msg i))) in
    Ret tt)
  (run! sys (Close (ret sock)) in Ret 0).

(** Joining the group of all hosts changes nothing here. *)
Definition multicast_receiver : program call :=
  let! sock := sys (Socket true false) in
  run! sys (ReuseAddr (ret sock)) in
  run! sys (Bind (ret sock) PORT) in
  for_ 10 0 (receive (ret sock))
  (run! sys (Close (ret sock)) in Ret 0).

Definition multicast_msg (i : Z) : cstr := lit "This is string No" ++ dec i.

Definition multicast_sender : program call :=
  let! sock := sys (Socket true false) in
  run! sys (Bind (ret sock) PORT) in
  run! base (PrintOut (line (lit "Sending to 224.0.0.1:8080 via Any"))) in
  for_ 10 0 (fun i =>
    let! r := sys (SendTo (ret sock) (multicast_msg i) (Some (Group 8080))) in
    if negb (ret r <? 0) then run! base (PrintOut (line (Send_ ++ multicast_msg i))) in Ret tt else Ret tt)
  (run! sys (Close (ret sock)) in Ret 0).

(** ** How they end *)

(** All processes of a run, started together with no socket open; [int] are those that may be interrupted. *)
Definition ends (programs : list (program call)) (count : nat) (int : list nat) (n : nat)
    (os : list (list (option ending * list byte))) : Prop :=
  ends_as programs count true int n (start count (no_sockets count)) os.

Ltac every_schedule := apply outcomes_correct; vm_compute; reflexivity.

Definition server_saw : list byte := lit "Client: " ++ line (lit "Hello!").
Definition client_saw : list byte := lit "Server: " ++ line (lit "Hi!").

(** C15 (error).  A client that is not too early gets its answer and the server ends with it.  A client that is too early ignores that
    it is not connected: over the network it is killed by its first [send], over a path [recv] returns -1 and
    it writes before its buffer; the server waits for somebody else.  Of two clients one is
    served; the other one is reset when the server closes its socket, and is killed,
    writes before its buffer, or prints an empty answer. *)
Theorem tcp_outcomes :
  let served := (Some (Exited 0), client_saw) in
  let killed := (Some (Killed SIGPIPE), []) in
  let crashed := (Some Crashed, []) in
  let server := (Some (Exited 0), server_saw) in
  ends [tcp_inet_server; tcp_inet_client] 2 [] 18 [[(None, []); killed]; [server; served]] /\
  ends [tcp_local_server; tcp_local_client] 2 [] 20 [[(None, []); crashed]; [server; served]] /\
  ends [tcp_inet_server; tcp_inet_client; tcp_inet_client] 3 [] 25
    [[(None, []); killed; killed];
     [server; killed; served]; [server; served; killed];
     [server; served; crashed]; [server; crashed; served];
     [server; served; (Some (Exited 0), lit "Server: ")]; [server; (Some (Exited 0), lit "Server: "); served]] /\
  ends [tcp_local_server; tcp_local_client; tcp_local_client] 3 [] 25
    [[(None, []); crashed; crashed];
     [server; served; killed]; [server; killed; served];
     [server; crashed; served]; [server; served; crashed]].
Proof. split_and!; every_schedule. Qed.

(** A program that sends the server one datagram of [n] new lines. *)
Definition datagram_of (n : nat) : program call :=
  let! sock := sys (Socket true false) in
  run! sys (SendTo (ret sock) (replicate n NL) (Some PORT)) in
  Ret 0.


(** The lines about the messages from [i] on. *)
Definition sent (msg : Z -> cstr) : list byte := mjoin ((fun i => line (Send_ ++ msg i)) <$> seqZ 0 10).
Definition received (msg : Z -> cstr) (i : Z) : list byte :=
  mjoin ((fun j => from_line (Some (Port EPHEMERAL)) (msg j)) <$> seqZ i (10 - i)).

(** The sender always sends its ten messages and ends.  A receiver that was there before the first one prints
    all ten and ends; one that came before message [i] prints the rest in order and then
    waits for ever for those it has missed, since it counts what it gets. *)
Theorem broadcast_outcomes :
  let sender := (Some (Exited 0), sent broadcast_msg) in
  ends [broadcast_sender; broadcast_receiver] 2 [] 48
    (((fun i => [sender; (None, received broadcast_msg i)]) <$> [10; 9; 8; 7; 6; 5; 4; 3; 2; 1]) ++
     [[sender; (Some (Exited 0), received broadcast_msg 0)]]).
Proof. every_schedule. Qed.

(** The multicast programs on one host: both bind the port.  A receiver that is first gets all
    messages, from the port the sender is given instead; when the sender is first, the receiver cannot
    bind, does not notice, and gets nothing. *)
Theorem multicast_outcomes :
  let sender := (Some (Exited 0), line (lit "Sending to 224.0.0.1:8080 via Any") ++ sent multicast_msg) in
  ends [multicast_sender; multicast_receiver] 2 [] 50
    [[sender; (None, [])]; [sender; (Some (Exited 0), received multicast_msg 0)]].
Proof. every_schedule. Qed.
