(* ===== verification/ServerSetup.v ===== *)
(** * How the socket servers and their clients begin

    The part of [main] before the loop of the four servers in [sockets], none of which looks at what its
    calls return, and [connect_to_port] of the clients, on the sockets of Sockets.v.  What comes after is in PcQueue.v, PcSystem.v,
    Pool.v and TimeServers.v. *)

From S2P Require Import Prelude CString Posix Sockets.

(** ** Calls that neither wait nor kill *)

Definition M (A : Type) : Type := kernel -> A * kernel.
#[export] Instance M_ret : MRet M := fun A x k => (x, k).
#[export] Instance M_bind : MBind M := fun A B f m k => let '(x, k') := m k in f x k'.

Section setup.
Context (pid : nat).

Definition call (c : Sockets.call) : M Z := fun k =>
  match sock_call pid c k with Returns a k' => (ret a, k') | Signal _ k' => (-1, k') | Blocked => (-1, k) end.

Definition LISTENER_PORT : Z := 8080.

(** [simple_parallel_tcp_server]. *)
Definition sp_tcp_setup : M Z :=
  listener_fd ← call (Socket true true);
  call (Bind listener_fd (Port LISTENER_PORT));;
  call (Listen listener_fd 5);;
  mret listener_fd.

(** [parallel_server_with_pool], and with another backlog [producer-consumer]. *)
Definition reusing_setup (backlog : nat) : M Z :=
  listener_fd ← call (Socket true true);
  call (ReuseAddr listener_fd);;
  call (Bind listener_fd (Port LISTENER_PORT));;
  call (Listen listener_fd backlog);;
  mret listener_fd.

Definition pool_setup : M Z := reusing_setup 5.
Definition producer_setup : M Z := reusing_setup 16.

(** [multiprotocol-server]: the sockets, those that are not blocking, and those [epoll] watches. *)
Record epoll_server := mkEpoll { tcp_sock : Z; udp_sock : Z; nonblocking : list Z; watched : list Z }.

Definition SOMAXCONN : nat := 4096.

(** [fcntl] of a descriptor that is not open fails and is ignored. *)
Definition make_socket_non_blocking (fd : Z) : M (list Z) := fun k =>
  (match fd_sock pid fd k with Some _ => [fd] | None => [] end, k).

Definition multiprotocol_setup : M epoll_server :=
  tcp ← call (Socket true true);
  udp ← call (Socket true false);
  call (ReuseAddr tcp);;
  call (ReuseAddr udp);;
  call (Bind tcp (Port LISTENER_PORT));;
  call (Bind udp (Port LISTENER_PORT));;
  call (Listen tcp SOMAXCONN);;
  n1 ← make_socket_non_blocking tcp;
  n2 ← make_socket_non_blocking udp;
  mret (mkEpoll tcp udp (n1 ++ n2) [tcp; udp]).

(** What they print then, whatever has happened. *)
Definition started : list byte := line (lit "Listener started on port " ++ dec LISTENER_PORT).
Definition epoll_started : list byte := line (lit "Server started on port " ++ dec LISTENER_PORT ++ lit "...").

(** The clients: [connect_to_port]. *)
Definition connect_to_port (port : Z) : M Z :=
  sock ← call (Socket true true);
  call (Connect sock (Port port));;
  mret sock.
End setup.

(** ** Lemmas on the calls *)

Lemma fd_sock_set_sock pid fd k id s s' :
  fd_sock pid fd k = Some (id, s) -> fd_sock pid fd (set_sock id s' k) = Some (id, s').
Proof.
  unfold fd_sock, set_sock, table. cbn. case_if; [done|]. destruct (mjoin _) as [j|]; [|done]. cbn.
  destruct (socks k !! j) eqn:E; [|done]. cbn. intros [= -> ->].
  by rewrite list_lookup_insert_eq by (by eapply lookup_lt_Some).
Qed.

Lemma fd_sock_other pid fd k id s id' s' :
  fd_sock pid fd k = Some (id, s) -> id' <> id -> fd_sock pid fd (set_sock id' s' k) = Some (id, s).
Proof.
  unfold fd_sock, set_sock, table. cbn. case_if; [done|]. destruct (mjoin _) as [j|]; [|done]. cbn.
  destruct (socks k !! j) eqn:E; [|done]. cbn. intros [= -> ->] Hne. by rewrite list_lookup_insert_ne, E by done.
Qed.

(** A new socket, in the state [k'] that [socket] leaves. *)
Definition fresh_sock (stream : bool) : sock := if stream then Stream true None else Dgram true None false false [].

Record opened (pid : nat) (stream : bool) (k : kernel) (fd : Z) (k' : kernel) : Prop := {
  op_fd : fd_sock pid fd k' = Some (length (socks k), fresh_sock stream);
  op_socks : socks k' = socks k ++ [fresh_sock stream];
  op_fds : length (fds k') = length (fds k);
  op_given : given k' = given k;
  op_other : forall fd' id s, fd_sock pid fd' k = Some (id, s) -> fd_sock pid fd' k' = Some (id, s)
}.

Lemma call_socket pid stream k :
  (pid < length (fds k))%nat -> exists fd k', call pid (Socket true stream) k = (fd, k') /\ opened pid stream k fd k'.
Proof.
  intros Hp. exists (3 + Z.of_nat (length (table pid k))).
  exists (set_table pid (table pid k ++ [Some (length (socks k))]) (add_sock (fresh_sock stream) k)).
  split; [by destruct stream|].
  assert (forall t, table pid (set_table pid t (add_sock (fresh_sock stream) k)) = t) as Ht.
  { intros t. unfold table, set_table, add_sock. cbn. by rewrite list_lookup_insert_eq. }
  split; [|done|apply length_insert|done|].
  - unfold fd_sock. rewrite Ht. rewrite (proj2 (Z.ltb_ge _ 3)) by lia.
    replace (Z.to_nat _) with (length (table pid k)) by lia. rewrite lookup_app_r, Nat.sub_diag by done. cbn.
    by rewrite lookup_app_r, Nat.sub_diag by done.
  - intros fd' id s. unfold fd_sock. rewrite Ht. case_if; [done|]. 
    destruct (table pid k !! Z.to_nat (fd' - 3)) as [o|] eqn:E; [|done].
    rewrite (lookup_app_l_Some _ _ _ _ E). cbn. destruct o as [j|]; [|done]. cbn.
    destruct (socks k !! j) as [x|] eqn:Ej; [|done]. cbn. by rewrite (lookup_app_l_Some _ _ _ _ Ej).
Qed.

Lemma call_bind pid fd k id s p :
  fd_sock pid fd k = Some (id, s) -> is_unbound s = true -> family s = true ->
  (call pid (Bind fd (Port p)) k).2 =
    if in_use (is_stream s) (reusable s) (Port p) k then k else set_sock id (with_addr (Port p) s) k.
Proof.
  intros Hf Hu Hi. unfold call, sock_call. rewrite Hf. unfold bind_sock. rewrite Hu, Hi. cbn [negb].
  by destruct (in_use _ _ _ k).
Qed.

Lemma in_use_app stream reuse a k socks' :
  in_use stream reuse a (mkKernel (socks k ++ socks') (names k) (fds k) (given k)) =
    in_use stream reuse a k || in_use stream reuse a (mkKernel socks' (names k) (fds k) (given k)).
Proof. unfold in_use. cbn. by rewrite existsb_app. Qed.

Lemma call_listen pid fd k id b n :
  fd_sock pid fd k = Some (id, Stream true b) ->
  fd_sock pid fd (call pid (Listen fd n) k).2 =
    Some (id, Listener true (default (Port (EPHEMERAL + given k)) b) n []) /\
  (forall fd' id' s, id' <> id -> fd_sock pid fd' k = Some (id', s) ->
     fd_sock pid fd' (call pid (Listen fd n) k).2 = Some (id', s)).
Proof.
  intros Hf. unfold call, sock_call. rewrite Hf. unfold auto_bind. destruct b as [a|]; cbn.
  - split; [by eapply fd_sock_set_sock|]. intros fd' id' s Hne H. by apply fd_sock_other.
  - set (s1 := Stream true (Some (Port (EPHEMERAL + given k)))).
    assert (forall s', set_sock id s' (mkKernel (<[id := s1]> (socks k)) (names k) (fds k) (given k + 1)) =
      mkKernel (socks (set_sock id s' k)) (names k) (fds k) (given k + 1)) as E.
    { intros s'. unfold set_sock. cbn. by rewrite list_insert_insert_eq. }
    rewrite E. split.
    + exact (fd_sock_set_sock _ _ _ _ _ (Listener true (Port (EPHEMERAL + given k)) n []) Hf).
    + intros fd' id' s Hne H. exact (fd_sock_other _ _ _ _ _ id (Listener true (Port (EPHEMERAL + given k)) n []) H (not_eq_sym Hne)).
Qed.

(** Where a server ends up that wants the port: on one the system chooses, if another one has it. *)
Definition listen_port (k : kernel) : addr :=
  if in_use true false (Port LISTENER_PORT) k then Port (EPHEMERAL + given k) else Port LISTENER_PORT.

(** [bind] and [listen] of a new stream socket. *)
Lemma bind_listen pid k0 k fd n :
  opened pid true k0 fd k ->
  fd_sock pid fd (call pid (Listen fd n) (call pid (Bind fd (Port LISTENER_PORT)) k).2).2 =
    Some (length (socks k0), Listener true (listen_port k0) n []).
Proof.
  intros Hop. pose proof (op_fd _ _ _ _ _ Hop) as Hf. rewrite (call_bind pid fd k _ _ _ Hf) by done. cbn [is_stream reusable fresh_sock].
  assert (in_use true false (Port LISTENER_PORT) k = in_use true false (Port LISTENER_PORT) k0) as ->.
  { unfold in_use. rewrite (op_socks _ _ _ _ _ Hop), existsb_app. cbn. by rewrite orb_false_r. }
  unfold listen_port. destruct (in_use true false _ k0).
  - destruct (call_listen pid fd k _ None n Hf) as [-> _]. by rewrite (op_given _ _ _ _ _ Hop).
  - cbn [with_addr fresh_sock].
    destruct (call_listen pid fd (set_sock (length (socks k0)) (Stream true (Some (Port LISTENER_PORT))) k)
      (length (socks k0)) (Some (Port LISTENER_PORT)) n) as [-> _]; [by eapply fd_sock_set_sock|done].
Qed.

Lemma call_reuse_stream pid fd k id b :
  fd_sock pid fd k = Some (id, Stream true b) -> (call pid (ReuseAddr fd) k).2 = k.
Proof. intros Hf. unfold call, sock_call. by rewrite Hf. Qed.

Lemma bind_M {A B} (m : M A) (f : A -> M B) k : (m ≫= f) k = f (m k).1 (m k).2.
Proof. unfold mbind, M_bind. by destruct (m k). Qed.

Lemma sp_tcp_listens pid k :
  (pid < length (fds k))%nat ->
  exists fd k', sp_tcp_setup pid k = (fd, k') /\
    fd_sock pid fd k' = Some (length (socks k), Listener true (listen_port k) 5 []).
Proof.
  intros Hp. unfold sp_tcp_setup. rewrite bind_M. destruct (call_socket pid true k Hp) as (fd & k1 & -> & Hop). cbn [fst snd].
  rewrite !bind_M. eexists _, _. split; [reflexivity|]. by apply bind_listen.
Qed.

Lemma reusing_listens pid n k :
  (pid < length (fds k))%nat ->
  exists fd k', reusing_setup pid n k = (fd, k') /\
    fd_sock pid fd k' = Some (length (socks k), Listener true (listen_port k) n []).
Proof.
  intros Hp. unfold reusing_setup. rewrite bind_M. destruct (call_socket pid true k Hp) as (fd & k1 & -> & Hop). cbn [fst snd].
  rewrite !bind_M. rewrite (call_reuse_stream pid fd k1 _ None (op_fd _ _ _ _ _ Hop)).
  eexists _, _. split; [reflexivity|]. by apply bind_listen.
Qed.

(** Nobody listens on the port. *)
Definition deaf (p : Z) (k : kernel) : Prop :=
  Forall (fun s => match s with Listener true a _ _ => a <> Port p | _ => True end) (socks k).

(** The server for two protocols. *)
Lemma multiprotocol_listens pid k :
  (pid < length (fds k))%nat ->
  exists es k', multiprotocol_setup pid k = (es, k') /\
    fd_sock pid (tcp_sock es) k' = Some (length (socks k), Listener true (listen_port k) SOMAXCONN []) /\
    fd_sock pid (udp_sock es) k' =
      Some (S (length (socks k)),
            Dgram true (if in_use false true (Port LISTENER_PORT) k then None else Some (Port LISTENER_PORT)) true false []) /\
    nonblocking es = [tcp_sock es; udp_sock es] /\ watched es = [tcp_sock es; udp_sock es].
Proof.
  intros Hp. unfold multiprotocol_setup. rewrite bind_M. destruct (call_socket pid true k Hp) as (tcp & k1 & -> & Ht). cbn [fst snd].
  rewrite bind_M. destruct (call_socket pid false k1) as (udp & k2 & -> & Hu); [by rewrite (op_fds _ _ _ _ _ Ht)|]. cbn [fst snd].
  assert (length (socks k1) = S (length (socks k))) as Hl by (rewrite (op_socks _ _ _ _ _ Ht), length_app; cbn; lia).
  pose proof (op_other _ _ _ _ _ Hu _ _ _ (op_fd _ _ _ _ _ Ht)) as Htcp. pose proof (op_fd _ _ _ _ _ Hu) as Hudp.
  rewrite Hl in Hudp.
  rewrite bind_M, (call_reuse_stream pid tcp k2 _ None Htcp), bind_M.
  set (u1 := Dgram true None true false []). set (k3 := set_sock (S (length (socks k))) u1 k2).
  assert ((call pid (ReuseAddr udp) k2).2 = k3) as -> by (unfold call, sock_call; by rewrite Hudp).
  assert (fd_sock pid tcp k3 = Some (length (socks k), Stream true None)) as Htcp3 by (apply fd_sock_other; [done|lia]).
  assert (fd_sock pid udp k3 = Some (S (length (socks k)), u1)) as Hudp3 by (by eapply fd_sock_set_sock).
  assert (socks k3 = socks k ++ [Stream true None; u1]) as Hs3.
  { unfold k3, set_sock. cbn. rewrite (op_socks _ _ _ _ _ Hu), (op_socks _ _ _ _ _ Ht), <- app_assoc.
    rewrite insert_app_r_alt by lia. by replace (S (length (socks k)) - length (socks k))%nat with 1%nat by lia. }
  assert (given k3 = given k) as Hg by (by rewrite <- (op_given _ _ _ _ _ Ht), <- (op_given _ _ _ _ _ Hu)).
  rewrite bind_M, (call_bind pid tcp k3 _ _ _ Htcp3) by done. cbn [is_stream reusable].
  assert (in_use true false (Port LISTENER_PORT) k3 = in_use true false (Port LISTENER_PORT) k) as ->.
  { unfold in_use. rewrite Hs3, existsb_app. cbn. by rewrite orb_false_r. }
  set (k4 := if in_use true false _ k then k3 else _).
  set (tb := if in_use true false (Port LISTENER_PORT) k then None else Some (Port LISTENER_PORT)).
  assert (fd_sock pid tcp k4 = Some (length (socks k), Stream true tb) /\
          fd_sock pid udp k4 = Some (S (length (socks k)), u1) /\ given k4 = given k /\
          in_use false true (Port LISTENER_PORT) k4 = in_use false true (Port LISTENER_PORT) k) as (Htcp4 & Hudp4 & Hg4 & Hin4).
  { unfold k4, tb. destruct (in_use true false _ k).
    - split_and!; try done. unfold in_use. rewrite Hs3, existsb_app. cbn. by rewrite orb_false_r.
    - split_and!; [by eapply fd_sock_set_sock|by apply fd_sock_other; [|lia]|done|].
      unfold in_use, set_sock. cbn [socks]. rewrite Hs3, insert_app_r_alt, Nat.sub_diag, existsb_app by done. cbn.
      by rewrite orb_false_r. }
  clearbody k4. rewrite bind_M, (call_bind pid udp k4 _ _ _ Hudp4) by done. cbn [is_stream reusable u1]. rewrite Hin4.
  set (ub := if in_use false true (Port LISTENER_PORT) k then None else Some (Port LISTENER_PORT)).
  set (k5 := if in_use false true _ k then k4 else _).
  assert (fd_sock pid tcp k5 = Some (length (socks k), Stream true tb) /\
          fd_sock pid udp k5 = Some (S (length (socks k)), Dgram true ub true false []) /\ given k5 = given k) as (Htcp5 & Hudp5 & Hg5).
  { unfold k5, ub. destruct (in_use false true _ k); [by split_and!|].
    split_and!; [by apply fd_sock_other; [|lia]|by eapply fd_sock_set_sock|done]. }
  clearbody k5. destruct (call_listen pid tcp k5 _ tb SOMAXCONN Htcp5) as [Htcp6 Hother].
  rewrite bind_M. set (k6 := (call pid (Listen tcp SOMAXCONN) k5).2) in *.
  assert (fd_sock pid udp k6 = Some (S (length (socks k)), Dgram true ub true false [])) as Hudp6 by (apply Hother; [lia|done]).
  rewrite !bind_M. unfold make_socket_non_blocking. cbn [fst snd]. rewrite Htcp6, Hudp6.
  eexists _, _. split; [reflexivity|]. cbn [tcp_sock udp_sock nonblocking watched]. split_and!; try done.
  rewrite Htcp6, Hg5. unfold tb, listen_port. by destruct (in_use true false _ k).
Qed.

(** ** Properties *)


