(* ===== verification/Clients.v ===== *)
(** * The clients of the pool and of the server for two protocols

    [main] of [client.c] of [parallel_server_with_pool] and of [tcp_client.c] and [udp_client.c] of
    [multiprotocol-server], as programs over the sockets of [Sockets].  Their servers are in Pool.v and
    TimeServers.v; here is what the clients do with what those send, for any answers of the kernel, and what becomes
    of a client when there is no server. *)

From S2P Require Import Prelude CString Clock TimeServers Posix Sockets.
From S2P Require Pool.
From ITree Require Import Core.ITreeDefinition.

Open Scope clib_scope.

Definition LISTENER_PORT : Z := 8080.

(** [buf[n] = 0; printf("Server time: %s", buf)] when [n > 0]. *)
Definition print_time {R} (size : nat) (n : Z) (b : list byte) (k : itree (sysE call) R) (undefined : R) :
    itree (sysE call) R :=
  if 0 <? n then
    terminated size n b (fun buf => run! base (PrintOut (lit "Server time: " ++ buf)) in k) undefined
  else k.

(** [connect_to_port], as a part of a program; [htons] keeps 16 bits of the port. *)
Definition connecting (port : Z) : itree (sysE call) Z :=
  let! sock := sys (Socket true true) in
  run! sys (Connect (ret sock) (Port (port mod 65536))) in
  Ret (ret sock).

(** With [MSG_WAITALL] the answer has four bytes unless the connection ends before. *)
Definition pool_client : program call :=
  let! listener_fd := connecting LISTENER_PORT in
  let! r := sys (Recv listener_fd 4) in
  if negb (ret r =? 4) then
    run! base (PrintOut (line (lit "Failed to read service port"))) in Ret 1
  else
    run! sys (Close listener_fd) in
    match Pool.client_port (data r) with
    | Pool.Port service_port =>
        run! base (PrintOut (line (lit "Received service port: " ++ dec service_port))) in
        let! service_fd := connecting service_port in
        run! sys (Send service_fd (line (lit "time"))) in
        let! bytes := sys (Recv service_fd (1024 - 1)) in
        print_time 1024 (ret bytes) (data bytes) (run! sys (Close service_fd) in Ret 0) 0
    | _ => run! base (PrintOut (line (lit "No free services"))) in Ret 1
    end.

(** [read] is [recv] without flags. *)
Definition mp_tcp_client : program call :=
  let! sock := sys (Socket true true) in
  run! sys (Connect (ret sock) PORT) in
  let! n := sys (Recv (ret sock) (128 - 1)) in
  print_time 128 (ret n) (data n) (run! sys (Close (ret sock)) in Ret 0) 0.

Definition mp_udp_client : program call :=
  let! sock := sys (Socket true false) in
  run! sys (SendTo (ret sock) (lit "x") (Some PORT)) in
  let! n := sys (RecvFrom (ret sock) (128 - 1)) in
  print_time 128 (ret n) (payload n) (run! sys (Close (ret sock)) in Ret 0) 0.

(** ** Runs against any answers *)

(** The calls a program makes when they are answered in turn, and its status if it has returned. *)
Fixpoint trace {C} (t : program C) (h : list ans) : list (base_call + C) * option Z :=
  match next TAUS t, h with
  | Returned s, _ => ([], Some s)
  | Calls e k, a :: h' => let '(es, s) := trace (k a) h' in (e :: es, s)
  | _, _ => ([], None)
  end.

(** The answer of a [recv] that stored [b]. *)
Definition stored (b : list byte) : ans := mkAns (Z.of_nat (length b)) b.
Definition stored_from (a : addr) (b : list byte) : ans :=
  mkAns (Z.of_nat (length b)) (Z.of_nat (length (encode (Some a))) :: encode (Some a) ++ b).

Definition prints (b : list byte) : base_call + call := inl (PrintOut b).

(** ** Lemmas *)

Lemma terminated_line {R} size now (k : cstr -> itree (sysE call) R) u :
  time_line now -> (64 <= size)%nat -> terminated size (Z.of_nat (length now)) now k u = k now.
Proof.
  intros (_ & Hn & Hl) Hs. unfold terminated. rewrite (proj2 (Z.leb_le _ _)), (proj2 (Z.ltb_lt _ _)) by lia.
  cbn [andb]. rewrite Nat2Z.id, take_ge by done. by rewrite c_str_prefix.
Qed.

Lemma print_time_line {R} size now (k : itree (sysE call) R) u :
  time_line now -> (64 <= size)%nat ->
  print_time size (Z.of_nat (length now)) now k u =
    (run! base (PrintOut (lit "Server time: " ++ now)) in k).
Proof.
  intros Hl Hs. unfold print_time. rewrite (proj2 (Z.ltb_lt _ _)); [by rewrite terminated_line|].
  destruct Hl as (Hne & _). destruct now; [done|cbn [length]; lia].
Qed.

(** The next calls of a program, as far as they are known. *)
Ltac calls := lazy -[Pool.client_port Pool.port_message lit line dec print_time Z.modulo app Z.of_nat length Z.eqb].

Lemma payload_stored_from a b : payload (stored_from a b) = b.
Proof. unfold payload, stored_from. cbn [data]. by rewrite Nat2Z.id, drop_app_length. Qed.

(** ** Properties *)

(** What the clients do with what the servers send, whatever descriptors the kernel gives and whatever [connect],
    [send] and [close] answer: the client of the pool reads the port back that the listener sent,
    asks there for the time and prints both, or says that there is no service or no answer, with status 1; the clients
    of the server for two protocols print the time. *)
Theorem clients_print_the_time fd fd2 port now c1 c2 c3 c4 s1 p1 p2 from :
  0 < port < 65536 -> time_of Clock.pool_get_time now ->
  let asked := [inr (Socket true true); inr (Connect fd (Port 8080)); inr (Recv fd 4)] in
  let start := [mkAns fd []; c1] in
  trace pool_client (start ++ [mkAns 4 (Pool.port_message port); c2; p1; mkAns fd2 []; c3; s1; stored now; p2; c4]) =
    (asked ++ [inr (Close fd); prints (line (lit "Received service port: " ++ dec port));
               inr (Socket true true); inr (Connect fd2 (Port port)); inr (Send fd2 (line (lit "time")));
               inr (Recv fd2 1023); prints (lit "Server time: " ++ now); inr (Close fd2)], Some 0) /\
  trace pool_client (start ++ [mkAns 4 (Pool.port_message (-1)); c2; p1]) =
    (asked ++ [inr (Close fd); prints (line (lit "No free services"))], Some 1) /\
  (forall n b, n <> 4 -> trace pool_client (start ++ [mkAns n b; p1]) =
    (asked ++ [prints (line (lit "Failed to read service port"))], Some 1)) /\
  trace mp_tcp_client (start ++ [stored now; p1; c2]) =
    ([inr (Socket true true); inr (Connect fd PORT); inr (Recv fd 127); prints (lit "Server time: " ++ now);
      inr (Close fd)], Some 0) /\
  trace mp_udp_client (start ++ [stored_from from now; p1; c2]) =
    ([inr (Socket true false); inr (SendTo fd (lit "x") (Some PORT)); inr (RecvFrom fd 127);
      prints (lit "Server time: " ++ now); inr (Close fd)], Some 0).
Proof.
  intros Hp Ht asked start. assert (time_line now) as Hl by (by apply (time_of_line 128); [lia|]).
  assert (Pool.client_port (Pool.port_message port) = Pool.Port port) as Hport.
  { rewrite Pool.port_message_read by lia. by rewrite (proj2 (Z.eqb_neq _ _)) by lia. }
  split_and!.
  - unfold start, asked. cbn [app]. calls. rewrite Z.eqb_refl. calls. rewrite Hport. calls.
    rewrite print_time_line by (done || lia). calls.
    by rewrite (Z.mod_small port) by lia.
  - reflexivity.
  - intros n b Hn. unfold start, asked. cbn [app]. calls. rewrite (proj2 (Z.eqb_neq n 4)) by done. reflexivity.
  - unfold start. cbn [app]. calls. rewrite print_time_line by (done || lia). reflexivity.
  - unfold start. cbn [app]. pose proof (payload_stored_from from now) as Hpay.
    assert (ret (stored_from from now) = Z.of_nat (length now)) as Hret by done.
    set (a := stored_from from now) in *. clearbody a.
    lazy -[ret payload lit print_time]. rewrite Hret, Hpay, print_time_line by (done || lia). reflexivity.
Qed.

Lemma clients_print_the_time_witness :
  let asked := [inr (Socket true true); inr (Connect 3 (Port 8080)); inr (Recv 3 4)] in
  let start := [mkAns 3 []; mkAns 0 []] in
  let ok := mkAns 0 [] in
  trace pool_client (start ++ [mkAns 4 (Pool.port_message 4001); ok; ok; mkAns 4 []; ok; mkAns 5 []; stored noon; ok; ok]) =
    (asked ++ [inr (Close 3); prints (line (lit "Received service port: " ++ dec 4001));
               inr (Socket true true); inr (Connect 4 (Port 4001)); inr (Send 4 (line (lit "time")));
               inr (Recv 4 1023); prints (lit "Server time: " ++ noon); inr (Close 4)], Some 0) /\
  trace pool_client (start ++ [mkAns 4 (Pool.port_message (-1)); ok; ok]) =
    (asked ++ [inr (Close 3); prints (line (lit "No free services"))], Some 1) /\
  (forall n b, n <> 4 -> trace pool_client (start ++ [mkAns n b; ok]) =
    (asked ++ [prints (line (lit "Failed to read service port"))], Some 1)) /\
  trace mp_tcp_client (start ++ [stored noon; ok; ok]) =
    ([inr (Socket true true); inr (Connect 3 PORT); inr (Recv 3 127); prints (lit "Server time: " ++ noon);
      inr (Close 3)], Some 0) /\
  trace mp_udp_client (start ++ [stored_from PORT noon; ok; ok]) =
    ([inr (Socket true false); inr (SendTo 3 (lit "x") (Some PORT)); inr (RecvFrom 3 127);
      prints (lit "Server time: " ++ noon); inr (Close 3)], Some 0).
Proof.
  refine (clients_print_the_time 3 4 4001 noon (mkAns 0 []) (mkAns 0 []) (mkAns 0 []) (mkAns 0 []) (mkAns 5 [])
    (mkAns 0 []) (mkAns 0 []) PORT _ _); [lia|by apply noon_told; lia].
Defined.

(** Without a server: the client of the pool says that it got no port, the one over TCP ends silently and with status 0, and the one
    over UDP waits for ever. *)
Theorem clients_without_server :
  ends [pool_client] 1 [] 5 [[(Some (Exited 1), line (lit "Failed to read service port"))]] /\
  ends [mp_tcp_client] 1 [] 5 [[(Some (Exited 0), [])]] /\
  ends [mp_udp_client] 1 [] 2 [[(None, [])]].
Proof. split_and!; every_schedule. Qed.
