(* ===== verification/Signals.v ===== *)
(** * Signals

    [signals/]: the three programs that receive signals as a machine that takes signals while it
    runs, and the menu that sends them.  What is pending is a set: a signal that comes
    while it is pending is lost. *)

From S2P Require Import Prelude CString.

(** ** Receiving *)

Inductive signal := INT | USR1.

#[export] Instance signal_eq_dec : EqDecision signal.
Proof. solve_decision. Defined.

(** The calls of the programs.  [SigWait] is [sigwait] on the set of one signal, [Pause] returns when a
    handler has run. *)
Inductive instr :=
  | PrintfPid
  | Block (s : signal)
  | Sigaction (s : signal)
  | Pause
  | SigWait (s : signal)
  | Printf (b : list byte).

(** A program: what it does first, and the body of its [while (1)]. *)
Record prog := mkProg { setup : list instr; body : list instr }.

Definition line (s : cstr) : cstr := s ++ [NL].

Definition block_sigint : prog := mkProg [PrintfPid; Block INT] [Pause].

Definition USR1_LINE : cstr := line (lit "SIGUSR1 received").

(** [if (sig = SIGUSR1)] assigns: its body always runs. *)
Definition event_loop : prog := mkProg [PrintfPid; Block USR1] [SigWait USR1; Printf USR1_LINE].

Definition override_usr1 : prog := mkProg [PrintfPid; Sigaction USR1] [Pause].

(** The handler of [override_usr1] writes this, past the buffer of [printf]. *)
Definition signal_override : list byte := line (lit "Signal received").

(** A process: what is left of this turn; the signals that are pending, blocked, handled; the buffer of
    standard output and what has been written; the signal that killed it. *)
Record proc := mkProc {
  todo : list instr;
  pending : list signal;
  blocked : list signal;
  handled : list signal;
  obuf : list byte;
  written : list byte;
  killed : option signal
}.

Definition load (p : prog) : proc := mkProc (setup p) [] [] [] [] [] None.

#[export] Instance instr_eq_dec : EqDecision instr.
Proof. solve_decision. Defined.

(** A signal arrives, the kernel delivers a pending one, or the program goes on. *)
Inductive event := Arrive (s : signal) | Deliver (s : signal) | Run.

#[export] Instance event_eq_dec : EqDecision event.
Proof. solve_decision. Defined.

Definition add (s : signal) (l : list signal) : list signal := if bool_decide (s ∈ l) then l else s :: l.
Definition remove (s : signal) (l : list signal) : list signal := filter (fun t => t <> s) l.

Section machine.
Context (p : prog) (pid : Z) (tty : bool).

Definition printf (b : list byte) (q : proc) : proc :=
  if tty then mkProc (todo q) (pending q) (blocked q) (handled q) (obuf q) (written q ++ b) (killed q)
  else mkProc (todo q) (pending q) (blocked q) (handled q) (obuf q ++ b) (written q) (killed q).

Definition goto (l : list instr) (q : proc) : proc :=
  mkProc l (pending q) (blocked q) (handled q) (obuf q) (written q) (killed q).

(** The instruction at which the process is, and what comes then. *)
Definition current (q : proc) : list instr := match todo q with [] => body p | l => l end.

(** [None]: the process waits, or has ended, or there is nothing to deliver. *)
Definition run_instr (q : proc) : option proc :=
  match current q with
  | [] => Some q
  | PrintfPid :: l => Some (printf (line (lit "pid: " ++ dec pid)) (goto l q))
  | Block s :: l =>
      Some (mkProc l (pending q) (add s (blocked q)) (handled q) (obuf q) (written q) (killed q))
  | Sigaction s :: l =>
      Some (mkProc l (pending q) (blocked q) (add s (handled q)) (obuf q) (written q) (killed q))
  | Pause :: _ => None
  | SigWait s :: l =>
      if bool_decide (s ∈ pending q) then
        Some (mkProc l (remove s (pending q)) (blocked q) (handled q) (obuf q) (written q) (killed q))
      else None
  | Printf b :: l => Some (printf b (goto l q))
  end.

(** A handler that runs ends a [pause]. *)
Definition after_handler (q : proc) : list instr :=
  match current q with Pause :: l => l | l => l end.

Definition deliver (s : signal) (q : proc) : option proc :=
  if negb (bool_decide (s ∈ pending q)) || bool_decide (s ∈ blocked q) then None
  else if bool_decide (s ∈ handled q) then
    Some (mkProc (after_handler q) (remove s (pending q)) (blocked q) (handled q) (obuf q)
            (written q ++ signal_override) (killed q))
  else Some (mkProc (todo q) (remove s (pending q)) (blocked q) (handled q) [] (written q) (Some s)).

Definition step (e : event) (q : proc) : option proc :=
  match killed q, e with
  | Some _, Arrive _ => Some q
  | Some _, _ => None
  | None, Arrive s => Some (mkProc (todo q) (add s (pending q)) (blocked q) (handled q) (obuf q) (written q) None)
  | None, Deliver s => deliver s q
  | None, Run => run_instr q
  end.

Fixpoint steps (es : list event) (q : proc) : option proc :=
  match es with [] => Some q | e :: es' => q' ← step e q; steps es' q' end.

(** Nothing happens any more by itself. *)
Definition quiet (q : proc) : Prop := forall e, (forall s, e <> Arrive s) -> step e q = None.

End machine.

Definition arrivals (s : signal) (es : list event) : nat :=
  length (filter (fun e => e = Arrive s) es).

(** ** Sending *)

Definition SIGINT : Z := 2.
Definition SIGUSR1 : Z := 10.

(** The [choice] of [sender] is not initialised; [kills] are the calls of [kill]. *)
Record menu := mkMenu { choice : option Z; input : list byte; kills : list (Z * Z); shown : list byte }.

Inductive turn_result := Again (m : menu) | Return (status : Z) (m : menu) | Undefined (m : menu).

Definition MENU : list byte :=
  line (lit "choice signal:") ++ line (lit "1. SIGINT") ++ line (lit "2. SIGUSR1") ++ line (lit "0. exit sender").

(** What [switch] sends. *)
Definition signal_of (c : Z) : list Z := if c =? 1 then [SIGINT] else if c =? 2 then [SIGUSR1] else [].

Definition sender_turn (pid : Z) (m : menu) : turn_result :=
  let '(r, rest) := scan_d (input m) in
  let c' := match r with Some _ => r | None => choice m end in
  let m' := mkMenu c' rest (kills m) (shown m ++ MENU) in
  match c' with
  | None => Undefined m'
  | Some c =>
      if c =? 0 then Return 0 m'
      else Again (mkMenu c' rest (kills m ++ ((pid,.) <$> signal_of c)) (shown m ++ MENU))
  end.

Fixpoint sender_loop (fuel : nat) (pid : Z) (m : menu) : turn_result :=
  match fuel with
  | O => Again m
  | S fuel' => match sender_turn pid m with Again m' => sender_loop fuel' pid m' | r => r end
  end.

(** [atoi]. *)
Definition atoi (s : cstr) : Z := i32 (st_val (strtol s)).

(** [main]; [argv] without its first element. *)
Definition sender (fuel : nat) (argv : list cstr) (stdin : list byte) : turn_result :=
  let m := mkMenu None stdin [] [] in
  match argv with [a] => sender_loop fuel (atoi a) m | _ => Return 1 m end.

(** ** Lemmas on runs *)

Lemma elem_of_add s t l : s ∈ add t l <-> s = t \/ s ∈ l.
Proof.
  unfold add. case_bool_decide as Hin; [|by rewrite elem_of_cons]. split; [by right|by intros [->|?]].
Qed.

Lemma elem_of_remove s t l : s ∈ remove t l <-> s <> t /\ s ∈ l.
Proof. unfold remove. by rewrite list_elem_of_filter. Qed.

Lemma steps_snoc p pid tty es e q : steps p pid tty (es ++ [e]) q = q' ← steps p pid tty es q; step p pid tty e q'.
Proof.
  revert q. induction es as [|e' es IH]; intros q; cbn.
  - by destruct (step p pid tty e q).
  - destruct (step p pid tty e' q); [apply IH|done].
Qed.

Lemma arrivals_snoc s es e : arrivals s (es ++ [e]) = (arrivals s es + (if bool_decide (e = Arrive s) then 1 else 0))%nat.
Proof.
  unfold arrivals. rewrite filter_app, length_app. f_equal.
  rewrite filter_cons. case_decide; case_bool_decide; done.
Qed.

(** A property of all states of a run, given what has arrived so far. *)
Lemma steps_ind p pid tty (Inv : list event -> proc -> Prop) q0 :
  Inv [] q0 ->
  (forall es e q q', Inv es q -> step p pid tty e q = Some q' -> Inv (es ++ [e]) q') ->
  forall es q, steps p pid tty es q0 = Some q -> Inv es q.
Proof.
  intros H0 Hs es. induction es as [|e es IH] using rev_ind; intros q.
  - cbn. by intros [= <-].
  - rewrite steps_snoc. destruct (steps p pid tty es q0) as [q1|]; [|done]. cbn. eauto.
Qed.

(** *** [block_sigint] *)

(** The first line. *)
Definition greeting (pid : Z) : list byte := line (lit "pid: " ++ dec pid).

(** A program in its loop: the first line is on the terminal, or in the buffer. *)
Definition in_loop (pid : Z) (tty : bool) (bl h : list signal) : proc :=
  mkProc [] [] bl h (if tty then [] else greeting pid) (if tty then greeting pid else []) None.

Lemma started pid tty es :
  steps block_sigint pid tty (Run :: Run :: es) (load block_sigint) = steps block_sigint pid tty es (in_loop pid tty [INT] []) /\
  steps event_loop pid tty (Run :: Run :: es) (load event_loop) = steps event_loop pid tty es (in_loop pid tty [USR1] []) /\
  steps override_usr1 pid tty (Run :: Run :: es) (load override_usr1) = steps override_usr1 pid tty es (in_loop pid tty [] [USR1]).
Proof. by destruct tty. Qed.

Record bs_inv (es : list event) (q : proc) : Prop := {
  bs_todo : todo q = [];
  bs_blocked : blocked q = [INT];
  bs_handled : handled q = [];
  bs_alive : killed q = None -> USR1 ∈ pending q <-> (0 < arrivals USR1 es)%nat;
  bs_killed : forall s, killed q = Some s -> s = USR1 /\ (0 < arrivals USR1 es)%nat
}.

Lemma bs_step pid tty es e q q' :
  bs_inv es q -> step block_sigint pid tty e q = Some q' -> bs_inv (es ++ [e]) q'.
Proof.
  intros [Ht Hb Hh Ha Hk]. unfold step. destruct (killed q) as [s|] eqn:Ek.
  - destruct e; try done. intros [= <-]. split; try done; intros; [congruence|].
    rewrite arrivals_snoc. destruct (Hk s eq_refl) as [-> ?]. split; [congruence|]. case_bool_decide; lia.
  - destruct e as [s|s|].
    + intros [= <-]. split; try done. intros _. cbn [pending]. rewrite elem_of_add, (Ha eq_refl), arrivals_snoc.
      destruct s; case_bool_decide; try done;
        (split; [intros [?|?]; done || lia|intros ?; first [by left|right; lia]]).
    + unfold deliver. rewrite Hb, Hh. case_bool_decide as Hin; [|done].
      destruct s; cbn; [done|]. intros [= <-]. apply Ha in Hin; [|done].
      split; try done. intros s [= <-]. split; [done|]. rewrite arrivals_snoc. lia.
    + unfold run_instr, current. by rewrite Ht.
Qed.

Lemma bs_runs pid tty es q : steps block_sigint pid tty (Run :: Run :: es) (load block_sigint) = Some q -> bs_inv es q.
Proof.
  rewrite (proj1 (started pid tty es)). apply (steps_ind block_sigint pid tty bs_inv); [|apply bs_step].
  split; try done. cbn. intros _. split; [by intros ?%not_elem_of_nil|]. unfold arrivals. cbn. lia.
Qed.

(** *** [event_loop] and [override_usr1]

    [said n] lines have been written; a signal that is pending and a line that is due count. *)

Definition pend (q : proc) : nat := if bool_decide (USR1 ∈ pending q) then 1 else 0.
Definition times (n : nat) (b : list byte) : list byte := mjoin (replicate n b).

Lemma times_S n b : times (S n) b = times n b ++ b.
Proof.
  unfold times. induction n as [|n IH]; [cbn; by rewrite app_nil_r|].
  change (b ++ mjoin (replicate (S n) b) = (b ++ mjoin (replicate n b)) ++ b). by rewrite IH, app_assoc.
Qed.

Definition due (q : proc) : nat := match todo q with [] => 0 | _ => 1 end.

(** [out n written obuf]: what has been written for [n] lines. *)
Record said_inv (out : nat -> list byte -> list byte -> Prop) (es : list event) (q : proc) : Prop := {
  sd_alive : killed q = None;
  sd_int : INT ∉ pending q;
  sd_count : exists n : nat, out n (written q) (obuf q) /\
    (n + due q + pend q <= arrivals USR1 es)%nat /\ ((0 < arrivals USR1 es) -> 0 < n + due q + pend q)%nat
}.

Lemma said_arrive out es q s :
  s <> INT -> said_inv out es q ->
  said_inv out (es ++ [Arrive s])
    (mkProc (todo q) (add s (pending q)) (blocked q) (handled q) (obuf q) (written q) None).
Proof.
  intros Hs [Ha Hi (n & Hw & Hle & Hpos)]. destruct s; [done|]. split; [done| |].
  - cbn. rewrite elem_of_add. by intros [?|?].
  - exists n. split; [done|]. rewrite arrivals_snoc, bool_decide_true by done. unfold due, pend in *. cbn [todo pending].
    rewrite (bool_decide_true (USR1 ∈ add _ _)) by (apply elem_of_add; by left).
    case_bool_decide; lia.
Qed.

Lemma pend_removed t b h o w k l : pend (mkProc t (remove USR1 l) b h o w k) = 0%nat.
Proof. unfold pend. cbn. rewrite bool_decide_false; [done|]. by rewrite elem_of_remove; intros [? _]. Qed.

Definition el_out (tty : bool) (w : list byte) (n : nat) (wr ob : list byte) : Prop :=
  if tty then wr = w ++ times n USR1_LINE /\ ob = [] else wr ++ ob = w ++ times n USR1_LINE.

Definition el_inv (tty : bool) (w : list byte) (es : list event) (q : proc) : Prop :=
  arrivals INT es = 0%nat ->
  said_inv (el_out tty w) es q /\ blocked q = [USR1] /\ handled q = [] /\
  (todo q = [] \/ todo q = [Printf USR1_LINE]).

Lemma arrivals_none s es e : arrivals s (es ++ [e]) = 0%nat -> arrivals s es = 0%nat /\ e <> Arrive s.
Proof. rewrite arrivals_snoc. case_bool_decide; [lia|]. split; [lia|done]. Qed.

Lemma el_step pid tty w es e q q' :
  el_inv tty w es q -> step event_loop pid tty e q = Some q' -> el_inv tty w (es ++ [e]) q'.
Proof.
  intros Hinv Hs [Hno Hne]%arrivals_none. destruct (Hinv Hno) as (Hsd & Hb & Hh & Ht). unfold step in Hs.
  rewrite (sd_alive _ _ _ Hsd) in Hs. destruct e as [s|s|].
  - injection Hs as <-. split_and!; try done. apply said_arrive; [congruence|done].
  - unfold deliver in Hs. case_bool_decide as Hin; [|done]. rewrite Hb in Hs. destruct s; [|done].
    by destruct (sd_int _ _ _ Hsd).
  - destruct Hsd as [Ha Hi (n & Hw & Hle & Hpos)]. unfold run_instr, current in Hs. unfold due in Hle, Hpos.
    assert (arrivals USR1 (es ++ [Run]) = arrivals USR1 es) as Hsame.
    { rewrite arrivals_snoc, bool_decide_false by done. lia. }
    destruct Ht as [Ht|Ht]; rewrite Ht in Hs, Hle, Hpos; cbn in Hs.
    + case_bool_decide as Hin; [|done]. injection Hs as <-. split_and!; try done; [|by right]. split; [done| |].
      * cbn. rewrite elem_of_remove. by intros [_ ?].
      * exists n. split; [done|]. rewrite pend_removed, Hsame. unfold pend in Hle, Hpos.
        rewrite bool_decide_true in Hle, Hpos by done. unfold due. cbn [todo]. lia.
    + injection Hs as <-. split_and!; try (by destruct tty); [|left; by destruct tty]. split; [by destruct tty..|].
      exists (S n). rewrite Hsame. unfold el_out, pend, due in *. rewrite times_S.
      destruct tty; cbn [printf goto written obuf todo pending]; (split; [|lia]).
      * destruct Hw as [-> ->]. by rewrite app_assoc.
      * by rewrite !app_assoc, Hw.
Qed.

Definition ov_inv (w : list byte) (es : list event) (q : proc) : Prop :=
  arrivals INT es = 0%nat ->
  said_inv (fun n wr _ => wr = w ++ times n signal_override) es q /\ blocked q = [] /\ handled q = [USR1] /\ todo q = [].

Lemma ov_step pid tty w es e q q' :
  ov_inv w es q -> step override_usr1 pid tty e q = Some q' -> ov_inv w (es ++ [e]) q'.
Proof.
  intros Hinv Hs [Hno Hne]%arrivals_none. destruct (Hinv Hno) as (Hsd & Hb & Hh & Ht). unfold step in Hs.
  rewrite (sd_alive _ _ _ Hsd) in Hs. destruct e as [s|s|].
  - injection Hs as <-. split_and!; try done. apply said_arrive; [congruence|done].
  - unfold deliver in Hs. case_bool_decide as Hin; [|done]. rewrite Hb, Hh in Hs.
    destruct s; [by destruct (sd_int _ _ _ Hsd)|]. cbn in Hs. injection Hs as <-.
    destruct Hsd as [Ha Hi (n & Hw & Hle & Hpos)]. unfold after_handler, current. rewrite Ht.
    split_and!; try done. split; [done| |].
    + cbn. rewrite elem_of_remove. by intros [_ ?].
    + exists (S n). rewrite times_S, pend_removed. unfold pend, due in *. rewrite Ht in Hle, Hpos. cbn [todo written obuf].
      rewrite arrivals_snoc, bool_decide_false by done. rewrite bool_decide_true in Hle, Hpos by done.
      split; [|cbn; lia]. by rewrite Hw, app_assoc.
  - unfold run_instr, current in Hs. by rewrite Ht in Hs.
Qed.

(** *** The sender *)

Definition numbers (cs : list Z) : list byte := mjoin ((fun c => dec c ++ [NL]) <$> cs).

Lemma sender_turn_number pid c rest sp m :
  INT_MIN <= c <= INT_MAX -> Forall (fun b => isspace b = true) sp -> input m = sp ++ dec c ++ NL :: rest ->
  sender_turn pid m =
    let m' k := mkMenu (Some c) (NL :: rest) k (shown m ++ MENU) in
    if c =? 0 then Return 0 (m' (kills m)) else Again (m' (kills m ++ ((pid,.) <$> signal_of c))).
Proof.
  intros Hc Hsp Hin. unfold sender_turn. rewrite Hin, scan_d_dec by done. done.
Qed.

Lemma sender_loop_numbers pid cs m sp :
  Forall (fun c => INT_MIN <= c <= INT_MAX /\ c <> 0) cs -> Forall (fun b => isspace b = true) sp ->
  input m = sp ++ numbers (cs ++ [0]) ->
  exists m', sender_loop (S (length cs)) pid m = Return 0 m' /\
    kills m' = kills m ++ ((pid,.) <$> (cs ≫= signal_of)) /\
    shown m' = shown m ++ times (S (length cs)) MENU.
Proof.
  revert m sp. induction cs as [|c cs IH]; intros m sp Hcs Hsp Hin.
  - cbn [sender_loop length]. cbn [app numbers fmap list_fmap mjoin list_join] in Hin.
    rewrite (sender_turn_number pid 0 [] sp) by (done || by rewrite Hin, <- !app_assoc). cbn.
    eexists. split; [done|]. cbn. by rewrite app_nil_r.
  - inversion_clear Hcs as [|? ? [Hc Hc0] Hcs']. cbn [length].
    change (numbers ((c :: cs) ++ [0])) with ((dec c ++ [NL]) ++ numbers (cs ++ [0])) in Hin.
    rewrite <- app_assoc in Hin. cbn [app] in Hin.
    change (sender_loop (S (S (length cs))) pid m) with
      (match sender_turn pid m with Again m' => sender_loop (S (length cs)) pid m' | r => r end).
    rewrite (sender_turn_number pid c _ sp m Hc Hsp Hin). cbv zeta. rewrite (proj2 (Z.eqb_neq c 0) Hc0).
    destruct (IH (mkMenu (Some c) (NL :: numbers (cs ++ [0])) (kills m ++ ((pid,.) <$> signal_of c)) (shown m ++ MENU)) [NL])
      as (m' & -> & Hk & Ho); [done|by repeat constructor|done|].
    exists m'. split; [done|]. cbn [kills shown] in Hk, Ho. rewrite Hk, Ho. split.
    + cbn [mbind list_bind]. by rewrite fmap_app, app_assoc.
    + by rewrite <- app_assoc.
Qed.

(** The signals a list of [kill]s sends to [pid]. *)
Definition sent_to (pid : Z) (ks : list (Z * Z)) : list event :=
  ks ≫= (fun k => if negb (k.1 =? pid) then [] else if k.2 =? SIGINT then [Arrive INT] else [Arrive USR1]).

Definition is_arrival (e : event) : bool := match e with Arrive _ => true | _ => false end.

Lemma arrivals_filter s es : arrivals s es = arrivals s (filter (fun e => is_arrival e = true) es).
Proof.
  unfold arrivals. rewrite list_filter_filter. f_equal. apply list_filter_iff. intros e. split; [by intros ->|by intros [? ?]].
Qed.

(** The entry of the menu for a signal. *)
Definition choice_for (s : signal) : Z := match s with INT => 1 | USR1 => 2 end.

Lemma arrivals_sent s pid cs :
  arrivals s (sent_to pid ((pid,.) <$> (cs ≫= signal_of))) =
  length (filter (fun c => c = choice_for s) cs).
Proof.
  induction cs as [|c cs IH]; [done|]. cbn [mbind list_bind]. rewrite fmap_app. unfold sent_to in *.
  rewrite bind_app. unfold arrivals in *. rewrite filter_app, length_app, IH, filter_cons. unfold signal_of.
  destruct (Z.eqb_spec c 1) as [->|]; [|destruct (Z.eqb_spec c 2) as [->|]];
    cbn [fmap list_fmap mbind list_bind fst snd app]; rewrite ?Z.eqb_refl; cbn [negb];
    destruct s; cbn; repeat case_decide; cbn; done || lia.
Qed.

(** *** The start of the loops *)

Lemma el_runs pid tty es q :
  steps event_loop pid tty (Run :: Run :: es) (load event_loop) = Some q -> el_inv tty (greeting pid) es q.
Proof.
  rewrite (proj1 (proj2 (started pid tty es))).
  apply (steps_ind event_loop pid tty (el_inv tty (greeting pid))); [|intros; by eapply el_step].
  intros _. split_and!; try done; [|by left]. split; [done|by intros ?%not_elem_of_nil|].
  exists 0%nat. unfold el_out. change (times 0 _) with (@nil Z). unfold pend, due, arrivals. cbn. rewrite app_nil_r.
  destruct tty; (split; [done|split; [|intros ?]; by try lia]).
Qed.

Lemma ov_runs pid tty es q :
  steps override_usr1 pid tty (Run :: Run :: es) (load override_usr1) = Some q ->
  ov_inv (if tty then greeting pid else []) es q.
Proof.
  rewrite (proj2 (proj2 (started pid tty es))).
  apply (steps_ind override_usr1 pid tty (ov_inv (if tty then greeting pid else []))); [|intros; by eapply ov_step].
  intros _. split_and!; try done. split; [done|by intros ?%not_elem_of_nil|].
  exists 0%nat. change (times 0 _) with (@nil Z). unfold pend, due, arrivals. cbn. rewrite app_nil_r.
  split; [done|split; [|intros ?]; by try lia].
Qed.

Lemma el_quiet pid tty w es q :
  el_inv tty w es q -> arrivals INT es = 0%nat -> quiet event_loop pid tty q -> due q = 0%nat /\ pend q = 0%nat.
Proof.
  intros Hinv Hno Hq. destruct (Hinv Hno) as (Hsd & Hb & Hh & Ht). specialize (Hq Run ltac:(done)). unfold step in Hq.
  rewrite (sd_alive _ _ _ Hsd) in Hq. unfold run_instr, current, due, pend in *.
  destruct Ht as [Ht|Ht]; rewrite Ht in *; cbn in Hq; [|done]. by case_bool_decide.
Qed.

Lemma ov_quiet pid tty w es q :
  ov_inv w es q -> arrivals INT es = 0%nat -> quiet override_usr1 pid tty q -> due q = 0%nat /\ pend q = 0%nat.
Proof.
  intros Hinv Hno Hq. destruct (Hinv Hno) as (Hsd & Hb & Hh & Ht). specialize (Hq (Deliver USR1) ltac:(done)).
  unfold step in Hq. rewrite (sd_alive _ _ _ Hsd) in Hq. unfold deliver, due, pend in *.
  rewrite Ht, Hb, Hh in *. by case_bool_decide.
Qed.

Lemma bs_fate pid tty es q :
  bs_inv es q ->
  killed q <> Some INT /\ (arrivals USR1 es = 0%nat -> killed q = None) /\
  ((0 < arrivals USR1 es)%nat -> quiet block_sigint pid tty q -> killed q = Some USR1).
Proof.
  intros [Ht Hb Hh Ha Hk]. split_and!.
  - by intros [? _]%Hk.
  - intros Hno. destruct (killed q) as [s|] eqn:E; [|done]. destruct (Hk s eq_refl). lia.
  - intros Hpos Hq. destruct (killed q) as [s|] eqn:E; [by destruct (Hk s eq_refl) as [-> _]|].
    apply Ha in Hpos; [|done]. specialize (Hq (Deliver USR1) ltac:(done)). unfold step in Hq. rewrite E in Hq.
    unfold deliver in Hq. rewrite bool_decide_true in Hq by done. rewrite Hb, Hh in Hq. done.
Qed.

Lemma atoi_dec pid : INT_MIN <= pid <= INT_MAX -> atoi (dec pid) = pid.
Proof.
  intros Hpid. unfold atoi.
  rewrite <- (app_nil_r (dec pid)), strtol_dec by (unfold LONG_MIN, LONG_MAX, INT_MIN, INT_MAX in *; done || lia).
  cbn. unfold i32, INT_MIN, INT_MAX in *. rewrite Z.mod_small by lia. lia.
Qed.

(** What is typed for the choices [cs], all of them sent. *)
Definition typed (cs : list Z) : Prop := Forall (fun c => INT_MIN <= c <= INT_MAX /\ c <> 0) cs.

Lemma sender_numbers pid cs :
  typed cs -> INT_MIN <= pid <= INT_MAX ->
  exists m, sender (S (length cs)) [dec pid] (numbers (cs ++ [0])) = Return 0 m /\
     kills m = (pid,.) <$> (cs ≫= signal_of) /\ shown m = times (S (length cs)) MENU.
Proof.
  intros Hcs Hpid. unfold sender. rewrite atoi_dec by done.
  apply (sender_loop_numbers pid cs (mkMenu None _ [] []) []); done || by constructor.
Qed.

(** ** Properties *)

(** [block_sigint] after its first two calls: SIGINT never ends it, however often it comes and whatever else
    happens; without SIGUSR1 nothing ends it, and one SIGUSR1 does, as soon as it is delivered.  Before it has
    blocked it, SIGINT ends it. *)
Theorem block_sigint_survives pid tty es q :
  steps block_sigint pid tty (Run :: Run :: es) (load block_sigint) = Some q ->
  (exists d, steps block_sigint pid true [Run; Arrive INT; Deliver INT] (load block_sigint) = Some d /\ killed d = Some INT) /\
  killed q <> Some INT /\
  (arrivals USR1 es = 0%nat -> killed q = None) /\
  ((0 < arrivals USR1 es)%nat -> quiet block_sigint pid tty q -> killed q = Some USR1).
Proof. intros Hinv%bs_runs. split; [by eexists|]. by apply bs_fate. Qed.

Lemma block_sigint_survives_witness :
  exists q, steps block_sigint 7 true [Run; Run; Arrive INT; Arrive INT; Arrive USR1] (load block_sigint) = Some q /\ killed q <> Some INT.
Proof.
  eexists. split; [reflexivity|].
  exact (proj1 (proj2 (block_sigint_survives 7 true [Arrive INT; Arrive INT; Arrive USR1] _ eq_refl))).
Defined.



(** [sender] reads numbers up to a 0: it shows the menu for each, sends SIGINT for
    a 1, SIGUSR1 for a 2 and nothing otherwise, in this order, and returns 0.  At the end of its input it never ends: it goes on with
    the last number for ever, and when it has read none, with a variable that was never written. *)
Theorem sender_sends pid cs :
  typed cs -> INT_MIN <= pid <= INT_MAX ->
  (exists m, sender (S (length cs)) [dec pid] (numbers (cs ++ [0])) = Return 0 m /\
     kills m = (pid,.) <$> (cs ≫= signal_of) /\ shown m = times (S (length cs)) MENU) /\
  (forall n c m, input m = [] -> choice m = Some c -> c <> 0 ->
     exists m', sender_loop n pid m = Again m' /\ kills m' = kills m ++ ((pid,.) <$> mjoin (replicate n (signal_of c)))) /\
  (forall n, exists m, sender (S n) [dec pid] [] = Undefined m).
Proof.
  intros Hcs Hpid. split_and!; [by apply sender_numbers| |intros n; by eexists].
  intros n. induction n as [|n IH]; intros c m Hin Hc Hc0; [exists m; cbn; by rewrite app_nil_r|].
  cbn [sender_loop]. unfold sender_turn. rewrite Hin, scan_d_end, Hc, (proj2 (Z.eqb_neq c 0) Hc0).
  destruct (IH c (mkMenu (Some c) [] (kills m ++ ((pid,.) <$> signal_of c)) (shown m ++ MENU))) as (m' & -> & Hk); try done.
  exists m'. split; [done|]. rewrite Hk. cbn [kills]. rewrite <- app_assoc, <- fmap_app. done.
Qed.

Lemma sender_sends_witness :
  exists m, sender 4 [dec 321] (numbers ([1; 7; 2] ++ [0])) = Return 0 m /\ kills m = [(321, SIGINT); (321, SIGUSR1)].
Proof.
  destruct (sender_sends 321 [1; 7; 2]) as [(m & Hs & Hk & _) _]; [|unfold INT_MIN, INT_MAX; lia|by exists m].
  repeat constructor; unfold INT_MIN, INT_MAX; lia.
Defined.


