(* ===== verification/Shop.v ===== *)
(** * The threads shop

    [threads_shop]: the buyers ([buyer.c]), the worker ([worker.c]) and the wait for the
    buyers in [main.c].  Threads are programs with an explicit position; an execution is a
    sequence of steps of the threads in any order.  Between two steps a thread touches at
    most one shared variable or mutex.  [None] is a step that is not possible: a mutex to be waited
    for, a thread that has ended, or (undefined in C) an overflow of [goods]. *)

From S2P Require Import Prelude.

Definition KIOSKS : nat := 5.
Definition BUYERS : nat := 3.

(** ** The state *)

Record kiosk := mkKiosk { goods : Z; locked : bool }.

(** Where a buyer is: at the test of [while (need > 0)], at the attempt to lock a kiosk,
    in a kiosk, in [sleep(2)], before [done_mutex], holding it, at the end. *)
Inductive bpc := Checking | Trying (i : nat) | Shopping (i : nat) | Resting | Closing | Counting | Gone.

#[export] Instance bpc_eq_dec : EqDecision bpc.
Proof. solve_decision. Defined.

Record buyer := mkBuyer { need : Z; bpos : bpc }.

(** Where the worker is: at the top of its loop, in a kiosk before and after unloading, at
    [sleep(1)] and then [done_mutex], holding it, at the end. *)
Inductive wpc := Top | Unloading (i : nat) | Unloaded (i : nat) | Break | Looking | Left.

Record shop := mkShop {
  kiosks : list kiosk;
  buyers : list buyer;
  worker : wpc;
  buyers_done : Z;
  done_locked : bool
}.

Definition set_kiosk (i : nat) (k : kiosk) (σ : shop) : shop :=
  mkShop (<[i := k]> (kiosks σ)) (buyers σ) (worker σ) (buyers_done σ) (done_locked σ).
Definition set_buyer (b : nat) (x : buyer) (σ : shop) : shop :=
  mkShop (kiosks σ) (<[b := x]> (buyers σ)) (worker σ) (buyers_done σ) (done_locked σ).
Definition set_worker (w : wpc) (σ : shop) : shop :=
  mkShop (kiosks σ) (buyers σ) w (buyers_done σ) (done_locked σ).
Definition set_done (n : Z) (l : bool) (σ : shop) : shop :=
  mkShop (kiosks σ) (buyers σ) (worker σ) n l.

(** ** The buyer *)

Definition buyer_step (b : nat) (x : buyer) (σ : shop) : option shop :=
  match bpos x with
  | Checking =>
      Some (set_buyer b (mkBuyer (need x) (if need x >? 0 then Trying 0 else Closing)) σ)
  | Trying i =>
      match kiosks σ !! i with
      | None => Some (set_buyer b (mkBuyer (need x) Resting) σ)
      | Some k =>
          if locked k then Some (set_buyer b (mkBuyer (need x) (Trying (S i))) σ)
          else Some (set_kiosk i (mkKiosk (goods k) true)
                      (set_buyer b (mkBuyer (need x) (Shopping i)) σ))
      end
  | Shopping i =>
      k ← kiosks σ !! i;
      if (goods k >? 0) && (need x >? 0) then
        Some (set_kiosk i (mkKiosk (goods k - 1) (locked k))
               (set_buyer b (mkBuyer (need x - 1) (Shopping i)) σ))
      else
        Some (set_kiosk i (mkKiosk (goods k) false)
               (set_buyer b (mkBuyer (need x) (if need x >? 0 then Resting else Checking)) σ))
  | Resting => Some (set_buyer b (mkBuyer (need x) Checking) σ)
  | Closing =>
      if done_locked σ then None
      else Some (set_done (buyers_done σ) true (set_buyer b (mkBuyer (need x) Counting) σ))
  | Counting =>
      Some (set_done (buyers_done σ + 1) false (set_buyer b (mkBuyer (need x) Gone) σ))
  | Gone => None
  end.

(** ** The worker *)

(** [r] is what [rand()] returns. *)
Definition worker_step (r : nat) (σ : shop) : option shop :=
  match worker σ with
  | Top =>
      let index := (r mod KIOSKS)%nat in
      k ← kiosks σ !! index;
      if locked k then Some (set_worker Break σ)
      else Some (set_kiosk index (mkKiosk (goods k) true) (set_worker (Unloading index) σ))
  | Unloading i =>
      k ← kiosks σ !! i;
      g ← int_op (goods k + 200);
      Some (set_kiosk i (mkKiosk g (locked k)) (set_worker (Unloaded i) σ))
  | Unloaded i =>
      k ← kiosks σ !! i;
      Some (set_kiosk i (mkKiosk (goods k) false) (set_worker Break σ))
  | Break =>
      if done_locked σ then None else Some (set_done (buyers_done σ) true (set_worker Looking σ))
  | Looking =>
      Some (set_done (buyers_done σ) false
             (set_worker (if buyers_done σ =? Z.of_nat BUYERS then Left else Top) σ))
  | Left => None
  end.

(** ** Executions *)

Inductive action := Buyer (b : nat) | Worker (r : nat).

Definition step (a : action) (σ : shop) : option shop :=
  match a with
  | Buyer b => x ← buyers σ !! b; buyer_step b x σ
  | Worker r => worker_step r σ
  end.

Fixpoint run (acts : list action) (σ : shop) : option shop :=
  match acts with [] => Some σ | a :: acts' => σ' ← step a σ; run acts' σ' end.

(** The kiosks are filled and the threads created: [goods] and [needs] are what the calls
    of [rand()] give. *)
Definition init_shop (gs needs : list Z) : shop :=
  mkShop ((fun g => mkKiosk g false) <$> gs) ((fun n => mkBuyer n Checking) <$> needs) Top 0 false.

Definition initial_goods (r : Z) : Z := 900 + Z.rem r 201.
Definition initial_need (r : Z) : Z := 9900 + Z.rem r 201.

(** [main] is past the loop of [pthread_join]. *)
Definition all_gone (σ : shop) : bool :=
  forallb (fun x => match bpos x with Gone => true | _ => false end) (buyers σ).

(** ** The invariant *)

Definition b2z (b : bool) : Z := if b then 1 else 0.

Definition in_kiosk (i : nat) (x : buyer) : Z :=
  match bpos x with Shopping j => b2z (bool_decide (i = j)) | _ => 0 end.
Definition worker_in (i : nat) (w : wpc) : Z :=
  match w with Unloading j | Unloaded j => b2z (bool_decide (i = j)) | _ => 0 end.
(** The threads in kiosk [i]. *)
Definition inside (i : nat) (σ : shop) : Z := zsum (in_kiosk i) (buyers σ) + worker_in i (worker σ).

Definition counting (x : buyer) : Z := match bpos x with Counting => 1 | _ => 0 end.
Definition gone (x : buyer) : Z := match bpos x with Gone => 1 | _ => 0 end.
Definition looking (w : wpc) : Z := match w with Looking => 1 | _ => 0 end.

Definition buyer_ok (n : nat) (x : buyer) : Prop :=
  0 <= need x /\
  match bpos x with
  | Closing | Counting | Gone => need x = 0
  | Shopping i => (i < n)%nat
  | _ => True
  end.

Record shop_ok (σ : shop) : Prop := {
  so_kiosks : length (kiosks σ) = KIOSKS;
  so_inside i k : kiosks σ !! i = Some k -> inside i σ = b2z (locked k);
  so_goods : Forall (fun k => 0 <= goods k) (kiosks σ);
  so_buyers : Forall (buyer_ok KIOSKS) (buyers σ);
  so_worker : forall i, worker_in i (worker σ) = 1 -> (i < KIOSKS)%nat;
  so_done : buyers_done σ = zsum gone (buyers σ);
  so_lock : zsum counting (buyers σ) + looking (worker σ) = b2z (done_locked σ)
}.

(** The goods in the kiosks less the goods still needed. *)
Definition balance (σ : shop) : Z := zsum goods (kiosks σ) - zsum need (buyers σ).

(** ** Lemmas: places *)

Lemma in_kiosk_nonneg i x : 0 <= in_kiosk i x.
Proof. unfold in_kiosk, b2z. repeat case_match; lia. Qed.
Lemma worker_in_nonneg i w : 0 <= worker_in i w.
Proof. unfold worker_in, b2z. repeat case_match; lia. Qed.
Lemma counting_nonneg x : 0 <= counting x.
Proof. unfold counting. case_match; lia. Qed.
Lemma looking_nonneg w : 0 <= looking w.
Proof. unfold looking. case_match; lia. Qed.

(** ** Lemmas: the invariant is kept *)

Lemma buyer_alone σ b x i k :
  shop_ok σ -> buyers σ !! b = Some x -> bpos x = Shopping i -> kiosks σ !! i = Some k ->
  locked k = true /\ inside i σ = 1.
Proof.
  intros Hok Hx Hp Hk. pose proof (so_inside _ Hok i k Hk) as Hi. unfold inside in *.
  pose proof (zsum_ge (in_kiosk i) _ _ _ (in_kiosk_nonneg i) Hx) as Hge.
  pose proof (worker_in_nonneg i (worker σ)). unfold in_kiosk at 1 in Hge. rewrite Hp, bool_decide_true in Hge by done.
  unfold b2z in *. destruct (locked k); [split; [done|lia] | lia].
Qed.

Lemma worker_alone σ i k :
  shop_ok σ -> worker_in i (worker σ) = 1 -> kiosks σ !! i = Some k -> locked k = true /\ inside i σ = 1.
Proof.
  intros Hok Hw Hk. pose proof (so_inside _ Hok i k Hk) as Hi. unfold inside in *.
  pose proof (zsum_nonneg (in_kiosk i) (buyers σ) (in_kiosk_nonneg i)).
  unfold b2z in *. destruct (locked k); [split; [done|lia] | lia].
Qed.

Lemma kiosk_exists σ i : shop_ok σ -> (i < KIOSKS)%nat -> exists k, kiosks σ !! i = Some k.
Proof. intros Hok Hi. apply lookup_lt_is_Some_2. by rewrite (so_kiosks _ Hok). Qed.

(** A change of a buyer and of the state of one kiosk, seen from the other fields. *)
Lemma set_ok σ b x x' i k k' :
  shop_ok σ -> buyers σ !! b = Some x -> kiosks σ !! i = Some k ->
  0 <= goods k' -> buyer_ok KIOSKS x' ->
  (forall j, j <> i -> in_kiosk j x' = in_kiosk j x) ->
  in_kiosk i x' - in_kiosk i x = b2z (locked k') - b2z (locked k) ->
  counting x' = counting x -> gone x' = gone x ->
  shop_ok (set_kiosk i k' (set_buyer b x' σ)).
Proof.
  intros Hok Hx Hk Hg Hbx Hoth Hin Hc Hgo. pose proof Hok as [H1 H2 H3 H4 H5 H6 H7].
  split; unfold set_kiosk, set_buyer; cbn [kiosks buyers worker buyers_done done_locked].
  - by rewrite length_insert.
  - intros j kj Hj. unfold inside. cbn [buyers worker]. rewrite (zsum_insert _ _ _ _ _ Hx).
    apply list_lookup_insert_Some in Hj as [(-> & <- & _)|[Hne Hj]].
    + pose proof (H2 _ _ Hk) as H. unfold inside in H. lia.
    + pose proof (H2 _ _ Hj) as H. unfold inside in H. rewrite (Hoth j) by done. lia.
  - by apply Forall_insert.
  - by apply Forall_insert.
  - done.
  - rewrite (zsum_insert _ _ _ _ _ Hx). lia.
  - rewrite (zsum_insert _ _ _ _ _ Hx). lia.
Qed.

(** A change of a buyer that does not enter or leave a kiosk. *)
Lemma set_buyer_ok σ b x x' n l :
  shop_ok σ -> buyers σ !! b = Some x -> buyer_ok KIOSKS x' ->
  (forall j, in_kiosk j x' = in_kiosk j x) -> n - buyers_done σ = gone x' - gone x ->
  b2z l - b2z (done_locked σ) = counting x' - counting x ->
  shop_ok (set_done n l (set_buyer b x' σ)).
Proof.
  intros Hok Hx Hbx Hoth Hn Hl. pose proof Hok as [H1 H2 H3 H4 H5 H6 H7].
  split; unfold set_done, set_buyer; cbn [kiosks buyers worker buyers_done done_locked]; try done.
  - intros j kj Hj. pose proof (H2 _ _ Hj) as H. unfold inside in *. cbn [buyers worker].
    rewrite (zsum_insert _ _ _ _ _ Hx), Hoth. lia.
  - by apply Forall_insert.
  - rewrite (zsum_insert _ _ _ _ _ Hx). lia.
  - rewrite (zsum_insert _ _ _ _ _ Hx). lia.
Qed.

Lemma set_buyer_only_ok σ b x x' :
  shop_ok σ -> buyers σ !! b = Some x -> buyer_ok KIOSKS x' ->
  (forall j, in_kiosk j x' = in_kiosk j x) -> gone x' = gone x -> counting x' = counting x ->
  shop_ok (set_buyer b x' σ).
Proof.
  intros Hok Hx Hbx Hoth Hn Hl. change (set_buyer b x' σ) with
    (set_done (buyers_done σ) (done_locked σ) (set_buyer b x' σ)).
  apply (set_buyer_ok σ b x); try done; lia.
Qed.

(** The sum of what a buyer's step changes. *)
Ltac buyer_facts Hp :=
  intros; unfold in_kiosk, counting, gone, buyer_ok, b2z; cbn [bpos need]; rewrite ?Hp;
  repeat case_bool_decide; repeat case_match; simplify_eq/=; try done; try lia.

Lemma buyer_step_ok b x σ σ' :
  shop_ok σ -> buyers σ !! b = Some x -> buyer_step b x σ = Some σ' -> shop_ok σ'.
Proof.
  intros Hok Hx. pose proof (Forall_lookup_1 _ _ _ _ (so_buyers _ Hok) Hx) as [Hn Hpos].
  unfold buyer_step. destruct (bpos x) as [|i|i| | | |] eqn:Hp.
  - intros [= <-]. apply (set_buyer_only_ok σ b x); try done; destruct (need x >? 0) eqn:E; buyer_facts Hp.
  - destruct (kiosks σ !! i) as [k|] eqn:Hk.
    2: { intros [= <-]. apply (set_buyer_only_ok σ b x); try done; buyer_facts Hp. }
    destruct (locked k) eqn:El; intros [= <-].
    { apply (set_buyer_only_ok σ b x); try done; buyer_facts Hp. }
    pose proof (Forall_lookup_1 _ _ _ _ (so_goods _ Hok) Hk) as Hg.
    pose proof (lookup_lt_Some _ _ _ Hk) as Hlt. rewrite (so_kiosks _ Hok) in Hlt.
    apply (set_ok σ b x _ i k); try done; cbn [goods locked]; rewrite ?El; buyer_facts Hp.
  - destruct (kiosks σ !! i) as [k|] eqn:Hk; [|done]. cbn [mbind option_bind].
    destruct (buyer_alone σ b x i k Hok Hx Hp Hk) as [El Hin].
    pose proof (Forall_lookup_1 _ _ _ _ (so_goods _ Hok) Hk) as Hg. cbn beta in Hg.
    destruct ((goods k >? 0) && (need x >? 0)) eqn:E; intros [= <-].
    + apply andb_true_iff in E as [E1 E2]. apply Z.gtb_lt in E1, E2.
      apply (set_ok σ b x _ i k); try done; cbn [goods locked]; rewrite ?El; buyer_facts Hp.
    + apply (set_ok σ b x _ i k); try done; cbn [goods locked]; rewrite ?El; buyer_facts Hp.
  - intros [= <-]. apply (set_buyer_only_ok σ b x); try done; buyer_facts Hp.
  - destruct (done_locked σ) eqn:El; [done|]. intros [= <-].
    apply (set_buyer_ok σ b x); try done; rewrite ?El; buyer_facts Hp.
  - intros [= <-]. pose proof (so_lock _ Hok) as Hlk.
    pose proof (zsum_ge counting _ _ _ counting_nonneg Hx) as Hge. pose proof (looking_nonneg (worker σ)).
    assert (counting x = 1) as Hcx by (unfold counting; by rewrite Hp).
    assert (done_locked σ = true) as El by (unfold b2z in Hlk; destruct (done_locked σ); [done | lia]).
    apply (set_buyer_ok σ b x); try done; rewrite ?El; buyer_facts Hp.
  - done.
Qed.

(** A change of the worker and of the state of one kiosk. *)
Lemma set_worker_ok σ w' i k k' :
  shop_ok σ -> kiosks σ !! i = Some k -> 0 <= goods k' ->
  (forall j, j <> i -> worker_in j w' = worker_in j (worker σ)) ->
  worker_in i w' - worker_in i (worker σ) = b2z (locked k') - b2z (locked k) ->
  looking w' = looking (worker σ) ->
  shop_ok (set_kiosk i k' (set_worker w' σ)).
Proof.
  intros Hok Hk Hg Hoth Hin Hl. pose proof Hok as [H1 H2 H3 H4 H5 H6 H7].
  split; unfold set_kiosk, set_worker; cbn [kiosks buyers worker buyers_done done_locked].
  - by rewrite length_insert.
  - intros j kj Hj. unfold inside. cbn [buyers worker].
    apply list_lookup_insert_Some in Hj as [(-> & <- & _)|[Hne Hj]].
    + pose proof (H2 _ _ Hk) as H. unfold inside in H. lia.
    + pose proof (H2 _ _ Hj) as H. unfold inside in H. rewrite (Hoth j) by done. lia.
  - by apply Forall_insert.
  - done.
  - intros j Hj. destruct (decide (j = i)) as [->|Hne].
    + rewrite <- H1. by eapply lookup_lt_Some.
    + apply H5. by rewrite <- Hoth.
  - done.
  - by rewrite Hl.
Qed.

(** A change of the worker outside the kiosks. *)
Lemma set_worker_only_ok σ w' n l :
  shop_ok σ -> (forall j, worker_in j w' = worker_in j (worker σ)) -> n = buyers_done σ ->
  b2z l - b2z (done_locked σ) = looking w' - looking (worker σ) ->
  shop_ok (set_done n l (set_worker w' σ)).
Proof.
  intros Hok Hoth -> Hl. pose proof Hok as [H1 H2 H3 H4 H5 H6 H7].
  split; unfold set_done, set_worker; cbn [kiosks buyers worker buyers_done done_locked]; try done.
  - intros j kj Hj. pose proof (H2 _ _ Hj) as H. unfold inside in *. cbn [buyers worker].
    rewrite Hoth. lia.
  - intros j Hj. apply H5. by rewrite <- Hoth.
  - lia.
Qed.

Ltac worker_facts Hp :=
  intros; unfold worker_in, looking, b2z; rewrite ?Hp; repeat case_bool_decide; repeat case_match;
  simplify_eq/=; try done; try lia.

Lemma worker_step_ok r σ σ' : shop_ok σ -> worker_step r σ = Some σ' -> shop_ok σ'.
Proof.
  intros Hok. unfold worker_step. destruct (worker σ) as [|i|i| | |] eqn:Hp.
  - destruct (kiosks σ !! _) as [k|] eqn:Hk; [|done]. cbn [mbind option_bind].
    pose proof (Forall_lookup_1 _ _ _ _ (so_goods _ Hok) Hk) as Hg. cbn beta in Hg.
    destruct (locked k) eqn:El; intros [= <-].
    + change (set_worker Break σ) with (set_done (buyers_done σ) (done_locked σ) (set_worker Break σ)).
      apply set_worker_only_ok; try done; worker_facts Hp.
    + apply (set_worker_ok σ _ _ k); try done; cbn [goods locked]; rewrite ?El; worker_facts Hp.
  - destruct (kiosks σ !! i) as [k|] eqn:Hk; [|done]. cbn [mbind option_bind].
    pose proof (Forall_lookup_1 _ _ _ _ (so_goods _ Hok) Hk) as Hg. cbn beta in Hg.
    unfold int_op. destruct (in_int _) eqn:Ei; [|done]. cbn [mbind option_bind]. intros [= <-].
    apply (set_worker_ok σ _ _ k); try done; cbn [goods locked]; [lia | worker_facts Hp..].
  - destruct (kiosks σ !! i) as [k|] eqn:Hk; [|done]. cbn [mbind option_bind]. intros [= <-].
    pose proof (Forall_lookup_1 _ _ _ _ (so_goods _ Hok) Hk) as Hg. cbn beta in Hg.
    destruct (worker_alone σ i k Hok) as [El _]; [by rewrite Hp; simpl; rewrite bool_decide_true | done |].
    apply (set_worker_ok σ _ _ k); try done; cbn [goods locked]; rewrite ?El; worker_facts Hp.
  - destruct (done_locked σ) eqn:El; [done|]. intros [= <-].
    apply set_worker_only_ok; try done; rewrite ?El; worker_facts Hp.
  - intros [= <-]. pose proof (so_lock _ Hok) as Hlk. rewrite Hp in Hlk. cbn [looking] in Hlk.
    pose proof (zsum_nonneg counting (buyers σ) counting_nonneg).
    assert (done_locked σ = true) as El by (unfold b2z in Hlk; destruct (done_locked σ); [done | lia]).
    apply set_worker_only_ok; try done; rewrite ?El; destruct (buyers_done σ =? _); worker_facts Hp.
  - done.
Qed.

Lemma step_ok a σ σ' : shop_ok σ -> step a σ = Some σ' -> shop_ok σ'.
Proof.
  intros Hok. destruct a as [b|r]; cbn [step]; [|by apply worker_step_ok].
  destruct (buyers σ !! b) as [x|] eqn:Hx; [|done]. by apply buyer_step_ok.
Qed.

Lemma run_ok acts σ σ' : shop_ok σ -> run acts σ = Some σ' -> shop_ok σ'.
Proof.
  revert σ. induction acts as [|a acts IH]; intros σ Hok; cbn [run]; [by intros [= <-]|].
  destruct (step a σ) as [σ1|] eqn:E; [|done]. cbn [mbind option_bind]. apply IH. by eapply step_ok.
Qed.

Lemma init_shop_ok gs needs :
  length gs = KIOSKS -> Forall (fun g => 0 <= g) gs -> Forall (fun n => 0 <= n) needs ->
  shop_ok (init_shop gs needs).
Proof.
  intros Hl Hg Hn. unfold init_shop.
  assert (forall f, (forall n, f (mkBuyer n Checking) = 0) ->
    zsum f ((fun n => mkBuyer n Checking) <$> needs) = 0) as Hz.
  { intros f Hf. clear Hn. induction needs as [|n needs IH]; [done|]. by rewrite fmap_cons, zsum_cons, Hf, IH. }
  split; cbn [kiosks buyers worker buyers_done done_locked].
  - by rewrite length_fmap.
  - intros i k Hk. rewrite list_lookup_fmap in Hk.
    destruct (gs !! i) as [g|]; simplify_eq/=. unfold inside. cbn [buyers worker]. by rewrite Hz.
  - by apply Forall_fmap.
  - apply Forall_fmap. eapply Forall_impl; [exact Hn|]. intros n Hn'. by split.
  - intros i. simpl. lia.
  - by rewrite Hz.
  - by rewrite Hz.
Qed.

(** The steps in which the worker unloads. *)
Definition unloads (a : action) (σ : shop) : Z :=
  match a, worker σ with Worker _, Unloading _ => 1 | _, _ => 0 end.

Fixpoint unload_count (acts : list action) (σ : shop) : Z :=
  match acts with
  | [] => 0
  | a :: acts' => unloads a σ + match step a σ with Some σ' => unload_count acts' σ' | None => 0 end
  end.

Lemma balance_set σ i k k' b x x' :
  kiosks σ !! i = Some k -> buyers σ !! b = Some x ->
  balance (set_kiosk i k' (set_buyer b x' σ)) = balance σ + (goods k' - goods k) - (need x' - need x).
Proof.
  intros Hk Hx. unfold balance, set_kiosk, set_buyer. cbn [kiosks buyers].
  rewrite (zsum_insert _ _ _ _ _ Hk), (zsum_insert _ _ _ _ _ Hx). lia.
Qed.

Lemma balance_done σ n l : balance (set_done n l σ) = balance σ.
Proof. done. Qed.

Lemma balance_buyer σ b x x' :
  buyers σ !! b = Some x -> need x' = need x -> balance (set_buyer b x' σ) = balance σ.
Proof.
  intros Hx Hn. unfold balance, set_buyer. cbn [kiosks buyers]. rewrite (zsum_insert _ _ _ _ _ Hx). lia.
Qed.

Lemma balance_set_kiosk σ i k k' w :
  kiosks σ !! i = Some k -> balance (set_kiosk i k' (set_worker w σ)) = balance σ + (goods k' - goods k).
Proof.
  intros Hk. unfold balance, set_kiosk, set_worker. cbn [kiosks buyers].
  rewrite (zsum_insert _ _ _ _ _ Hk). lia.
Qed.

Lemma step_balance a σ σ' : step a σ = Some σ' -> balance σ' = balance σ + 200 * unloads a σ.
Proof.
  destruct a as [b|r]; cbn [step].
  - destruct (buyers σ !! b) as [x|] eqn:Hx; [|done]. cbn [mbind option_bind]. unfold buyer_step, unloads.
    destruct (bpos x) as [|i|i| | | |]; try done.
    + intros [= <-]. rewrite ?balance_done, (balance_buyer σ b x) by done. lia.
    + destruct (kiosks σ !! i) as [k|] eqn:Hk; [destruct (locked k)|]; intros [= <-];
        [rewrite (balance_buyer σ b x) by done
        |rewrite (balance_set _ _ k _ _ x) by done; cbn [goods need]
        |rewrite (balance_buyer σ b x) by done]; lia.
    + destruct (kiosks σ !! i) as [k|] eqn:Hk; [|done]. cbn [mbind option_bind].
      case_match; intros [= <-]; rewrite (balance_set _ _ k _ _ x) by done; cbn [goods need]; lia.
    + intros [= <-]. rewrite ?balance_done, (balance_buyer σ b x) by done. lia.
    + destruct (done_locked σ); [done|]. intros [= <-].
      rewrite ?balance_done, (balance_buyer σ b x) by done. lia.
    + intros [= <-]. rewrite ?balance_done, (balance_buyer σ b x) by done. lia.
  - unfold worker_step, unloads. destruct (worker σ) as [|i|i| | |]; try done.
    + destruct (kiosks σ !! _) as [k|] eqn:Hk; [|done]. cbn [mbind option_bind].
      destruct (locked k); intros [= <-]; [unfold balance; simpl; lia|].
      rewrite (balance_set_kiosk _ _ k) by done. cbn [goods]. lia.
    + destruct (kiosks σ !! i) as [k|] eqn:Hk; [|done]. cbn [mbind option_bind].
      unfold int_op. destruct (in_int _); [|done]. intros [= <-].
      rewrite (balance_set_kiosk _ _ k) by done. cbn [goods]. lia.
    + destruct (kiosks σ !! i) as [k|] eqn:Hk; [|done]. intros [= <-].
      rewrite (balance_set_kiosk _ _ k) by done. cbn [goods]. lia.
    + destruct (done_locked σ); [done|]. intros [= <-]. unfold balance. simpl. lia.
    + intros [= <-]. unfold balance. simpl. lia.
Qed.

Lemma run_balance acts σ σ' : run acts σ = Some σ' -> balance σ' = balance σ + 200 * unload_count acts σ.
Proof.
  revert σ. induction acts as [|a acts IH]; intros σ; cbn [run unload_count]; [intros [= <-]; lia|].
  destruct (step a σ) as [σ1|] eqn:E; [|done]. cbn [mbind option_bind]. intros H.
  rewrite (IH σ1 H), (step_balance a σ σ1 E). lia.
Qed.

(** ** Lemmas: the shop can always close *)

Definition reach (σ σ' : shop) : Prop := exists acts, run acts σ = Some σ'.

Lemma run_app acts acts' σ : run (acts ++ acts') σ = run acts σ ≫= run acts'.
Proof.
  revert σ. induction acts as [|a acts IH]; intros σ; [done|]. cbn [app run].
  destruct (step a σ) as [σ1|]; [apply IH | done].
Qed.

Lemma reach_refl σ : reach σ σ.
Proof. by exists []. Qed.

Lemma reach_trans σ σ1 σ2 : reach σ σ1 -> reach σ1 σ2 -> reach σ σ2.
Proof. intros [a Ha] [b Hb]. exists (a ++ b). by rewrite run_app, Ha. Qed.

Lemma reach_step a σ σ1 σ2 : step a σ = Some σ1 -> reach σ1 σ2 -> reach σ σ2.
Proof. intros Ha [b Hb]. exists (a :: b). cbn [run]. by rewrite Ha. Qed.

Lemma reach_ok σ σ' : shop_ok σ -> reach σ σ' -> shop_ok σ'.
Proof. intros Hok [acts H]. by eapply run_ok. Qed.

(** A buyer outside every kiosk and without the mutex. *)
Definition outside (x : buyer) : Prop :=
  match bpos x with Shopping _ | Counting => False | _ => True end.
Definition is_gone (x : buyer) : Prop := bpos x = Gone.

(** The worker is between two rounds. *)
Definition worker_idle (σ : shop) : Prop := worker σ = Top \/ worker σ = Break.

(** A buyer in a kiosk buys and leaves. *)
Lemma buyer_leaves n b x i k σ :
  Z.to_nat (need x) = n -> 0 <= need x -> buyers σ !! b = Some x -> bpos x = Shopping i ->
  kiosks σ !! i = Some k ->
  exists x' g', reach σ (set_kiosk i (mkKiosk g' false) (set_buyer b x' σ)) /\
    outside x' /\ (bpos x' = Resting \/ bpos x' = Checking) /\ 0 <= need x' <= need x /\
    (0 < goods k -> 0 < need x -> need x' < need x).
Proof.
  revert x k σ. induction n as [|n IH]; intros x k σ Hn H0 Hx Hp Hk.
  - exists (mkBuyer (need x) Checking), (goods k). split_and!; try done; try lia; [|by right].
    eapply (reach_step (Buyer b)); [|apply reach_refl]. cbn [step]. rewrite Hx. cbn [mbind option_bind].
    unfold buyer_step. rewrite Hp, Hk. cbn [mbind option_bind]. assert ((need x >? 0) = false) as -> by lia.
    by rewrite andb_false_r.
  - destruct ((goods k >? 0) && (need x >? 0)) eqn:E.
    + set (σ1 := set_kiosk i (mkKiosk (goods k - 1) (locked k)) (set_buyer b (mkBuyer (need x - 1) (Shopping i)) σ)).
      destruct (IH (mkBuyer (need x - 1) (Shopping i)) (mkKiosk (goods k - 1) (locked k)) σ1)
        as (x' & g' & Hr & Ho & Hpos & Hnd & _); [simpl; lia | simpl; lia | | done | |].
      { unfold σ1. simpl. apply list_lookup_insert_eq. by eapply lookup_lt_Some. }
      { unfold σ1. simpl. apply list_lookup_insert_eq. by eapply lookup_lt_Some. }
      cbn [need] in Hnd. exists x', g'. split_and!; try done; try lia.
      eapply (reach_step (Buyer b) _ σ1).
      { cbn [step]. rewrite Hx. cbn [mbind option_bind]. unfold buyer_step. rewrite Hp, Hk. cbn [mbind option_bind].
        by rewrite E. }
      unfold σ1, set_kiosk, set_buyer in Hr |- *. cbn [kiosks buyers worker buyers_done done_locked] in *.
      by rewrite !list_insert_insert_eq in Hr.
    + exists (mkBuyer (need x) (if need x >? 0 then Resting else Checking)), (goods k).
      split_and!; try done; try lia; [| by destruct (need x >? 0) | by destruct (need x >? 0); [left|right]].
      eapply (reach_step (Buyer b)); [|apply reach_refl]. cbn [step]. rewrite Hx. cbn [mbind option_bind].
      unfold buyer_step. rewrite Hp, Hk. cbn [mbind option_bind]. by rewrite E.
Qed.

(** What holds of every buyer after each has been taken care of. *)
Lemma for_each_buyer (I : shop -> Prop) (Q : buyer -> Prop) :
  (forall σ b x, I σ -> buyers σ !! b = Some x ->
     exists σ' x', reach σ σ' /\ I σ' /\ buyers σ' = <[b := x']> (buyers σ) /\ Q x') ->
  forall σ, I σ -> exists σ', reach σ σ' /\ I σ' /\ length (buyers σ') = length (buyers σ) /\ Forall Q (buyers σ').
Proof.
  intros Hone σ HI.
  assert (forall n, (n <= length (buyers σ))%nat ->
    exists σ', reach σ σ' /\ I σ' /\ length (buyers σ') = length (buyers σ) /\
      forall b x, (b < n)%nat -> buyers σ' !! b = Some x -> Q x) as H.
  { induction n as [|n IH]; intros Hn.
    - exists σ. split_and!; [apply reach_refl | done | done | intros; lia].
    - destruct IH as (σ1 & Hr & HI1 & Hl & HQ); [lia|].
      destruct (lookup_lt_is_Some_2 (buyers σ1) n) as [x Hx]; [lia|].
      destruct (Hone σ1 n x HI1 Hx) as (σ2 & x' & Hr2 & HI2 & Hb & HQx). exists σ2.
      split_and!; [by eapply reach_trans | done | by rewrite Hb, length_insert |].
      intros b y Hlt Hy. rewrite Hb in Hy. apply list_lookup_insert_Some in Hy as [(_ & <- & _)|[Hne Hy]]; [done|].
      apply (HQ b y); [lia | done]. }
  destruct (H (length (buyers σ)) ltac:(lia)) as (σ' & Hr & HI' & Hl & HQ). exists σ'. split_and!; try done.
  apply Forall_lookup. intros b x Hx. apply (HQ b x); [|done]. rewrite <- Hl. by eapply lookup_lt_Some.
Qed.

(** Every buyer that is in a kiosk or holds the mutex gets out. *)
Lemma buyers_get_out σ :
  shop_ok σ /\ worker_idle σ ->
  exists σ', reach σ σ' /\ (shop_ok σ' /\ worker_idle σ') /\ length (buyers σ') = length (buyers σ) /\
    Forall outside (buyers σ').
Proof.
  apply (for_each_buyer (fun σ => shop_ok σ /\ worker_idle σ)). clear σ. intros σ b x [Hok Hw] Hx.
  pose proof (Forall_lookup_1 _ _ _ _ (so_buyers _ Hok) Hx) as [Hn Hpos].
  assert (outside x -> exists σ' x', reach σ σ' /\ (shop_ok σ' /\ worker_idle σ') /\
    buyers σ' = <[b := x']> (buyers σ) /\ outside x') as Hstay.
  { intros Ho. exists σ, x. split_and!; [apply reach_refl | done | done | by rewrite list_insert_id | done]. }
  unfold outside in Hstay. destruct (bpos x) as [|i|i| | | |] eqn:Hp; try (by apply Hstay).
  - destruct (kiosk_exists σ i Hok Hpos) as [k Hk].
    destruct (buyer_leaves _ b x i k σ eq_refl Hn Hx Hp Hk) as (x' & g' & Hr & Ho & _).
    eexists _, x'. split_and!; [exact Hr | by eapply reach_ok | done | done | done].
  - assert (step (Buyer b) σ = Some (set_done (buyers_done σ + 1) false (set_buyer b (mkBuyer (need x) Gone) σ))) as Hst.
    { cbn [step]. rewrite Hx. cbn [mbind option_bind]. unfold buyer_step. by rewrite Hp. }
    eexists _, (mkBuyer (need x) Gone).
    split_and!; [by eapply reach_step, reach_refl | by eapply step_ok | done | done | done].
Qed.

(** Nobody is in a kiosk or holds the mutex. *)
Record calm (σ : shop) : Prop := {
  ca_ok : shop_ok σ;
  ca_worker : worker_idle σ;
  ca_outside : Forall outside (buyers σ);
  ca_buyers : length (buyers σ) = BUYERS
}.

Lemma calm_unlocked σ : calm σ ->
  (forall i k, kiosks σ !! i = Some k -> locked k = false) /\ done_locked σ = false.
Proof.
  intros [Hok Hw Ho _].
  assert (forall f, (forall x, outside x -> f x = 0) -> zsum f (buyers σ) = 0) as Hz.
  { intros f Hf. apply zsum_zero. eapply Forall_impl; [exact Ho | exact Hf]. }
  split.
  - intros i k Hk. pose proof (so_inside _ Hok i k Hk) as H. unfold inside in H.
    rewrite Hz in H by (intros x; unfold outside, in_kiosk; by case_match).
    destruct Hw as [Hw|Hw]; rewrite Hw in H; simpl in H; by destruct (locked k).
  - pose proof (so_lock _ Hok) as H. rewrite Hz in H by (intros x; unfold outside, counting; by case_match).
    destruct Hw as [Hw|Hw]; rewrite Hw in H; simpl in H; by destruct (done_locked σ).
Qed.

Lemma calm_after σ σ' b x' :
  calm σ -> reach σ σ' -> worker σ' = worker σ -> buyers σ' = <[b := x']> (buyers σ) -> outside x' -> calm σ'.
Proof.
  intros [Hok Hw Ho Hl] Hr Hw' Hb Hx. split.
  - by eapply reach_ok.
  - unfold worker_idle. by rewrite Hw'.
  - rewrite Hb. by apply Forall_insert.
  - by rewrite Hb, length_insert.
Qed.

(** A step of the worker to a given state. *)
Ltac worker_does := eapply (reach_step (Worker 0));
  [cbn [step]; unfold worker_step; cbn [worker kiosks buyers buyers_done done_locked set_kiosk set_worker set_done];
   try rewrite list_lookup_insert_eq by (rewrite ?length_insert; by eapply lookup_lt_Some); cbn [mbind option_bind goods locked] |].

(** The worker comes to the first kiosk. *)
Lemma worker_fills σ k :
  calm σ -> kiosks σ !! 0%nat = Some k -> goods k = 0 -> buyers_done σ <> Z.of_nat BUYERS ->
  exists σ' k', reach σ σ' /\ calm σ' /\ buyers σ' = buyers σ /\ kiosks σ' !! 0%nat = Some k' /\ goods k' = 200.
Proof.
  intros Hc Hk Hg Hd. destruct (calm_unlocked σ Hc) as [Hun Hul]. pose proof (Hun _ _ Hk) as Hlk.
  assert (forall τ, kiosks τ = kiosks σ -> worker τ = Top ->
    reach τ (mkShop (<[0%nat := mkKiosk 200 false]> (kiosks σ)) (buyers τ) Break (buyers_done τ) (done_locked τ))) as Htop.
  { intros [ks bs w n l] Hks Hw. cbn [kiosks worker] in *. subst ks w.
    worker_does. { change (0 mod KIOSKS)%nat with 0%nat. rewrite Hk. cbn [mbind option_bind]. by rewrite Hlk. }
    worker_does. { by rewrite Hg. }
    worker_does. { done. }
    unfold set_kiosk, set_worker. cbn [kiosks buyers buyers_done done_locked]. rewrite !list_insert_insert_eq.
    apply reach_refl. }
  assert (exists τ, reach σ τ /\ kiosks τ = kiosks σ /\ worker τ = Top /\ buyers τ = buyers σ) as (τ & Hr & Hks & Hw & Hb).
  { destruct (ca_worker _ Hc) as [Hw|Hw]; [exists σ; split; [apply reach_refl | done]|].
    eexists. split_and!.
    - eapply (reach_step (Worker 0)). { cbn [step]. unfold worker_step. by rewrite Hw, Hul. }
      worker_does; [done | apply reach_refl].
    - done.
    - cbn. by rewrite (proj2 (Z.eqb_neq _ _)) by done.
    - done. }
  eexists _, (mkKiosk 200 false). pose proof (reach_trans _ _ _ Hr (Htop τ Hks Hw)) as Hr2.
  split_and!; [exact Hr2 | | done | by apply list_lookup_insert_eq; eapply lookup_lt_Some | done].
  destruct Hc as [Hok _ Ho Hl]. split; [by eapply reach_ok | by right | |]; cbn [buyers]; by rewrite Hb.
Qed.

(** A step of buyer [b]. *)
Lemma buyer_does b x σ σ' : buyers σ !! b = Some x -> buyer_step b x σ = Some σ' -> reach σ σ'.
Proof. intros Hx Hs. eapply (reach_step (Buyer b)); [|apply reach_refl]. cbn [step]. by rewrite Hx. Qed.

(** A buyer outside the kiosks comes to the test of its loop, or is past it. *)
Lemma to_checking σ b x :
  calm σ -> buyers σ !! b = Some x -> bpos x <> Closing -> bpos x <> Gone ->
  exists σ' n, reach σ σ' /\ calm σ' /\ buyers σ' = <[b := mkBuyer n Checking]> (buyers σ) /\ 0 <= n <= need x /\
    (forall k, bpos x = Trying 0 -> kiosks σ !! 0%nat = Some k -> 0 < goods k -> 0 < need x -> n < need x).
Proof.
  intros Hc Hx Hp1 Hp2. destruct (calm_unlocked σ Hc) as [Hun _].
  pose proof (Forall_lookup_1 _ _ _ _ (ca_outside _ Hc) Hx) as Ho.
  pose proof (Forall_lookup_1 _ _ _ _ (so_buyers _ (ca_ok _ Hc)) Hx) as [Hn _].
  pose proof (lookup_lt_Some _ _ _ Hx) as Hlt.
  (* from Resting on *)
  assert (forall τ y, reach σ τ -> worker τ = worker σ -> buyers τ = <[b := y]> (buyers σ) ->
    bpos y = Resting \/ bpos y = Checking -> 0 <= need y ->
    exists σ' , reach σ σ' /\ calm σ' /\ buyers σ' = <[b := mkBuyer (need y) Checking]> (buyers σ)) as Hrest.
  { intros τ y Hr Hw Hb Hy Hny. destruct Hy as [Hy|Hy].
    - exists (set_buyer b (mkBuyer (need y) Checking) τ).
      assert (reach σ (set_buyer b (mkBuyer (need y) Checking) τ)) as Hr2.
      { eapply reach_trans; [exact Hr|]. eapply (buyer_does b y); [rewrite Hb; by apply list_lookup_insert_eq|].
        unfold buyer_step. by rewrite Hy. }
      assert (buyers (set_buyer b (mkBuyer (need y) Checking) τ) = <[b:=mkBuyer (need y) Checking]> (buyers σ)) as Hb2
        by (simpl; by rewrite Hb, list_insert_insert_eq).
      split_and!; [done | by eapply calm_after | done].
    - exists τ. assert (y = mkBuyer (need y) Checking) as <- by (destruct y; simpl in *; by subst).
      split_and!; [done | by eapply calm_after; [| | | |unfold outside; rewrite Hy] | done]. }
  unfold outside in Ho. destruct (bpos x) as [|i|i| | | |] eqn:Hp; try done.
  - destruct (Hrest σ x) as (σ' & H1 & H2 & H3); [apply reach_refl | done | by rewrite list_insert_id | by right | done |].
    exists σ', (need x). split_and!; try done; lia.
  - destruct (kiosks σ !! i) as [k|] eqn:Hk.
    + pose proof (Hun _ _ Hk) as Hlk.
      set (σ1 := set_kiosk i (mkKiosk (goods k) true) (set_buyer b (mkBuyer (need x) (Shopping i)) σ)).
      assert (reach σ σ1) as Hr1.
      { eapply (buyer_does b x); [done|]. unfold buyer_step. by rewrite Hp, Hk, Hlk. }
      destruct (buyer_leaves _ b (mkBuyer (need x) (Shopping i)) i (mkKiosk (goods k) true) σ1 eq_refl)
        as (x' & g' & Hr2 & Ho' & Hpos & Hnd & Hlt'); [done | | done | |].
      { unfold σ1. simpl. by apply list_lookup_insert_eq. }
      { unfold σ1. simpl. apply list_lookup_insert_eq. by eapply lookup_lt_Some. }
      cbn [need goods] in *.
      destruct (Hrest (set_kiosk i (mkKiosk g' false) (set_buyer b x' σ1)) x') as (σ' & H1 & H2 & H3);
        [by eapply reach_trans | done | simpl; by rewrite list_insert_insert_eq | done | lia |].
      exists σ', (need x'). split_and!; try done; try lia.
      intros k0 [= ->] Hk0 Hg Hne. rewrite Hk in Hk0. injection Hk0 as <-. by apply Hlt'.
    + destruct (Hrest (set_buyer b (mkBuyer (need x) Resting) σ) (mkBuyer (need x) Resting))
        as (σ' & H1 & H2 & H3); [|done|done|by left|done|].
      { eapply (buyer_does b x); [done|]. unfold buyer_step. by rewrite Hp, Hk. }
      exists σ', (need x). split_and!; try done; try lia. intros k0 [= ->] Hk0. congruence.
  - destruct (Hrest σ x) as (σ' & H1 & H2 & H3); [apply reach_refl | done | by rewrite list_insert_id | by left | done |].
    exists σ', (need x). split_and!; try done; lia.
Qed.

Lemma gone_bound l : zsum gone l <= Z.of_nat (length l).
Proof.
  induction l as [|x l IH]; [done|]. rewrite zsum_cons. cbn [length]. unfold gone at 1. case_match; lia.
Qed.

(** While a buyer is not gone the count is not full. *)
Lemma not_all_done σ b x : calm σ -> buyers σ !! b = Some x -> bpos x <> Gone -> buyers_done σ <> Z.of_nat BUYERS.
Proof.
  intros [Hok _ _ Hl] Hx Hp. pose proof (gone_bound (<[b := mkBuyer 0 Gone]> (buyers σ))) as H.
  rewrite (zsum_insert _ _ _ _ _ Hx), length_insert, Hl in H. rewrite (so_done _ Hok).
  assert (gone x = 0) by (unfold gone; by case_match). change (gone (mkBuyer 0 Gone)) with 1 in H. lia.
Qed.

(** The last steps of a buyer. *)
Lemma closing_goes σ b x :
  calm σ -> buyers σ !! b = Some x -> bpos x = Closing ->
  exists σ' x', reach σ σ' /\ calm σ' /\ buyers σ' = <[b := x']> (buyers σ) /\ is_gone x'.
Proof.
  intros Hc Hx Hp. destruct (calm_unlocked σ Hc) as [_ Hl]. pose proof (lookup_lt_Some _ _ _ Hx) as Hlt.
  set (σ1 := set_done (buyers_done σ) true (set_buyer b (mkBuyer (need x) Counting) σ)).
  set (σ2 := set_done (buyers_done σ1 + 1) false (set_buyer b (mkBuyer (need x) Gone) σ1)).
  assert (reach σ σ2) as Hr.
  { apply (reach_trans _ σ1).
    - apply (buyer_does b x); [done|]. unfold buyer_step. by rewrite Hp, Hl.
    - apply (buyer_does b (mkBuyer (need x) Counting)); [|done]. unfold σ1. simpl. by apply list_lookup_insert_eq. }
  assert (buyers σ2 = <[b := mkBuyer (need x) Gone]> (buyers σ)) as Hb
    by (unfold σ2, σ1; simpl; by rewrite list_insert_insert_eq).
  exists σ2, (mkBuyer (need x) Gone). split_and!; [done | by eapply calm_after | done | done].
Qed.

(** At the test of its loop with goods in the first kiosk, a buyer that needs some gets some. *)
Lemma buys_some σ b x k :
  calm σ -> buyers σ !! b = Some x -> bpos x = Checking -> 0 < need x ->
  kiosks σ !! 0%nat = Some k -> 0 < goods k ->
  exists σ' n, reach σ σ' /\ calm σ' /\ buyers σ' = <[b := mkBuyer n Checking]> (buyers σ) /\ 0 <= n < need x.
Proof.
  intros Hc Hx Hp Hn Hk Hg. pose proof (lookup_lt_Some _ _ _ Hx) as Hlt.
  set (σ1 := set_buyer b (mkBuyer (need x) (Trying 0)) σ).
  assert (reach σ σ1) as Hr.
  { apply (buyer_does b x); [done|]. unfold buyer_step. rewrite Hp. by rewrite (proj2 (Z.gtb_lt _ _)) by lia. }
  assert (calm σ1) as Hc1 by by eapply calm_after.
  assert (buyers σ1 !! b = Some (mkBuyer (need x) (Trying 0))) as Hx1 by by apply list_lookup_insert_eq.
  destruct (to_checking σ1 b _ Hc1 Hx1) as (σ2 & n & Hr2 & Hc2 & Hb2 & Hn2 & Hlt2); [done | done |].
  exists σ2, n. cbn [need bpos] in *. split_and!; [by eapply reach_trans | done | | lia |].
  - rewrite Hb2. unfold σ1. simpl. by rewrite list_insert_insert_eq.
  - by apply (Hlt2 k).
Qed.

(** A buyer at the test of its loop gets all it needs and goes. *)
Lemma checking_goes n σ b x :
  (Z.to_nat (need x) <= n)%nat -> calm σ -> buyers σ !! b = Some x -> bpos x = Checking ->
  exists σ' x', reach σ σ' /\ calm σ' /\ buyers σ' = <[b := x']> (buyers σ) /\ is_gone x'.
Proof.
  revert σ x. induction n as [|n IH]; intros σ x Hn Hc Hx Hp;
    pose proof (Forall_lookup_1 _ _ _ _ (so_buyers _ (ca_ok _ Hc)) Hx) as [H0 _];
    pose proof (lookup_lt_Some _ _ _ Hx) as Hlt.
  all: assert (need x = 0 -> exists σ' x', reach σ σ' /\ calm σ' /\ buyers σ' = <[b := x']> (buyers σ) /\ is_gone x')
    as Hdone by (intros Hz;
      destruct (closing_goes (set_buyer b (mkBuyer (need x) Closing) σ) b (mkBuyer (need x) Closing))
        as (σ' & x' & Hr & Hc' & Hb & Hg);
        [ eapply calm_after; [exact Hc | | done | done | done]
        | by apply list_lookup_insert_eq | done |
          exists σ', x'; split_and!; [eapply reach_trans; [|exact Hr] | done
            | rewrite Hb; simpl; by rewrite list_insert_insert_eq | done]];
        (apply (buyer_does b x); [done|]; unfold buyer_step; rewrite Hp, Hz; done)).
  - apply Hdone. lia.
  - destruct (decide (need x = 0)) as [Hz|Hz]; [by apply Hdone|].
    destruct (kiosk_exists σ 0 (ca_ok _ Hc)) as [k Hk]; [unfold KIOSKS; lia|].
    assert (exists τ k', reach σ τ /\ calm τ /\ buyers τ = buyers σ /\ kiosks τ !! 0%nat = Some k' /\ 0 < goods k')
      as (τ & k' & Hr & Hcτ & Hb & Hk' & Hg).
    { pose proof (Forall_lookup_1 _ _ _ _ (so_goods _ (ca_ok _ Hc)) Hk) as Hgk. cbn beta in Hgk.
      destruct (decide (goods k = 0)) as [Hz0|Hz0].
      - destruct (worker_fills σ k Hc Hk Hz0) as (τ & k' & H1 & H2 & H3 & H4 & H5);
          [by eapply not_all_done; [| |rewrite Hp] | exists τ, k'; split_and!; (done || lia)].
      - exists σ, k. split_and!; [apply reach_refl | done | done | done | lia]. }
    rewrite <- Hb in Hx. destruct (buys_some τ b x k' Hcτ Hx Hp) as (σ2 & m & Hr2 & Hc2 & Hb2 & Hm); [lia | done | done |].
    destruct (IH σ2 (mkBuyer m Checking)) as (σ3 & x3 & Hr3 & Hc3 & Hb3 & Hg3);
      [simpl; lia | done | rewrite Hb2; apply list_lookup_insert_eq; by rewrite Hb | done |].
    exists σ3, x3. split_and!; [by eapply reach_trans; [|eapply reach_trans] | done | | done].
    by rewrite Hb3, Hb2, Hb, list_insert_insert_eq.
Qed.

(** From a calm shop everybody gets what they need. *)
Lemma calm_closes σ :
  calm σ -> exists σ', reach σ σ' /\ calm σ' /\ length (buyers σ') = length (buyers σ) /\ Forall is_gone (buyers σ').
Proof.
  apply (for_each_buyer calm). clear σ. intros σ b x Hc Hx.
  destruct (decide (bpos x = Gone)) as [Hg|Hg].
  { exists σ, x. split_and!; [apply reach_refl | done | by rewrite list_insert_id | done]. }
  destruct (decide (bpos x = Closing)) as [Hcl|Hcl]; [by eapply closing_goes|].
  destruct (to_checking σ b x Hc Hx Hcl Hg) as (σ1 & n & Hr & Hc1 & Hb1 & Hn & _).
  destruct (checking_goes (Z.to_nat n) σ1 b (mkBuyer n Checking)) as (σ2 & x2 & Hr2 & Hc2 & Hb2 & Hg2);
    [done | done | rewrite Hb1; apply list_lookup_insert_eq; by eapply lookup_lt_Some | done |].
  exists σ2, x2. split_and!; [by eapply reach_trans | done | by rewrite Hb2, Hb1, list_insert_insert_eq | done].
Qed.

Lemma done_all_gone σ : shop_ok σ -> length (buyers σ) = BUYERS -> buyers_done σ = Z.of_nat BUYERS ->
  Forall is_gone (buyers σ).
Proof.
  intros Hok <- Hd. rewrite (so_done _ Hok) in Hd. revert Hd. generalize (buyers σ). intros l.
  induction l as [|x l IH]; [by constructor|]. rewrite zsum_cons. cbn [length]. intros Hd.
  pose proof (gone_bound l). assert (gone x <= 1) by (unfold gone; case_match; lia).
  constructor; [|apply IH; lia]. assert (gone x = 1) as Hx by lia. unfold gone in Hx. unfold is_gone. by case_match.
Qed.

Lemma all_gone_count l : Forall is_gone l -> zsum gone l = Z.of_nat (length l).
Proof.
  induction 1 as [|x l Hx _ IH]; [done|]. rewrite zsum_cons, IH. cbn [length].
  assert (gone x = 1) as -> by (unfold gone; by rewrite Hx). lia.
Qed.

(** The worker leaves only when the count is full. *)
Definition left_ok (σ : shop) : Prop :=
  length (buyers σ) = BUYERS /\ (worker σ = Left -> buyers_done σ = Z.of_nat BUYERS).

Lemma left_ok_step a σ σ' : shop_ok σ -> left_ok σ -> step a σ = Some σ' -> left_ok σ'.
Proof.
  intros Hok [Hl Hleft] Hst. destruct a as [b|r]; cbn [step] in Hst.
  - destruct (buyers σ !! b) as [x|] eqn:Hx; [|done]. cbn [mbind option_bind] in Hst.
    assert (worker σ = Left -> bpos x = Gone) as Hg.
    { intros Hw. pose proof (done_all_gone σ Hok Hl (Hleft Hw)) as HF. by eapply Forall_lookup_1 in HF. }
    unfold buyer_step, mbind, option_bind in Hst. unfold left_ok.
    repeat case_match; simplify_eq/=; rewrite ?length_insert; split; try done; intros Hw; by specialize (Hg Hw).
  - unfold worker_step, mbind, option_bind, int_op in Hst. unfold left_ok.
    repeat case_match; simplify_eq/=; split; try done; intros _; bool_to_prop; done.
Qed.

Lemma left_ok_run acts σ σ' : shop_ok σ -> left_ok σ -> run acts σ = Some σ' -> left_ok σ'.
Proof.
  revert σ. induction acts as [|a acts IH]; intros σ Hok Hl; cbn [run]; [by intros [= <-]|].
  destruct (step a σ) as [σ1|] eqn:E; [|done]. cbn [mbind option_bind].
  apply IH; [by eapply step_ok | by eapply left_ok_step].
Qed.

(** The worker finishes its round, unless everybody is gone. *)
Lemma worker_rests σ :
  shop_ok σ -> left_ok σ -> buyers_done σ <> Z.of_nat BUYERS ->
  Forall (fun k => goods k <= INT_MAX - 200) (kiosks σ) ->
  exists σ', reach σ σ' /\ shop_ok σ' /\ worker_idle σ' /\ buyers σ' = buyers σ.
Proof.
  intros Hok [Hl Hleft] Hd Hg.
  assert (forall τ i k, shop_ok τ -> worker τ = Unloaded i -> kiosks τ !! i = Some k -> buyers τ = buyers σ ->
    exists σ', reach τ σ' /\ shop_ok σ' /\ worker_idle σ' /\ buyers σ' = buyers σ) as Hunl.
  { intros τ i k Hokτ Hw Hk Hb.
    assert (step (Worker 0) τ = Some (set_kiosk i (mkKiosk (goods k) false) (set_worker Break τ))) as Hst
      by (cbn [step]; unfold worker_step; by rewrite Hw, Hk).
    eexists. split_and!; [by eapply reach_step, reach_refl | by eapply step_ok | by right | done]. }
  destruct (worker σ) as [|i|i| | |] eqn:Hw.
  - exists σ. split_and!; [apply reach_refl | done | by left | done].
  - assert (i < KIOSKS)%nat as Hi by (apply (so_worker _ Hok); rewrite Hw; simpl; by rewrite bool_decide_true).
    destruct (kiosk_exists σ i Hok Hi) as [k Hk].
    pose proof (Forall_lookup_1 _ _ _ _ Hg Hk) as Hgk. pose proof (Forall_lookup_1 _ _ _ _ (so_goods _ Hok) Hk) as Hg0.
    cbn beta in *.
    set (σ1 := set_kiosk i (mkKiosk (goods k + 200) (locked k)) (set_worker (Unloaded i) σ)).
    assert (step (Worker 0) σ = Some σ1) as Hst.
    { cbn [step]. unfold worker_step. rewrite Hw, Hk. cbn [mbind option_bind].
      by rewrite int_op_in by (unfold INT_MIN, INT_MAX in *; lia). }
    destruct (Hunl σ1 i (mkKiosk (goods k + 200) (locked k))) as (σ' & Hr & H1 & H2 & H3);
      [by eapply step_ok | done | apply list_lookup_insert_eq; by eapply lookup_lt_Some | done |].
    exists σ'. split_and!; [by eapply reach_step | done | done | done].
  - assert (i < KIOSKS)%nat as Hi by (apply (so_worker _ Hok); rewrite Hw; simpl; by rewrite bool_decide_true).
    destruct (kiosk_exists σ i Hok Hi) as [k Hk]. by apply (Hunl σ i k).
  - exists σ. split_and!; [apply reach_refl | done | by right | done].
  - assert (step (Worker 0) σ = Some (set_done (buyers_done σ) false (set_worker Top σ))) as Hst.
    { cbn [step]. unfold worker_step. by rewrite Hw, (proj2 (Z.eqb_neq _ _)). }
    eexists. split_and!; [by eapply reach_step, reach_refl | by eapply step_ok | by left | done].
  - exfalso. by apply Hd, Hleft.
Qed.

(** ** Properties *)

(** C12 (invariant).  Locks and goods.  In every execution of the buyers and the worker a
    kiosk is locked exactly while one thread is in it, and never two are; no kiosk has
    less than no goods; what the buyers have taken is what was there at the start and
    what the worker unloaded, less what is left; the counter counts the buyers that are
    done; and when [main] has joined them all, the counter is full and every
    need is met. *)
Theorem shop_conserves_goods gs needs acts σ :
  length gs = KIOSKS -> Forall (fun g => 0 <= g) gs -> Forall (fun n => 0 <= n) needs ->
  run acts (init_shop gs needs) = Some σ ->
  (forall i k, kiosks σ !! i = Some k -> inside i σ = (if locked k then 1 else 0) /\ 0 <= goods k) /\
  zsum goods (kiosks σ) + (zsum id needs - zsum need (buyers σ))
    = zsum id gs + 200 * unload_count acts (init_shop gs needs) /\
  buyers_done σ = zsum gone (buyers σ) /\
  (all_gone σ = true ->
     buyers_done σ = Z.of_nat (length (buyers σ)) /\ Forall (fun x => need x = 0) (buyers σ)).
Proof.
  intros Hl Hg Hn Hrun. pose proof (run_ok _ _ _ (init_shop_ok gs needs Hl Hg Hn) Hrun) as Hok.
  pose proof (run_balance _ _ _ Hrun) as Hb. split_and!.
  - intros i k Hk. split; [by apply so_inside|]. by eapply (Forall_lookup_1 _ _ _ _ (so_goods _ Hok)) in Hk.
  - assert (balance (init_shop gs needs) = zsum id gs - zsum id needs) as Hbi.
    { unfold balance, init_shop. cbn [kiosks buyers]. f_equal; unfold zsum.
      - clear. induction gs as [|g gs IH]; csimpl; [done|]. by rewrite IH.
      - clear. induction needs as [|n needs IH]; csimpl; [done|]. by rewrite IH. }
    rewrite Hbi in Hb. unfold balance in Hb. lia.
  - apply (so_done _ Hok).
  - intros Hall. unfold all_gone in Hall.
    assert (Forall is_gone (buyers σ)) as HF.
    { apply Forall_forall. intros x Hx%list_elem_of_In. rewrite forallb_forall in Hall.
      specialize (Hall x Hx). unfold is_gone. by case_match. }
    split.
    + rewrite (so_done _ Hok). by apply all_gone_count.
    + apply Forall_lookup. intros b x Hx. pose proof (Forall_lookup_1 _ _ _ _ HF Hx) as Hgx.
      pose proof (Forall_lookup_1 _ _ _ _ (so_buyers _ Hok) Hx) as [_ Hpos]. by rewrite Hgx in Hpos.
Qed.

Lemma shop_conserves_goods_witness :
  let acts := [Buyer 0; Buyer 1; Buyer 0; Buyer 0; Buyer 1; Worker 2; Worker 0; Buyer 1; Buyer 0] in
  exists σ, run acts (init_shop [2; 3; 4; 5; 6] [1; 1; 9]) = Some σ /\
  (forall i k, kiosks σ !! i = Some k -> inside i σ = (if locked k then 1 else 0) /\ 0 <= goods k) /\
  zsum goods (kiosks σ) + (zsum id [1; 1; 9] - zsum need (buyers σ))
    = zsum id [2; 3; 4; 5; 6] + 200 * unload_count acts (init_shop [2; 3; 4; 5; 6] [1; 1; 9]) /\
  buyers_done σ = zsum gone (buyers σ) /\
  (all_gone σ = true ->
     buyers_done σ = Z.of_nat (length (buyers σ)) /\ Forall (fun x => need x = 0) (buyers σ)).
Proof.
  eexists. split; [vm_compute; reflexivity|].
  refine (shop_conserves_goods [2; 3; 4; 5; 6] [1; 1; 9]
    [Buyer 0; Buyer 1; Buyer 0; Buyer 0; Buyer 1; Worker 2; Worker 0; Buyer 1; Buyer 0] _ eq_refl _ _ _).
  - list_forall; lia.
  - list_forall; lia.
  - vm_compute. reflexivity.
Defined.

(** C20 (liveness).  The shop can always close.  Wherever an execution with three buyers has
    got to, with whatever locks taken and however much is still needed, as long as no kiosk is
    close to [INT_MAX], the threads can go on so that every buyer gets all it needs and ends,
    and the counter is full: there is no deadlock and no lost count. *)
Theorem shop_can_always_close gs needs acts σ :
  length gs = KIOSKS -> length needs = BUYERS ->
  Forall (fun g => 0 <= g) gs -> Forall (fun n => 0 <= n) needs ->
  run acts (init_shop gs needs) = Some σ -> Forall (fun k => goods k <= INT_MAX - 200) (kiosks σ) ->
  exists acts' σ', run (acts ++ acts') (init_shop gs needs) = Some σ' /\
    all_gone σ' = true /\ buyers_done σ' = Z.of_nat BUYERS /\ Forall (fun x => need x = 0) (buyers σ').
Proof.
  intros Hl Hln Hg Hn Hrun Hmax. pose proof (init_shop_ok gs needs Hl Hg Hn) as Hok0.
  pose proof (run_ok _ _ _ Hok0 Hrun) as Hok.
  assert (left_ok σ) as Hleft.
  { eapply left_ok_run; [exact Hok0 | | exact Hrun]. split; [by simpl; rewrite length_fmap | done]. }
  assert (exists σ', reach σ σ' /\ shop_ok σ' /\ length (buyers σ') = BUYERS /\ Forall is_gone (buyers σ'))
    as (σ' & [acts' Hr] & Hok' & Hl' & HF).
  { destruct (decide (buyers_done σ = Z.of_nat BUYERS)) as [Hd|Hd].
    - exists σ. split_and!; [apply reach_refl | done | apply Hleft | by apply done_all_gone; [| apply Hleft|]].
    - destruct (worker_rests σ Hok Hleft Hd Hmax) as (σ1 & Hr1 & Hok1 & Hw1 & Hb1).
      destruct (buyers_get_out σ1 (conj Hok1 Hw1)) as (σ2 & Hr2 & [Hok2 Hw2] & Hl2 & Ho2).
      assert (length (buyers σ2) = BUYERS) as Hlen by (rewrite Hl2, Hb1; apply Hleft).
      destruct (calm_closes σ2) as (σ3 & Hr3 & Hc3 & Hl3 & HF3); [by split|].
      exists σ3. split_and!; [by eapply reach_trans, reach_trans | apply Hc3 | by rewrite Hl3 | done]. }
  exists acts', σ'. rewrite run_app, Hrun. split_and!; [done | | |].
  - unfold all_gone. apply forallb_forall. intros x Hx%list_elem_of_In. rewrite Forall_forall in HF.
    by rewrite (HF x Hx).
  - rewrite (so_done _ Hok'), <- Hl'. by apply all_gone_count.
  - apply Forall_lookup. intros b x Hx. pose proof (Forall_lookup_1 _ _ _ _ HF Hx) as Hgx.
    pose proof (Forall_lookup_1 _ _ _ _ (so_buyers _ Hok') Hx) as [_ Hpos]. by rewrite Hgx in Hpos.
Qed.

(** A buyer in the first kiosk, one in the second, the worker in the third. *)
Definition demo_acts : list action := [Buyer 0; Buyer 1; Buyer 0; Buyer 0; Buyer 1; Buyer 1; Worker 2].
Definition demo_shop : shop :=
  Eval cbv in default (init_shop [] []) (run demo_acts (init_shop [2; 3; 4; 5; 6] [1; 1; 9])).

Lemma shop_can_always_close_witness :
  run demo_acts (init_shop [2; 3; 4; 5; 6] [1; 1; 9]) = Some demo_shop /\
  exists acts' σ', run (demo_acts ++ acts') (init_shop [2; 3; 4; 5; 6] [1; 1; 9]) = Some σ' /\
    all_gone σ' = true /\ buyers_done σ' = Z.of_nat BUYERS /\ Forall (fun x => need x = 0) (buyers σ').
Proof.
  split; [reflexivity|].
  refine (shop_can_always_close [2; 3; 4; 5; 6] [1; 1; 9] demo_acts demo_shop eq_refl eq_refl _ _ eq_refl _).
  - list_forall; lia.
  - list_forall; lia.
  - unfold demo_shop. cbn [kiosks]. list_forall; cbn [goods]; unfold INT_MAX; lia.
Defined.
