(* ===== verification/Reverse.v ===== *)
(** * Writing a file and printing it backwards

    [simple_file_manager/outrput_revers.c]: [writeStringToFile], [readStringFromFile],
    [readInt] and the menu.  What the system calls report is an argument; a function gives
    its status, what it prints, the file, and how many descriptors it leaves open. *)

From S2P Require Import Prelude CString.
From S2P Require Calc.

(** ** The file *)

(** What [open], the first [lseek], the [lseek] to a position and the [read] there, and
    [write] report: [wrote] is the number of bytes written, [None] an error. *)
Record sys := mkSys {
  open_ok : bool;
  size_ok : bool;
  seek_ok : nat -> bool;
  read_ok : nat -> bool;
  wrote : option nat
}.

Record outcome := mkOut {
  status : Z;
  printed : list byte;
  file : option (list byte);
  fds : Z
}.

(** A write at the start of a file replaces that many bytes: there is no [O_TRUNC]. *)
Definition overwrite (text old : list byte) : list byte := text ++ drop (length text) old.

Definition TEXT : cstr := lit "String from file" ++ [NL].

Definition writeStringToFile (s : sys) (f : option (list byte)) : outcome :=
  if negb (open_ok s) then mkOut 1 [] f 0
  else
    let old := default [] f in
    match wrote s with
    | None => mkOut 2 [] (Some old) (1 - 1)
    | Some n => mkOut 0 [] (Some (overwrite (take n TEXT) old)) (1 - 1)
    end.

(** [for (p = file_size - 1; p >= 0; --p)]: [n] bytes are left, the next is at [n - 1]; the
    status and what is printed. *)
Fixpoint read_back (s : sys) (content : list byte) (n : nat) : Z * list byte :=
  match n with
  | O => (0, [])
  | S p =>
      if negb (seek_ok s p) then (3, [])
      else match (if read_ok s p then content !! p else None) with
           | None => (4, [])
           | Some c => let '(r, out) := read_back s content p in (r, c :: out)
           end
  end.

Definition readStringFromFile (s : sys) (f : option (list byte)) : outcome :=
  match (if open_ok s then f else None) with
  | None => mkOut 1 [] f 0
  | Some content =>
      if negb (size_ok s) then mkOut 2 [] f (1 - 1)
      else
        let '(r, out) := read_back s content (length content) in
        if r =? 0 then mkOut 0 (out ++ [NL]) f (1 - 1) else mkOut r out f (1 - 1)
  end.

(** ** The menu *)

(** The number read, if any, and the rest of the input: the function is the one of the
    calculator. *)
Definition readInt (input : list byte) : option Z * list byte := Calc.ReadInt input.

Record menu := mkMenu { m_file : option (list byte); m_out : list byte; m_fds : Z }.

Definition after (m : menu) (o : outcome) : menu :=
  mkMenu (file o) (m_out m ++ printed o) (m_fds m + fds o).

(** [envs] gives what the system reports in each round. *)
Fixpoint main_loop (fuel : nat) (envs : nat -> sys) (input : list byte) (m : menu) : option menu :=
  match fuel with
  | O => None
  | S fuel' =>
      match readInt input with
      | (None, rest) => main_loop fuel' envs rest m
      | (Some choice, rest) =>
          if choice =? 0 then Some m
          else if choice =? 1 then main_loop fuel' envs rest (after m (writeStringToFile (envs fuel') (m_file m)))
          else if choice =? 2 then main_loop fuel' envs rest (after m (readStringFromFile (envs fuel') (m_file m)))
          else main_loop fuel' envs rest m
      end
  end.

(** ** Lemmas *)

(** The position at which reading stops, if it does: the highest one that fails. *)
Definition bad (s : sys) (p : nat) : bool := negb (seek_ok s p) || negb (read_ok s p).

Lemma read_back_ok s content n :
  (n <= length content)%nat -> (forall p, (p < n)%nat -> bad s p = false) ->
  read_back s content n = (0, reverse (take n content)).
Proof.
  induction n as [|n IH]; intros Hl Hok; cbn [read_back]; [done|].
  destruct (lookup_lt_is_Some_2 content n) as [c Hc]; [lia|].
  pose proof (Hok n ltac:(lia)) as Hn. unfold bad in Hn. apply orb_false_iff in Hn as [H1 H2].
  apply negb_false_iff in H1, H2. rewrite H1, H2, Hc. cbn [negb].
  rewrite IH by (intros; [lia || apply Hok; lia]). by rewrite (take_S_r _ _ c Hc), reverse_snoc.
Qed.

Lemma read_back_fails s content n p :
  (n <= length content)%nat -> (p < n)%nat -> bad s p = true ->
  (forall q, (p < q < n)%nat -> bad s q = false) ->
  read_back s content n =
    (if seek_ok s p then 4 else 3, reverse (take (n - S p) (drop (S p) content))).
Proof.
  induction n as [|n IH]; intros Hl Hp Hbad Hok; [lia|]. cbn [read_back].
  destruct (lookup_lt_is_Some_2 content n) as [c Hc]; [lia|].
  destruct (decide (p = n)) as [->|Hne].
  - rewrite Nat.sub_diag, take_0. unfold bad in Hbad. destruct (seek_ok s n); [|done]. cbn [negb orb] in *.
    apply negb_true_iff in Hbad. by rewrite Hbad.
  - pose proof (Hok n ltac:(lia)) as Hn. unfold bad in Hn. apply orb_false_iff in Hn as [H1 H2].
    apply negb_false_iff in H1, H2. rewrite H1, H2, Hc. cbn [negb].
    rewrite IH; [|lia|lia|done|intros; apply Hok; lia].
    replace (S n - S p)%nat with (S (n - S p)) by lia.
    rewrite (take_S_r (drop (S p) content) (n - S p) c); [by rewrite reverse_snoc|].
    rewrite lookup_drop. by replace (S p + (n - S p))%nat with n by lia.
Qed.

Lemma readInt_end : readInt [] = (None, []).
Proof. reflexivity. Qed.

(** ** Properties *)

(** [readStringFromFile] on every path.  It returns 1 when the file cannot be
    opened, 2 when its size is not found, 3 or 4 when going to or reading a position fails, having
    printed exactly the bytes behind that position, the last first, and 0 otherwise,
    having printed the whole file backwards and a new line; the file is not
    changed, and on every path the descriptor it opened is closed. *)
Theorem read_string_statuses s f :
  let o := readStringFromFile s f in
  file o = f /\ fds o = 0 /\
  match f with
  | None => status o = 1 /\ printed o = []
  | Some content =>
      if negb (open_ok s) then status o = 1 /\ printed o = []
      else if negb (size_ok s) then status o = 2 /\ printed o = []
      else
        ((forall p, (p < length content)%nat -> bad s p = false) ->
           status o = 0 /\ printed o = reverse content ++ [NL]) /\
        (forall p, (p < length content)%nat -> bad s p = true ->
           (forall q, (p < q < length content)%nat -> bad s q = false) ->
           status o = (if seek_ok s p then 4 else 3) /\ printed o = reverse (drop (S p) content))
  end.
Proof.
  unfold readStringFromFile. split_and!.
  1,2: destruct (if open_ok s then f else None); [|done]; destruct (negb (size_ok s)); [done|];
    destruct (read_back s _ _) as [r out]; by destruct (r =? 0).
  destruct f as [content|]; [|by destruct (open_ok s)].
  destruct (open_ok s); [|done]. cbn [negb]. destruct (size_ok s); [|done]. cbn [negb]. split.
  - intros Hok. rewrite read_back_ok by done. by rewrite firstn_all.
  - intros p Hp Hbad Hoth. rewrite (read_back_fails s content _ p) by done.
    rewrite take_ge by (rewrite length_drop; lia). by destruct (seek_ok s p).
Qed.

(** What is read after a write is the text backwards, and behind it what a longer file held
    before. *)
Lemma write_then_read s s' f :
  open_ok s = true -> open_ok s' = true -> size_ok s' = true -> (forall p, bad s' p = false) ->
  wrote s = Some (length TEXT) ->
  let o := writeStringToFile s f in
  status o = 0 /\ fds o = 0 /\
  printed (readStringFromFile s' (file o)) = reverse (drop (length TEXT) (default [] f)) ++ reverse TEXT ++ [NL].
Proof.
  intros H1 H2 H3 H4 H5. unfold writeStringToFile. rewrite H1, H5. cbn [negb status fds file]. split_and!; try done.
  unfold readStringFromFile. rewrite H2, H3. cbn [negb]. rewrite read_back_ok by done.
  cbn [Z.eqb printed]. rewrite firstn_all. unfold overwrite. rewrite reverse_app, <- app_assoc. done.
Qed.

(** At the end of the input the menu turns for ever. *)
Lemma menu_never_ends fuel envs m : main_loop fuel envs [] m = None.
Proof. revert m. induction fuel as [|fuel IH]; intros m; [done|]. cbn [main_loop]. rewrite readInt_end. apply IH. Qed.

(** Reading the byte at position 1 fails. *)
Definition demo_sys : sys := mkSys true true (fun _ => true) (fun p => negb (p =? 1)%nat) (Some 17%nat).

Lemma read_string_statuses_witness :
  status (readStringFromFile demo_sys (Some (lit "abc"))) = 4 /\
  printed (readStringFromFile demo_sys (Some (lit "abc"))) = lit "c".
Proof.
  pose proof (read_string_statuses demo_sys (Some (lit "abc"))) as (_ & _ & _ & H).
  apply (H 1%nat); [vm_compute; lia | reflexivity|]. intros q Hq.
  assert (q = 2%nat) as -> by (simpl in Hq; lia). reflexivity.
Defined.
