(* ===== verification/Menus.v ===== *)
(** * The menus of the exercises

    [main] of [basic_c/bits_operations/Task1.c], [basic_c/arrays/Task2.c] and [basic_c/pointers/Task3_1.c]: the loop that reads a choice
    with [scanf] and calls an exercise, which reads its own numbers from the same input; and
    [basic_c/memory_dump/main.c].  The loop is written for any reader of numbers, which is [scanf] on the
    bytes of the input, or takes the first number of a list. *)

From S2P Require Import Prelude CString.
From S2P Require Exercises Arrays.

(** ** Reading numbers *)

Class Reader (I : Type) := scan : I -> option Z * I.

#[export] Instance scanf_reader : Reader (list byte) := scan_d.
(** A list of numbers behind a name of its own: bytes are numbers too. *)
Record tokens := mkTokens { unread : list Z }.
#[export] Instance tokens_reader : Reader tokens :=
  fun t => match unread t with [] => (None, t) | n :: ns => (Some n, mkTokens ns) end.

Section menu.
Context {I : Type} `{!Reader I}.

(** [scanf("%d", &var)]: a variable keeps what it had when no number is there. *)
Definition read (var : option Z) (i : I) : option Z * I :=
  match scan i with (Some v, i') => (Some v, i') | (None, i') => (var, i') end.

(** An exercise: what is left of the input and what it prints; [None] when it uses a variable that was never
    written. *)
Definition action : Type := I -> option (I * list byte).

Definition prints (b : option (list byte)) : action := fun i => out ← b; Some (i, out).

(** [int n; printf(prompt); scanf("%d", &n);] and what follows. *)
Definition ask (prompt : list byte) (k : Z -> action) : action := fun i =>
  match read None i with
  | (Some n, i') => r ← k n i'; Some (r.1, prompt ++ r.2)
  | (None, _) => None
  end.

Definition line (s : cstr) : cstr := s ++ [NL].

Inductive outcome := Running (i : I) (out : list byte) | Returned (out : list byte) | Undefined (out : list byte).

Definition INVALID : list byte := line (lit "Invalid choice.").

(** [while (1) { printf(menu); scanf("%d", &choice); switch (choice) ... }] *)
Fixpoint menu_loop (fuel : nat) (menu : list byte) (entries : Z -> option action) (choice : option Z) (i : I)
    (out : list byte) : outcome :=
  match fuel with
  | O => Running i out
  | S fuel' =>
      let '(c, i1) := read choice i in
      let out1 := out ++ menu in
      match c with
      | None => Undefined out1
      | Some n =>
          if n =? 0 then Returned out1
          else match entries n with
               | None => menu_loop fuel' menu entries c i1 (out1 ++ INVALID)
               | Some act =>
                   match act i1 with
                   | None => Undefined out1
                   | Some (i2, o) => menu_loop fuel' menu entries c i2 (out1 ++ o)
                   end
               end
      end
  end.

(** *** Task1.c *)

Definition show_reply (r : Exercises.reply) : list byte :=
  match r with
  | Exercises.NotPositive => line (lit "Number is not positive.")
  | Exercises.NotNegative => line (lit "Number is not negative.")
  | Exercises.Binary s => line (lit "Binary: " ++ s)
  | Exercises.Ones s c => line (lit "Binary: " ++ s) ++ line (lit "Count of ones: " ++ dec c)
  | Exercises.Replaced n s => line (lit "Result number: " ++ dec n) ++ line (lit "Binary: " ++ s)
  end.

Definition reply (r : option Exercises.reply) : action := prints (show_reply <$> r).

Definition task1_menu : list byte :=
  [NL] ++ line (lit "Menu:") ++ line (lit "1. Print binary of positive integer") ++
  line (lit "2. Print binary of negative integer") ++ line (lit "3. Count ones in positive integer") ++
  line (lit "4. Replace third byte in positive integer") ++ line (lit "0. Exit") ++ lit "Choose: ".

(** The [%hhu] of the third byte keeps the lowest byte; it is not read when the number is negative. *)
Definition task1_entries (c : Z) : option action :=
  if c =? 1 then Some (ask (lit "Enter a positive integer: ") (fun n => reply (Exercises.printBinaryPositive n)))
  else if c =? 2 then Some (ask (lit "Enter a negative integer: ") (fun n => reply (Exercises.printBinaryNegative n)))
  else if c =? 3 then Some (ask (lit "Enter a positive integer: ") (fun n => reply (Exercises.countOnes n)))
  else if c =? 4 then
    Some (ask (lit "Enter positive integer: ") (fun n =>
      if n <? 0 then reply (Some Exercises.NotPositive)
      else ask (lit "Enter value for third byte (0–255): ") (fun b => reply (Exercises.replaceThirdByte n (u8 b)))))
  else None.

Definition task1_main (fuel : nat) (i : I) : outcome := menu_loop fuel task1_menu task1_entries None i [].

(** *** Task2.c *)

Definition N : nat := 5.

Definition row (f : Z -> cstr) (r : list Z) : list byte := mjoin ((fun x => f x ++ [SP]) <$> r) ++ [NL].
Definition rows (f : Z -> cstr) (m : list (list Z)) : list byte := mjoin (row f <$> m).

(** ["%02d"] *)
Definition dec02 (z : Z) : cstr := if (0 <=? z) && (z <? 10) then 48 :: dec z else dec z.

Definition task2_menu : list byte :=
  [NL] ++ line (lit "Menu:") ++ line (lit "1. Square matrix of N") ++ line (lit "2. Reverse array output of N") ++
  line (lit "3. Triangle matrix of N") ++ line (lit "4. Snail matrix of N") ++ line (lit "0. Exit") ++ lit "Choose: ".

Definition task2_entries (c : Z) : option action :=
  if c =? 1 then Some (prints (Some (line (lit "Simple Matrxi:") ++ rows dec (Arrays.SquareMatrixOfN N))))
  else if c =? 2 then Some (prints ((fun r => lit "Reverse array: " ++ row dec r) <$> Arrays.ReverseArrayOutput N))
  else if c =? 3 then Some (prints (Some (line (lit "Triangle Matrix:") ++ rows dec (Arrays.TriangleMatrix N))))
  else if c =? 4 then
    Some (prints (Some (line (lit "Snail Matrix filling zeroes:") ++ rows dec02 (Arrays.SnailMatrix N))))
  else None.

Definition task2_main (fuel : nat) (i : I) : outcome := menu_loop fuel task2_menu task2_entries None i [].

(** *** Task3_1.c *)

(** ["%f"] of a whole number. *)
Definition dec_f (z : Z) : cstr := dec z ++ lit ".000000".

(** Both pointers point to [y]. *)
Definition ChangedCode : list byte :=
  let x := 5 in
  let y := 6 in
  lit "x = " ++ dec_f x ++ lit ", " ++ line (lit "y = " ++ dec_f y) ++
  line (lit "Результат: " ++ dec_f (y + y)).

Definition show_third (r : Z * list Z) : list byte :=
  lit "Changed num: " ++ line (dec r.1) ++ lit "Changed bytes form: " ++ row dec r.2.

Definition task3_menu : list byte :=
  [NL] ++ line (lit "Menu:") ++ line (lit "1. Change third byte") ++ line (lit "2. Changed code") ++
  line (lit "3. Array via pointers") ++ line (lit "4. String and Substring") ++ line (lit "0. Exit") ++ lit "Choose: ".

(** The menu offers a 4 that the [switch] does not have. *)
Definition task3_entries (c : Z) : option action :=
  if c =? 1 then
    Some (ask (lit "Enter a positive integer num: ") (fun n =>
      ask (lit "Enter the new value for third byte of num: ") (fun x =>
        prints (Some (show_third (Arrays.ChangeThirdByte n x))))))
  else if c =? 2 then Some (prints (Some ChangedCode))
  else if c =? 3 then Some (prints (row dec <$> Arrays.ArrayViaPointers))
  else None.

Definition task3_main (fuel : nat) (i : I) : outcome := menu_loop fuel task3_menu task3_entries None i [].
End menu.

Arguments action I : clear implicits.
Arguments outcome I : clear implicits.

(** ** memory_dump *)

(** [gets(Pass)] into 12 bytes and the comparison: [None] when the line does not fit, or there is none and [Pass]
    was never written. *)
Definition PASS_SIZE : nat := 12.

Definition IsPassOk (input : list byte) : option Z :=
  match input with
  | [] => None
  | _ =>
      let Pass := chop_newline input in
      if (length Pass <? PASS_SIZE)%nat then Some (if bool_decide (c_str Pass = lit "test") then 1 else 0) else None
  end.

(** The status and the output. *)
Definition pass_main (input : list byte) : option (Z * list byte) :=
  let out := line (lit "Enter password:") in
  PwStatus ← IsPassOk input;
  Some (if PwStatus =? 0 then (1, out ++ line (lit "Bad password!")) else (0, out ++ line (lit "Access granted!"))).

(** ** Task3_2.c *)

Definition MAX_STR : nat := 100.
Definition MAX_SUB : nat := 10.

(** What [fgets] leaves in a buffer; [junk] is what it held. *)
Definition stored (raw junk : list byte) : list byte := raw ++ NUL :: drop (S (length raw)) junk.

(** [main]: without a line the buffers are never written. *)
Definition search_main (junk1 junk2 input : list byte) : option (list byte) :=
  r1 ← fgets MAX_STR input;
  r2 ← fgets MAX_SUB r1.2;
  ptr ← Exercises.search (stored r1.1 junk1) (stored r2.1 junk2);
  Some (lit "Input string: " ++ lit "Input substring: " ++
    line (match ptr with
          | Some s => lit "Substring is real! Pointer is returned to start of the substring: " ++ s
          | None => lit "Substring is lie :(."
          end)).

(** ** Lemmas *)

(** The numbers as they are typed, each behind a new line. *)
Definition typed (ns : list Z) : list byte := mjoin ((fun n => NL :: dec n) <$> ns).
Definition ints (ns : list Z) : Prop := Forall (fun n => INT_MIN <= n <= INT_MAX) ns.

Definition same_input (i : list byte) (t : tokens) : Prop := i = typed (unread t) /\ ints (unread t).

Lemma same_scan i t : same_input i t ->
  (scan i).1 = (scan t).1 /\ same_input (scan i).2 (scan t).2.
Proof.
  intros [-> Hi]. destruct t as [[|n ns]]; [done|]. inversion_clear Hi as [|? ? Hn Hns]. cbn [scan tokens_reader unread].
  assert (scan (typed (n :: ns)) = (Some n, typed ns)) as ->; [|done].
  apply (scan_d_dec [NL] n (typed ns)); [by repeat constructor|done|]. by destruct ns.
Qed.

Lemma same_read v i t : same_input i t -> (read v i).1 = (read v t).1 /\ same_input (read v i).2 (read v t).2.
Proof.
  intros [H1 H2]%same_scan. unfold read. destruct (scan i) as [a i'], (scan t) as [b t']. cbn in *. subst. by destruct b.
Qed.

(** Two exercises that do the same on the same input. *)
Definition same_action (a : action (list byte)) (b : action tokens) : Prop :=
  forall i t, same_input i t ->
    match a i, b t with
    | Some (i', o), Some (t', o') => same_input i' t' /\ o = o'
    | None, None => True
    | _, _ => False
    end.

Lemma same_prints o : same_action (prints o) (prints o).
Proof. intros i t H. unfold prints. by destruct o. Qed.

Lemma same_ask p k k' : (forall n, same_action (k n) (k' n)) -> same_action (ask p k) (ask p k').
Proof.
  intros Hk i t H. destruct (same_read None i t H) as [H1 H2]. unfold ask.
  destruct (read None i) as [a i'], (read None t) as [b t']. cbn in *. subst. destruct b as [n|]; [|done].
  specialize (Hk n i' t' H2). destruct (k n i') as [[i2 o]|], (k' n t') as [[t2 o2]|]; cbn; try done.
  destruct Hk as [? ->]. done.
Qed.

Definition same_entries (e : Z -> option (action (list byte))) (e' : Z -> option (action tokens)) : Prop :=
  forall n, match e n, e' n with Some a, Some b => same_action a b | None, None => True | _, _ => False end.

Definition same_outcome (a : outcome (list byte)) (b : outcome tokens) : Prop :=
  match a, b with
  | Running i o, Running t o' => same_input i t /\ o = o'
  | Returned o, Returned o' | Undefined o, Undefined o' => o = o'
  | _, _ => False
  end.

Lemma same_menu fuel menu e e' : same_entries e e' -> forall c i t out, same_input i t ->
  same_outcome (menu_loop fuel menu e c i out) (menu_loop fuel menu e' c t out).
Proof.
  intros He. induction fuel as [|fuel IH]; intros c i t out H; cbn [menu_loop]; [done|].
  destruct (same_read c i t H) as [H1 H2]. destruct (read c i) as [a i'], (read c t) as [b t']. cbn in H1, H2. subst.
  destruct b as [n|]; [|done]. case_if; [done|]. specialize (He n). destruct (e n) as [act|], (e' n) as [act'|]; try done.
  - specialize (He i' t' H2). destruct (act i') as [[i2 o]|], (act' t') as [[t2 o2]|]; try done.
    destruct He as [? ->]. by apply IH.
  - by apply IH.
Qed.

Ltac same_entries_tac :=
  intros n; repeat case_if; try done;
  repeat first [apply same_prints|apply same_ask; intros ?|case_if].

Lemma same_task1 : same_entries task1_entries task1_entries.
Proof. unfold task1_entries. same_entries_tac. Qed.
Lemma same_task2 : same_entries task2_entries task2_entries.
Proof. unfold task2_entries. same_entries_tac. Qed.
Lemma same_task3 : same_entries task3_entries task3_entries.
Proof. unfold task3_entries. same_entries_tac. Qed.

(** *** The sessions of Task1.c *)

(** The binary form that is printed. *)
Definition bits (n : Z) : cstr := default [] (Exercises.printBinary n).

Lemma printBinary_bits n : Exercises.printBinary n = Some (bits n).
Proof. unfold bits. destruct (Exercises.printBinary_spec n) as (out & -> & _). done. Qed.

Inductive command := Positive (n : Z) | Negative (n : Z) | Ones (n : Z) | ThirdByte (n b : Z) | Other (c : Z).

(** The choice, and the numbers that follow it: the third byte is only asked for if the number is not negative. *)
Definition choice_of (c : command) : Z :=
  match c with Positive _ => 1 | Negative _ => 2 | Ones _ => 3 | ThirdByte _ _ => 4 | Other c => c end.
Definition args_of (c : command) : list Z :=
  match c with
  | Positive n | Negative n | Ones n => [n]
  | ThirdByte n b => if n <? 0 then [n] else [n; b]
  | Other _ => []
  end.
Definition command_numbers (c : command) : list Z := choice_of c :: args_of c.

Definition command_ok (c : command) : Prop := match c with Other c => c < 0 \/ 4 < c | _ => True end.

Definition not_positive : list byte := line (lit "Number is not positive.").
Definition shows_bits (n : Z) : list byte := line (lit "Binary: " ++ bits n).

(** What it shows. *)
Definition command_output (c : command) : list byte :=
  match c with
  | Positive n => lit "Enter a positive integer: " ++ (if n <? 0 then not_positive else shows_bits n)
  | Negative n => lit "Enter a negative integer: " ++ (if n <? 0 then shows_bits n else line (lit "Number is not negative."))
  | Ones n => lit "Enter a positive integer: " ++
      (if n <? 0 then not_positive
       else shows_bits n ++ line (lit "Count of ones: " ++ dec (Exercises.popcount 32 (u32 n))))
  | ThirdByte n b => lit "Enter positive integer: " ++
      (if n <? 0 then not_positive
       else lit "Enter value for third byte (0–255): " ++
            line (lit "Result number: " ++ dec (Exercises.third_byte n (u8 b))) ++ shows_bits (Exercises.third_byte n (u8 b)))
  | Other _ => INVALID
  end.

#[local] Opaque lit.

Lemma ask_token p (k : Z -> action tokens) n ns :
  ask p k (mkTokens (n :: ns)) = r ← k n (mkTokens ns); Some (r.1, p ++ r.2).
Proof. done. Qed.

(** One turn of a menu. *)
Lemma menu_entry fuel menu entries act choice n ns t o out :
  entries n = Some act -> n <> 0 -> act (mkTokens ns) = Some (t, o) ->
  menu_loop (S fuel) menu entries choice (mkTokens (n :: ns)) out =
    menu_loop fuel menu entries (Some n) t ((out ++ menu) ++ o).
Proof.
  intros He Hn Ha. cbn [menu_loop read scan tokens_reader unread]. by rewrite (proj2 (Z.eqb_neq n 0) Hn), He, Ha.
Qed.

Lemma menu_invalid fuel menu (entries : Z -> option (action tokens)) choice n ns out :
  entries n = None -> n <> 0 ->
  menu_loop (S fuel) menu entries choice (mkTokens (n :: ns)) out =
    menu_loop fuel menu entries (Some n) (mkTokens ns) ((out ++ menu) ++ INVALID).
Proof.
  intros He Hn. cbn [menu_loop read scan tokens_reader unread]. by rewrite (proj2 (Z.eqb_neq n 0) Hn), He.
Qed.

Lemma ones_all n : Exercises.ones_loop 33 n Exercises.TOP_MASK 0 = Some (Exercises.popcount 32 (u32 n)).
Proof. rewrite <- (Z.add_0_l (Exercises.popcount _ _)). exact (Exercises.ones_loop_spec 32 n 31 0 ltac:(lia)). Qed.

Lemma countOnes_bits n :
  Exercises.countOnes n =
    Some (if n <? 0 then Exercises.NotPositive else Exercises.Ones (bits n) (Exercises.popcount 32 (u32 n))).
Proof. unfold Exercises.countOnes. rewrite ones_all, printBinary_bits. by destruct (n <? 0). Qed.

Definition act_gives (c : command) (ns : list Z) : Prop :=
  exists act, task1_entries (choice_of c) = Some act /\
    act (mkTokens (args_of c ++ ns)) = Some (mkTokens ns, command_output c).

Lemma positive_gives n ns : act_gives (Positive n) ns.
Proof.
  eexists. split; [reflexivity|]. cbn [args_of app command_output]. rewrite ask_token.
  unfold reply, prints, Exercises.printBinaryPositive. destruct (n <? 0); [reflexivity|]. rewrite printBinary_bits. reflexivity.
Qed.

Lemma negative_gives n ns : act_gives (Negative n) ns.
Proof.
  eexists. split; [reflexivity|]. cbn [args_of app command_output]. rewrite ask_token.
  unfold reply, prints, Exercises.printBinaryNegative.
  replace (n >=? 0) with (negb (n <? 0)) by lia. destruct (n <? 0); cbn [negb]; [|reflexivity]. rewrite printBinary_bits. reflexivity.
Qed.

Lemma ones_gives n ns : act_gives (Ones n) ns.
Proof.
  eexists. split; [reflexivity|]. cbn [args_of app command_output]. rewrite ask_token.
  unfold reply, prints. rewrite countOnes_bits. by destruct (n <? 0).
Qed.

Lemma third_byte_gives n b ns : act_gives (ThirdByte n b) ns.
Proof.
  eexists. split; [reflexivity|]. cbn [args_of command_output].
  destruct (n <? 0) eqn:E; cbn [app]; rewrite ask_token, E; [reflexivity|]. rewrite ask_token.
  unfold reply, prints, Exercises.replaceThirdByte. rewrite E, printBinary_bits. reflexivity.
Qed.

Lemma task1_act c ns : (forall n, c <> Other n) -> act_gives c ns.
Proof.
  intros Hc. destruct c as [n|n|n|n b|n]; [apply positive_gives|apply negative_gives|apply ones_gives|apply third_byte_gives|].
  by destruct (Hc n).
Qed.

Lemma task1_command c ns fuel choice out :
  command_ok c ->
  menu_loop (S fuel) task1_menu task1_entries choice (mkTokens (command_numbers c ++ ns)) out =
    menu_loop fuel task1_menu task1_entries (Some (choice_of c)) (mkTokens ns) (out ++ (task1_menu ++ command_output c)).
Proof.
  intros Hc. rewrite app_assoc. unfold command_numbers. cbn [app].
  destruct c as [n|n|n|n b|n];
    try (match goal with |- context [choice_of ?c] => destruct (task1_act c ns ltac:(done)) as (act & He & Ha) end;
         by apply (menu_entry _ _ _ act)).
  apply menu_invalid; [|unfold command_ok in Hc; cbn; lia]. unfold command_ok in Hc. unfold task1_entries. cbn [choice_of].
  repeat rewrite (proj2 (Z.eqb_neq _ _)) by lia. done.
Qed.

Lemma task1_commands cs fuel choice out :
  Forall command_ok cs ->
  menu_loop (length cs + S fuel) task1_menu task1_entries choice (mkTokens (mjoin (command_numbers <$> cs) ++ [0])) out =
    Returned ((out ++ mjoin ((fun c => task1_menu ++ command_output c) <$> cs)) ++ task1_menu).
Proof.
  revert choice out. induction cs as [|c cs IH]; intros choice out Hcs.
  - cbn. by rewrite app_nil_r.
  - inversion_clear Hcs. cbn [length Nat.add]. cbn [fmap list_fmap mjoin list_join]. rewrite <- app_assoc.
    rewrite task1_command by done. rewrite IH by done. by rewrite <- (app_assoc out).
Qed.

Lemma stored_holds raw junk : NUL ∉ raw -> Exercises.holds (stored raw junk) raw.
Proof.
  intros Hn. split; [|by eexists]. apply Forall_forall. intros c Hc ->. done.
Qed.

Lemma chop_line_rest s rest : Forall (fun c => c <> NL) s -> chop_newline (s ++ NL :: rest) = s.
Proof.
  intros Hs. unfold chop_newline. rewrite take_while_app_all; [by rewrite app_nil_r|].
  eapply Forall_impl; [exact Hs|]. intros c Hc. apply negb_true_iff. by apply Z.eqb_neq.
Qed.

Lemma chop_line s : Forall (fun c => c <> NL) s -> chop_newline (s ++ [NL]) = s.
Proof. apply chop_line_rest. Qed.

(** ** Properties *)

(** For every list of [int]s, the three menus do with the bytes that a user types what they do with the
    numbers: [scanf] loses and invents nothing, whatever the exercises read in between. *)
Theorem menus_read_numbers fuel ns :
  ints ns ->
  same_outcome (task1_main fuel (typed ns)) (task1_main fuel (mkTokens ns)) /\
  same_outcome (task2_main fuel (typed ns)) (task2_main fuel (mkTokens ns)) /\
  same_outcome (task3_main fuel (typed ns)) (task3_main fuel (mkTokens ns)).
Proof.
  intros Hns. split_and!; apply same_menu; (done || apply same_task1 || apply same_task2 || apply same_task3).
Qed.

Lemma menus_read_numbers_witness :
  same_outcome (task3_main 9 (typed [1; 1000; 255; 0])) (task3_main 9 (mkTokens [1; 1000; 255; 0])).
Proof.
  refine (proj2 (proj2 (menus_read_numbers 9 [1; 1000; 255; 0] _))).
  repeat constructor; unfold INT_MIN, INT_MAX; lia.
Defined.

(** A session of the bit exercises: for any commands, typed one number behind the other and
    followed by a 0, the program shows the menu and the output of each command, in order, and returns after
    the last menu. *)
Theorem task1_session cs :
  Forall command_ok cs -> ints (mjoin (command_numbers <$> cs)) ->
  task1_main (length cs + 1) (typed (mjoin (command_numbers <$> cs) ++ [0])) =
    Returned (mjoin ((fun c => task1_menu ++ command_output c) <$> cs) ++ task1_menu).
Proof.
  intros Hcs Hi.
  assert (same_outcome (task1_main (length cs + 1) (typed (mjoin (command_numbers <$> cs) ++ [0])))
    (task1_main (length cs + 1) (mkTokens (mjoin (command_numbers <$> cs) ++ [0])))) as Hs.
  { apply same_menu; [apply same_task1|]. split; [done|]. apply Forall_app_2; [done|].
    constructor; [unfold INT_MIN, INT_MAX; lia|done]. }
  unfold task1_main in Hs at 2. rewrite (task1_commands cs 0 None []) in Hs by done.
  destruct (task1_main _ _); cbn in Hs; try done. by subst.
Qed.

Lemma task1_session_witness :
  exists out, task1_main 4 (typed [1; 10; 3; 7; 4; -5; 0]) = Returned out.
Proof.
  pose proof (task1_session [Positive 10; Ones 7; ThirdByte (-5) 0]) as H. eexists. apply H; clear H.
  - repeat constructor.
  - change (ints [1; 10; 3; 7; 4; -5]). repeat constructor; unfold INT_MIN, INT_MAX; lia.
Defined.

(** What goes wrong in all menus when the input ends, or goes on with something that is no number: before the first
    choice the program uses a variable that was never written; afterwards an exercise that needs no numbers, or an invalid
    choice, is repeated for ever, and one that asks for a number uses a variable that was never written. *)
Theorem menus_do_not_stop {I} `{!Reader I} menu (entries : Z -> option (action I)) (i : I) out :
  scan i = (None, i) ->
  (forall n, menu_loop (S n) menu entries None i out = Undefined (out ++ menu)) /\
  (forall c o n, c <> 0 -> entries c = None \/ entries c = Some (prints (Some o)) ->
     let b := match entries c with None => INVALID | Some _ => o end in
     menu_loop n menu entries (Some c) i out = Running i (out ++ mjoin (replicate n (menu ++ b)))) /\
  (forall c p k n, c <> 0 -> entries c = Some (ask p k) ->
     menu_loop (S n) menu entries (Some c) i out = Undefined (out ++ menu)).
Proof.
  intros Hi. assert (forall v, read v i = (v, i)) as Hr by (intros v; unfold read; by rewrite Hi).
  split_and!.
  - intros n. cbn [menu_loop]. by rewrite Hr.
  - intros c o n Hc He. revert out. induction n as [|n IH]; intros out; cbn [menu_loop replicate mjoin list_join];
      [by rewrite app_nil_r|].
    rewrite Hr, (proj2 (Z.eqb_neq c 0) Hc). destruct He as [He|He]; rewrite He in IH |- *; cbn [prints mbind option_bind];
      rewrite IH; by rewrite !app_assoc.
  - intros c p k n Hc He. cbn [menu_loop]. rewrite Hr, (proj2 (Z.eqb_neq c 0) Hc), He. unfold ask. by rewrite Hr.
Qed.

Lemma menus_do_not_stop_witness :
  task2_main 1 (lit "") = Undefined task2_menu /\
  menu_loop 7 task3_menu task3_entries (Some 4) (lit "x") [] = Running (lit "x") (mjoin (replicate 7 (task3_menu ++ INVALID))).
Proof.
  split.
  - exact (proj1 (menus_do_not_stop task2_menu task2_entries (lit "") [] eq_refl) 0%nat).
  - exact (proj1 (proj2 (menus_do_not_stop task3_menu task3_entries (lit "x") [] eq_refl)) 4 [] 7%nat ltac:(lia) (or_introl eq_refl)).
Defined.

(** C40 (equivalence).  [Task3_2.c] as a whole: for two lines that fit into their buffers, whatever these held, it
    prints the text from the first occurrence of the second in the first, or that there is none. *)
Theorem search_main_finds junk1 junk2 s t rest :
  Forall (fun c => c <> NL) s -> Forall (fun c => c <> NL) t -> NUL ∉ s -> NUL ∉ t ->
  (length s + 2 <= MAX_STR)%nat -> (length t + 2 <= MAX_SUB)%nat ->
  search_main junk1 junk2 (s ++ NL :: t ++ NL :: rest) =
    Some (lit "Input string: " ++ lit "Input substring: " ++
      line (match (if bool_decide (s = []) then None else (fun k => drop k s) <$> strstr s t) with
            | Some u => lit "Substring is real! Pointer is returned to start of the substring: " ++ u
            | None => lit "Substring is lie :(."
            end)).
Proof.
  intros Hs Ht Hns Hnt Hls Hlt. unfold search_main.
  rewrite fgets_line by (done || lia). cbn [mbind option_bind fst snd].
  rewrite fgets_line by (done || lia). cbn [mbind option_bind fst snd].
  rewrite (Exercises.search_is_strstr _ _ (s ++ [NL]) (t ++ [NL])) by (apply stored_holds; set_solver).
  by rewrite !chop_line by done.
Qed.

Lemma search_main_finds_witness :
  search_main (replicate 100 7) (replicate 10 7) (lit "embedded" ++ NL :: lit "bed" ++ NL :: []) =
    Some (lit "Input string: " ++ lit "Input substring: " ++
      line (lit "Substring is real! Pointer is returned to start of the substring: " ++ lit "bedded")).
Proof.
  rewrite (search_main_finds (replicate 100 7) (replicate 10 7) (lit "embedded") (lit "bed") []).
  - vm_compute. reflexivity.
  - apply (bool_decide_unpack _). vm_compute. exact I.
  - apply (bool_decide_unpack _). vm_compute. exact I.
  - apply (bool_decide_unpack _). vm_compute. exact I.
  - apply (bool_decide_unpack _). vm_compute. exact I.
  - vm_compute. lia.
  - vm_compute. lia.
Defined.

(** [memory_dump]: for a line of at most 11 bytes access is granted, with status 0, exactly for the
    password; a longer line is written behind the array. *)
Theorem password_check l rest :
  Forall (fun c => c <> NL) l -> NUL ∉ l ->
  pass_main (l ++ NL :: rest) =
    if (length l <=? 11)%nat then
      Some (if bool_decide (l = lit "test") then (0, line (lit "Enter password:") ++ line (lit "Access granted!"))
            else (1, line (lit "Enter password:") ++ line (lit "Bad password!")))
    else None.
Proof.
  intros Hl Hn. unfold pass_main, IsPassOk, PASS_SIZE.
  destruct (l ++ NL :: rest) as [|c u] eqn:E; [by destruct l|]. rewrite <- E, chop_line_rest by done.
  replace (length l <? 12)%nat with (length l <=? 11)%nat by (destruct (Nat.leb_spec (length l) 11), (Nat.ltb_spec (length l) 12); lia || done).
  destruct (length l <=? 11)%nat; [|done]. rewrite c_str_id by done. cbn [mbind option_bind].
  by case_bool_decide.
Qed.

Lemma password_check_witness :
  pass_main (lit "test" ++ NL :: []) = Some (0, line (lit "Enter password:") ++ line (lit "Access granted!")).
Proof.
  rewrite (password_check (lit "test") []).
  - vm_compute. reflexivity.
  - apply (bool_decide_unpack _). vm_compute. exact I.
  - apply (bool_decide_unpack _). vm_compute. exact I.
Defined.
